(* ===== verification/_CoqProject ===== *)
-Q . S2P
Prelude.v
Text.v
Encoding.v
Services.v
Format.v
Sim.v
Mail.v
Envelope.v
Stream.v
Model.v
Seeds.v
Scenario.v
Effects.v
Storage.v
Support.v
Gates.v
RateLimit.v
Session.v
Auth.v
Http.v
Tus.v
Transfers.v
Public.v
Page.v
Worker.v
Drain.v
Metrics.v
AdminAuth.v
AdminApi.v
Listing.v
AdminUsers.v
Schema.v
Analytics.v
Logging.v
Telegram.v
Rotation.v
Middleware.v
Invariants.v
Lifecycle.v
System.v
Delivery.v
Archive.v
Access.v
Race.v
Headers.v
App.v
Shims.v
Admission.v
Typed.v
Integrity.v
