(* ===== verification/Prelude.v ===== *)
(** Verification of Fylix, a self-hosted file-transfer service.

    Fylix is a Python backend ([src/backend]): an HTTP API, a background worker
    and a few maintenance scripts around PostgreSQL, Redis, an object store and
    an SMTP relay.  A sender announces a transfer, uploads its files with the
    tus protocol into a staging directory, the worker encrypts them under a
    fresh file key into the object store and mails the links, recipients
    download until the transfer expires, and administrators supervise.  This
    development translates that code into Rocq functions and proves what makes
    it correct.

    * How the program is modelled

    - Effects.  [Model] defines the world of a running process (committed
      tables, the session's pending tables, Redis, bucket, staging files, keys,
      mail and alert logs, the bound request id, the limiter's cache) and the
      monad [M A = World -> res A * World] every handler is written in; an
      exception is an [Err] that keeps the state reached.  [commit] publishes
      the session, [rollback] and the end of a request drop it.
    - The outside.  [Services] is a type class with the operations of code that
      is not in the repository: clock, entropy, AES key wrap and GCM, Argon2,
      TOTP, Redis commands, the bucket, GeoIP, hCaptcha, libmagic, Jinja, the
      Unicode tables, PostgreSQL's inet type.  A fault oracle decides for every
      call to Redis, the bucket, SMTP, Telegram or hCaptcha and for every commit
      whether it fails, and a second one for every operation on the disk made
      while staged files are removed, so a theorem over all [Services] covers all
      patterns of these failures.  Queries do not fail; reading and writing staged
      files fails only for a missing file or a name the file system does not take
      (a full disk, for one, is not modelled).  The text of an exception is a
      further observation ([exc_text]) of which nothing is assumed.
      [ServicesOk] gathers the documented laws
      (RFC 3394, streaming GCM, Redis, the bucket, a clock that does not go
      back); [Sim] is an instance that satisfies them, used by all witnesses
      with the deployment of [Scenario].
    - Reasoning.  [Effects] has weakest preconditions ([wp], one rule per
      primitive), footprints ([touches]: the parts of the world an operation may
      change, computed by [foot]) and invariants ([preserves]).

    * Files and the code they model

    - [Prelude], [Text], [Encoding], [Format]: Python values and the parts of
      the standard library the code uses (str, bytes, UUID, UTF-8, quoting,
      base64, dates).
    - [Envelope]: crypto/envelope.py, crypto/master_key.py and the secret
      envelopes of services/auth.py.  [Stream]: crypto/stream.py.
    - [Model]: app/models, app/config.py.  [Seeds]: the migrations that fill the
      settings table (alembic/versions 0003, 0004, 0006).  [Schema]: every
      migration as operations on a schema, the tables the models declare, and
      what a foreign key means for the rows of [Model].
    - [Storage]: services/staging.py and services/storage.py.  [Support]: audit,
      admin_actions, telegram, alerts, settings_service, app/state.py.
    - [Gates]: policy, blocklist, geoip, captcha.  [RateLimit]:
      services/rate_limit.py and middleware/rate_limit.py.  [Session], [Auth]:
      services/session.py and services/auth.py.  [Http]: utils/http.py and the
      cookies of app/http.py.  [Middleware]: CSRF and request ids.
    - [Mail]: services/email.py.  [Tus]: tus/handler.py.  [Transfers]:
      schemas/transfer.py and services/transfer.py.  [Public], [Page]:
      routers/public.py.  [Archive]: the bodies of its downloads, with the
      ZIP library as an interface.  [Worker]: worker/ and its tasks.
    - [AdminAuth], [AdminApi], [AdminUsers], [Telegram], [Rotation]:
      routers/admin.py, schemas/admin.py and the scripts.  [Analytics]:
      services/analytics.py.  [Metrics]: routers/metrics.py.  [Logging]:
      logging_config.py.
    - [App]: main.py and the error envelope of app/http.py.  [Shims]: the patches
      app/http.py applies to the framework.
    - [System]: every request, job, tick and script as one event of a transition
      system ([System.event], [System.handle], [System.step]).

    - [Race]: the encryption job and the update of an account cut between their
      reads and their writes, with other events in between.

    Handlers keep the names of the source; a handler's guards, early returns,
    commits and log entries appear in the order of the code.

    * What the theorems show

    - Uploads: tus requests on every branch ([Tus.patch_outcome]), and that pieces at successive
      offsets are staged as their concatenation ([Tus]); what a create request
      must satisfy and leaves ([Admission]); the encryption job's three outcomes
      and that a download streams the bytes that were uploaded ([Delivery]); what
      the two kinds of download give their client ([Archive]).
    - Cryptography: chunked encryption computes the one-shot definition and is
      inverted by decryption ([Stream]); key envelopes round-trip and survive a
      rotation ([Envelope]); the paged rotation rewraps every key and can be
      repeated after a failure ([Rotation]).
    - The whole system ([Invariants], [Lifecycle], [System], [Typed]): in every
      reachable state, whatever fails, transfers move only along their life
      cycle, closed ones hold no key, file rows are stable, logs only grow, an
      active administrator remains, and settings keep their types.  From the
      migrated database on, the rows satisfy every foreign key, CHECK and UNIQUE
      constraint of the schema ([Integrity]).
    - Schema: every migration runs on the schema before it and is undone by its
      downgrade, the head has the tables the models declare, and deleting an
      account does what its foreign keys say ([Schema]).
    - Interleaving: the limits of treating a job as one event ([Race]).
    - Worker: cleanup, Defender, e-mail and the dead-letter path ([Worker]);
      queued mail is delivered in order while nothing fails ([Drain]).  What the
      Defender poll must flag and what a dead letter must hold are stated apart
      from the code that does it; shredding is described by [Storage.shredding],
      which the theorems on the job and on the cleanup carry on.
    - Access: sessions, roles, login and lockout ([Access]); CSRF, request ids
      and header injection ([Headers]); the order of the middlewares and the
      life time of the keys ([App]); the token never leaves the Telegram
      endpoints ([Telegram]).
    - Presentation: the download page cannot be given markup ([Page]), the plain
      text of a mail has none ([Mail]), following cursors lists every transfer
      once ([Listing]); the report of the admin panel counts what the tables hold
      ([Analytics]), a metrics scrape never fails ([Metrics]), a log line is one
      line of JSON ([Logging]), and the framework patches give the responses the
      application relies on ([Shims]).

    * Fuel and bounds

    Loops of the code that are not structural run on fuel, and a theorem shows
    the fuel taken is enough: one more than the length of the source for the
    streams ([Stream.stream_reference]), one more than the number of rows for
    the rotation ([Rotation.rewrap_all_spec]), one page per transfer plus one
    for cursors ([Listing.transfer_pages]).  Integers are unbounded as in
    Python; the widths of columns appear where they matter (UUIDs below 2^128,
    row ids below 2^63).  A [float] is a decimal fraction ([JDec]) and its formats
    are exact rational roundings, which agree with Python below 2^53; the metrics
    take their floats as a parameter.  Sessions of PostgreSQL run in UTC.
    Requests reach the handlers parsed into the fields of their schema; where the
    code stores what pydantic made of a JSON value ([AdminSettings.coerce]), its
    conversion is a parameter.

    * Not modelled

    The HTTP framework itself, the bytes of the ZIP container, the text of the
    Jinja templates, tracing, the scheduler and process start of the worker, and
    I/O errors of the disk except where staged files are removed.  An object
    of the store is read whole by a handler; in [Archive] its connection may break
    in mid-body.  Requests interleave at the granularity of whole events, except
    in [Race]; within an encryption job the rows it read at the start are those it
    writes. *)
From Stdlib Require Import Ascii String ZArith Lia.
From stdpp Require Export base tactics list gmap sets strings pretty.
#[global] Open Scope Z_scope.

(** * Python values shared by every component *)

(** A Python [str] is the list of its code points and a Python [bytes] object
    the list of its byte values. *)
Abbreviation pystr := (list Z) (only parsing).
Abbreviation bytes := (list Z) (only parsing).

(** [uuid.UUID] (a 128-bit integer) and [datetime] in UTC (microseconds since
    the epoch). *)
Abbreviation uuid := Z (only parsing).
Abbreviation datetime := Z (only parsing).

(** An ASCII literal of the source as a [str]. *)
Definition u (s : string) : pystr :=
  (λ c, Z.of_N (N_of_ascii c)) <$> list_ascii_of_string s.

(** [str(n)] of an integer. *)
Definition str_int (n : Z) : pystr := u (pretty n).

(** JSON values: rows of the [settings] table, audit details, queue payloads
    and HTTP bodies.  [JDec m s] is the [float] printed as the decimal fraction
    m / 10^s. *)
Inductive json : Type :=
  | JNull
  | JBool (b : bool)
  | JInt (n : Z)
  | JDec (m : Z) (s : nat)
  | JStr (s : pystr)
  | JArr (l : list json)
  | JObj (l : list (pystr * json)).

(** [d.get(k)] on a JSON object. *)
Fixpoint assoc {A} (k : pystr) (l : list (pystr * A)) : option A :=
  match l with
  | [] => None
  | (k', v) :: l' => if decide (k = k') then Some v else assoc k l'
  end.

(** [d[k] = v] on a dict: an existing key keeps its place. *)
Fixpoint dict_set {A} (k : pystr) (v : A) (l : list (pystr * A)) : list (pystr * A) :=
  match l with
  | [] => [(k, v)]
  | (k', v') :: l' => if decide (k = k') then (k', v) :: l' else (k', v') :: dict_set k v l'
  end.

Definition jget (k : pystr) (j : json) : option json :=
  match j with JObj l => assoc k l | _ => None end.

(** Python truth value of a JSON value. *)
Definition jtruthy (j : json) : bool :=
  match j with
  | JNull => false
  | JBool b => b
  | JInt n | JDec n _ => negb (n =? 0)
  | JStr s => negb (Nat.eqb (length s) 0)
  | JArr l => negb (Nat.eqb (length l) 0)
  | JObj l => negb (Nat.eqb (length l) 0)
  end.

Definition ojson (o : option pystr) : json :=
  match o with None => JNull | Some s => JStr s end.

(** Python truth value of [str | None] and [bytes]. *)
Definition truthy (o : option pystr) : bool :=
  match o with Some (_ :: _) => true | _ => false end.

Definition nonempty {A} (l : list A) : bool :=
  match l with [] => false | _ :: _ => true end.

Fixpoint json_eqb (a b : json) {struct a} : bool :=
  match a, b with
  | JNull, JNull => true
  | JBool x, JBool y => Bool.eqb x y
  | JInt x, JInt y => x =? y
  | JDec x i, JDec y j => x * 10 ^ Z.of_nat j =? y * 10 ^ Z.of_nat i
  | JStr x, JStr y => bool_decide (x = y)
  | JArr x, JArr y =>
      (fix go (x y : list json) : bool :=
         match x, y with
         | [], [] => true
         | a :: x, b :: y => json_eqb a b && go x y
         | _, _ => false
         end) x y
  | JObj x, JObj y =>
      (fix go (x y : list (pystr * json)) : bool :=
         match x, y with
         | [], [] => true
         | (k, a) :: x, (k', b) :: y => bool_decide (k = k') && (json_eqb a b && go x y)
         | _, _ => false
         end) x y
  | _, _ => false
  end.

(** * Exceptions and results *)

(** The exception classes the program raises or lets through; the text of a
    message is kept only where it reaches a client. *)
Inductive exn : Type :=
  | HTTPException (status_code : Z) (detail : json)
  | TusError (status_code : Z) (detail : pystr)
  | PolicyViolation (reason : pystr) (status_code : Z)
  | EnvelopeError
  | StreamCryptoError
  | MasterKeyError
  | EncryptError
  | StorageError
  | StagingError
  | ValueError
  | RuntimeError
  | AssertionError
  | ValidationError
  | IntegrityError
  | TypeError
  | AttributeError
  | OverflowError
  | ProtocolError
  | ServiceError.

Inductive res (A : Type) : Type :=
  | Ok (a : A)
  | Err (e : exn).
Arguments Ok {_} _.
Arguments Err {_} _.

#[export] Instance res_ret : MRet res := λ A a, Ok a.
#[export] Instance res_bind : MBind res := λ A B f r,
  match r with Ok a => f a | Err e => Err e end.

Definition is_ok {A} (r : res A) : bool :=
  match r with Ok _ => true | Err _ => false end.

(** [type(exc).__name__]. *)
Definition exn_name (e : exn) : pystr :=
  match e with
  | HTTPException _ _ => u "HTTPException"
  | TusError _ _ => u "TusError"
  | PolicyViolation _ _ => u "PolicyViolation"
  | EnvelopeError => u "EnvelopeError"
  | StreamCryptoError => u "StreamCryptoError"
  | MasterKeyError => u "MasterKeyError"
  | EncryptError => u "EncryptError"
  | StorageError => u "StorageError"
  | StagingError => u "StagingError"
  | ValueError => u "ValueError"
  | RuntimeError => u "RuntimeError"
  | AssertionError => u "AssertionError"
  | ValidationError => u "ValidationError"
  | IntegrityError => u "IntegrityError"
  | TypeError => u "TypeError"
  | AttributeError => u "AttributeError"
  | OverflowError => u "OverflowError"
  | ProtocolError => u "ProtocolError"
  | ServiceError => u "ServiceError"
  end.

(** [raise HTTPException(code, detail={"error": e})]. *)
Definition http_err (code : Z) (e : string) : exn :=
  HTTPException code (JObj [(u "error", JStr (u e))]).

(** [raise HTTPException(404, "not found")]. *)
Definition http_text (code : Z) (e : string) : exn :=
  HTTPException code (JStr (u e)).

(** * Byte and list helpers *)

Definition zlen {A} (l : list A) : Z := Z.of_nat (length l).

Lemma zlen_nonneg {A} (l : list A) : 0 ≤ zlen l.
Proof. unfold zlen; lia. Qed.

Lemma zlen_app {A} (l k : list A) : zlen (l ++ k) = zlen l + zlen k.
Proof. unfold zlen; rewrite length_app; lia. Qed.

Lemma zlen_cons {A} (x : A) l : zlen (x :: l) = 1 + zlen l.
Proof. unfold zlen; simpl; lia. Qed.

Lemma zlen_nil {A} : zlen (@nil A) = 0.
Proof. done. Qed.

Lemma zlen_take {A} n (l : list A) : zlen (take n l) = Z.min (Z.of_nat n) (zlen l).
Proof. unfold zlen; rewrite length_take; lia. Qed.

Lemma zlen_drop {A} n (l : list A) : zlen (drop n l) = Z.max 0 (zlen l - Z.of_nat n).
Proof. unfold zlen; rewrite length_drop; lia. Qed.

Lemma assoc_some_elem {A} (k : pystr) (v : A) l : assoc k l = Some v → (k, v) ∈ l.
Proof.
  induction l as [|[k' v'] l IH]; simpl; [done|]. destruct (decide (k = k')) as [->|Hk].
  - intros [= ->]. by left.
  - intros H. right. auto.
Qed.

Lemma assoc_dict_set {A} (k k' : pystr) (v : A) l :
  assoc k' (dict_set k v l) = if decide (k = k') then Some v else assoc k' l.
Proof.
  induction l as [|[a b] l IH]; simpl; [by repeat case_decide|].
  destruct (decide (k = a)) as [->|]; simpl; repeat case_decide; try done; congruence.
Qed.

Lemma assoc_app {A} (k : pystr) (l l' : list (pystr * A)) :
  assoc k (l ++ l') = match assoc k l with Some v => Some v | None => assoc k l' end.
Proof. induction l as [|[a b] l IH]; [done|]. simpl. by case_decide. Qed.

Lemma assoc_none {A} (k : pystr) (l : list (pystr * A)) : assoc k l = None ↔ k ∉ l.*1.
Proof.
  induction l as [|[a b] l IH]; [split; [intros _ H; by apply elem_of_nil in H|done]|].
  rewrite fmap_cons, not_elem_of_cons. simpl. case_decide; [naive_solver|]. rewrite IH. tauto.
Qed.

Lemma dict_set_fresh {A} (k : pystr) (v : A) l : k ∉ l.*1 → dict_set k v l = l ++ [(k, v)].
Proof.
  induction l as [|[a b] l IH]; [done|]. rewrite fmap_cons, not_elem_of_cons. intros [Hne Hn].
  simpl in *. rewrite decide_False by done. by rewrite IH.
Qed.

(** Hint databases: [fylix] closes routine side conditions, [zlen] computes
    lengths of byte strings. *)
Create HintDb fylix discriminated.
Create HintDb zlen.
#[export] Hint Resolve zlen_nonneg : fylix.
#[export] Hint Rewrite @zlen_app @zlen_cons @zlen_nil @zlen_take @zlen_drop : zlen.

(** Case analysis on every match and boolean test of the goal, then
    simplification of the equations it leaves. *)
Ltac crush_match := repeat (case_match; simplify_eq/=).

(** Boolean comparisons to propositions, everywhere. *)
Ltac zbool :=
  repeat match goal with
  | H : (_ =? _) = true |- _ => apply Z.eqb_eq in H
  | H : (_ =? _) = false |- _ => apply Z.eqb_neq in H
  | H : (_ <=? _) = true |- _ => apply Z.leb_le in H
  | H : (_ <=? _) = false |- _ => apply Z.leb_gt in H
  | H : (_ <? _) = true |- _ => apply Z.ltb_lt in H
  | H : (_ <? _) = false |- _ => apply Z.ltb_ge in H
  | H : bool_decide _ = true |- _ => apply bool_decide_eq_true_1 in H
  | H : bool_decide _ = false |- _ => apply bool_decide_eq_false_1 in H
  | H : (_ && _)%bool = true |- _ => apply andb_true_iff in H; destruct H
  | H : negb _ = true |- _ => apply negb_true_iff in H
  | H : negb _ = false |- _ => apply negb_false_iff in H
  | H : (_ || _)%bool = false |- _ => apply orb_false_iff in H; destruct H
  end.

Lemma res_bind_ok {A B} (r : res A) (f : A → res B) (b : B) :
  r ≫= f = Ok b → ∃ a, r = Ok a ∧ f a = Ok b.
Proof. destruct r; simpl; [eauto | done]. Qed.

Lemma concat_app_single {A} (ls : list (list A)) (l : list A) :
  concat (ls ++ [l]) = concat ls ++ l.
Proof. rewrite concat_app; simpl; by rewrite app_nil_r. Qed.

Lemma take_drop_split {A} (n : nat) (l k : list A) :
  length l = n → take n (l ++ k) = l ∧ drop n (l ++ k) = k.
Proof. intros <-. by rewrite take_app_length, drop_app_length. Qed.

Lemma app_suffix_split {A} (n : nat) (l : list A) :
  (n ≤ length l)%nat →
  l = take (length l - n) l ++ drop (length l - n) l ∧
  length (drop (length l - n) l) = n.
Proof. intros. rewrite take_drop, length_drop. split; [done | lia]. Qed.

Lemma Forall_map_iff {A B} (f : A → B) (P : B → Prop) l :
  Forall P (map f l) ↔ Forall (λ x, P (f x)) l.
Proof. by rewrite Forall_fmap. Qed.

Lemma filter_all {A} (P : A → Prop) `{∀ x, Decision (P x)} l : Forall P l → filter P l = l.
Proof. induction 1; [done|]. rewrite filter_cons_True by done. by f_equal. Qed.

Lemma filter_none {A} (P : A → Prop) `{∀ x, Decision (P x)} l :
  Forall (λ x, ¬ P x) l → filter P l = [].
Proof. induction 1; [done|]. by rewrite filter_cons_False. Qed.
