(* ===== verification/Text.v ===== *)
(** Text primitives of Python's standard library as the program uses them:
    [str] methods, [pathlib.PurePosixPath] names and suffixes (Python 3.12),
    UTF-8, [str(UUID)] and [UUID(text)], and [urllib.parse.quote].  Case
    mapping and digit classification outside ASCII come from the Unicode
    tables, a parameter (class [Unicode]). *)
From S2P Require Import Prelude.

Class Unicode := {
  uni_lower : pystr → pystr;      (* [str.lower] of a string with non-ASCII characters *)
  uni_upper : pystr → pystr;      (* [str.upper] of such a string *)
  uni_isdigit : pystr → bool;     (* [str.isdigit] of such a string *)
  uni_isprintable : Z → bool      (* [str.isprintable] of a non-ASCII character *)
}.

(** * [str] methods *)

Definition isascii (s : pystr) : bool := forallb (λ c, (0 <=? c) && (c <? 128)) s.

Definition ascii_lower (c : Z) : Z := if (65 <=? c) && (c <=? 90) then c + 32 else c.

Definition lower `{Unicode} (s : pystr) : pystr :=
  if isascii s then ascii_lower <$> s else uni_lower s.

Definition ascii_upper (c : Z) : Z := if (97 <=? c) && (c <=? 122) then c - 32 else c.

Definition upper `{Unicode} (s : pystr) : pystr :=
  if isascii s then ascii_upper <$> s else uni_upper s.

Definition is_digit (c : Z) : bool := (48 <=? c) && (c <=? 57).

Definition isdigit `{Unicode} (s : pystr) : bool :=
  if isascii s then nonempty s && forallb is_digit s else uni_isdigit s.

(** ASCII letters and digits. *)
Definition is_alnum (c : Z) : bool :=
  is_digit c || ((65 <=? c) && (c <=? 90)) || ((97 <=? c) && (c <=? 122)).

(** Characters [str.strip()] removes. *)
Definition is_space (c : Z) : bool :=
  ((9 <=? c) && (c <=? 13)) || ((28 <=? c) && (c <=? 32)) || (c =? 133) || (c =? 160)
  || (c =? 5760) || ((8192 <=? c) && (c <=? 8202)) || (c =? 8232) || (c =? 8233)
  || (c =? 8239) || (c =? 8287) || (c =? 12288).

Fixpoint lstrip_by (p : Z → bool) (s : pystr) : pystr :=
  match s with
  | [] => []
  | c :: s' => if p c then lstrip_by p s' else s
  end.

Definition rstrip_by (p : Z → bool) (s : pystr) : pystr := rev (lstrip_by p (rev s)).

Definition strip_by (p : Z → bool) (s : pystr) : pystr := rstrip_by p (lstrip_by p s).

Definition strip (s : pystr) : pystr := strip_by is_space s.

Fixpoint startswith (s p : pystr) : bool :=
  match p, s with
  | [], _ => true
  | c :: p', d :: s' => (c =? d) && startswith s' p'
  | _ :: _, [] => false
  end.

Definition endswith (s p : pystr) : bool := startswith (rev s) (rev p).

(** [s.split(sep)] for a one-character separator. *)
Fixpoint split_on (sep : Z) (s : pystr) : list pystr :=
  match s with
  | [] => [[]]
  | c :: s' =>
      match split_on sep s' with
      | w :: ws => if c =? sep then [] :: w :: ws else (c :: w) :: ws
      | [] => [[c]]
      end
  end.

(** [s.partition(sep)] for a one-character separator: the text before the
    first separator and, when there is one, the text after it. *)
Fixpoint partition_on (sep : Z) (s : pystr) : pystr * option pystr :=
  match s with
  | [] => ([], None)
  | c :: s' =>
      if c =? sep then ([], Some s')
      else let '(a, b) := partition_on sep s' in (c :: a, b)
  end.

(** [c in s] for one character. *)
Definition has_char (c : Z) (s : pystr) : bool := existsb (Z.eqb c) s.

(** [s.rsplit(sep, 1)[1]], when [sep] occurs in [s]. *)
Definition after_last (sep : Z) (s : pystr) : pystr := List.last (split_on sep s) [].

(** [s.replace(sub, "")]: leftmost, non-overlapping removal. *)
Fixpoint remove_sub (skip : nat) (sub s : pystr) : pystr :=
  match s with
  | [] => []
  | c :: s' =>
      match skip with
      | S k => remove_sub k sub s'
      | O => if nonempty sub && startswith s sub
             then remove_sub (length sub - 1) sub s'
             else c :: remove_sub 0 sub s'
      end
  end.

(** ["sep".join(parts)]. *)
Fixpoint join (sep : pystr) (parts : list pystr) : pystr :=
  match parts with
  | [] => []
  | [p] => p
  | p :: ps => p ++ sep ++ join sep ps
  end.

(** * [pathlib] *)

(** The components [Path(name)] keeps: empty ones and ["."] disappear. *)
Definition path_parts (name : pystr) : list pystr :=
  filter (λ x, x ≠ [] ∧ x ≠ [46]) (split_on 47 name).

(** [Path(name).name]. *)
Definition path_name (name : pystr) : pystr := List.last (path_parts name) [].

(** [Path(name).suffixes]. *)
Definition path_suffixes (name : pystr) : list pystr :=
  let n := path_name name in
  if endswith n [46] then []
  else (λ s, 46 :: s) <$> tail (split_on 46 (lstrip_by (Z.eqb 46) n)).

(** * UTF-8 *)

Definition utf8_char (c : Z) : res bytes :=
  if c <? 128 then Ok [c]
  else if c <? 2048 then Ok [192 + c / 64; 128 + c mod 64]
  else if (55296 <=? c) && (c <=? 57343) then Err ValueError
  else if c <? 65536 then Ok [224 + c / 4096; 128 + (c / 64) mod 64; 128 + c mod 64]
  else Ok [240 + c / 262144; 128 + (c / 4096) mod 64; 128 + (c / 64) mod 64; 128 + c mod 64].

(** [s.encode("utf-8")]. *)
Fixpoint utf8_encode (s : pystr) : res bytes :=
  match s with
  | [] => Ok []
  | c :: s' => b ← utf8_char c; bs ← utf8_encode s'; Ok (b ++ bs)
  end.

Definition is_cont (b : Z) : bool := (128 <=? b) && (b <=? 191).

(** [b.decode("utf-8")]. *)
Fixpoint utf8_decode (b : bytes) : res pystr :=
  match b with
  | [] => Ok []
  | b0 :: r0 =>
      if (0 <=? b0) && (b0 <? 128) then s ← utf8_decode r0; Ok (b0 :: s)
      else if (194 <=? b0) && (b0 <=? 223) then
        match r0 with
        | b1 :: r1 =>
            if is_cont b1
            then s ← utf8_decode r1; Ok ((b0 - 192) * 64 + (b1 - 128) :: s)
            else Err ValueError
        | _ => Err ValueError
        end
      else if (224 <=? b0) && (b0 <=? 239) then
        match r0 with
        | b1 :: b2 :: r2 =>
            let c := (b0 - 224) * 4096 + (b1 - 128) * 64 + (b2 - 128) in
            if is_cont b1 && is_cont b2 && (2048 <=? c)
               && negb ((55296 <=? c) && (c <=? 57343))
            then s ← utf8_decode r2; Ok (c :: s)
            else Err ValueError
        | _ => Err ValueError
        end
      else if (240 <=? b0) && (b0 <=? 244) then
        match r0 with
        | b1 :: b2 :: b3 :: r3 =>
            let c := (b0 - 240) * 262144 + (b1 - 128) * 4096 + (b2 - 128) * 64 + (b3 - 128) in
            if is_cont b1 && is_cont b2 && is_cont b3 && (65536 <=? c) && (c <? 1114112)
            then s ← utf8_decode r3; Ok (c :: s)
            else Err ValueError
        | _ => Err ValueError
        end
      else Err ValueError
  end.

(** * Hexadecimal and UUIDs *)

Definition hex_char (d : Z) : Z := if d <? 10 then 48 + d else 87 + d.

(** The [n] lowest hexadecimal digits of [z], most significant first. *)
Fixpoint hex_digits (n : nat) (z : Z) : pystr :=
  match n with
  | O => []
  | S n' => hex_digits n' (z / 16) ++ [hex_char (z mod 16)]
  end.

(** [str(uuid)]: 8-4-4-4-12. *)
Definition uuid_str (z : uuid) : pystr :=
  let h := hex_digits 32 z in
  take 8 h ++ [45] ++ take 4 (drop 8 h) ++ [45] ++ take 4 (drop 12 h) ++ [45]
    ++ take 4 (drop 16 h) ++ [45] ++ drop 20 h.

Definition hex_val (c : Z) : option Z :=
  if is_digit c then Some (c - 48)
  else if (97 <=? c) && (c <=? 102) then Some (c - 87)
  else if (65 <=? c) && (c <=? 70) then Some (c - 55)
  else None.

(** Digits of [int(s, 16)]: an underscore may stand between two digits. *)
Fixpoint hex_number (acc : Z) (prev_digit : bool) (s : pystr) : option Z :=
  match s with
  | [] => if prev_digit then Some acc else None
  | c :: s' =>
      if (c =? 95) && prev_digit then
        match s' with
        | [] => None
        | _ :: _ => hex_number acc false s'
        end
      else match hex_val c with
           | Some d => hex_number (acc * 16 + d) true s'
           | None => None
           end
  end.

(** [int(s, 16)]: an optional sign and an optional [0x] prefix, which an
    underscore may follow. *)
Definition int_sign (s : pystr) : Z * pystr :=
  match s with
  | c :: s' => if c =? 43 then (1, s') else if c =? 45 then (-1, s') else (1, s)
  | [] => (1, s)
  end.

Definition int_prefix16 (s : pystr) : pystr :=
  match s with
  | z :: x :: s' =>
      if (z =? 48) && ((x =? 120) || (x =? 88))
      then match s' with
           | c :: s'' => if c =? 95 then s'' else s'
           | [] => s'
           end
      else s
  | _ => s
  end.

Definition int16 (s : pystr) : option Z :=
  let '(sign, s) := int_sign (strip s) in
  Z.mul sign <$> hex_number 0 false (int_prefix16 s).

(** Digits of [int(s)], with underscores between them. *)
Fixpoint dec_number (acc : Z) (prev_digit : bool) (s : pystr) : option Z :=
  match s with
  | [] => if prev_digit then Some acc else None
  | c :: s' =>
      if (c =? 95) && prev_digit then
        match s' with
        | [] => None
        | _ :: _ => dec_number acc false s'
        end
      else if is_digit c then dec_number (acc * 10 + (c - 48)) true s'
      else None
  end.

(** [int(s)] of an ASCII string; [None] is [ValueError]. *)
Definition int10 (s : pystr) : option Z :=
  let '(sign, s) := int_sign (strip s) in
  Z.mul sign <$> dec_number 0 false s.

(** [UUID(text)]. *)
Definition uuid_parse (s : pystr) : res uuid :=
  let h := remove_sub 0 (u "uuid:") (remove_sub 0 (u "urn:") s) in
  let h := filter (λ c, c ≠ 45) (strip_by (λ c, (c =? 123) || (c =? 125)) h) in
  if Nat.eqb (length h) 32 then
    match int16 h with
    | Some z => if (0 <=? z) && (z <? 2 ^ 128) then Ok z else Err ValueError
    | None => Err ValueError
    end
  else Err ValueError.

(** * [urllib.parse.quote] *)

(** Unreserved characters of RFC 3986, never quoted. *)
Definition is_unreserved (c : Z) : bool :=
  is_alnum c || (c =? 95) || (c =? 46) || (c =? 45) || (c =? 126).

Definition hex_char_up (d : Z) : Z := if d <? 10 then 48 + d else 55 + d.

Definition quote_byte (safe : pystr) (b : Z) : pystr :=
  if is_unreserved b || has_char b safe then [b]
  else [37; hex_char_up (b / 16); hex_char_up (b mod 16)].

(** [quote(s, safe=safe)] for an ASCII [safe]. *)
Definition quote (s safe : pystr) : res pystr :=
  b ← utf8_encode s; Ok (concat (quote_byte safe <$> b)).

(** * Facts *)

(** A well-formed [str]: code points of Unicode. *)
Definition wf_str (s : pystr) : Prop := Forall (λ c, 0 ≤ c < 1114112) s.

Ltac Zify.zify_post_hook ::= Z.div_mod_to_equations.

Lemma utf8_char_decode c b r :
  0 ≤ c < 1114112 → utf8_char c = Ok b →
  utf8_decode (b ++ r) = (s ← utf8_decode r; Ok (c :: s)).
Proof.
  intros Hc. unfold utf8_char.
  repeat case_match; intros; simplify_eq; zbool; simpl; unfold is_cont;
    repeat match goal with
    | |- context [?a && ?b] => first
        [ replace (a && b) with true by (symmetry; rewrite ?andb_true_iff, ?negb_true_iff, ?andb_false_iff; lia)
        | replace (a && b) with false by (symmetry; rewrite ?andb_false_iff, ?andb_true_iff, ?negb_false_iff; lia) ]
    end;
    [ done | | | ];
    match goal with |- context [Ok (?x :: _)] => replace x with c by lia end; done.
Qed.

(** Decoding what was encoded gives the string back. *)
Lemma utf8_roundtrip s b : wf_str s → utf8_encode s = Ok b → utf8_decode b = Ok s.
Proof.
  intros Hs. revert b. induction Hs as [|c s Hc Hs IH]; intros b; simpl; [by intros [= <-]|].
  destruct (utf8_char c) as [bc|] eqn:Ec; simpl; [|done].
  destruct (utf8_encode s) as [bs|] eqn:Es; simpl; [|done].
  intros [= <-]. by rewrite (utf8_char_decode c bc bs Hc Ec), (IH bs eq_refl).
Qed.

Lemma utf8_encode_err s e : utf8_encode s = Err e → e = ValueError.
Proof.
  induction s as [|c s IH]; simpl; [done|]. destruct (utf8_char c) as [b|x] eqn:Ec; simpl.
  - destruct (utf8_encode s); simpl; [done|]. intros [= ->]. by apply IH.
  - intros [= ->]. revert Ec. unfold utf8_char. repeat case_match; intros; by simplify_eq.
Qed.

Lemma hex_digits_length n z : length (hex_digits n z) = n.
Proof. revert z; induction n; intros; simpl; [done|]. rewrite length_app, IHn; simpl; lia. Qed.

Lemma hex_char_range d : 0 ≤ d < 16 → 48 ≤ hex_char d ≤ 57 ∨ 97 ≤ hex_char d ≤ 102.
Proof. unfold hex_char; intros; case_match; zbool; lia. Qed.

Definition is_hex_char (c : Z) : Prop := 48 ≤ c ≤ 57 ∨ 97 ≤ c ≤ 102.

Lemma hex_digits_chars n z : Forall is_hex_char (hex_digits n z).
Proof.
  revert z; induction n; intros; simpl; [done|].
  apply Forall_app; split; [done|]. constructor; [|done].
  apply hex_char_range. lia.
Qed.

Lemma uuid_str_length z : length (uuid_str z) = 36%nat.
Proof.
  unfold uuid_str. rewrite !length_app, !length_take, !length_drop, !hex_digits_length. done.
Qed.

Lemma uuid_str_chars z : Forall (λ c, is_hex_char c ∨ c = 45) (uuid_str z).
Proof.
  assert (H : Forall (λ c, is_hex_char c ∨ c = 45) (hex_digits 32 z)).
  { eapply Forall_impl; [apply hex_digits_chars | by left]. }
  unfold uuid_str.
  repeat (apply Forall_app; split); try (constructor; [by right | constructor]);
    repeat apply Forall_take; repeat apply Forall_drop; done.
Qed.

Lemma remove_sub_id sub s c :
  head sub = Some c → c ∉ s → remove_sub 0 sub s = s.
Proof.
  intros Hsub. destruct sub as [|c' sub]; simpl in *; [done|]. simplify_eq.
  induction s as [|x s IH]; simpl; [done|]. intros Hx. rewrite not_elem_of_cons in Hx.
  destruct (Z.eqb_spec c x) as [->|]; [tauto|]. simpl. f_equal. tauto.
Qed.

Lemma lstrip_by_id p s : Forall (λ c, p c = false) s → lstrip_by p s = s.
Proof. intros H. destruct H as [|c s Hc]; simpl; [done|]. by rewrite Hc. Qed.

Lemma strip_by_id p s : Forall (λ c, p c = false) s → strip_by p s = s.
Proof.
  intros H. unfold strip_by, rstrip_by. rewrite (lstrip_by_id p s H), lstrip_by_id.
  - apply rev_involutive.
  - by apply Forall_rev.
Qed.

Lemma hex_val_char d : 0 ≤ d < 16 → hex_val (hex_char d) = Some d.
Proof.
  unfold hex_val, hex_char, is_digit; intros. repeat (case_match; zbool); simpl; f_equal; lia.
Qed.

Lemma hex_char_not_underscore c : is_hex_char c → (c =? 95) = false.
Proof. intros [?|?]; apply Z.eqb_neq; lia. Qed.

Lemma hex_number_app acc s d :
  Forall is_hex_char s → 0 ≤ d < 16 → ∀ b,
  hex_number acc b (s ++ [hex_char d]) =
  match s with
  | [] => Some (acc * 16 + d)
  | _ => v ← hex_number acc b s; Some (v * 16 + d)
  end.
Proof.
  intros Hs Hd. revert acc. induction Hs as [|c s Hc Hs IH]; intros acc b.
  - simpl. rewrite (hex_char_not_underscore (hex_char d)) by by apply hex_char_range.
    simpl. by rewrite hex_val_char.
  - simpl. rewrite (hex_char_not_underscore c Hc). simpl.
    destruct (hex_val c) as [v|] eqn:E; [|done]. rewrite IH.
    destruct s; [done|]. done.
Qed.

Lemma hex_number_digits n z :
  (0 < n)%nat → 0 ≤ z → hex_number 0 false (hex_digits n z) = Some (z mod 16 ^ Z.of_nat n).
Proof.
  revert z. induction n as [|n IH]; intros z Hn Hz; [lia|]. simpl hex_digits.
  rewrite hex_number_app by (apply hex_digits_chars || lia).
  rewrite Nat2Z.inj_succ, Z.pow_succ_r by lia.
  destruct n as [|n].
  - done.
  - destruct (hex_digits (S n) (z / 16)) as [|c l] eqn:E.
    { apply (f_equal length) in E. rewrite hex_digits_length in E. done. }
    rewrite <- E, IH by (try lia; apply Z.div_pos; lia). simpl. f_equal.
    rewrite (Z.rem_mul_r z 16) by lia. lia.
Qed.

Lemma int16_digits z :
  0 ≤ z < 2 ^ 128 → int16 (hex_digits 32 z) = Some z.
Proof.
  intros Hz. unfold int16.
  pose proof (hex_digits_chars 32 z) as Hc.
  assert (strip (hex_digits 32 z) = hex_digits 32 z) as ->.
  { apply strip_by_id. eapply Forall_impl; [done|]. intros c [?|?]; unfold is_space;
      rewrite ?orb_false_iff, ?andb_false_iff; lia. }
  pose proof (hex_number_digits 32 z ltac:(lia) ltac:(lia)) as Hn.
  rewrite Z.mod_small in Hn by (change (16 ^ Z.of_nat 32) with (2 ^ 128); lia).
  assert (int_sign (hex_digits 32 z) = (1, hex_digits 32 z)) as ->.
  { destruct Hc as [|c l Hc Hl]; [done|]. unfold int_sign.
    by repeat (case_match; zbool; [destruct Hc; lia|]). }
  assert (int_prefix16 (hex_digits 32 z) = hex_digits 32 z) as ->.
  { destruct Hc as [|c l Hc Hl]; [done|]. destruct Hl as [|x l Hx Hl]; [done|].
    unfold int_prefix16.
    assert ((x =? 120) || (x =? 88) = false) as -> by (rewrite orb_false_iff; destruct Hx; lia).
    by rewrite andb_false_r. }
  rewrite Hn. unfold fmap, option_fmap, option_map. f_equal. lia.
Qed.

Lemma filter_dash_hex s : Forall is_hex_char s → filter (λ c, c ≠ 45) s = s.
Proof.
  induction 1 as [|c s Hc Hs IH]; [done|].
  rewrite filter_cons_True by (destruct Hc; lia). by rewrite IH.
Qed.

Lemma uuid_str_undash z : filter (λ c, c ≠ 45) (uuid_str z) = hex_digits 32 z.
Proof.
  pose proof (hex_digits_chars 32 z) as H. unfold uuid_str.
  remember (hex_digits 32 z) as h eqn:Eh. clear Eh.
  rewrite !filter_app. change (filter (λ c, c ≠ 45) [45]) with (@nil Z).
  rewrite !filter_dash_hex by auto using Forall_take, Forall_drop. simpl app.
  replace (drop 12 h) with (drop 4 (drop 8 h)) by by rewrite drop_drop.
  replace (drop 16 h) with (drop 4 (drop 4 (drop 8 h))) by by rewrite !drop_drop.
  replace (drop 20 h) with (drop 4 (drop 4 (drop 4 (drop 8 h)))) by by rewrite !drop_drop.
  by rewrite !take_drop.
Qed.

(** [UUID(str(x)) = x]. *)
Lemma uuid_roundtrip z : 0 ≤ z < 2 ^ 128 → uuid_parse (uuid_str z) = Ok z.
Proof.
  intros Hz. unfold uuid_parse.
  pose proof (uuid_str_chars z) as Hc.
  assert (Hu : 117 ∉ uuid_str z).
  { intros Hin. eapply Forall_forall in Hc; [|exact Hin]. destruct Hc as [[?|?]|?]; lia. }
  rewrite (remove_sub_id (u "urn:") (uuid_str z) 117) by done.
  rewrite (remove_sub_id (u "uuid:") (uuid_str z) 117) by done.
  rewrite strip_by_id.
  2:{ eapply Forall_impl; [exact Hc|]. intros c [[?|?]| ->]; rewrite orb_false_iff; lia. }
  rewrite uuid_str_undash, hex_digits_length, int16_digits by done.
  simpl. assert ((0 <=? z) && (z <? 2 ^ 128) = true) as ->; [|done].
  rewrite andb_true_iff. lia.
Qed.

Lemma uuid_str_inj x y :
  0 ≤ x < 2 ^ 128 → 0 ≤ y < 2 ^ 128 → uuid_str x = uuid_str y → x = y.
Proof.
  intros Hx Hy E. apply (f_equal uuid_parse) in E. rewrite !uuid_roundtrip in E by done. congruence.
Qed.

Lemma startswith_app s p : startswith (p ++ s) p = true.
Proof. induction p; simpl; [by destruct s|]. by rewrite Z.eqb_refl. Qed.

Lemma startswith_spec s p : startswith s p = true → ∃ r, s = p ++ r.
Proof.
  revert s; induction p as [|c p IH]; intros s; [by exists s|].
  destruct s as [|d s]; simpl; [done|]. intros H; zbool; subst.
  destruct (IH s H0) as [r ->]. by exists r.
Qed.

(** Proofs use the lemmas above, never the digits. *)
#[global] Opaque uuid_str.
