(* ===== verification/Encoding.v ===== *)
(** Two encodings of the Python standard library the admin endpoints use:
    [base64.b64encode] and [str()] of a JSON value; and what base64 promises. *)
From S2P Require Import Prelude Text.

(** * Base64 *)

Definition b64_char (d : Z) : Z :=
  if d <? 26 then 65 + d
  else if d <? 52 then 71 + d
  else if d <? 62 then d - 4
  else if d =? 62 then 43 else 47.

Definition b64_val (c : Z) : option Z :=
  if (65 <=? c) && (c <=? 90) then Some (c - 65)
  else if (97 <=? c) && (c <=? 122) then Some (c - 71)
  else if (48 <=? c) && (c <=? 57) then Some (c + 4)
  else if c =? 43 then Some 62
  else if c =? 47 then Some 63
  else None.

(** [base64.b64encode(b).decode("ascii")] *)
Fixpoint b64encode (b : bytes) : pystr :=
  match b with
  | x :: y :: z :: r =>
      [b64_char (x / 4); b64_char (x mod 4 * 16 + y / 16);
       b64_char (y mod 16 * 4 + z / 64); b64_char (z mod 64)] ++ b64encode r
  | [x; y] =>
      [b64_char (x / 4); b64_char (x mod 4 * 16 + y / 16); b64_char (y mod 16 * 4); 61]
  | [x] => [b64_char (x / 4); b64_char (x mod 4 * 16); 61; 61]
  | [] => []
  end.

(** The reader of such a text, four characters at a time. *)
Fixpoint b64decode (s : pystr) : option bytes :=
  match s with
  | [] => Some []
  | a :: b :: c :: d :: r =>
      x ← b64_val a;
      y ← b64_val b;
      if (c =? 61) && (d =? 61) && negb (nonempty r) then Some [x * 4 + y / 16]
      else
        z ← b64_val c;
        if (d =? 61) && negb (nonempty r) then Some [x * 4 + y / 16; y mod 16 * 16 + z / 4]
        else
          v ← b64_val d;
          bs ← b64decode r;
          Some (x * 4 + y / 16 :: y mod 16 * 16 + z / 4 :: z mod 4 * 64 + v :: bs)
  | _ => None
  end.

Lemma b64_char_ne d : 0 ≤ d < 64 → (b64_char d =? 61) = false.
Proof. intros H. unfold b64_char. repeat case_match; zbool; lia. Qed.

Lemma b64_val_char d : 0 ≤ d < 64 → b64_val (b64_char d) = Some d.
Proof.
  intros H. unfold b64_char.
  repeat case_match; zbool; unfold b64_val; repeat case_match; zbool; try (f_equal; lia); lia.
Qed.

Definition is_byte (b : Z) : Prop := 0 ≤ b < 256.

Lemma b64_triple x y z r :
  is_byte x → is_byte y → is_byte z →
  b64decode (b64encode (x :: y :: z :: r)) = (bs ← b64decode (b64encode r); Some (x :: y :: z :: bs)).
Proof.
  unfold is_byte. intros Hx Hy Hz. cbn [b64encode app b64decode].
  rewrite !b64_char_ne, !b64_val_char by lia. cbn -[b64decode b64encode Z.div Z.modulo Z.mul Z.add].
  destruct (b64decode (b64encode r)); [|done]. cbn. do 2 f_equal; [lia|f_equal; [lia|f_equal; lia]].
Qed.

(** Decoding is the inverse of encoding, on all byte strings. *)
Lemma b64_roundtrip b : Forall is_byte b → b64decode (b64encode b) = Some b.
Proof.
  remember (length b) as n eqn:Hn. revert b Hn.
  induction (lt_wf n) as [n _ IH]. intros b -> H.
  destruct b as [|x [|y [|z r]]]; [done|..].
  - apply Forall_cons in H as [Hx _]. unfold is_byte in Hx. cbn [b64encode b64decode].
    rewrite !b64_val_char by lia. cbn. do 2 f_equal. lia.
  - apply Forall_cons in H as [Hx H]. apply Forall_cons in H as [Hy _]. unfold is_byte in *.
    cbn [b64encode b64decode]. rewrite !b64_val_char, b64_char_ne by lia. cbn.
    do 2 f_equal; [lia|f_equal; lia].
  - apply Forall_cons in H as [Hx H]. apply Forall_cons in H as [Hy H].
    apply Forall_cons in H as [Hz H]. rewrite b64_triple by done.
    by rewrite (IH (length r)) by (simpl; lia || done).
Qed.

(** * [str()] of a JSON value *)

Section py_str.
Context `{Unicode}.

Definition hex_escape (n : nat) (tag c : Z) : pystr := [92; tag] ++ hex_digits n c.

(** One character of [repr(s)] between the quotes [q]. *)
Definition repr_char (q c : Z) : pystr :=
  if (c =? q) || (c =? 92) then [92; c]
  else if c =? 10 then [92; 110]
  else if c =? 13 then [92; 114]
  else if c =? 9 then [92; 116]
  else if (c <? 32) || (c =? 127) then hex_escape 2 120 c
  else if (c <? 127) || uni_isprintable c then [c]
  else if c <? 256 then hex_escape 2 120 c
  else if c <? 65536 then hex_escape 4 117 c
  else hex_escape 8 85 c.

Definition repr_str (s : pystr) : pystr :=
  let q := if has_char 39 s && negb (has_char 34 s) then 34 else 39 in
  [q] ++ concat (repr_char q <$> s) ++ [q].

(** [repr] of a float of moderate size: its digits, at least one of them after
    the point. *)
Definition float_digits (m : Z) (s : nat) : pystr :=
  let d := 10 ^ Z.of_nat s in
  let digits := str_int (Z.abs m mod d) in
  let frac := rstrip_by (Z.eqb 48) (replicate (s - length digits) 48 ++ digits) in
  (if m <? 0 then u "-" else []) ++ str_int (Z.abs m / d) ++ u "."
  ++ (if nonempty frac then frac else u "0").

(** [repr] of a value read from a JSONB column. *)
Fixpoint repr (v : json) : pystr :=
  match v with
  | JNull => u "None"
  | JBool true => u "True"
  | JBool false => u "False"
  | JInt n => str_int n
  | JDec m s => float_digits m s
  | JStr s => repr_str s
  | JArr l => u "[" ++ join (u ", ") (repr <$> l) ++ u "]"
  | JObj l => u "{" ++ join (u ", ") ((λ kv, repr_str kv.1 ++ u ": " ++ repr kv.2) <$> l) ++ u "}"
  end.

(** [str(v)]: a string is itself. *)
Definition py_str (v : json) : pystr := match v with JStr s => s | _ => repr v end.

End py_str.

(** Python's [==] on values none of which nests a number: [True == 1]. *)
Definition py_eqb (a b : json) : bool :=
  match a, b with
  | JBool x, JInt n | JInt n, JBool x => Z.b2z x =? n
  | _, _ => json_eqb a b
  end.
