(* ===== verification/Services.v ===== *)
(** The world outside the repository: clock and entropy, AES key wrap and
    AES-GCM (the [cryptography] package), Argon2, TOTP, Redis, MinIO, GeoIP,
    hCaptcha, libmagic, pydantic's conversions, Jinja templates, SMTP, Telegram, PostgreSQL's [inet]
    type and the [ipaddress] parser.  The class [Services] gives their
    operations, [ServicesOk] the documented laws the program relies on.  Every
    definition of the development takes the services as a parameter; [Sim]
    gives a concrete instance. *)
From S2P Require Import Prelude Text.

(** What a Redis key holds. *)
Inductive rval : Type :=
  | RStr (v : json)
  | RList (l : list json)
  | RSet (m : gset pystr).

(** A live entry: its value and the instant it expires at. *)
Abbreviation rentry := (rval * option datetime)%type.

Definition second : Z := 1000000.

Definition ttl_deadline (now : datetime) (ex : option Z) : option datetime :=
  (λ s, now + s * second) <$> ex.

(** A rendered e-mail ([services/email.py], class [RenderedEmail]). *)
Record RenderedEmail := mkRenderedEmail {
  subject : pystr; html : pystr; text : pystr
}.

(** Outcome of a MaxMind lookup. *)
Inductive geo_result := GeoCode (code : option pystr) | GeoNotFound | GeoError.

Class Services := {
  unicode :: Unicode;
  (* the i-th observation of the clock, of the entropy source, and whether the
     i-th call to an external service fails *)
  clock : nat → datetime;
  fault : nat → bool;
  (* whether the i-th operation on the disk fails where the code removes files,
     and what [str] gives of an exception raised by then *)
  disk_fault : nat → bool;
  exc_text : nat → exn → pystr;
  rand_bytes : nat → nat → bytes;
  rand_token : nat → pystr;
  rand_uuid : nat → uuid;
  isoformat : datetime → pystr;
  fromisoformat : pystr → option datetime;
  (* RFC 3394 key wrap; [None] is [InvalidUnwrap] *)
  aes_key_wrap : bytes → bytes → bytes;
  aes_key_unwrap : bytes → bytes → option bytes;
  (* AES-256-GCM contexts; [None] is [InvalidTag] *)
  gcm_ctx : Type;
  gcm_encryptor : bytes → bytes → gcm_ctx;
  gcm_decryptor : bytes → bytes → gcm_ctx;
  gcm_update : gcm_ctx → bytes → gcm_ctx * bytes;
  gcm_finalize : gcm_ctx → bytes * bytes;
  gcm_finalize_with_tag : gcm_ctx → bytes → option bytes;
  sha256 : bytes → bytes;
  (* argon2.PasswordHasher and pyotp *)
  argon2_hash : nat → pystr → pystr;
  argon2_verify : pystr → pystr → res bool;
  totp_random_base32 : nat → pystr;
  totp_verify : pystr → pystr → datetime → res bool;
  (* Redis *)
  redisT : Type;
  r_view : redisT → datetime → pystr → option rentry;
  r_set : redisT → datetime → pystr → json → option Z → redisT;
  r_set_nx : redisT → datetime → pystr → json → Z → bool * redisT;
  r_incr : redisT → datetime → pystr → Z * redisT;
  r_expire : redisT → datetime → pystr → Z → redisT;
  r_ttl : redisT → datetime → pystr → Z;
  r_del : redisT → datetime → list pystr → redisT;
  r_sadd : redisT → datetime → pystr → pystr → redisT;
  r_srem : redisT → datetime → pystr → pystr → redisT;
  r_lpush : redisT → datetime → pystr → json → redisT;
  r_rpop : redisT → datetime → pystr → option json * redisT;
  (* MinIO: one bucket *)
  bucketT : Type;
  o_get : bucketT → pystr → option bytes;
  o_put : bucketT → pystr → bytes → bucketT;
  o_remove : bucketT → pystr → bucketT;
  o_list : bucketT → pystr → list pystr;
  (* how the HTTP body of an object is cut into chunks *)
  o_chunks : bytes → list bytes;
  (* GeoIP, hCaptcha, libmagic *)
  geoip_enabled : bool;
  geoip_lookup : pystr → geo_result;
  hcaptcha_post : pystr → pystr → pystr → res (Z * json);
  magic_mime : bytes → pystr;
  (* pydantic's conversions of a JSON value to [int] and to [bool] *)
  pydantic_int : json → option Z;
  pydantic_bool : json → option bool;
  (* Jinja templates of services/templates *)
  jinja_render : pystr → list (pystr * json) → pystr;
  (* PostgreSQL [inet <<= cidr] and Python's [ipaddress.ip_network] *)
  inet_valid : pystr → bool;
  inet_contained : pystr → pystr → bool;
  inet_eqb : pystr → pystr → bool;
  ip_network : pystr → option pystr;
  (* [str] of an [inet] column, and the order in which PostgreSQL returns the
     groups of a GROUP BY *)
  inet_text : pystr → pystr;
  group_order : list (json * Z) → list (json * Z);
  (* longest file name the staging file system accepts *)
  name_max : Z
}.

(** An entry seen later: it is gone once its deadline has passed. *)
Definition live (now : datetime) (e : option rentry) : option rentry :=
  match e with
  | Some (v, Some d) => if now <? d then e else None
  | _ => e
  end.

(** The number a counter key holds ([INCR] treats a missing key as 0). *)
Definition counter_of (e : option rentry) : option Z :=
  match e with
  | None => Some 0
  | Some (RStr (JInt n), _) => Some n
  | _ => None
  end.

Definition list_of (e : option rentry) : option (list json) :=
  match e with
  | None => Some []
  | Some (RList l, _) => Some l
  | _ => None
  end.

Definition set_of (e : option rentry) : option (gset pystr) :=
  match e with
  | None => Some ∅
  | Some (RSet m, _) => Some m
  | _ => None
  end.

Definition deadline_of (e : option rentry) : option datetime := e ≫= snd.

(** ** Laws *)

Class ClockOk `{Services} : Prop := {
  clock_mono i j : (i ≤ j)%nat → clock i ≤ clock j;
  iso_roundtrip t : fromisoformat (isoformat t) = Some t;
  iso_no_bar t : 124 ∉ isoformat t;
  rand_bytes_length i n : length (rand_bytes i n) = n;
  rand_uuid_range i : 0 ≤ rand_uuid i < 2 ^ 128;
  rand_token_nonempty i : rand_token i ≠ []
}.

(** What [aes_key_wrap] accepts under a 256-bit key: whole 64-bit blocks, at
    least two of them. *)
Definition wrappable (k p : bytes) : Prop :=
  length k = 32%nat ∧ (16 ≤ length p)%nat ∧ (length p `mod` 8 = 0)%nat.

(** RFC 3394: wrapping adds eight bytes, unwrapping under the same key is its
    inverse, and a blob unwraps only to the text whose wrapping it is. *)
Class KeyWrapOk `{Services} : Prop := {
  kw_length k p : wrappable k p → length (aes_key_wrap k p) = (length p + 8)%nat;
  kw_unwrap_wrap k p : wrappable k p → aes_key_unwrap k (aes_key_wrap k p) = Some p;
  kw_wrap_unwrap k c p :
    length k = 32%nat → aes_key_unwrap k c = Some p →
    aes_key_wrap k p = c ∧ length c = (length p + 8)%nat
}.

(** PyCA's streaming GCM: the output does not depend on how the input is cut
    into chunks, has the input's length, nothing is left for [finalize], the
    tag has 16 bytes, and a decryptor under the same key and IV inverts the
    encryptor and accepts its tag. *)
Class GcmOk `{Services} : Prop := {
  gcm_update_nil c : gcm_update c [] = (c, []);
  gcm_update_app c a b :
    gcm_update c (a ++ b) =
    let '(c1, x) := gcm_update c a in
    let '(c2, y) := gcm_update c1 b in (c2, x ++ y);
  gcm_update_length c a : length (gcm_update c a).2 = length a;
  gcm_finalize_data c : (gcm_finalize c).1 = [];
  gcm_tag_length c : length (gcm_finalize c).2 = 16%nat;
  gcm_tag_data c t x : gcm_finalize_with_tag c t = Some x → x = [];
  gcm_correct k iv p c x :
    length k = 32%nat → length iv = 12%nat →
    gcm_update (gcm_encryptor k iv) p = (c, x) →
    let '(d, y) := gcm_update (gcm_decryptor k iv) x in
    y = p ∧ is_Some (gcm_finalize_with_tag d (gcm_finalize c).2)
}.

Class RedisOk `{Services} : Prop := {
  r_view_live s t k : live t (r_view s t k) = r_view s t k;
  r_view_later s t t' k : t ≤ t' → r_view s t' k = live t' (r_view s t k);
  r_set_view s t k v ex k' :
    match ex with Some n => 0 < n | None => True end →
    r_view (r_set s t k v ex) t k' =
    if decide (k = k') then Some (RStr v, ttl_deadline t ex) else r_view s t k';
  r_set_nx_view s t k v ex k' :
    0 < ex →
    let '(acquired, s') := r_set_nx s t k v ex in
    acquired = bool_decide (r_view s t k = None) ∧
    r_view s' t k' =
    if decide (k = k' ∧ r_view s t k = None)
    then Some (RStr v, ttl_deadline t (Some ex)) else r_view s t k';
  r_incr_view s t k n k' :
    counter_of (r_view s t k) = Some n →
    let '(c, s') := r_incr s t k in
    c = n + 1 ∧
    r_view s' t k' =
    if decide (k = k') then Some (RStr (JInt (n + 1)), deadline_of (r_view s t k))
    else r_view s t k';
  r_expire_view s t k ex k' :
    0 < ex →
    r_view (r_expire s t k ex) t k' =
    if decide (k = k') then (λ e, (e.1, ttl_deadline t (Some ex))) <$> r_view s t k
    else r_view s t k';
  r_del_view s t ks k' :
    r_view (r_del s t ks) t k' = if decide (k' ∈ ks) then None else r_view s t k';
  r_sadd_view s t k m k' x :
    set_of (r_view s t k) = Some m →
    r_view (r_sadd s t k x) t k' =
    if decide (k = k') then Some (RSet ({[x]} ∪ m), deadline_of (r_view s t k))
    else r_view s t k';
  r_srem_view s t k m k' x :
    set_of (r_view s t k) = Some m →
    r_view (r_srem s t k x) t k' =
    if decide (k = k')
    then (if decide (m ∖ {[x]} = ∅) then None
          else Some (RSet (m ∖ {[x]}), deadline_of (r_view s t k)))
    else r_view s t k';
  r_lpush_view s t k l k' v :
    list_of (r_view s t k) = Some l →
    r_view (r_lpush s t k v) t k' =
    if decide (k = k') then Some (RList (v :: l), deadline_of (r_view s t k))
    else r_view s t k';
  r_rpop_view s t k l k' :
    list_of (r_view s t k) = Some l →
    let '(x, s') := r_rpop s t k in
    x = last l ∧
    r_view s' t k' =
    if decide (k = k')
    then (if decide ((length l ≤ 1)%nat) then None
          else Some (RList (take (length l - 1) l), deadline_of (r_view s t k)))
    else r_view s t k'
}.

Class BucketOk `{Services} : Prop := {
  o_put_get b k v k' : o_get (o_put b k v) k' = if decide (k = k') then Some v else o_get b k';
  o_remove_get b k k' : o_get (o_remove b k) k' = if decide (k = k') then None else o_get b k';
  o_list_spec b p k : k ∈ o_list b p ↔ startswith k p = true ∧ is_Some (o_get b k);
  o_chunks_concat v : concat (o_chunks v) = v
}.

Class SqlOk `{Services} : Prop := {
  group_order_perm l : group_order l ≡ₚ l
}.

Class PasswordOk `{Services} : Prop := {
  argon2_correct i p : argon2_verify (argon2_hash i p) p = Ok true
}.

Class ServicesOk `{Services} : Prop := {
  ok_clock :: ClockOk;
  ok_keywrap :: KeyWrapOk;
  ok_gcm :: GcmOk;
  ok_redis :: RedisOk;
  ok_bucket :: BucketOk;
  ok_password :: PasswordOk;
  ok_sql :: SqlOk
}.
