(* ===== verification/Format.v ===== *)
(** How Python prints dates and numbers: [strftime] with the one pattern the
    program uses, and the [.1f] format. *)
From S2P Require Import Prelude Text Services.
#[local] Open Scope Z_scope.

(** * Dates as [strftime] prints them *)
Module Calendar.

(** Year, month and day of a day counted from 1970-01-01 (proleptic Gregorian). *)
Definition civil (days : Z) : Z * Z * Z :=
  let z := days + 719468 in
  let era := z / 146097 in
  let doe := z - era * 146097 in
  let yoe := (doe - doe / 1460 + doe / 36524 - doe / 146096) / 365 in
  let doy := doe - (365 * yoe + yoe / 4 - yoe / 100) in
  let mp := (5 * doy + 2) / 153 in
  let day := doy - (153 * mp + 2) / 5 + 1 in
  let month := if mp <? 10 then mp + 3 else mp - 9 in
  (yoe + era * 400 + (if month <=? 2 then 1 else 0), month, day).

Definition pad2 (n : Z) : pystr := (if n <? 10 then u "0" else []) ++ str_int n.

(** [strftime("%Y-%m-%d %H:%M UTC")] *)
Definition strftime_minute (t : datetime) : pystr :=
  let secs := t / second in
  let days := secs / 86400 in
  let rest := secs mod 86400 in
  let '(y, m, d) := civil days in
  str_int y ++ u "-" ++ pad2 m ++ u "-" ++ pad2 d ++ u " " ++
  pad2 (rest / 3600) ++ u ":" ++ pad2 (rest mod 3600 / 60) ++ u " UTC".

End Calendar.

(** * The [.1f] format *)

(** Division rounded half to even, as the [.1f] format does. *)
Definition round_div (a b : Z) : Z :=
  let q := a / b in
  let r := a mod b in
  if 2 * r <? b then q
  else if b <? 2 * r then q + 1
  else if Z.even q then q else q + 1.

(** [f"{n / d:.1f}"]; below 2^53 bytes the division by a power of two is exact. *)
Definition fixed1 (n d : Z) : pystr :=
  let tenths := round_div (10 * n) d in
  str_int (tenths / 10) ++ u "." ++ str_int (tenths mod 10).
