(* ===== verification/Sim.v ===== *)
(** A concrete instance of the outside world, for the witnesses: Redis and the
    bucket are finite maps, the ciphers are simple keyed permutations with
    checksums, and nothing fails unless the instance is told so.  It satisfies
    every law of [ServicesOk]. *)
From S2P Require Import Prelude Text Services.

Module Sim.

(** ** Key wrap: eight bytes derived from the key, then the text. *)
Definition kw_check (k : bytes) : bytes := take 8 (k ++ replicate 8 0).

Definition kw_wrap (k p : bytes) : bytes := kw_check k ++ p.

Definition kw_unwrap (k c : bytes) : option bytes :=
  if decide (take 8 c = kw_check k) then Some (drop 8 c) else None.

(** ** GCM: bytewise complement, a tag computed from key, IV and plaintext. *)
Record ctx := mkCtx { c_seed : Z; c_dec : bool; c_text : bytes }.

Definition seed (k iv : bytes) : Z := foldr Z.add 0 (k ++ iv).
Definition flip_bytes (b : bytes) : bytes := (λ x, 255 - x) <$> b.

Definition g_update (c : ctx) (x : bytes) : ctx * bytes :=
  let y := flip_bytes x in
  (mkCtx (c_seed c) (c_dec c) (c_text c ++ (if c_dec c then y else x)), y).

Definition g_tag (c : ctx) : bytes :=
  replicate 16 ((c_seed c + foldr Z.add 0 (c_text c)) mod 256).

Definition g_check (c : ctx) (t : bytes) : option bytes :=
  if decide (t = g_tag c) then Some [] else None.

(** ** Redis: a finite map of entries, expired lazily. *)
Abbreviation redis := (gmap pystr rentry).

Definition view (s : redis) (t : datetime) (k : pystr) : option rentry := live t (s !! k).

Definition set (s : redis) (t : datetime) (k : pystr) (v : json) (ex : option Z) : redis :=
  <[k := (RStr v, ttl_deadline t ex)]> s.

Definition set_nx (s : redis) (t : datetime) (k : pystr) (v : json) (ex : Z) : bool * redis :=
  match view s t k with
  | None => (true, set s t k v (Some ex))
  | Some _ => (false, s)
  end.

Definition incr (s : redis) (t : datetime) (k : pystr) : Z * redis :=
  let e := view s t k in
  match counter_of e with
  | Some n => (n + 1, <[k := (RStr (JInt (n + 1)), deadline_of e)]> s)
  | None => (0, s)
  end.

Definition expire (s : redis) (t : datetime) (k : pystr) (ex : Z) : redis :=
  match view s t k with
  | Some (v, _) => <[k := (v, ttl_deadline t (Some ex))]> s
  | None => s
  end.

Definition ttl (s : redis) (t : datetime) (k : pystr) : Z :=
  match view s t k with
  | Some (_, Some d) => (d - t + 500000) / second
  | Some (_, None) => -1
  | None => -2
  end.

Definition del (s : redis) (t : datetime) (ks : list pystr) : redis :=
  foldr (λ k m, delete k m) s ks.

Definition sadd (s : redis) (t : datetime) (k x : pystr) : redis :=
  let e := view s t k in
  match set_of e with
  | Some m => <[k := (RSet ({[x]} ∪ m), deadline_of e)]> s
  | None => s
  end.

Definition srem (s : redis) (t : datetime) (k x : pystr) : redis :=
  let e := view s t k in
  match set_of e with
  | Some m =>
      if decide (m ∖ {[x]} = ∅) then delete k s
      else <[k := (RSet (m ∖ {[x]}), deadline_of e)]> s
  | None => s
  end.

Definition lpush (s : redis) (t : datetime) (k : pystr) (v : json) : redis :=
  let e := view s t k in
  match list_of e with
  | Some l => <[k := (RList (v :: l), deadline_of e)]> s
  | None => s
  end.

Definition rpop (s : redis) (t : datetime) (k : pystr) : option json * redis :=
  let e := view s t k in
  match list_of e with
  | Some l =>
      (last l, if decide ((length l ≤ 1)%nat) then delete k s
               else <[k := (RList (take (length l - 1) l), deadline_of e)]> s)
  | None => (None, s)
  end.

(** ** Bucket *)
Abbreviation bucket := (gmap pystr bytes).

Definition list_prefix (b : bucket) (p : pystr) : list pystr :=
  filter (λ k, startswith k p = true) (elements (dom b)).

(** The parameters a scenario chooses: when each call happens and which calls
    fail. *)
Definition services (clk : nat → datetime) (flt : nat → bool) : Services := {|
  unicode := {| uni_lower := λ s, s; uni_upper := λ s, s; uni_isdigit := λ _, false;
    uni_isprintable := λ _, true |};
  clock := clk;
  fault := flt;
  disk_fault := λ _, false;
  exc_text := λ _, exn_name;
  rand_bytes := λ i n, replicate n (Z.of_nat i mod 256);
  rand_token := λ i, u "tok" ++ [Z.of_nat i];
  rand_uuid := λ i, Z.of_nat i mod 2 ^ 128;
  isoformat := λ t, [2 * t + 1];
  fromisoformat := λ s, match s with [x] => Some (x / 2) | _ => None end;
  aes_key_wrap := kw_wrap;
  aes_key_unwrap := kw_unwrap;
  gcm_ctx := ctx;
  gcm_encryptor := λ k iv, mkCtx (seed k iv) false [];
  gcm_decryptor := λ k iv, mkCtx (seed k iv) true [];
  gcm_update := g_update;
  gcm_finalize := λ c, ([], g_tag c);
  gcm_finalize_with_tag := g_check;
  Services.sha256 := λ b, replicate 32 (foldr Z.add 0 b mod 256);
  argon2_hash := λ _ p, u "argon2:" ++ p;
  argon2_verify := λ h p, Ok (bool_decide (h = u "argon2:" ++ p));
  totp_random_base32 := λ i, u "BASE32" ++ [65 + Z.of_nat i mod 26];
  totp_verify := λ s c t, Ok (bool_decide (c = u "123456"));
  redisT := redis;
  r_view := view;
  r_set := set;
  r_set_nx := set_nx;
  r_incr := incr;
  r_expire := expire;
  r_ttl := ttl;
  r_del := del;
  r_sadd := sadd;
  r_srem := srem;
  r_lpush := lpush;
  r_rpop := rpop;
  bucketT := bucket;
  o_get := λ b k, b !! k;
  o_put := λ b k v, <[k := v]> b;
  o_remove := λ b k, delete k b;
  o_list := list_prefix;
  o_chunks := λ v, (λ x, [x]) <$> v;
  geoip_enabled := false;
  geoip_lookup := λ _, GeoNotFound;
  hcaptcha_post := λ _ t _, Ok (200, JObj [(u "success", JBool (nonempty t))]);
  magic_mime := λ _, u "application/octet-stream";
  pydantic_int := λ v, match v with JInt n => Some n | _ => None end;
  pydantic_bool := λ v, match v with JBool b => Some b | _ => None end;
  jinja_render := λ name ctx, u "<p>" ++ concat ((λ kv, match kv.2 with
      JStr s => s ++ u "<br>" | _ => [] end) <$> ctx) ++ u "</p>";
  inet_valid := λ ip, nonempty ip;
  inet_contained := λ ip cidr, bool_decide (ip = cidr);
  inet_eqb := λ a b, bool_decide (a = b);
  ip_network := λ v, if has_char 46 v then Some v else None;
  inet_text := λ ip, ip;
  group_order := λ l, rev l;
  name_max := 255
|}.

(** Time stands still and nothing fails. *)
#[export] Instance calm : Services := services (λ _, 1000 * second) (λ _, false).

(** ** The laws *)
Section laws.
Context (clk : nat → datetime) (flt : nat → bool).
Hypothesis clk_mono : ∀ i j, (i ≤ j)%nat → clk i ≤ clk j.
#[local] Instance demo_services : Services := services clk flt.

Lemma clock_ok : ClockOk.
Proof.
  split; simpl; try done.
  - intros t. f_equal. lia.
  - intros t. rewrite list_elem_of_singleton. lia.
  - intros; by rewrite length_replicate.
  - intros i. apply Z.mod_pos_bound. lia.
Qed.

Lemma keywrap_ok : KeyWrapOk.
Proof.
  assert (Hck : ∀ k, length k = 32%nat → length (kw_check k) = 8%nat).
  { intros k Hk. unfold kw_check. rewrite length_take, length_app, length_replicate. lia. }
  split; simpl; unfold kw_wrap, kw_unwrap.
  - intros k p (Hk & _). rewrite length_app, Hck by done. lia.
  - intros k p (Hk & _).
    destruct (take_drop_split 8 (kw_check k) p (Hck k Hk)) as [-> ->].
    by rewrite decide_True.
  - intros k c p Hk. case_decide as Hc; [|done]. intros [= <-].
    rewrite <- Hc, take_drop. split; [done|].
    apply (f_equal length) in Hc. rewrite length_take, Hck in Hc by done.
    rewrite length_drop. lia.
Qed.

Lemma flip_involutive x : flip_bytes (flip_bytes x) = x.
Proof. induction x; simpl; [done|]. f_equal; [lia|done]. Qed.

Lemma gcm_ok : GcmOk.
Proof.
  split; simpl; unfold g_update, flip_bytes; simpl; try done.
  - intros [s d t]; simpl. f_equal. destruct d; by rewrite app_nil_r.
  - intros [s d t] a b; simpl. rewrite !fmap_app. f_equal. f_equal.
    by destruct d; rewrite app_assoc.
  - intros. by rewrite length_fmap.
  - intros c t x. unfold g_check. case_decide; congruence.
  - intros k iv p c x _ _ [= <- <-]. fold (flip_bytes p). fold (flip_bytes (flip_bytes p)).
    rewrite flip_involutive. split; [done|]. unfold g_check, g_tag. simpl.
    by rewrite decide_True.
Qed.

Lemma live_live t t' e : t ≤ t' → live t' (live t e) = live t' e.
Proof. intros. destruct e as [[v [d|]]|]; simpl; try done. case_match; simpl; [done|].
  case_match; [zbool; lia | done].
Qed.

Lemma live_future v t ex :
  match ex with Some n => 0 < n | None => True end →
  live t (Some (v, ttl_deadline t ex)) = Some (v, ttl_deadline t ex).
Proof.
  destruct ex as [n|]; simpl; [|done]. intros. case_match; zbool; unfold second in *; lia || done.
Qed.

Lemma live_deadline v t e :
  live t (Some (v, deadline_of (live t e))) = Some (v, deadline_of (live t e)).
Proof.
  destruct e as [[w [d|]]|]; simpl; try done. destruct (t <? d) eqn:E; simpl; [|done].
  by rewrite E.
Qed.

Lemma lookup_del (ks : list pystr) (s : redis) (k : pystr) :
  foldr (λ k m, delete k m) s ks !! k = if decide (k ∈ ks) then None else s !! k.
Proof.
  induction ks as [|k' ks IH]; simpl; [done|]. rewrite lookup_delete, IH.
  destruct (decide (k' = k)) as [->|Hne].
  - by rewrite (decide_True (P := k ∈ k :: ks)) by (rewrite elem_of_cons; auto).
  - apply decide_ext. rewrite elem_of_cons. naive_solver.
Qed.

(** A command that rewrites one key, seen through [view]. *)
Lemma view_insert (s : redis) t (k : pystr) (e : rentry) k' :
  live t (Some e) = Some e →
  view (<[k := e]> s) t k' = if decide (k = k') then Some e else view s t k'.
Proof. intros. unfold view. rewrite lookup_insert. by case_decide. Qed.

Lemma view_delete (s : redis) t (k k' : pystr) :
  view (delete k s) t k' = if decide (k = k') then None else view s t k'.
Proof. unfold view. rewrite lookup_delete. by case_decide. Qed.

Lemma redis_ok : RedisOk.
Proof.
  split; simpl.
  - intros. unfold view. by apply live_live.
  - intros. unfold view. by rewrite live_live.
  - intros. apply view_insert. by apply live_future.
  - intros s t k v ex k' Hex. unfold set_nx. destruct (view s t k) as [e|] eqn:E.
    + rewrite (bool_decide_eq_false_2 (Some e = None)) by done. split; [done|].
      by rewrite decide_False by naive_solver.
    + rewrite (bool_decide_eq_true_2 (None = None)) by done. split; [done|].
      unfold set. rewrite view_insert by by apply live_future.
      apply decide_ext. naive_solver.
  - intros s t k n k' H. unfold incr. rewrite H. split; [done|].
    apply view_insert, live_deadline.
  - intros s t k ex k' Hex. unfold expire. destruct (view s t k) as [[v d]|] eqn:E; simpl.
    + apply view_insert. by apply (live_future v t (Some ex)).
    + case_decide; [by subst|done].
  - intros. unfold view, del. rewrite lookup_del. by case_decide.
  - intros s t k m k' x H. unfold sadd. rewrite H. apply view_insert, live_deadline.
  - intros s t k m k' x H. unfold srem. rewrite H.
    case_decide; [apply view_delete | apply view_insert, live_deadline].
  - intros s t k l k' v H. unfold lpush. rewrite H. apply view_insert, live_deadline.
  - intros s t k l k' H. unfold rpop. rewrite H. split; [done|].
    case_decide; [apply view_delete | apply view_insert, live_deadline].
Qed.

Lemma bucket_ok : BucketOk.
Proof.
  split; simpl.
  - intros. apply lookup_insert.
  - intros. apply lookup_delete.
  - intros b p k. unfold list_prefix.
    rewrite list_elem_of_filter, elem_of_elements, elem_of_dom. done.
  - intros v. induction v; simpl; [done|]. by f_equal.
Qed.

Lemma password_ok : PasswordOk.
Proof. split; simpl. intros. by rewrite bool_decide_eq_true_2. Qed.

Lemma sql_ok : SqlOk.
Proof. split; simpl. intros l. symmetry. apply Permutation_rev. Qed.

Lemma services_ok : ServicesOk.
Proof.
  split; auto using clock_ok, keywrap_ok, gcm_ok, redis_ok, bucket_ok, password_ok, sql_ok.
Qed.
End laws.

Lemma calm_ok : ServicesOk (H := calm).
Proof. apply services_ok. done. Qed.

End Sim.
