(* ===== verification/Mail.v ===== *)
(** E-mail bodies ([services/email.py], [EmailRenderer]): the HTML comes from the
    Jinja templates, a parameter; the plain text is that HTML through
    [_strip_html], whose four regular expressions are written out here. *)
From S2P Require Import Prelude Text Services Format Sim.
#[local] Open Scope Z_scope.

(** * The matching the code asks of [re.sub] *)
Module Re.

(** [re.sub(pattern, repl, s)] for a pattern that never matches the empty
    string: [m s] is the length of its match at the start of [s]; what a match
    covered is skipped. *)
Fixpoint sub (m : pystr → option nat) (repl : pystr) (skip : nat) (s : pystr) : pystr :=
  match s with
  | [] => []
  | c :: s' =>
      match skip with
      | S k => sub m repl k s'
      | O => match m s with
             | Some (S k) => repl ++ sub m repl k s'
             | _ => c :: sub m repl 0 s'
             end
      end
  end.

(** The length of the longest prefix of [s] whose characters satisfy [p]. *)
Fixpoint run (p : Z → bool) (s : pystr) : nat :=
  match s with
  | c :: s' => if p c then S (run p s') else 0
  | [] => 0
  end.

(** A letter of the pattern under [re.IGNORECASE]: both cases, and for [i] also
    the dotted capital and the dotless small one. *)
Definition letter_eq (l c : Z) : bool :=
  (c =? l) || (c =? l - 32) || ((l =? 105) && ((c =? 304) || (c =? 305))).

(** A word of the pattern: letters ignore case, other characters do not. *)
Fixpoint word (w s : pystr) : option pystr :=
  match w with
  | [] => Some s
  | l :: w' =>
      match s with
      | c :: s' => if (if (97 <=? l) && (l <=? 122) then letter_eq l c else c =? l)
                   then word w' s' else None
      | [] => None
      end
  end.

(** [<br\s*/?>] after the word [<br]. *)
Definition br_end (s : pystr) : option nat :=
  let n := run is_space s in
  match drop n s with
  | 62 :: _ => Some (S n)
  | 47 :: 62 :: _ => Some (S (S n))
  | _ => None
  end.

(** [</p>|</div>|<br\s*/?>] *)
Definition paragraph_end (s : pystr) : option nat :=
  match word (u "</p>") s with
  | Some _ => Some 4%nat
  | None =>
      match word (u "</div>") s with
      | Some _ => Some 6%nat
      | None => match word (u "<br") s with
                | Some r => (λ n, 3 + n)%nat <$> br_end r
                | None => None
                end
      end
  end.

(** [<[^>]+>] *)
Definition tag (s : pystr) : option nat :=
  match s with
  | 60 :: s' =>
      let n := run (λ c, negb (c =? 62)) s' in
      if (0 <? Z.of_nat n) && (Z.of_nat n <? zlen s') then Some (S (S n)) else None
  | _ => None
  end.

Definition is_blank (c : Z) : bool := (c =? 32) || (c =? 9).

(** [[ \t]+] *)
Definition blanks (s : pystr) : option nat :=
  match run is_blank s with O => None | n => Some n end.

(** The position of the last newline among the leading white space. *)
Fixpoint last_newline (s : pystr) : option nat :=
  match s with
  | c :: s' =>
      if is_space c then
        match last_newline s' with
        | Some n => Some (S n)
        | None => if c =? 10 then Some 0%nat else None
        end
      else None
  | [] => None
  end.

(** [\n\s*\n]: greedy, then back to the last newline of the run. *)
Definition empty_lines (s : pystr) : option nat :=
  match s with
  | 10 :: s' => (λ n, S (S n)) <$> last_newline s'
  | _ => None
  end.

End Re.

(** * services/email.py *)
Module Mail.

Inductive Locale := RU | KK | EN.

(** The flows of [_SUBJECTS]. *)
Inductive Kind := Recipient | SenderConfirm | SenderDownloadNotice.

Definition locale_value (l : Locale) : pystr :=
  match l with RU => u "ru" | KK => u "kk" | EN => u "en" end.

(** The subjects, as code points: Russian, Kazakh and English. *)
Definition _SUBJECTS (l : Locale) (k : Kind) : pystr :=
  match l, k with
  | RU, Recipient =>
      [1042; 1072; 1084; 32; 1086; 1090; 1087; 1088; 1072; 1074; 1080; 1083; 1080; 32; 1092; 1072;
      1081; 1083; 1099; 32; 8212; 32; 70; 121; 108; 105; 120]
  | RU, SenderConfirm =>
      [1060; 1072; 1081; 1083; 1099; 32; 1079; 1072; 1075; 1088; 1091; 1078; 1077; 1085; 1099; 32;
      8212; 32; 70; 121; 108; 105; 120]
  | RU, SenderDownloadNotice =>
      [1042; 1072; 1096; 1080; 32; 1092; 1072; 1081; 1083; 1099; 32; 1089; 1082; 1072; 1095; 1072;
      1083; 1080; 32; 8212; 32; 70; 121; 108; 105; 120]
  | KK, Recipient =>
      [1057; 1110; 1079; 1075; 1077; 32; 1092; 1072; 1081; 1083; 1076; 1072; 1088; 32; 1078; 1110;
      1073; 1077; 1088; 1110; 1083; 1076; 1110; 32; 8212; 32; 70; 121; 108; 105; 120]
  | KK, SenderConfirm =>
      [1060; 1072; 1081; 1083; 1076; 1072; 1088; 32; 1078; 1199; 1082; 1090; 1077; 1083; 1076; 1110;
      32; 8212; 32; 70; 121; 108; 105; 120]
  | KK, SenderDownloadNotice =>
      [1060; 1072; 1081; 1083; 1076; 1072; 1088; 1099; 1187; 1099; 1079; 32; 1078; 1199; 1082; 1090;
      1077; 1087; 32; 1072; 1083; 1099; 1085; 1076; 1099; 32; 8212; 32; 70; 121; 108; 105; 120]
  | EN, Recipient =>
      [70; 105; 108; 101; 115; 32; 104; 97; 118; 101; 32; 98; 101; 101; 110; 32; 115; 101; 110; 116;
      32; 116; 111; 32; 121; 111; 117; 32; 8212; 32; 70; 121; 108; 105; 120]
  | EN, SenderConfirm =>
      [89; 111; 117; 114; 32; 116; 114; 97; 110; 115; 102; 101; 114; 32; 105; 115; 32; 114; 101; 97;
      100; 121; 32; 8212; 32; 70; 121; 108; 105; 120]
  | EN, SenderDownloadNotice =>
      [89; 111; 117; 114; 32; 102; 105; 108; 101; 115; 32; 119; 101; 114; 101; 32; 100; 111; 119;
      110; 108; 111; 97; 100; 101; 100; 32; 8212; 32; 70; 121; 108; 105; 120]
  end.

Definition _strip_html (html : pystr) : pystr :=
  let html := Re.sub Re.paragraph_end [10] 0 html in
  let text := Re.sub Re.tag [] 0 html in
  let text := Re.sub Re.blanks [32] 0 text in
  let text := Re.sub Re.empty_lines [10; 10] 0 text in
  strip text.

Section renderer.
Context {X : Services}.

Definition rendered (template : string) (l : Locale) (k : Kind) (ctx : list (pystr * json))
  : RenderedEmail :=
  let html := jinja_render (u template ++ u "." ++ locale_value l ++ u ".html") ctx in
  mkRenderedEmail (_SUBJECTS l k) html (_strip_html html).

Definition render_recipient (l : Locale) (sender_email : pystr) (message : option pystr)
    (download_url : pystr) (file_count total_bytes : Z) (expires_at : datetime) : RenderedEmail :=
  rendered "recipient" l Recipient
    [(u "sender_email", JStr sender_email);
     (u "message", ojson message);
     (u "download_url", JStr download_url);
     (u "file_count", JInt file_count);
     (u "total_mb", JStr (fixed1 total_bytes (1024 * 1024)));
     (u "expires_at", JStr (Calendar.strftime_minute expires_at))].

Definition render_sender_confirm (l : Locale) (download_url : pystr) (recipients : list pystr)
    (file_count : Z) (expires_at : datetime) : RenderedEmail :=
  rendered "sender_confirm" l SenderConfirm
    [(u "download_url", JStr download_url);
     (u "recipients", JArr (JStr <$> recipients));
     (u "file_count", JInt file_count);
     (u "expires_at", JStr (Calendar.strftime_minute expires_at))].

Definition render_download_notice (l : Locale) (download_ip : pystr)
    (download_country : option pystr) (file_count : Z) (at_ : datetime) : RenderedEmail :=
  rendered "sender_download_notice" l SenderDownloadNotice
    [(u "download_ip", JStr download_ip);
     (u "download_country", JStr (match download_country with
                                  | Some ((_ :: _) as c) => c | _ => [8212] end));
     (u "file_count", JInt file_count);
     (u "at", JStr (Calendar.strftime_minute at_))].

End renderer.
End Mail.

(** ** The connection of [SmtpSender] *)
Module SmtpSender.

Record t := mk {
  host : pystr; port : Z; user : pystr; password : pystr; sender : pystr; verify_cert : bool
}.

(** What the code sets of an [ssl.SSLContext]. *)
Record SSLContext := mkSSLContext { check_hostname : bool; verify_mode_required : bool }.

(** [ssl.create_default_context()] *)
Definition create_default_context : SSLContext := mkSSLContext true true.

(** [None] leaves the library its own, validating context. *)
Definition _tls_context (s : t) : option SSLContext :=
  if verify_cert s then None
  else
    let ctx := create_default_context in
    let ctx := mkSSLContext false (verify_mode_required ctx) in
    let ctx := mkSSLContext (check_hostname ctx) false in
    Some ctx.

(** The keyword arguments of [aiosmtplib.send]; [tls_context] is passed only
    when there is TLS to use it. *)
Record kwargs := mkKwargs {
  hostname : pystr; kw_port : Z; username : option pystr; kw_password : option pystr;
  use_tls : bool; start_tls : bool; timeout : Z; tls_context : option SSLContext
}.

Definition or_none (s : pystr) : option pystr := if nonempty s then Some s else None.

Definition send_kwargs (s : t) : kwargs :=
  let use_tls := port s =? 465 in
  let start_tls := port s =? 587 in
  mkKwargs (host s) (port s) (or_none (user s)) (or_none (password s)) use_tls start_tls 30
    (match _tls_context s with
     | Some ctx => if use_tls || start_tls then Some ctx else None
     | None => None
     end).

(** The TLS policy of the class: implicit TLS on 465, STARTTLS on 587, never
    both, plain text on other ports; the peer goes unverified exactly when
    [verify_cert] is off and the connection has TLS. *)
Theorem tls_policy s :
  let k := send_kwargs s in
  (use_tls k = true ↔ port s = 465) ∧ (start_tls k = true ↔ port s = 587) ∧
  use_tls k && start_tls k = false ∧
  (tls_context k = None ↔ verify_cert s = true ∨ (port s ≠ 465 ∧ port s ≠ 587)) ∧
  (∀ ctx, tls_context k = Some ctx → check_hostname ctx = false ∧ verify_mode_required ctx = false).
Proof.
  cbn. unfold _tls_context. destruct (verify_cert s), (Z.eqb_spec (port s) 465), (Z.eqb_spec (port s) 587);
    cbn; naive_solver lia.
Qed.

End SmtpSender.

(** * What [_strip_html] leaves *)

Module MailFacts.
Import Re.

(** Matches consume a prefix that is not empty. *)
Lemma sub_skip m r k s : sub m r k s = sub m r 0 (drop k s).
Proof.
  revert k. induction s as [|c s IH]; intros [|k]; try done. simpl. by rewrite (IH k).
Qed.

Lemma sub_cons m r c s :
  sub m r 0 (c :: s) =
  match m (c :: s) with Some (S k) => r ++ sub m r 0 (drop k s) | _ => c :: sub m r 0 s end.
Proof. simpl. destruct (m (c :: s)) as [[|k]|]; [done| |done]. by rewrite sub_skip. Qed.

Lemma sub_none m r c s : m (c :: s) = None → sub m r 0 (c :: s) = c :: sub m r 0 s.
Proof. intros H. by rewrite sub_cons, H. Qed.

(** Induction along the matches of [sub]. *)
Lemma sub_ind m r (P : pystr → pystr → Prop) :
  P [] [] →
  (∀ c s, (m (c :: s) = None ∨ m (c :: s) = Some 0%nat) → P s (sub m r 0 s) →
     P (c :: s) (c :: sub m r 0 s)) →
  (∀ c s k, m (c :: s) = Some (S k) → P (drop k s) (sub m r 0 (drop k s)) →
     P (c :: s) (r ++ sub m r 0 (drop k s))) →
  ∀ s, P s (sub m r 0 s).
Proof.
  intros H0 H1 H2 s. remember (length s) as n eqn:Hn. revert s Hn.
  induction n as [n IH] using lt_wf_ind. intros [|c s] ->; [done|]. rewrite sub_cons.
  destruct (m (c :: s)) as [[|k]|] eqn:E.
  - apply H1; [auto|]. apply (IH (length s)); simpl; [lia|done].
  - apply H2; [done|]. apply (IH (length (drop k s))); [|done]. rewrite length_drop. simpl. lia.
  - apply H1; [auto|]. apply (IH (length s)); simpl; [lia|done].
Qed.

(** A predicate that holds of a text and of its suffixes. *)
Definition everywhere (P : pystr → Prop) (s : pystr) : Prop := ∀ pre t, s = pre ++ t → P t.

Lemma everywhere_cons P c s : everywhere P (c :: s) ↔ P (c :: s) ∧ everywhere P s.
Proof.
  split.
  - intros H. split; [by apply (H [])|]. intros pre t ->. by apply (H (c :: pre)).
  - intros [H1 H2] [|c' pre] t E; simpl in E; [by subst|]. injection E as <- ->. by eapply H2.
Qed.

Lemma everywhere_nil (P : pystr → Prop) : P [] → everywhere P [].
Proof. intros H [|? ?] t E; [simpl in E; by subst|done]. Qed.

Lemma everywhere_suffix P pre s : everywhere P (pre ++ s) → everywhere P s.
Proof. intros H pre' t ->. apply (H (pre ++ pre')). by rewrite <- app_assoc. Qed.

(** Where every match is replaced by itself, nothing changes. *)
Lemma sub_id m r s :
  everywhere (λ t, m t = None ∨ ∃ n, m t = Some (S n) ∧ t = r ++ drop (S n) t) s →
  sub m r 0 s = s.
Proof.
  apply (sub_ind m r (λ s o, everywhere _ s → o = s)).
  - done.
  - intros c s' _ IH [_ H]%everywhere_cons. by rewrite IH.
  - intros c s' k E IH H. rewrite IH.
    + apply everywhere_cons in H as [[H|(n & Hn & Ht)] _]; [congruence|].
      rewrite E in Hn. injection Hn as ->. simpl in Ht. by rewrite <- Ht.
    + apply (everywhere_suffix _ (c :: take k s')). simpl. by rewrite take_drop.
Qed.

(** ** What is visible only comes from the source *)

Definition visible (s : pystr) : pystr := filter (λ c, is_space c = false) s.

Lemma visible_app a b : visible (a ++ b) = visible a ++ visible b.
Proof. apply filter_app. Qed.

Lemma visible_drop k s : visible (drop k s) `sublist_of` visible s.
Proof.
  rewrite <- (take_drop k s) at 2. rewrite visible_app. apply sublist_inserts_l. reflexivity.
Qed.

Lemma sub_visible m r s : visible r = [] → visible (sub m r 0 s) `sublist_of` visible s.
Proof.
  intros Hr. apply (sub_ind m r (λ s o, visible o `sublist_of` visible s)).
  - reflexivity.
  - intros c s' _ IH. change (visible ([c] ++ sub m r 0 s') `sublist_of` visible ([c] ++ s')).
    rewrite !visible_app. by apply sublist_app.
  - intros c s' k _ IH. rewrite visible_app, Hr. simpl. etrans; [exact IH|].
    etrans; [apply visible_drop|]. change (c :: s') with ([c] ++ s'). rewrite visible_app.
    apply sublist_inserts_l. reflexivity.
Qed.

Lemma sub_notin m r x s : x ∉ r → x ∉ s → x ∉ sub m r 0 s.
Proof.
  intros Hr. apply (sub_ind m r (λ s o, x ∉ s → x ∉ o)).
  - done.
  - intros c s' _ IH [? ?]%not_elem_of_cons. apply not_elem_of_cons. auto.
  - intros c s' k _ IH [_ H]%not_elem_of_cons. rewrite elem_of_app. intros [?|Hx]; [done|].
    apply IH; [|done]. intros Hd. apply H. rewrite <- (take_drop k s'). apply elem_of_app. by right.
Qed.

(** ** No markup is left *)

Lemma run_lt p s : (run p s < length s)%nat ↔ ∃ c, c ∈ s ∧ p c = false.
Proof.
  induction s as [|c s IH]; simpl.
  - split; [lia|]. intros (c & []%not_elem_of_nil & _).
  - destruct (p c) eqn:E.
    + rewrite <- Nat.succ_lt_mono, IH. split; intros (x & Hx & Hp); exists x; (split; [|done]).
      * by right.
      * apply elem_of_cons in Hx as [->|?]; [congruence|done].
    + split; [|lia]. intros _. exists c. split; [left|done].
Qed.

Lemma tag_none s : tag (60 :: s) = None ↔ head s = Some 62 ∨ 62 ∉ s.
Proof.
  unfold tag. set (p := λ c, negb (c =? 62)).
  assert (Hp : ∀ c, p c = false ↔ c = 62) by (intros c; unfold p; by rewrite negb_false_iff, Z.eqb_eq).
  assert (Hz : (0 <? Z.of_nat (run p s)) = false ↔ s = [] ∨ head s = Some 62).
  { destruct s as [|c s]; simpl; [naive_solver|]. destruct (p c) eqn:E.
    - split; [intros ?%Z.ltb_ge; lia|]. intros [?|[= ->]]; [done|]. by rewrite (proj2 (Hp 62)) in E.
    - apply Hp in E as ->. naive_solver. }
  assert (Hl : (Z.of_nat (run p s) <? zlen s) = false ↔ 62 ∉ s).
  { unfold zlen. split.
    - intros H Hin. assert (run p s < length s)%nat; [|lia]. apply run_lt. exists 62. by rewrite Hp.
    - intros H. apply Z.ltb_ge. assert (¬ (run p s < length s)%nat); [|lia].
      rewrite run_lt. intros (c & Hc & ->%Hp). done. }
  destruct (0 <? _) eqn:E1; cbn [andb].
  - destruct (_ <? zlen s) eqn:E2.
    + split; [done|]. intros [H|H]; [by apply proj2 in Hz; discriminate Hz; right|].
      by apply Hl in H.
    + split; [|done]. intros _. right. by apply Hl.
  - split; [|done]. intros _. destruct (proj1 Hz eq_refl) as [->|?]; [right|by left].
    apply not_elem_of_nil.
Qed.

Definition untagged : pystr → Prop := everywhere (λ t, tag t = None).

Lemma untagged_cons c s :
  untagged (c :: s) ↔ (c = 60 → head s = Some 62 ∨ 62 ∉ s) ∧ untagged s.
Proof.
  unfold untagged. rewrite everywhere_cons, <- tag_none. split.
  - intros [H ?]. split; [|done]. by intros ->.
  - intros [H ?]. split; [|done]. destruct (decide (c = 60)) as [->|Hc]; [by apply H|].
    destruct c as [|q|]; try done. do 6 (destruct q as [q|q|]; try done).
Qed.

Lemma untagged_nil : untagged [].
Proof. by apply everywhere_nil. Qed.

Lemma tags_gone s : untagged (sub tag [] 0 s).
Proof.
  apply (sub_ind tag [] (λ s o, untagged o)); [apply untagged_nil| |done].
  intros c s' E IH. apply untagged_cons. split; [|done]. intros ->.
  assert (E' : tag (60 :: s') = None).
  { destruct E as [|E]; [done|]. unfold tag in E. by case_match. }
  apply tag_none in E' as [H|H].
  - destruct s' as [|c' s'']; [done|]. simpl in H. injection H as ->. left. by rewrite sub_none.
  - right. apply sub_notin; [apply not_elem_of_nil|done].
Qed.

Lemma untagged_app r s : 60 ∉ r → untagged s → untagged (r ++ s).
Proof.
  intros H Hs. induction r as [|x r IH]; [done|]. apply not_elem_of_cons in H as [? ?].
  simpl. apply untagged_cons. split; [congruence|auto].
Qed.

Lemma sub_untagged m r s :
  60 ∉ r → 62 ∉ r → (∀ t, m (62 :: t) = None) → untagged s → untagged (sub m r 0 s).
Proof.
  intros H60 H62 Hm. apply (sub_ind m r (λ s o, untagged s → untagged o)).
  - done.
  - intros c s' _ IH [H Hs]%untagged_cons. apply untagged_cons. split; [|auto]. intros Hc.
    destruct (H Hc) as [Hh|Hn]; [left|right; by apply sub_notin].
    destruct s' as [|c' s'']; [done|]. simpl in Hh. injection Hh as ->. by rewrite sub_none.
  - intros c s' k _ IH Hs. specialize (IH (everywhere_suffix _ (c :: take k s') _
      ltac:(simpl; by rewrite take_drop))).
    by apply untagged_app.
Qed.

(** What ends a paragraph is a tag. *)
Lemma tag_some c s : c ≠ 62 → 62 ∈ s → tag (60 :: c :: s) ≠ None.
Proof. intros Hc Hs [[= ?]|H]%tag_none; [done|]. apply H. by right. Qed.

Lemma word_62 w s r : word w s = Some r → 62 ∈ w ∨ 62 ∈ r → 62 ∈ s.
Proof.
  revert s. induction w as [|l w IH]; intros s; simpl.
  - intros [= ->] [?%not_elem_of_nil|?]; done.
  - destruct s as [|c s]; [done|]. case_match eqn:E; [|done]. intros Hw.
    rewrite !elem_of_cons. intros [[<-|H]|H]; [left|right; apply (IH s Hw); auto..].
    symmetry. by apply Z.eqb_eq.
Qed.

Lemma word_tag l w s r :
  word (60 :: l :: w) s = Some r → l ∈ [47; 98] → 62 ∈ w ∨ 62 ∈ r → tag s ≠ None.
Proof.
  destruct s as [|c s]; [done|]. simpl. destruct (c =? 60) eqn:E1; [|done].
  apply Z.eqb_eq in E1 as ->. destruct s as [|c s]; [done|]. case_match eqn:E2; [|done].
  intros Hw Hl H. apply tag_some; [|by apply (word_62 w s r)]. intros ->. revert E2.
  apply elem_of_cons in Hl as [->|[->|[]%not_elem_of_nil]%elem_of_cons]; done.
Qed.

Lemma br_end_62 s n : br_end s = Some n → 62 ∈ s.
Proof.
  unfold br_end. intros H. assert (H' : 62 ∈ drop (run is_space s) s).
  { destruct (drop _ s) as [|c t]; [done|].
    destruct (decide (c = 62)) as [->|Hc]; [by left|]. destruct (decide (c = 47)) as [->|Hc'].
    - destruct t as [|c2 t]; [done|]. destruct (decide (c2 = 62)) as [->|Hc2]; [right; by left|].
      exfalso. destruct c2 as [|q|]; try done. do 6 (destruct q as [q|q|]; try done).
    - exfalso. destruct c as [|q|]; try done. do 6 (destruct q as [q|q|]; try done). }
  rewrite <- (take_drop (run is_space s) s). apply elem_of_app. by right.
Qed.

Lemma paragraph_tag s : tag s = None → paragraph_end s = None.
Proof.
  intros Ht. unfold paragraph_end.
  destruct (word (u "</p>") s) eqn:E1.
  { exfalso. eapply (word_tag 47); [exact E1|set_solver| |done]. left. vm_compute. set_solver. }
  destruct (word (u "</div>") s) eqn:E2.
  { exfalso. eapply (word_tag 47); [exact E2|set_solver| |done]. left. vm_compute. set_solver. }
  destruct (word (u "<br") s) as [r|] eqn:E3; [|done]. destruct (br_end r) eqn:E4; [|done].
  exfalso. eapply (word_tag 98); [exact E3|set_solver| |done]. right. by eapply br_end_62.
Qed.

Lemma untagged_paragraphs s : untagged s → sub paragraph_end [10] 0 s = s.
Proof. intros H. apply sub_id. intros pre t E. left. by apply paragraph_tag, (H pre). Qed.

Lemma untagged_tags s : untagged s → sub tag [] 0 s = s.
Proof. intros H. apply sub_id. intros pre t E. left. by apply (H pre). Qed.

(** ** Blanks are single spaces *)

Fixpoint single (s : pystr) : Prop :=
  match s with
  | [] => True
  | c :: s' => (is_blank c = true → c = 32 ∧ run is_blank s' = 0%nat) ∧ single s'
  end.

Lemma single_app a b : single (a ++ b) → single a ∧ single b.
Proof.
  induction a as [|c a IH]; [done|]. intros [H Ha]. destruct (IH Ha) as [H1 H2].
  split; [|done]. split; [|done]. intros Hc. destruct (H Hc) as [-> Hr]. split; [done|].
  destruct a as [|c' a]; [done|]. simpl in *. by case_match.
Qed.

Lemma run_drop p s : run p (drop (run p s) s) = 0%nat.
Proof. induction s as [|c s IH]; [done|]. simpl. destruct (p c) eqn:E; simpl; [done|by rewrite E]. Qed.

Lemma blanks_none c s : (blanks (c :: s) = None ∨ blanks (c :: s) = Some 0%nat) → is_blank c = false.
Proof. unfold blanks. simpl. destruct (is_blank c); [intros [?|?]; done|done]. Qed.

Lemma run_sub p m r s :
  (∀ c t, p c = false → m (c :: t) = None) → run p s = 0%nat → run p (sub m r 0 s) = 0%nat.
Proof.
  intros Hm H. destruct s as [|c s]; [done|]. simpl in H. destruct (p c) eqn:E; [done|].
  rewrite sub_none by auto. simpl. by rewrite E.
Qed.

Lemma blanks_single s : single (sub blanks [32] 0 s).
Proof.
  apply (sub_ind blanks [32] (λ s o, single o)); [done| |].
  - intros c s' ?%blanks_none IH. split; [congruence|done].
  - intros c s' k E IH. simpl. split; [|done]. intros _. split; [done|].
    apply run_sub; [intros ? ? Hc; unfold blanks; simpl; by rewrite Hc|].
    unfold blanks in E. simpl in E. destruct (is_blank c); [|done]. injection E as <-. apply run_drop.
Qed.

Lemma single_blanks s : single s → sub blanks [32] 0 s = s.
Proof.
  intros H. apply sub_id. intros pre t ->. apply single_app in H as [_ H].
  destruct t as [|c t]; [by left|]. destruct H as [H _]. unfold blanks. simpl.
  destruct (is_blank c); [|by left]. right. destruct (H eq_refl) as [-> ->]. by exists 0%nat.
Qed.

(** ** At most one empty line in a row *)

Fixpoint spaced (s : pystr) : Prop :=
  match s with
  | [] => True
  | c :: s' => (c = 10 → last_newline s' = None ∨ last_newline s' = Some 0%nat) ∧ spaced s'
  end.

Lemma last_newline_app a b n :
  last_newline a = Some n → ∃ m, last_newline (a ++ b) = Some m ∧ (n ≤ m)%nat.
Proof.
  revert n. induction a as [|c a IH]; intros n; simpl; [done|]. destruct (is_space c); [|done].
  destruct (last_newline a) as [k|].
  - intros [= <-]. destruct (IH k eq_refl) as (m & -> & ?). eexists. split; [done|lia].
  - destruct (c =? 10); [|done]. intros [= <-]. case_match; eexists; (split; [done|lia]).
Qed.

Lemma spaced_app a b : spaced (a ++ b) → spaced a ∧ spaced b.
Proof.
  induction a as [|c a IH]; [done|]. intros [H Ha]. destruct (IH Ha) as [H1 H2].
  split; [|done]. split; [|done]. intros Hc. specialize (H Hc).
  destruct (last_newline a) as [n|] eqn:E; [|by left]. right.
  destruct (last_newline_app a b n E) as (m & Hm & Hle). rewrite Hm in H.
  destruct H as [H|H]; [done|]. injection H as ->. f_equal. lia.
Qed.

Lemma last_newline_drop s n : last_newline s = Some n → last_newline (drop (S n) s) = None.
Proof.
  revert n. induction s as [|c s IH]; intros n; simpl; [done|]. destruct (is_space c); [|done].
  destruct (last_newline s) as [k|] eqn:E; [intros [= <-]; by apply IH|].
  case_match; [|done]. by intros [= <-].
Qed.

Lemma empty_lines_other c s : c ≠ 10 → empty_lines (c :: s) = None.
Proof. intros H. destruct c as [|q|]; try done. do 4 (destruct q as [q|q|]; try done). Qed.

Lemma last_newline_sub s : last_newline s = None → last_newline (sub empty_lines [10; 10] 0 s) = None.
Proof.
  induction s as [|c s IH]; [done|]. intros H. simpl in H. destruct (is_space c) eqn:E.
  - destruct (last_newline s); [done|]. destruct (c =? 10) eqn:E1; [done|]. zbool.
    rewrite sub_none by by apply empty_lines_other. simpl. rewrite E, IH by done.
    by apply Z.eqb_neq in E1 as ->.
  - rewrite sub_none by (apply empty_lines_other; intros ->; discriminate E). simpl. by rewrite E.
Qed.

Lemma lines_spaced s : spaced (sub empty_lines [10; 10] 0 s).
Proof.
  apply (sub_ind empty_lines [10; 10] (λ s o, spaced o)); [done| |].
  - intros c s' E IH. split; [|done]. intros ->. left. apply last_newline_sub.
    destruct E as [E|E]; simpl in E; by destruct (last_newline s').
  - intros c s' k E IH. destruct (decide (c = 10)) as [->|?]; [|by rewrite empty_lines_other in E].
    simpl in E. destruct (last_newline s') as [n|] eqn:En; [|done]. injection E as <-.
    assert (Hn : last_newline (sub empty_lines [10; 10] 0 (drop (S n) s')) = None)
      by by apply last_newline_sub, last_newline_drop.
    cbn [app spaced]. split; [|split; [by left|done]]. intros _. right.
    cbn [last_newline]. by rewrite Hn.
Qed.

Lemma spaced_lines s : spaced s → sub empty_lines [10; 10] 0 s = s.
Proof.
  intros H. apply sub_id. intros pre t ->. apply spaced_app in H as [_ H].
  destruct t as [|c t]; [by left|]. destruct (decide (c = 10)) as [->|?]; [|left; by apply empty_lines_other].
  destruct H as [H _]. simpl. destruct (H eq_refl) as [E|E]; rewrite E; [by left|]. right.
  exists 1%nat. split; [done|]. destruct t as [|c t]; [done|]. simpl in E. simpl.
  rewrite drop_0. destruct (is_space c); [|done]. destruct (last_newline t); [done|].
  destruct (c =? 10) eqn:E1; [|done]. by apply Z.eqb_eq in E1 as ->.
Qed.

(** Empty lines are rewritten without making blanks meet. *)
Lemma lines_single s : single s → single (sub empty_lines [10; 10] 0 s).
Proof.
  apply (sub_ind empty_lines [10; 10] (λ s o, single s → single o)); [done| |].
  - intros c s' _ IH [H Hs]. split; [|by apply IH]. intros Hc. destruct (H Hc) as [-> Hr].
    split; [done|]. destruct s' as [|c' s'']; [done|]. simpl in Hr.
    destruct (is_blank c') eqn:E; [done|]. rewrite sub_cons.
    destruct (empty_lines (c' :: s'')) as [[|k]|]; simpl; by rewrite ?E.
  - intros c s' k _ IH H. cbn [app single]. split; [done|]. split; [done|]. apply IH.
    change (single ([c] ++ s')) in H. apply single_app in H as [_ H].
    rewrite <- (take_drop k s') in H. by apply single_app in H as [_ ?].
Qed.

(** ** [strip] *)

Lemma lstrip_split p s : ∃ pre, s = pre ++ lstrip_by p s ∧ run p (lstrip_by p s) = 0%nat.
Proof.
  induction s as [|c s (pre & E & H)]; [by exists []|]. simpl. destruct (p c) eqn:Ep.
  - exists (c :: pre). simpl. by rewrite <- E.
  - exists []. simpl. by rewrite Ep.
Qed.

Lemma lstrip_fixed p s : run p s = 0%nat → lstrip_by p s = s.
Proof. destruct s as [|c s]; [done|]. simpl. by destruct (p c). Qed.

Lemma rstrip_split p s : ∃ post, s = rstrip_by p s ++ post ∧ rstrip_by p (rstrip_by p s) = rstrip_by p s.
Proof.
  destruct (lstrip_split p (rev s)) as (pre & E & H). exists (rev pre). unfold rstrip_by.
  rewrite rev_involutive, <- rev_app_distr, <- E, rev_involutive. split; [done|].
  by rewrite lstrip_fixed.
Qed.

Lemma strip_split s : ∃ pre post, s = pre ++ strip s ++ post ∧ strip (strip s) = strip s.
Proof.
  unfold strip, strip_by. destruct (lstrip_split is_space s) as (pre & E & H).
  set (t := lstrip_by is_space s) in *. destruct (rstrip_split is_space t) as (post & Et & Hr).
  exists pre, post. rewrite <- Et. split; [done|]. rewrite (lstrip_fixed _ (rstrip_by is_space t)); [done|].
  destruct (rstrip_by is_space t) as [|c t'] eqn:Ec; [done|]. rewrite Et in H. simpl in H.
  simpl. by case_match.
Qed.

End MailFacts.

Section mail_theorems.
Import Re MailFacts.

(** Each of the first four steps leaves the guarantees of those before. *)
Lemma strip_html_steps h :
  let o := Mail._strip_html h in
  untagged o ∧ single o ∧ spaced o ∧ strip o = o ∧ visible o `sublist_of` visible h.
Proof.
  unfold Mail._strip_html.
  set (h1 := sub paragraph_end [10] 0 h). set (h2 := sub tag [] 0 h1).
  set (h3 := sub blanks [32] 0 h2). set (h4 := sub empty_lines [10; 10] 0 h3).
  assert (H3 : untagged h3) by
    (apply sub_untagged; [set_solver|set_solver|done|apply tags_gone]).
  assert (H4 : untagged h4) by (apply sub_untagged; [set_solver|set_solver|done|done]).
  assert (S4 : single h4) by apply lines_single, blanks_single.
  assert (L4 : spaced h4) by apply lines_spaced.
  assert (V4 : visible h4 `sublist_of` visible h).
  { etrans; [by apply sub_visible|]. etrans; [by apply sub_visible|].
    etrans; [by apply sub_visible|]. by apply sub_visible. }
  destruct (strip_split h4) as (pre & post & E & Hs). rewrite E in H4, S4, L4, V4.
  set (o := strip h4) in *. split; [|split; [|split; [|split; [done|]]]].
  - apply everywhere_suffix in H4. intros a t ->. rewrite <- app_assoc in H4.
    apply everywhere_suffix in H4. destruct t as [|c t]; [done|].
    destruct (decide (c = 60)) as [->|Hc].
    + apply tag_none. simpl in H4. apply untagged_cons in H4 as [H _].
      destruct (H eq_refl) as [Hh|Hn]; [|right; set_solver].
      destruct t as [|c t]; [right; apply not_elem_of_nil|by left].
    + destruct c as [|q|]; try done. do 6 (destruct q as [q|q|]; try done).
  - by apply single_app in S4 as [_ [S4 _]%single_app].
  - by apply spaced_app in L4 as [_ [L4 _]%spaced_app].
  - etrans; [|exact V4]. rewrite !visible_app. apply sublist_inserts_l, sublist_inserts_r.
    reflexivity.
Qed.

(** the plain text of an e-mail.  Whatever HTML the templates produce, the
    text made from it has no markup left (behind a [<] there is nothing up to a
    later [>], except in [<>]), no tab and no two spaces in a row; its visible
    characters are some of those of the HTML, in their order; and text that has
    been through [_strip_html] goes through it unchanged. *)
Theorem strip_html_spec h :
  let o := Mail._strip_html h in
  (∀ a c b, o = a ++ 60 :: c :: b → c ≠ 62 → 62 ∉ b) ∧
  (∀ a b, o ≠ a ++ 9 :: b) ∧ (∀ a b, o ≠ a ++ 32 :: 32 :: b) ∧
  visible o `sublist_of` visible h ∧
  Mail._strip_html o = o.
Proof.
  destruct (strip_html_steps h) as (Ht & Hb & Hl & Hs & Hv). cbv zeta.
  set (o := Mail._strip_html h) in *. split; [|split; [|split; [|split; [done|]]]].
  - intros a c b E Hc Hin. rewrite E in Ht. apply everywhere_suffix, untagged_cons in Ht as [H _].
    destruct (H eq_refl) as [[= ?]|Hn]; [done|]. apply Hn. by right.
  - intros a b E. rewrite E in Hb. apply single_app in Hb as [_ [H _]]. by destruct (H eq_refl).
  - intros a b E. rewrite E in Hb. apply single_app in Hb as [_ [H _]]. by destruct (H eq_refl).
  - unfold Mail._strip_html. rewrite untagged_paragraphs, untagged_tags by done.
    by rewrite single_blanks, spaced_lines.
Qed.

(** Entities of the HTML are not decoded: the text part shows them. *)
Example entities_stay : Mail._strip_html (u "<p>Tom &amp; Jerry</p>") = u "Tom &amp; Jerry".
Proof. vm_compute. reflexivity. Qed.

End mail_theorems.
