(* ===== verification/Envelope.v ===== *)
(** Envelope encryption: [crypto/envelope.py] (per-transfer file keys),
    [crypto/master_key.py] (loading the master key) and the TOTP and Telegram
    secret envelopes of [services/auth.py]. *)
From S2P Require Import Prelude Text Services Sim.

(** * crypto/envelope.py *)
Module Envelope.
Section envelope.
Context {X : Services}.

Definition _KEY_LEN : Z := 32.

Definition _assert_key_len (key : bytes) : res unit :=
  if zlen key =? _KEY_LEN then Ok tt else Err EnvelopeError.

Definition wrap_key (master_key file_key : bytes) : res bytes :=
  _assert_key_len master_key;;
  _assert_key_len file_key;;
  Ok (aes_key_wrap master_key file_key).

Definition unwrap_key (master_key wrapped : bytes) (previous_master_key : option bytes)
  : res bytes :=
  _assert_key_len master_key;;
  match previous_master_key with
  | Some p => _assert_key_len p
  | None => Ok tt
  end;;
  if negb (zlen wrapped =? _KEY_LEN + 8) then Err EnvelopeError
  else match aes_key_unwrap master_key wrapped with
       | Some k => Ok k
       | None =>
           match previous_master_key with
           | None => Err EnvelopeError
           | Some p =>
               match aes_key_unwrap p wrapped with
               | Some k => Ok k
               | None => Err EnvelopeError
               end
           end
       end.

End envelope.
End Envelope.

(** * crypto/master_key.py *)
Module MasterKey.

(** What the loader sees at a path: nothing, something that is not a regular
    file, or a file with its permission bits and contents. *)
Inductive node := Missing | NotFile | File (st_mode : Z) (data : bytes).

Definition _EXPECTED_LEN : Z := 32.
Definition _ALLOWED_MODE_MASK : Z := 511.
Definition S_IRGRP : Z := 32.
Definition S_IROTH : Z := 4.
Definition S_IWGRP : Z := 16.
Definition S_IWOTH : Z := 2.

Definition load_master_key (path : node) (enforce_perms : bool) : res bytes :=
  match path with
  | Missing | NotFile => Err MasterKeyError
  | File st_mode data =>
      let mode := Z.land st_mode _ALLOWED_MODE_MASK in
      let broad := Z.lor (Z.lor (Z.lor S_IRGRP S_IROTH) S_IWGRP) S_IWOTH in
      if enforce_perms && negb (Z.land mode broad =? 0) then Err MasterKeyError
      else if negb (zlen data =? _EXPECTED_LEN) then Err MasterKeyError
      else Ok data
  end.

End MasterKey.

(** * services/auth.py: length-prefixed secrets in an AES-KW envelope *)
Module Secrets.
Section secrets.
Context {X : Services}.

Definition _MASTER_KEY_LEN : Z := 32.
Definition _TOTP_BLOCK : Z := 40.
Definition _TOTP_WRAPPED : Z := _TOTP_BLOCK + 8.
Definition _TOTP_SECRET_MAX : Z := _TOTP_BLOCK - 1.

Definition zeros (n : Z) : bytes := replicate (Z.to_nat n) 0.

Definition wrap_totp_secret (master_key : bytes) (secret : pystr) : res bytes :=
  if negb (zlen master_key =? _MASTER_KEY_LEN) then Err EnvelopeError
  else
    raw ← utf8_encode secret;
    if zlen raw >? _TOTP_SECRET_MAX then Err ValueError
    else
      let padded := [zlen raw] ++ raw ++ zeros (_TOTP_BLOCK - 1 - zlen raw) in
      if negb (zlen padded =? _TOTP_BLOCK) then Err AssertionError
      else Ok (aes_key_wrap master_key padded).

Definition unwrap_totp_secret (master_key wrapped : bytes)
    (previous_master_key : option bytes) : res pystr :=
  if negb (zlen master_key =? _MASTER_KEY_LEN) then Err EnvelopeError
  else if (match previous_master_key with
           | Some p => negb (zlen p =? _MASTER_KEY_LEN)
           | None => false end) then Err EnvelopeError
  else if negb (zlen wrapped =? _TOTP_WRAPPED) then Err EnvelopeError
  else
    padded ← match aes_key_unwrap master_key wrapped with
             | Some p => Ok p
             | None =>
                 match previous_master_key with
                 | None => Err EnvelopeError
                 | Some prev =>
                     match aes_key_unwrap prev wrapped with
                     | Some p => Ok p
                     | None => Err EnvelopeError
                     end
                 end
             end;
    if negb (zlen padded =? _TOTP_BLOCK) then Err AssertionError
    else
      let length := default 0 (head padded) in
      if length >? _TOTP_SECRET_MAX then Err ValueError
      else utf8_decode (take (Z.to_nat length) (tail padded)).

Definition is_wrapped_totp (data : bytes) : bool := zlen data =? _TOTP_WRAPPED.

Definition _TG_BLOCK : Z := 256.
Definition _TG_WRAPPED : Z := _TG_BLOCK + 8.
Definition _TG_TOKEN_MAX : Z := _TG_BLOCK - 1.

Definition wrap_telegram_token (master_key : bytes) (token : pystr) : res bytes :=
  if negb (zlen master_key =? _MASTER_KEY_LEN) then Err EnvelopeError
  else
    raw ← utf8_encode token;
    if zlen raw >? _TG_TOKEN_MAX then Err ValueError
    else
      let padded := [zlen raw] ++ raw ++ zeros (_TG_BLOCK - 1 - zlen raw) in
      if negb (zlen padded =? _TG_BLOCK) then Err AssertionError
      else Ok (aes_key_wrap master_key padded).

Definition unwrap_telegram_token (master_key wrapped : bytes)
    (previous_master_key : option bytes) : res pystr :=
  if negb (zlen master_key =? _MASTER_KEY_LEN) then Err EnvelopeError
  else if (match previous_master_key with
           | Some p => negb (zlen p =? _MASTER_KEY_LEN)
           | None => false end) then Err EnvelopeError
  else if negb (zlen wrapped =? _TG_WRAPPED) then Err EnvelopeError
  else
    padded ← match aes_key_unwrap master_key wrapped with
             | Some p => Ok p
             | None =>
                 match previous_master_key with
                 | None => Err EnvelopeError
                 | Some prev =>
                     match aes_key_unwrap prev wrapped with
                     | Some p => Ok p
                     | None => Err EnvelopeError
                     end
                 end
             end;
    if negb (zlen padded =? _TG_BLOCK) then Err AssertionError
    else
      let length := default 0 (head padded) in
      if length >? _TG_TOKEN_MAX then Err ValueError
      else utf8_decode (take (Z.to_nat length) (tail padded)).

Definition is_wrapped_telegram_token (data : bytes) : bool := zlen data =? _TG_WRAPPED.

End secrets.
End Secrets.

(** * Theorems *)

Section envelope_facts.
Context {X : Services} {XOk : ServicesOk}.
Import Envelope Secrets.

Lemma assert_key_len_ok key : _assert_key_len key = Ok tt ↔ zlen key = _KEY_LEN.
Proof. unfold _assert_key_len. case_match; zbool; naive_solver. Qed.

Lemma wrap_key_ok mk fk w :
  wrap_key mk fk = Ok w ↔ zlen mk = 32 ∧ zlen fk = 32 ∧ w = aes_key_wrap mk fk.
Proof.
  unfold wrap_key, _assert_key_len, _KEY_LEN.
  destruct (zlen mk =? 32) eqn:?, (zlen fk =? 32) eqn:?; simpl; zbool; naive_solver lia.
Qed.

Lemma key_wrappable mk fk : zlen mk = 32 → zlen fk = 32 → wrappable mk fk.
Proof.
  unfold zlen, wrappable. intros. assert (length fk = 32%nat) as -> by lia.
  split; [lia|]. split; [lia|done].
Qed.

(** [unwrap_key], every branch: which key opens the blob, in which order. *)
Lemma unwrap_key_ok mk w prev fk :
  unwrap_key mk w prev = Ok fk ↔
  zlen mk = 32 ∧ (∀ p, prev = Some p → zlen p = 32) ∧ zlen w = 40 ∧
  (aes_key_unwrap mk w = Some fk ∨
   aes_key_unwrap mk w = None ∧ ∃ p, prev = Some p ∧ aes_key_unwrap p w = Some fk).
Proof.
  unfold unwrap_key, _assert_key_len, _KEY_LEN.
  destruct (zlen mk =? 32) eqn:?; simpl; [|zbool; naive_solver].
  destruct prev as [p|]; simpl; [destruct (zlen p =? 32) eqn:?; simpl|];
    destruct (zlen w =? 32 + 8) eqn:?; simpl; zbool;
    repeat case_match; naive_solver lia.
Qed.

Lemma wrap_key_opens mk fk w prev :
  wrap_key mk fk = Ok w → (∀ p, prev = Some p → zlen p = 32) →
  unwrap_key mk w prev = Ok fk.
Proof.
  rewrite wrap_key_ok. intros (Hm & Hf & ->) Hp.
  pose proof (key_wrappable mk fk Hm Hf) as Hw. apply unwrap_key_ok.
  repeat split; [done | done | | left; by apply kw_unwrap_wrap].
  unfold zlen in *. rewrite kw_length by done. lia.
Qed.

(** Unwrapping and wrapping again under the same key gives the same blob. *)
Lemma rewrap_same mk w fk :
  zlen mk = 32 → aes_key_unwrap mk w = Some fk → zlen w = 40 → wrap_key mk fk = Ok w.
Proof.
  intros Hm Hu Hw. apply wrap_key_ok.
  destruct (kw_wrap_unwrap mk w fk) as [He Hl]; [unfold zlen in *; lia | done |].
  repeat split; [done | | by symmetry]. unfold zlen in *. lia.
Qed.

(** ** Length-prefixed blocks *)

(** The plaintext block both secret envelopes use. *)
Definition framed (block : Z) (raw : bytes) : bytes :=
  [zlen raw] ++ raw ++ zeros (block - 1 - zlen raw).

Lemma framed_length block raw : zlen raw < block → zlen (framed block raw) = block.
Proof.
  intros. unfold framed, zeros, zlen in *. simpl.
  rewrite !length_app, length_replicate. lia.
Qed.

Lemma framed_payload block raw :
  take (Z.to_nat (default 0 (head (framed block raw)))) (tail (framed block raw)) = raw.
Proof. unfold framed, zlen; simpl. rewrite Nat2Z.id. apply take_app_length. Qed.

Lemma framed_head block raw : default 0 (head (framed block raw)) = zlen raw.
Proof. done. Qed.

Lemma framed_wrappable mk block raw :
  zlen mk = 32 → zlen raw < block → block `mod` 8 = 0 → 16 ≤ block →
  wrappable mk (framed block raw).
Proof.
  intros Hm Hr Hb H16. pose proof (framed_length block raw Hr) as Hl.
  unfold wrappable. unfold zlen in *. split; [lia|]. split; [lia|].
  apply Nat2Z.inj. rewrite Nat2Z.inj_mod, Hl. done.
Qed.

Lemma wrap_totp_ok mk s raw :
  zlen mk = 32 → utf8_encode s = Ok raw → zlen raw ≤ 39 →
  wrap_totp_secret mk s = Ok (aes_key_wrap mk (framed 40 raw)).
Proof.
  intros Hm Hr Hl. unfold wrap_totp_secret, _MASTER_KEY_LEN, _TOTP_SECRET_MAX, _TOTP_BLOCK.
  rewrite Hm, Hr. cbn [mbind res_bind]. change (40 - 1) with 39.
  destruct (zlen raw >? 39) eqn:E; [lia|].
  change ([zlen raw] ++ raw ++ zeros (39 - zlen raw)) with (framed 40 raw).
  rewrite framed_length by lia. reflexivity.
Qed.

Lemma wrap_telegram_ok mk s raw :
  zlen mk = 32 → utf8_encode s = Ok raw → zlen raw ≤ 255 →
  wrap_telegram_token mk s = Ok (aes_key_wrap mk (framed 256 raw)).
Proof.
  intros Hm Hr Hl. unfold wrap_telegram_token, _MASTER_KEY_LEN, _TG_TOKEN_MAX, _TG_BLOCK.
  rewrite Hm, Hr. cbn [mbind res_bind]. change (256 - 1) with 255.
  destruct (zlen raw >? 255) eqn:E; [lia|].
  change ([zlen raw] ++ raw ++ zeros (255 - zlen raw)) with (framed 256 raw).
  rewrite framed_length by lia. reflexivity.
Qed.

(** Which of the two master keys opens a wrapped secret. *)
Definition opens (cur : bytes) (prev : option bytes) (w p : bytes) : Prop :=
  aes_key_unwrap cur w = Some p ∨
  aes_key_unwrap cur w = None ∧ ∃ k, prev = Some k ∧ aes_key_unwrap k w = Some p.

Lemma unwrap_totp_framed mk prev w s raw :
  zlen mk = 32 → (∀ p, prev = Some p → zlen p = 32) → wf_str s →
  utf8_encode s = Ok raw → zlen raw ≤ 39 → zlen w = 48 →
  opens mk prev w (framed 40 raw) → unwrap_totp_secret mk w prev = Ok s.
Proof.
  intros Hm Hp Hs Hr Hl Hw Ho.
  unfold unwrap_totp_secret, _MASTER_KEY_LEN, _TOTP_WRAPPED, _TOTP_SECRET_MAX, _TOTP_BLOCK.
  rewrite Hm, Hw. cbn [mbind res_bind].
  replace (match prev with Some p => negb (zlen p =? 32) | None => false end) with false.
  2:{ destruct prev; [|done]. by rewrite (Hp _ eq_refl). }
  destruct Ho as [->|(-> & k & -> & ->)]; cbn [mbind res_bind];
    rewrite framed_length, framed_payload, framed_head by lia; change (40 - 1) with 39;
    (destruct (zlen raw >? 39) eqn:E; [lia|]); by apply utf8_roundtrip.
Qed.

Lemma unwrap_telegram_framed mk prev w s raw :
  zlen mk = 32 → (∀ p, prev = Some p → zlen p = 32) → wf_str s →
  utf8_encode s = Ok raw → zlen raw ≤ 255 → zlen w = 264 →
  opens mk prev w (framed 256 raw) → unwrap_telegram_token mk w prev = Ok s.
Proof.
  intros Hm Hp Hs Hr Hl Hw Ho.
  unfold unwrap_telegram_token, _MASTER_KEY_LEN, _TG_WRAPPED, _TG_TOKEN_MAX, _TG_BLOCK.
  rewrite Hm, Hw. cbn [mbind res_bind].
  replace (match prev with Some p => negb (zlen p =? 32) | None => false end) with false.
  2:{ destruct prev; [|done]. by rewrite (Hp _ eq_refl). }
  destruct Ho as [->|(-> & k & -> & ->)]; cbn [mbind res_bind];
    rewrite framed_length, framed_payload, framed_head by lia; change (256 - 1) with 255;
    (destruct (zlen raw >? 255) eqn:E; [lia|]); by apply utf8_roundtrip.
Qed.

Lemma wrapped_frame_length mk block raw :
  zlen mk = 32 → zlen raw < block → block `mod` 8 = 0 → 16 ≤ block →
  zlen (aes_key_wrap mk (framed block raw)) = block + 8.
Proof.
  intros. unfold zlen. rewrite kw_length by by apply framed_wrappable.
  pose proof (framed_length block raw). unfold zlen in *. lia.
Qed.

(** C12: during a master-key rotation (current key [new], previous key [old]) a file key
    wrapped under [old] opens through the fallback and only through it;
    rewrapping it gives a blob that [new] alone opens to the same file key,
    and rewrapping that blob changes nothing. *)
Theorem file_key_rotation new old fk w :
  zlen new = 32 → wrap_key old fk = Ok w → aes_key_unwrap new w = None →
  unwrap_key new w (Some old) = Ok fk ∧
  unwrap_key new w None = Err EnvelopeError ∧
  ∃ w', wrap_key new fk = Ok w' ∧ unwrap_key new w' None = Ok fk ∧
        (∀ fk', unwrap_key new w' (Some old) = Ok fk' → wrap_key new fk' = Ok w').
Proof.
  intros Hn Hw Hnone. pose proof Hw as Hw'. apply wrap_key_ok in Hw' as (Ho & Hf & ->).
  pose proof (key_wrappable old fk Ho Hf) as Hk.
  assert (Hl : zlen (aes_key_wrap old fk) = 40).
  { unfold zlen in *. rewrite kw_length by done. lia. }
  split; [|split].
  - apply unwrap_key_ok. repeat split; [done | by intros ? [= <-] | done |].
    right. split; [done|]. exists old. split; [done|]. by apply kw_unwrap_wrap.
  - unfold unwrap_key, _assert_key_len. rewrite Hn, Hl; simpl. by rewrite Hnone.
  - exists (aes_key_wrap new fk).
    assert (wrap_key new fk = Ok (aes_key_wrap new fk)) as Hwr by by apply wrap_key_ok.
    split; [done|]. split; [by eapply wrap_key_opens|].
    intros fk' Hu. rewrite (wrap_key_opens new fk _ (Some old) Hwr) in Hu by by intros ? [= <-].
    by simplify_eq.
Qed.

(** A TOTP secret whose UTF-8 form has at most 39 bytes survives its
    envelope, also when it is read back during a rotation through the previous
    master key, and the blob is recognised as wrapped; a longer one is refused. *)
Theorem totp_secret_roundtrip mk s raw :
  zlen mk = 32 → wf_str s → utf8_encode s = Ok raw →
  if decide (zlen raw ≤ 39) then
    ∃ w, wrap_totp_secret mk s = Ok w ∧ is_wrapped_totp w = true ∧
         unwrap_totp_secret mk w None = Ok s ∧
         (∀ new, zlen new = 32 → aes_key_unwrap new w = None →
                 unwrap_totp_secret new w (Some mk) = Ok s)
  else wrap_totp_secret mk s = Err ValueError.
Proof.
  intros Hm Hs Hr. case_decide as Hl.
  - assert (Hlen : zlen (aes_key_wrap mk (framed 40 raw)) = 48)
      by (rewrite wrapped_frame_length; [done..|lia|done|lia]).
    assert (Ho : aes_key_unwrap mk (aes_key_wrap mk (framed 40 raw)) = Some (framed 40 raw))
      by (apply kw_unwrap_wrap, framed_wrappable; [done|lia|done|lia]).
    exists (aes_key_wrap mk (framed 40 raw)). split; [by apply wrap_totp_ok|].
    split; [unfold is_wrapped_totp; by rewrite Hlen|]. split.
    + eapply unwrap_totp_framed; eauto; [done|by left].
    + intros new Hn Hnone. eapply unwrap_totp_framed; eauto; [by intros ? [= <-]|].
      right. eauto.
  - unfold wrap_totp_secret, _MASTER_KEY_LEN, _TOTP_SECRET_MAX, _TOTP_BLOCK.
    rewrite Hm, Hr. cbn [mbind res_bind]. change (40 - 1) with 39.
    by destruct (zlen raw >? 39) eqn:E; [|lia].
Qed.

(** Wrapping a token either refuses it or gives a blob that opens to it. *)
Lemma wrap_telegram_opens mk s :
  zlen mk = 32 → wf_str s →
  match wrap_telegram_token mk s with
  | Ok w => unwrap_telegram_token mk w None = Ok s
  | Err e => e = ValueError
  end.
Proof.
  intros Hm Hs. destruct (utf8_encode s) as [raw|e] eqn:Hr.
  - destruct (decide (zlen raw ≤ 255)) as [Hl|Hl].
    + rewrite (wrap_telegram_ok mk s raw) by done.
      eapply unwrap_telegram_framed; eauto; [done|by rewrite wrapped_frame_length by (done || lia)|].
      left. apply kw_unwrap_wrap, framed_wrappable; [done|lia|done|lia].
    + unfold wrap_telegram_token, _MASTER_KEY_LEN, _TG_TOKEN_MAX, _TG_BLOCK.
      rewrite Hm, Hr. cbn [mbind res_bind]. change (256 - 1) with 255.
      by destruct (zlen raw >? 255) eqn:E; [|lia].
  - unfold wrap_telegram_token, _MASTER_KEY_LEN. rewrite Hm, Hr. cbn [mbind res_bind].
    by eapply utf8_encode_err.
Qed.

(** A Telegram token of at most 255 UTF-8 bytes survives its envelope, the
    rotation fallback included; a longer one is refused. *)
Theorem telegram_token_roundtrip mk s raw :
  zlen mk = 32 → wf_str s → utf8_encode s = Ok raw →
  if decide (zlen raw ≤ 255) then
    ∃ w, wrap_telegram_token mk s = Ok w ∧ is_wrapped_telegram_token w = true ∧
         unwrap_telegram_token mk w None = Ok s ∧
         (∀ new, zlen new = 32 → aes_key_unwrap new w = None →
                 unwrap_telegram_token new w (Some mk) = Ok s)
  else wrap_telegram_token mk s = Err ValueError.
Proof.
  intros Hm Hs Hr. case_decide as Hl.
  - assert (Hlen : zlen (aes_key_wrap mk (framed 256 raw)) = 264)
      by (rewrite wrapped_frame_length; [done..|lia|done|lia]).
    assert (Ho : aes_key_unwrap mk (aes_key_wrap mk (framed 256 raw)) = Some (framed 256 raw))
      by (apply kw_unwrap_wrap, framed_wrappable; [done|lia|done|lia]).
    exists (aes_key_wrap mk (framed 256 raw)). split; [by apply wrap_telegram_ok|].
    split; [unfold is_wrapped_telegram_token; by rewrite Hlen|]. split.
    + eapply unwrap_telegram_framed; eauto; [done|by left].
    + intros new Hn Hnone. eapply unwrap_telegram_framed; eauto; [by intros ? [= <-]|].
      right. eauto.
  - unfold wrap_telegram_token, _MASTER_KEY_LEN, _TG_TOKEN_MAX, _TG_BLOCK.
    rewrite Hm, Hr. cbn [mbind res_bind]. change (256 - 1) with 255.
    by destruct (zlen raw >? 255) eqn:E; [|lia].
Qed.

End envelope_facts.

Section envelope_witnesses.
#[local] Instance demo_services : Services := Sim.calm.
#[local] Instance demo_services_ok : ServicesOk := Sim.calm_ok.
Import Envelope Secrets.

Definition key_a : bytes := replicate 32 9.
Definition key_b : bytes := replicate 32 7.
Definition secret_demo : pystr := u "JBSWY3DPEHPK3PXP".

Lemma secret_demo_wf : wf_str secret_demo.
Proof. apply (bool_decide_unpack _). vm_compute. exact I. Qed.

Lemma file_key_rotation_witness :
  unwrap_key key_b (Sim.kw_wrap key_a (replicate 32 5)) (Some key_a) = Ok (replicate 32 5) ∧
  unwrap_key key_b (Sim.kw_wrap key_a (replicate 32 5)) None = Err EnvelopeError.
Proof.
  destruct (file_key_rotation key_b key_a (replicate 32 5) (Sim.kw_wrap key_a (replicate 32 5)))
    as (H1 & H2 & _); try (vm_compute; reflexivity). by split.
Defined.

Lemma totp_secret_roundtrip_witness :
  ∃ w, wrap_totp_secret key_a secret_demo = Ok w ∧ unwrap_totp_secret key_a w None = Ok secret_demo.
Proof.
  pose proof (totp_secret_roundtrip key_a secret_demo secret_demo eq_refl secret_demo_wf eq_refl) as H.
  rewrite decide_True in H by (vm_compute; discriminate).
  destruct H as (w & H1 & _ & H2 & _). exists w. by split.
Defined.

Lemma telegram_token_roundtrip_witness :
  ∃ w, wrap_telegram_token key_a secret_demo = Ok w ∧
       unwrap_telegram_token key_a w None = Ok secret_demo.
Proof.
  pose proof (telegram_token_roundtrip key_a secret_demo secret_demo eq_refl secret_demo_wf eq_refl)
    as H.
  rewrite decide_True in H by (vm_compute; discriminate).
  destruct H as (w & H1 & _ & H2 & _). exists w. by split.
Defined.

End envelope_witnesses.
