(* ===== verification/Stream.v ===== *)
(** Streaming AES-256-GCM ([crypto/stream.py]) over file-like sources, and the
    iterator adapter of [services/storage.py] that feeds it.  The loops run on
    fuel; [encrypt_stream_spec] and [decrypt_stream_spec] show that the fuel the
    definitions take, one more than the length of the source, is enough. *)
From S2P Require Import Prelude Text Services Sim.

(** * File-like sources: [.read(n)] *)

(** A source has the bytes still to be read; [read n] returns a prefix of them
    of at most [n] bytes, empty only at the end. *)
Class Reader (S : Type) := {
  rd_content : S → bytes;
  rd_read : nat → S → bytes * S
}.

Class ReaderOk (S : Type) `{Reader S} : Prop := {
  rd_split n s : let '(b, s') := rd_read n s in rd_content s = b ++ rd_content s';
  rd_bound n s : (length (rd_read n s).1 ≤ n)%nat;
  rd_eof n s : (0 < n)%nat → (rd_read n s).1 = [] → rd_content s = []
}.

(** A regular file opened for reading, or a [BytesIO]. *)
#[export] Instance file_reader : Reader bytes := {|
  rd_content := λ s, s;
  rd_read := λ n s, (take n s, drop n s)
|}.

(** ** [_IteratorIO] of services/storage.py *)
Module IteratorIO.

Record t := mk { _it : list bytes; _buf : bytes }.

Definition init (it : list bytes) : t := mk it [].

(** [while not self._buf: self._buf = next(self._it)]; [None] is
    [StopIteration]. *)
Fixpoint fill (it : list bytes) : option (bytes * list bytes) :=
  match it with
  | [] => None
  | [] :: it' => fill it'
  | (_ :: _) as b :: it' => Some (b, it')
  end.

(** [read(n)], through [readinto] on a buffer of [n] bytes. *)
Definition read (n : nat) (s : t) : bytes * t :=
  let filled := if nonempty (_buf s) then Some (_buf s, _it s) else fill (_it s) in
  match filled with
  | None => ([], mk [] [])
  | Some (buf, it) =>
      let k := Nat.min n (length buf) in
      (take k buf, mk it (drop k buf))
  end.

Definition content (s : t) : bytes := _buf s ++ concat (_it s).

End IteratorIO.

#[export] Instance iterator_reader : Reader IteratorIO.t := {|
  rd_content := IteratorIO.content;
  rd_read := IteratorIO.read
|}.

(** * crypto/stream.py *)
Module Stream.
Section stream.
Context {X : Services}.
Context {S : Type} {R : Reader S}.

Definition _KEY_LEN : Z := 32.
Definition _IV_LEN : Z := 12.
Definition _TAG_LEN : nat := 16.
Definition _DEFAULT_CHUNK : nat := Z.to_nat (64 * 1024).

Definition _check_lens (key iv : bytes) : res unit :=
  if negb (zlen key =? _KEY_LEN) then Err StreamCryptoError
  else if negb (zlen iv =? _IV_LEN) then Err StreamCryptoError
  else Ok tt.

(** [while True: chunk = src.read(chunk_size); ...]: the context, what was
    written to [dst] and what was fed to the digest at the end of the source;
    [None] when the fuel runs out. *)
Fixpoint encrypt_loop (fuel chunk_size : nat) (src : S) (enc : gcm_ctx)
    (dst sha : bytes) : option (gcm_ctx * bytes * bytes) :=
  match fuel with
  | O => None
  | Datatypes.S fuel' =>
      let '(chunk, src') := rd_read chunk_size src in
      if negb (nonempty chunk) then Some (enc, dst, sha)
      else
        let '(enc', ct) := gcm_update enc chunk in
        if nonempty ct
        then encrypt_loop fuel' chunk_size src' enc' (dst ++ ct) (sha ++ ct)
        else encrypt_loop fuel' chunk_size src' enc' dst sha
  end.

(** [encrypt_stream]: the bytes appended to [dst] and the digest returned. *)
Definition encrypt_stream (key iv : bytes) (src : S) (chunk_size : nat)
  : option (res (bytes * bytes)) :=
  match _check_lens key iv with
  | Err e => Some (Err e)
  | Ok _ =>
      match encrypt_loop (length (rd_content src) + 1) chunk_size src
              (gcm_encryptor key iv) [] [] with
      | None => None
      | Some (enc, dst, sha) =>
          let '(final, tag) := gcm_finalize enc in
          let '(dst, sha) := if nonempty final then (dst ++ final, sha ++ final) else (dst, sha) in
          Some (Ok (dst ++ tag, sha256 sha))
      end
  end.

(** One turn of the sliding window: [held.extend(chunk)], then everything but
    the last 16 bytes is decrypted. *)
Definition window (held chunk : bytes) (dec : gcm_ctx) : bytes * gcm_ctx * bytes :=
  let held := held ++ chunk in
  if (_TAG_LEN <? length held)%nat then
    let k := (length held - _TAG_LEN)%nat in
    let to_process := take k held in
    let '(dec', pt) := gcm_update dec to_process in
    (drop k held, dec', pt)
  else (held, dec, []).

Fixpoint decrypt_loop (fuel chunk_size : nat) (src : S) (dec : gcm_ctx)
    (held dst : bytes) : option (gcm_ctx * bytes * bytes) :=
  match fuel with
  | O => None
  | Datatypes.S fuel' =>
      let '(chunk, src') := rd_read chunk_size src in
      if negb (nonempty chunk) then Some (dec, held, dst)
      else
        let '(held', dec', pt) := window held chunk dec in
        if nonempty pt
        then decrypt_loop fuel' chunk_size src' dec' held' (dst ++ pt)
        else decrypt_loop fuel' chunk_size src' dec' held' dst
  end.

(** [decrypt_stream]: what was written to [dst], also when it raises. *)
Definition decrypt_stream (key iv : bytes) (src : S) (chunk_size : nat)
  : option (bytes * res unit) :=
  match _check_lens key iv with
  | Err e => Some ([], Err e)
  | Ok _ =>
      match decrypt_loop (length (rd_content src) + 1) chunk_size src
              (gcm_decryptor key iv) [] [] with
      | None => None
      | Some (dec, held, dst) =>
          if (length held <? _TAG_LEN)%nat then Some (dst, Err StreamCryptoError)
          else match gcm_finalize_with_tag dec held with
               | None => Some (dst, Err StreamCryptoError)
               | Some final => Some (if nonempty final then dst ++ final else dst, Ok tt)
               end
      end
  end.

(** [decrypt_stream_iter]: the chunks the generator yields and how it ends. *)
Fixpoint decrypt_iter_loop (fuel chunk_size : nat) (src : S) (dec : gcm_ctx)
    (held : bytes) (yielded : list bytes) : option (gcm_ctx * bytes * list bytes) :=
  match fuel with
  | O => None
  | Datatypes.S fuel' =>
      let '(chunk, src') := rd_read chunk_size src in
      if negb (nonempty chunk) then Some (dec, held, yielded)
      else
        let '(held', dec', pt) := window held chunk dec in
        if nonempty pt
        then decrypt_iter_loop fuel' chunk_size src' dec' held' (yielded ++ [pt])
        else decrypt_iter_loop fuel' chunk_size src' dec' held' yielded
  end.

Definition decrypt_stream_iter (key iv : bytes) (src : S) (chunk_size : nat)
  : option (list bytes * res unit) :=
  match _check_lens key iv with
  | Err e => Some ([], Err e)
  | Ok _ =>
      match decrypt_iter_loop (length (rd_content src) + 1) chunk_size src
              (gcm_decryptor key iv) [] [] with
      | None => None
      | Some (dec, held, yielded) =>
          if (length held <? _TAG_LEN)%nat then Some (yielded, Err StreamCryptoError)
          else match gcm_finalize_with_tag dec held with
               | None => Some (yielded, Err StreamCryptoError)
               | Some final =>
                   Some (if nonempty final then yielded ++ [final] else yielded, Ok tt)
               end
      end
  end.

(** The same generator over a source that breaks: once its content is used up the
    next read raises [e], so the loop is left there and nothing is finalised. *)
Definition decrypt_stream_iter_broken (key iv : bytes) (src : S) (chunk_size : nat) (e : exn)
  : option (list bytes * res unit) :=
  match _check_lens key iv with
  | Err e' => Some ([], Err e')
  | Ok _ =>
      match decrypt_iter_loop (length (rd_content src) + 1) chunk_size src
              (gcm_decryptor key iv) [] [] with
      | None => None
      | Some (_, _, yielded) => Some (yielded, Err e)
      end
  end.

End stream.

(** ** Reference definitions: the whole message at once *)
Section reference.
Context {X : Services}.

(** Ciphertext and tag of a message. *)
Definition seal (key iv p : bytes) : bytes * bytes :=
  let '(c, ct) := gcm_update (gcm_encryptor key iv) p in (ct, (gcm_finalize c).2).

(** What opening an object writes, and whether its tag verifies. *)
Definition open (key iv obj : bytes) : bytes * res unit :=
  let n := (length obj - _TAG_LEN)%nat in
  let '(d, pt) := gcm_update (gcm_decryptor key iv) (take n obj) in
  if (length obj <? _TAG_LEN)%nat then ([], Err StreamCryptoError)
  else match gcm_finalize_with_tag d (drop n obj) with
       | None => (pt, Err StreamCryptoError)
       | Some _ => (pt, Ok tt)
       end.

End reference.
End Stream.

(** * Theorems *)

#[export] Instance file_reader_ok : ReaderOk bytes.
Proof.
  split; simpl.
  - intros. by rewrite take_drop.
  - intros. rewrite length_take. lia.
  - intros n s Hn. destruct n, s; done || lia.
Qed.

Lemma fill_concat it :
  match IteratorIO.fill it with
  | None => concat it = []
  | Some (b, it') => concat it = b ++ concat it' ∧ b ≠ []
  end.
Proof. induction it as [|[|c b] it IH]; simpl; done. Qed.

#[export] Instance iterator_reader_ok : ReaderOk IteratorIO.t.
Proof.
  split; simpl; unfold IteratorIO.read, IteratorIO.content; intros n [it buf]; simpl.
  - destruct buf as [|c buf]; simpl.
    + pose proof (fill_concat it) as H. destruct (IteratorIO.fill it) as [[b it']|]; simpl; [|done].
      destruct H as [-> _]. rewrite app_assoc, take_drop. done.
    + rewrite app_assoc. by rewrite (take_drop _ (c :: buf)).
  - destruct (if nonempty buf then _ else _) as [[b it']|]; simpl; [|lia].
    rewrite length_take. lia.
  - intros Hn. destruct buf as [|c buf]; simpl.
    + pose proof (fill_concat it) as H. destruct (IteratorIO.fill it) as [[b it']|]; simpl; [|done].
      destruct H as [_ Hb]. destruct b, n; done || lia.
    + destruct n; done || lia.
Qed.

Section stream_facts.
Context {X : Services} {XOk : ServicesOk}.
Context {S : Type} {R : Reader S} {ROk : ReaderOk S}.
Import Stream.

(** A non-empty read leaves less to read. *)
Lemma read_progress n s chunk s' :
  rd_read n s = (chunk, s') →
  rd_content s = chunk ++ rd_content s' ∧
  (chunk ≠ [] → (length (rd_content s') < length (rd_content s))%nat).
Proof.
  intros E. pose proof (rd_split n s) as H. rewrite E in H. split; [done|].
  rewrite H, length_app. destruct chunk; simpl; [done | lia].
Qed.

Lemma read_end n s s' : (0 < n)%nat → rd_read n s = ([], s') → rd_content s = [].
Proof. intros Hn E. apply (rd_eof n); [done|]. by rewrite E. Qed.

Lemma nonempty_false {A} (l : list A) : nonempty l = false ↔ l = [].
Proof. by destruct l. Qed.

(** Appending [x] when it is not empty is appending [x]. *)
Lemma append_nonempty {A} (l x : list A) : (if nonempty x then l ++ x else l) = l ++ x.
Proof. destruct x; simpl; [by rewrite app_nil_r | done]. Qed.

(** The encryption loop computes the one-shot [gcm_update]. *)
Lemma encrypt_loop_spec fuel n src enc dst sha :
  (0 < n)%nat → (length (rd_content src) < fuel)%nat →
  encrypt_loop fuel n src enc dst sha =
  let '(c, ct) := gcm_update enc (rd_content src) in Some (c, dst ++ ct, sha ++ ct).
Proof.
  intros Hn. revert src enc dst sha.
  induction fuel as [|fuel IH]; intros src enc dst sha Hf; [lia|]. simpl.
  destruct (rd_read n src) as [chunk src'] eqn:E.
  destruct (read_progress _ _ _ _ E) as [Hc Hl].
  destruct chunk as [|b chunk]; cbn [nonempty negb].
  - rewrite (read_end n src src'), gcm_update_nil by done. by rewrite !app_nil_r.
  - rewrite Hc, gcm_update_app. destruct (gcm_update enc (b :: chunk)) as [c1 x] eqn:E1.
    specialize (Hl ltac:(done)).
    destruct x as [|y x]; cbn [nonempty]; rewrite IH by lia;
      destruct (gcm_update c1 (rd_content src')) as [c2 z]; [done | by rewrite !app_assoc].
Qed.

(** What the sliding window has to remember: the last bytes, at most 16. *)
Definition held_of (a : bytes) : bytes := drop (length a - 16) a.
Definition fed_of (a : bytes) : bytes := take (length a - 16) a.

Lemma window_spec a chunk dec0 :
  let '(d, pt) := gcm_update dec0 (fed_of a) in
  let '(d', pt') := gcm_update dec0 (fed_of (a ++ chunk)) in
  ∃ x, window (held_of a) chunk d = (held_of (a ++ chunk), d', x) ∧ pt' = pt ++ x.
Proof.
  assert (Ha : a = fed_of a ++ held_of a) by (symmetry; apply take_drop).
  assert (Hlen : length (fed_of a) = (length a - 16)%nat)
    by (unfold fed_of; rewrite length_take; lia).
  set (h := held_of a ++ chunk).
  assert (Hh : length h = (length (a ++ chunk) - (length a - 16))%nat).
  { unfold h, held_of. rewrite !length_app, length_drop. lia. }
  assert (Hac : a ++ chunk = fed_of a ++ h) by (unfold h; rewrite app_assoc, <- Ha; done).
  unfold window. fold h. unfold _TAG_LEN.
  destruct (Nat.ltb_spec 16 (length h)) as [Hlt|Hge].
  - assert (Hfed : fed_of (a ++ chunk) = fed_of a ++ take (length h - 16) h).
    { unfold fed_of at 1. rewrite Hac at 2. rewrite take_app, Hlen, take_ge by lia.
      f_equal. f_equal. rewrite Hh. lia. }
    assert (Hheld : held_of (a ++ chunk) = drop (length h - 16) h).
    { unfold held_of at 1. rewrite Hac at 2. rewrite drop_app, Hlen, drop_ge by lia.
      simpl. f_equal. rewrite Hh. lia. }
    rewrite Hfed, gcm_update_app. destruct (gcm_update dec0 (fed_of a)) as [d pt].
    destruct (gcm_update d (take (length h - 16) h)) as [d' x].
    exists x. by rewrite Hheld.
  - rewrite length_app in Hh.
    assert (Hfed : fed_of (a ++ chunk) = fed_of a).
    { unfold fed_of at 1. rewrite Hac at 2. rewrite length_app.
      rewrite take_app_le by lia. apply take_ge. lia. }
    rewrite Hfed. destruct (gcm_update dec0 (fed_of a)) as [d pt]. exists [].
    rewrite app_nil_r. split; [|done]. f_equal. f_equal.
    apply (app_inv_head (fed_of a)). rewrite <- Hac.
    rewrite <- (take_drop (length (a ++ chunk) - 16) (a ++ chunk)) at 1.
    fold (fed_of (a ++ chunk)). by rewrite Hfed.
Qed.

Lemma decrypt_loop_spec fuel n src dec0 a :
  (0 < n)%nat → (length (rd_content src) < fuel)%nat →
  let obj := a ++ rd_content src in
  let '(d, pt) := gcm_update dec0 (fed_of a) in
  let '(d', pt') := gcm_update dec0 (fed_of obj) in
  decrypt_loop fuel n src d (held_of a) pt = Some (d', held_of obj, pt').
Proof.
  intros Hn. revert src a. induction fuel as [|fuel IH]; intros src a Hf; [lia|].
  cbn zeta. simpl decrypt_loop.
  destruct (rd_read n src) as [chunk src'] eqn:E.
  destruct (read_progress _ _ _ _ E) as [Hc Hl].
  destruct chunk as [|b chunk]; cbn [nonempty negb].
  - rewrite (read_end n src src') by done. rewrite app_nil_r.
    by destruct (gcm_update dec0 (fed_of a)).
  - rewrite Hc. specialize (Hl ltac:(done)).
    pose proof (window_spec a (b :: chunk) dec0) as Hw.
    specialize (IH src' (a ++ b :: chunk) ltac:(lia)). cbn zeta in IH.
    rewrite <- app_assoc in IH.
    destruct (gcm_update dec0 (fed_of a)) as [d pt].
    destruct (gcm_update dec0 (fed_of (a ++ b :: chunk))) as [d1 pt1].
    destruct Hw as (x & -> & ->).
    destruct (gcm_update dec0 (fed_of (a ++ (b :: chunk) ++ rd_content src'))) as [d2 pt2].
    destruct x; cbn [nonempty]; [by rewrite app_nil_r in IH | done].
Qed.

(** The generator yields what [decrypt_loop] writes. *)
Lemma decrypt_iter_loop_spec fuel n src dec held ys :
  decrypt_loop fuel n src dec held (concat ys) =
  match decrypt_iter_loop fuel n src dec held ys with
  | Some (d, h, ys') => Some (d, h, concat ys')
  | None => None
  end.
Proof.
  revert src dec held ys. induction fuel as [|fuel IH]; intros src dec held ys; [done|].
  simpl. destruct (rd_read n src) as [chunk src']. case_match; [done|].
  destruct (window held chunk dec) as [[held' dec'] pt].
  rewrite <- concat_app_single. destruct (nonempty pt); apply IH.
Qed.

Lemma check_lens_ok key iv : _check_lens key iv = Ok tt ↔ zlen key = 32 ∧ zlen iv = 12.
Proof.
  unfold _check_lens, _KEY_LEN, _IV_LEN.
  destruct (zlen key =? 32) eqn:?, (zlen iv =? 12) eqn:?; simpl; zbool; naive_solver.
Qed.

(** Whatever the chunk size and however the source cuts its reads,
    [encrypt_stream] terminates and writes the one-shot GCM ciphertext of the
    whole source followed by its 16-byte tag, and returns the SHA-256 of the
    ciphertext without the tag. *)
Lemma encrypt_stream_spec key iv (src : S) n :
  zlen key = 32 → zlen iv = 12 → (0 < n)%nat →
  let '(ct, tag) := seal key iv (rd_content src) in
  encrypt_stream key iv src n = Some (Ok (ct ++ tag, sha256 ct)) ∧
  length ct = length (rd_content src) ∧ length tag = 16%nat.
Proof.
  intros Hk Hi Hn. unfold seal, encrypt_stream.
  rewrite (proj2 (check_lens_ok key iv)) by done.
  rewrite encrypt_loop_spec by lia.
  pose proof (gcm_update_length (gcm_encryptor key iv) (rd_content src)) as Hl.
  destruct (gcm_update (gcm_encryptor key iv) (rd_content src)) as [c ct]. simpl in Hl.
  pose proof (gcm_finalize_data c) as Hf. pose proof (gcm_tag_length c) as Ht.
  destruct (gcm_finalize c) as [final tag]. simpl in *. by rewrite Hf.
Qed.

(** [decrypt_stream] terminates and is the one-shot decryption: it splits
    the stream into the ciphertext and the last 16 bytes, whatever the chunk
    size and the reads, writes the decryption of the ciphertext, and succeeds
    exactly when the 16 bytes are its GCM tag; a stream shorter than a tag is
    refused with nothing written. *)
Lemma decrypt_stream_spec key iv (src : S) n :
  zlen key = 32 → zlen iv = 12 → (0 < n)%nat →
  decrypt_stream key iv src n = Some (open key iv (rd_content src)).
Proof.
  intros Hk Hi Hn. unfold decrypt_stream, open.
  rewrite (proj2 (check_lens_ok key iv)) by done.
  pose proof (decrypt_loop_spec (length (rd_content src) + 1) n src
    (gcm_decryptor key iv) [] Hn ltac:(lia)) as H.
  cbn zeta in H. change (fed_of []) with (@nil Z) in H. change (held_of []) with (@nil Z) in H.
  rewrite gcm_update_nil in H. simpl in H.
  unfold _TAG_LEN. fold (fed_of (rd_content src)).
  destruct (gcm_update (gcm_decryptor key iv) (fed_of (rd_content src))) as [d pt] eqn:E.
  rewrite H. unfold held_of. rewrite length_drop.
  destruct (Nat.ltb_spec (length (rd_content src)) 16) as [Hlt|Hge].
  - rewrite (proj2 (Nat.ltb_lt _ _)) by lia.
    pose proof (gcm_update_length (gcm_decryptor key iv) (fed_of (rd_content src))) as Hl.
    rewrite E in Hl. simpl in Hl. unfold fed_of in Hl. rewrite length_take in Hl.
    destruct pt; [done | simpl in Hl; lia].
  - rewrite (proj2 (Nat.ltb_ge _ _)) by lia.
    destruct (gcm_finalize_with_tag d _) as [x|] eqn:Ef; [|done].
    by rewrite (gcm_tag_data _ _ _ Ef).
Qed.

(** The generator [decrypt_stream_iter] yields, in order, exactly the bytes
    [decrypt_stream] writes, and ends the same way. *)
Lemma decrypt_stream_iter_equiv key iv (src : S) n :
  decrypt_stream key iv src n =
  (λ '(ys, r), (concat ys, r)) <$> decrypt_stream_iter key iv src n.
Proof.
  unfold decrypt_stream, decrypt_stream_iter. destruct (_check_lens key iv); [|done].
  change (@nil Z) with (concat (@nil bytes)) at 2.
  rewrite decrypt_iter_loop_spec.
  destruct (decrypt_iter_loop _ _ _ _ _ _) as [[[d h] ys]|]; [|done].
  case_match; [done|]. destruct (gcm_finalize_with_tag d h) as [f|]; [|done].
  simpl. rewrite append_nonempty. destruct f; simpl; [by rewrite app_nil_r | ].
  by rewrite concat_app_single.
Qed.

(** The generator, against the reference. *)
Lemma decrypt_stream_iter_spec key iv (src : S) n :
  zlen key = 32 → zlen iv = 12 → (0 < n)%nat →
  ∃ ys, decrypt_stream_iter key iv src n = Some (ys, (open key iv (rd_content src)).2) ∧
        concat ys = (open key iv (rd_content src)).1.
Proof.
  intros Hk Hi Hn. pose proof (decrypt_stream_iter_equiv key iv src n) as He.
  rewrite decrypt_stream_spec in He by done.
  destruct (decrypt_stream_iter key iv src n) as [[ys r]|]; [|done]. simpl in He.
  exists ys. destruct (open _ _ _). by simplify_eq/=.
Qed.

(** The loop only adds to what was yielded. *)
Lemma decrypt_iter_loop_adds fuel n (src : S) d h ys d' h' ys' :
  decrypt_iter_loop fuel n src d h ys = Some (d', h', ys') → ys `prefix_of` ys'.
Proof.
  revert src d h ys. induction fuel as [|fuel IH]; intros src d h ys; [done|]. cbn [decrypt_iter_loop].
  destruct (rd_read n src) as [chunk src']. destruct (nonempty chunk); cbn [negb]; [|by intros [= <- <- <-]].
  destruct (window h chunk d) as [[h1 d1] pt]. destruct (nonempty pt); [|apply IH].
  intros H%IH. etrans; [|exact H]. by eexists.
Qed.

(** A broken source gives a prefix of what the whole object opens to. *)
Lemma decrypt_stream_iter_broken_prefix key iv (src : S) n e obj content :
  zlen key = 32 → zlen iv = 12 → (0 < n)%nat →
  rd_content src `prefix_of` obj → open key iv obj = (content, Ok tt) →
  ∃ ys, decrypt_stream_iter_broken key iv src n e = Some (ys, Err e) ∧ concat ys `prefix_of` content.
Proof.
  intros Hk Hi Hn [rest Hobj] Ho. unfold decrypt_stream_iter_broken.
  rewrite (proj2 (check_lens_ok key iv)) by done.
  pose proof (decrypt_loop_spec (length (rd_content src) + 1) n src (gcm_decryptor key iv) []
    Hn ltac:(lia)) as Hl.
  cbn [app] in Hl. change (fed_of []) with (@nil Z) in Hl. rewrite gcm_update_nil in Hl.
  destruct (gcm_update (gcm_decryptor key iv) (fed_of (rd_content src))) as [d pt] eqn:Eu.
  change (held_of []) with (@nil Z) in Hl. change (@nil Z) with (concat (@nil bytes)) in Hl at 2.
  rewrite decrypt_iter_loop_spec in Hl.
  destruct (decrypt_iter_loop _ _ _ _ _ _) as [[[d1 h1] ys]|]; [|done].
  injection Hl as -> -> Hys. exists ys. split; [done|]. rewrite Hys.
  unfold open in Ho. cbn zeta in Ho. change (take (length obj - _TAG_LEN) obj) with (fed_of obj) in Ho.
  assert (Hfed : ∃ x, fed_of obj = fed_of (rd_content src) ++ x).
  { unfold fed_of. subst obj. exists (drop (length (rd_content src) - 16)
      (take (length (rd_content src ++ rest) - 16) (rd_content src ++ rest))).
    rewrite <- (take_drop (length (rd_content src) - 16)
      (take (length (rd_content src ++ rest) - 16) (rd_content src ++ rest))) at 1. f_equal.
    rewrite take_take, Nat.min_l by (rewrite length_app; lia). apply take_app_le. lia. }
  destruct Hfed as [x Hx]. rewrite Hx, gcm_update_app, Eu in Ho.
  destruct (gcm_update d x) as [d2 y]. case_match; [done|].
  destruct (gcm_finalize_with_tag _ _); simplify_eq. by exists y.
Qed.

(** C9: whatever the chunk size and however the source cuts its reads, the three
    streaming functions terminate and are the one-shot definitions:
    [encrypt_stream] writes the GCM ciphertext of the whole source and its tag
    and returns the SHA-256 of the ciphertext alone, [decrypt_stream] writes
    what opening the whole object gives and succeeds exactly when the last 16
    bytes are its tag, and the generator [decrypt_stream_iter] yields those
    bytes in order and ends the same way. *)
Theorem stream_reference key iv (src : S) n :
  zlen key = 32 → zlen iv = 12 → (0 < n)%nat →
  encrypt_stream key iv src n =
    Some (let '(ct, tag) := seal key iv (rd_content src) in Ok (ct ++ tag, sha256 ct)) ∧
  decrypt_stream key iv src n = Some (open key iv (rd_content src)) ∧
  (λ '(ys, r), (concat ys, r)) <$> decrypt_stream_iter key iv src n
    = Some (open key iv (rd_content src)).
Proof.
  intros Hk Hi Hn. pose proof (encrypt_stream_spec key iv src n Hk Hi Hn) as He.
  destruct (seal _ _ _). split; [apply He|]. split; [by apply decrypt_stream_spec|].
  rewrite <- decrypt_stream_iter_equiv. by apply decrypt_stream_spec.
Qed.

End stream_facts.

(** ** Connections that break *)

Section broken_facts.
Context {X : Services} {XOk : ServicesOk}.
Import Stream.

Lemma fill_take k it b it1 :
  IteratorIO.fill (take k it) = Some (b, it1) →
  ∃ k' it2, IteratorIO.fill it = Some (b, it2) ∧ it1 = take k' it2.
Proof.
  revert k. induction it as [|[|c x] it IH]; intros [|k]; try done; cbn; [apply IH|].
  intros [= <- <-]. by exists k, it.
Qed.

(** The loop over the first chunks of an iterator yields first what it yields
    over all of them. *)
Lemma decrypt_iter_loop_take f1 f2 n k it buf d h ys d1 h1 ys1 d2 h2 ys2 :
  decrypt_iter_loop f1 n (IteratorIO.mk (take k it) buf) d h ys = Some (d1, h1, ys1) →
  decrypt_iter_loop f2 n (IteratorIO.mk it buf) d h ys = Some (d2, h2, ys2) →
  ys1 `prefix_of` ys2.
Proof.
  revert f2 k it buf d h ys. induction f1 as [|f1 IH]; intros [|f2] k it buf d h ys; try done.
  intros H1 H2. pose proof (decrypt_iter_loop_adds _ _ _ _ _ _ _ _ _ H2) as Hadd. revert H1 H2.
  cbn [decrypt_iter_loop rd_read iterator_reader].
  assert (Hstep : ∀ b k' it',
    (if negb (nonempty (take (n `min` length b) b)) then Some (d, h, ys)
     else let '(held', dec', pt) := window h (take (n `min` length b) b) d in
       if nonempty pt
       then decrypt_iter_loop f1 n (IteratorIO.mk (take k' it') (drop (n `min` length b) b)) dec' held' (ys ++ [pt])
       else decrypt_iter_loop f1 n (IteratorIO.mk (take k' it') (drop (n `min` length b) b)) dec' held' ys)
      = Some (d1, h1, ys1) →
    (if negb (nonempty (take (n `min` length b) b)) then Some (d, h, ys)
     else let '(held', dec', pt) := window h (take (n `min` length b) b) d in
       if nonempty pt
       then decrypt_iter_loop f2 n (IteratorIO.mk it' (drop (n `min` length b) b)) dec' held' (ys ++ [pt])
       else decrypt_iter_loop f2 n (IteratorIO.mk it' (drop (n `min` length b) b)) dec' held' ys)
      = Some (d2, h2, ys2) → ys1 `prefix_of` ys2).
  { intros b k' it'. destruct (negb _); [by intros [= _ _ <-] [= _ _ <-]|].
    destruct (window _ _ _) as [[h' d'] pt]. destruct (nonempty pt); apply IH. }
  unfold IteratorIO.read. cbn [IteratorIO._buf IteratorIO._it].
  destruct (nonempty buf); [apply Hstep|].
  destruct (IteratorIO.fill (take k it)) as [[b it1]|] eqn:E.
  - apply fill_take in E as (k' & it2 & -> & ->). apply Hstep.
  - cbn. by intros [= _ _ <-] _.
Qed.

(** A connection lost after some chunks of a stored object: the generator raises,
    having yielded the first of the chunks the whole object would have given. *)
Lemma decrypt_stream_iter_broken_take key iv it k n e content :
  zlen key = 32 → zlen iv = 12 → (0 < n)%nat → open key iv (concat it) = (content, Ok tt) →
  ∃ ys full, decrypt_stream_iter_broken key iv (IteratorIO.init (take k it)) n e = Some (ys, Err e) ∧
    decrypt_stream_iter key iv (IteratorIO.init it) n = Some (full, Ok tt) ∧
    concat full = content ∧ ys `prefix_of` full.
Proof.
  intros Hk Hi Hn Ho.
  destruct (decrypt_stream_iter_broken_prefix key iv (IteratorIO.init (take k it)) n e (concat it) content)
    as (ys & Hys & _); try done.
  { simpl. unfold IteratorIO.content, IteratorIO.init. simpl.
    exists (concat (drop k it)). by rewrite <- concat_app, take_drop. }
  destruct (decrypt_stream_iter_spec key iv (IteratorIO.init it) n Hk Hi Hn) as (full & Hfull & Hc).
  change (rd_content (IteratorIO.init it)) with (concat it) in *. rewrite Ho in *. simpl in *.
  exists ys, full. do 3 (split; [done|]).
  unfold decrypt_stream_iter_broken in Hys. unfold decrypt_stream_iter in Hfull.
  destruct (_check_lens key iv); [|done].
  destruct (decrypt_iter_loop _ _ (IteratorIO.init (take k it)) _ _ _) as [[[d1 h1] ys1]|] eqn:E1; [|done].
  destruct (decrypt_iter_loop _ _ (IteratorIO.init it) _ _ _) as [[[d2 h2] ys2]|] eqn:E2; [|done].
  injection Hys as <-. pose proof (decrypt_iter_loop_take _ _ _ _ _ _ _ _ _ _ _ _ _ _ _ E1 E2) as Hp.
  case_match; [done|]. destruct (gcm_finalize_with_tag d2 h2) as [final|]; [|done].
  injection Hfull as <-. etrans; [exact Hp|]. destruct (nonempty final); [by eexists|done].
Qed.

End broken_facts.

Section stream_roundtrip.
Context {X : Services} {XOk : ServicesOk}.
Context {S1 S2 : Type} {R1 : Reader S1} {R1Ok : ReaderOk S1} {R2 : Reader S2} {R2Ok : ReaderOk S2}.
Import Stream.

(** One-shot opening of a sealed message. *)
Lemma open_seal key iv p :
  zlen key = 32 → zlen iv = 12 →
  let '(ct, tag) := seal key iv p in open key iv (ct ++ tag) = (p, Ok tt).
Proof.
  intros Hk Hi. unfold seal, open. destruct (gcm_update (gcm_encryptor key iv) p) as [c ct] eqn:E.
  pose proof (gcm_tag_length c) as Ht.
  assert (Hn : (length (ct ++ (gcm_finalize c).2) - _TAG_LEN)%nat = length ct)
    by (rewrite length_app, Ht; unfold _TAG_LEN; lia).
  rewrite Hn, take_app_length, drop_app_length.
  pose proof (gcm_correct key iv p c ct) as Hc.
  destruct (gcm_update (gcm_decryptor key iv) ct) as [d y].
  destruct Hc as [-> [x Hx]]; [unfold zlen in *; lia.. | done |].
  rewrite Hx. rewrite (proj2 (Nat.ltb_ge _ _)); [done|].
  rewrite length_app, Ht. unfold _TAG_LEN. lia.
Qed.

(** What [encrypt_stream] writes opens to the source. *)
Lemma encrypt_stream_opens key iv (src : S1) n obj digest :
  zlen key = 32 → zlen iv = 12 → (0 < n)%nat →
  encrypt_stream key iv src n = Some (Ok (obj, digest)) → open key iv obj = (rd_content src, Ok tt).
Proof.
  intros Hk Hi Hn He. pose proof (encrypt_stream_spec key iv src n Hk Hi Hn) as Hs.
  pose proof (open_seal key iv (rd_content src) Hk Hi) as Ho.
  destruct (seal key iv (rd_content src)) as [ct tag].
  destruct Hs as [Hs _]. rewrite He in Hs. by simplify_eq.
Qed.

(** C10: encrypting a source and decrypting the stored object, with the buffered
    function or with the generator, gives the source's bytes back and no
    error, for any two chunk sizes and any way the two sources cut their
    reads; encryption itself never fails. *)
Theorem stream_roundtrip key iv (src : S1) n :
  zlen key = 32 → zlen iv = 12 → (0 < n)%nat →
  ∃ obj digest, encrypt_stream key iv src n = Some (Ok (obj, digest)) ∧
    length obj = (length (rd_content src) + 16)%nat ∧
    ∀ (stored : S2) m, (0 < m)%nat → rd_content stored = obj →
      decrypt_stream key iv stored m = Some (rd_content src, Ok tt) ∧
      ∃ ys, decrypt_stream_iter key iv stored m = Some (ys, Ok tt) ∧ concat ys = rd_content src.
Proof.
  intros Hk Hi Hn. pose proof (encrypt_stream_spec key iv src n Hk Hi Hn) as Hs.
  destruct (seal _ _ _) as [ct tag]. destruct Hs as (Hs & Hl & Ht).
  exists (ct ++ tag), (sha256 ct). split; [done|]. split; [by rewrite length_app, Hl, Ht|].
  intros stored m Hm Hobj. apply encrypt_stream_opens in Hs; [|done..].
  rewrite decrypt_stream_spec by done.
  destruct (decrypt_stream_iter_spec key iv stored m Hk Hi Hm) as (ys & Hy & Hc).
  rewrite Hobj, Hs in *. eauto.
Qed.

End stream_roundtrip.

Section stream_witnesses.
#[local] Instance demo_services : Services := Sim.calm.
#[local] Instance demo_services_ok : ServicesOk := Sim.calm_ok.

Definition demo_key : bytes := replicate 32 9.
Definition demo_iv : bytes := replicate 12 3.

(** Five bytes read three at a time. *)
Lemma stream_reference_witness :
  Stream.encrypt_stream demo_key demo_iv ([1; 2; 3; 4; 5] : bytes) 3 =
    Some (let '(ct, tag) := Stream.seal demo_key demo_iv [1; 2; 3; 4; 5] in
          Ok (ct ++ tag, sha256 ct)).
Proof.
  destruct (stream_reference demo_key demo_iv ([1; 2; 3; 4; 5] : bytes) 3) as [H _];
    [reflexivity|reflexivity|lia|exact H].
Defined.

(** A staged file encrypted, its object streamed back in pieces. *)
Lemma stream_roundtrip_witness :
  ∃ obj digest, Stream.encrypt_stream demo_key demo_iv ([1; 2; 3] : bytes) 2 = Some (Ok (obj, digest)) ∧
    length obj = 19%nat ∧
    Stream.decrypt_stream demo_key demo_iv (obj : bytes) 5 = Some ([1; 2; 3], Ok tt).
Proof.
  destruct (stream_roundtrip (S2 := bytes) demo_key demo_iv ([1; 2; 3] : bytes) 2)
    as (obj & digest & H1 & H2 & H3); [reflexivity|reflexivity|lia|].
  exists obj, digest. split; [exact H1|]. split; [exact H2|].
  apply (H3 obj 5%nat); [lia|reflexivity].
Defined.

End stream_witnesses.
