(* ===== verification/Model.v ===== *)
(** The data model ([app/models]), the state of a running system and the effect
    monad of the handlers.

    [DB.t] holds the PostgreSQL tables.  A request works on a session: [w_sess]
    is the committed state plus the pending changes of the session, [w_db] the
    committed state; [commit], [rollback] and the end of the request move
    between the two.  Every call to Redis, MinIO, SMTP or Telegram and every
    commit first consults the fault oracle, so a theorem that quantifies over
    [Services] covers every pattern of failures.  [w_tick] counts the
    observations of the clock, the entropy source and the fault oracle. *)
From S2P Require Import Prelude Text Services.

(** [TRANSFER_STATUSES] *)
Inductive Status := Uploading | Ready | Expired | Deleted | Infected | Revoked.

#[export] Instance status_eq_dec : EqDecision Status.
Proof. solve_decision. Defined.

Definition status_str (s : Status) : pystr :=
  match s with
  | Uploading => u "uploading" | Ready => u "ready" | Expired => u "expired"
  | Deleted => u "deleted" | Infected => u "infected" | Revoked => u "revoked"
  end.

(** Table [transfers]. *)
Module Transfer.
Record t := mk {
  id : uuid;
  token : pystr;
  manage_token : pystr;
  sender_email : pystr;
  sender_ip : pystr;
  sender_country : option pystr;
  sender_city : option pystr;
  sender_ua : option pystr;
  message : option pystr;
  status : Status;
  wrapped_key : option bytes;
  total_size : Z;
  file_count : Z;
  created_at : datetime;
  expires_at : datetime;
  deleted_at : option datetime;
  infected_at : option datetime;
  revoked_at : option datetime
}.
Definition set_status (v : Status) (r : t) : t :=
  mk (id r) (token r) (manage_token r) (sender_email r) (sender_ip r) (sender_country r)
    (sender_city r) (sender_ua r) (message r) v (wrapped_key r) (total_size r) (file_count r)
    (created_at r) (expires_at r) (deleted_at r) (infected_at r) (revoked_at r).
Definition set_wrapped_key (v : option bytes) (r : t) : t :=
  mk (id r) (token r) (manage_token r) (sender_email r) (sender_ip r) (sender_country r)
    (sender_city r) (sender_ua r) (message r) (status r) v (total_size r) (file_count r)
    (created_at r) (expires_at r) (deleted_at r) (infected_at r) (revoked_at r).
Definition set_deleted_at (v : option datetime) (r : t) : t :=
  mk (id r) (token r) (manage_token r) (sender_email r) (sender_ip r) (sender_country r)
    (sender_city r) (sender_ua r) (message r) (status r) (wrapped_key r) (total_size r)
    (file_count r) (created_at r) (expires_at r) v (infected_at r) (revoked_at r).
Definition set_infected_at (v : option datetime) (r : t) : t :=
  mk (id r) (token r) (manage_token r) (sender_email r) (sender_ip r) (sender_country r)
    (sender_city r) (sender_ua r) (message r) (status r) (wrapped_key r) (total_size r)
    (file_count r) (created_at r) (expires_at r) (deleted_at r) v (revoked_at r).
Definition set_revoked_at (v : option datetime) (r : t) : t :=
  mk (id r) (token r) (manage_token r) (sender_email r) (sender_ip r) (sender_country r)
    (sender_city r) (sender_ua r) (message r) (status r) (wrapped_key r) (total_size r)
    (file_count r) (created_at r) (expires_at r) (deleted_at r) (infected_at r) v.
End Transfer.

(** Table [transfer_recipients]. *)
Module TransferRecipient.
Record t := mk {
  id : uuid;
  transfer_id : uuid;
  email : pystr;
  email_sent_at : option datetime;
  email_status : option pystr;
  locale : option pystr
}.
Definition set_email_sent_at (v : option datetime) (r : t) : t :=
  mk (id r) (transfer_id r) (email r) v (email_status r) (locale r).
Definition set_email_status (v : option pystr) (r : t) : t :=
  mk (id r) (transfer_id r) (email r) (email_sent_at r) v (locale r).
End TransferRecipient.

(** Table [transfer_files]. *)
Module TransferFile.
Record t := mk {
  id : uuid;
  transfer_id : uuid;
  filename : pystr;
  safe_filename : pystr;
  mime_type : pystr;
  extension : option pystr;
  size_bytes : Z;
  object_key : pystr;
  iv : bytes;
  sha256_cipher : bytes
}.
Definition set_mime_type (v : pystr) (r : t) : t :=
  mk (id r) (transfer_id r) (filename r) (safe_filename r) v (extension r) (size_bytes r)
    (object_key r) (iv r) (sha256_cipher r).
Definition set_iv (v : bytes) (r : t) : t :=
  mk (id r) (transfer_id r) (filename r) (safe_filename r) (mime_type r) (extension r)
    (size_bytes r) (object_key r) v (sha256_cipher r).
Definition set_sha256_cipher (v : bytes) (r : t) : t :=
  mk (id r) (transfer_id r) (filename r) (safe_filename r) (mime_type r) (extension r)
    (size_bytes r) (object_key r) (iv r) v.
End TransferFile.

(** Table [downloads]. *)
Module Download.
Record t := mk {
  transfer_id : uuid;
  file_id : option uuid;
  ip : pystr;
  country : option pystr;
  ua : option pystr;
  started_at : datetime;
  completed_at : option datetime;
  bytes_sent : option Z;
  aborted : bool
}.
End Download.

(** Table [admins]. *)
Module Admin.
Record t := mk {
  id : uuid;
  email : pystr;
  password_hash : pystr;
  totp_secret : option bytes;
  totp_enrolled : bool;
  role : pystr;
  disabled : bool;
  created_at : datetime;
  last_login_at : option datetime;
  failed_attempts : Z;
  locked_until : option datetime
}.
Definition set_totp_secret (v : option bytes) (r : t) : t :=
  mk (id r) (email r) (password_hash r) v (totp_enrolled r) (role r) (disabled r) (created_at r)
    (last_login_at r) (failed_attempts r) (locked_until r).
Definition set_totp_enrolled (v : bool) (r : t) : t :=
  mk (id r) (email r) (password_hash r) (totp_secret r) v (role r) (disabled r) (created_at r)
    (last_login_at r) (failed_attempts r) (locked_until r).
Definition set_role (v : pystr) (r : t) : t :=
  mk (id r) (email r) (password_hash r) (totp_secret r) (totp_enrolled r) v (disabled r)
    (created_at r) (last_login_at r) (failed_attempts r) (locked_until r).
Definition set_disabled (v : bool) (r : t) : t :=
  mk (id r) (email r) (password_hash r) (totp_secret r) (totp_enrolled r) (role r) v
    (created_at r) (last_login_at r) (failed_attempts r) (locked_until r).
Definition set_last_login_at (v : option datetime) (r : t) : t :=
  mk (id r) (email r) (password_hash r) (totp_secret r) (totp_enrolled r) (role r) (disabled r)
    (created_at r) v (failed_attempts r) (locked_until r).
Definition set_failed_attempts (v : Z) (r : t) : t :=
  mk (id r) (email r) (password_hash r) (totp_secret r) (totp_enrolled r) (role r) (disabled r)
    (created_at r) (last_login_at r) v (locked_until r).
Definition set_locked_until (v : option datetime) (r : t) : t :=
  mk (id r) (email r) (password_hash r) (totp_secret r) (totp_enrolled r) (role r) (disabled r)
    (created_at r) (last_login_at r) (failed_attempts r) v.
End Admin.

(** Table [admin_actions]. *)
Module AdminAction.
Record t := mk {
  id : Z;
  ts : datetime;
  admin_id : option uuid;
  action : pystr;
  target_type : option pystr;
  target_id : option pystr;
  ip : option pystr;
  details : option json
}.
Definition set_admin_id (v : option uuid) (r : t) : t :=
  mk (id r) (ts r) v (action r) (target_type r) (target_id r) (ip r) (details r).
End AdminAction.

(** Table [audit_log]. *)
Module AuditLog.
Record t := mk {
  id : Z;
  ts : datetime;
  event_type : pystr;
  severity : pystr;
  ip : option pystr;
  country : option pystr;
  transfer_id : option uuid;
  admin_id : option uuid;
  details : option json
}.
Definition set_admin_id (v : option uuid) (r : t) : t :=
  mk (id r) (ts r) (event_type r) (severity r) (ip r) (country r) (transfer_id r) v (details r).
End AuditLog.

(** One row of [blocklist_ips], [blocklist_email_domains] or [blocklist_emails]:
    the key column is [value]. *)
Module Blocklist.
Record t := mk {
  value : pystr;
  reason : option pystr;
  added_by : option uuid;
  added_at : datetime;
  expires_at : option datetime
}.
Definition set_added_by (v : option uuid) (r : t) : t :=
  mk (value r) (reason r) v (added_at r) (expires_at r).
End Blocklist.

(** Table [settings]. *)
Module Setting.
Record t := mk {
  key : pystr;
  value : json;
  updated_at : datetime;
  updated_by : option uuid
}.
End Setting.

(** The tables. *)
Module DB.
Record t := mk {
  transfers : gmap uuid Transfer.t;
  files : gmap uuid TransferFile.t;
  recipients : gmap uuid TransferRecipient.t;
  downloads : list Download.t;
  audit_log : list AuditLog.t;
  admin_actions : list AdminAction.t;
  admins : gmap uuid Admin.t;
  blocklist_ips : gmap pystr Blocklist.t;
  blocklist_domains : gmap pystr Blocklist.t;
  blocklist_emails : gmap pystr Blocklist.t;
  settings : gmap pystr Setting.t
}.
Definition set_transfers (v : gmap uuid Transfer.t) (r : t) : t :=
  mk v (files r) (recipients r) (downloads r) (audit_log r) (admin_actions r) (admins r)
    (blocklist_ips r) (blocklist_domains r) (blocklist_emails r) (settings r).
Definition set_files (v : gmap uuid TransferFile.t) (r : t) : t :=
  mk (transfers r) v (recipients r) (downloads r) (audit_log r) (admin_actions r) (admins r)
    (blocklist_ips r) (blocklist_domains r) (blocklist_emails r) (settings r).
Definition set_recipients (v : gmap uuid TransferRecipient.t) (r : t) : t :=
  mk (transfers r) (files r) v (downloads r) (audit_log r) (admin_actions r) (admins r)
    (blocklist_ips r) (blocklist_domains r) (blocklist_emails r) (settings r).
Definition set_downloads (v : list Download.t) (r : t) : t :=
  mk (transfers r) (files r) (recipients r) v (audit_log r) (admin_actions r) (admins r)
    (blocklist_ips r) (blocklist_domains r) (blocklist_emails r) (settings r).
Definition set_audit_log (v : list AuditLog.t) (r : t) : t :=
  mk (transfers r) (files r) (recipients r) (downloads r) v (admin_actions r) (admins r)
    (blocklist_ips r) (blocklist_domains r) (blocklist_emails r) (settings r).
Definition set_admin_actions (v : list AdminAction.t) (r : t) : t :=
  mk (transfers r) (files r) (recipients r) (downloads r) (audit_log r) v (admins r)
    (blocklist_ips r) (blocklist_domains r) (blocklist_emails r) (settings r).
Definition set_admins (v : gmap uuid Admin.t) (r : t) : t :=
  mk (transfers r) (files r) (recipients r) (downloads r) (audit_log r) (admin_actions r) v
    (blocklist_ips r) (blocklist_domains r) (blocklist_emails r) (settings r).
Definition set_blocklist_ips (v : gmap pystr Blocklist.t) (r : t) : t :=
  mk (transfers r) (files r) (recipients r) (downloads r) (audit_log r) (admin_actions r)
    (admins r) v (blocklist_domains r) (blocklist_emails r) (settings r).
Definition set_blocklist_domains (v : gmap pystr Blocklist.t) (r : t) : t :=
  mk (transfers r) (files r) (recipients r) (downloads r) (audit_log r) (admin_actions r)
    (admins r) (blocklist_ips r) v (blocklist_emails r) (settings r).
Definition set_blocklist_emails (v : gmap pystr Blocklist.t) (r : t) : t :=
  mk (transfers r) (files r) (recipients r) (downloads r) (audit_log r) (admin_actions r)
    (admins r) (blocklist_ips r) (blocklist_domains r) v (settings r).
Definition set_settings (v : gmap pystr Setting.t) (r : t) : t :=
  mk (transfers r) (files r) (recipients r) (downloads r) (audit_log r) (admin_actions r)
    (admins r) (blocklist_ips r) (blocklist_domains r) (blocklist_emails r) v.
End DB.

Definition empty_db : DB.t := DB.mk ∅ ∅ ∅ [] [] [] ∅ ∅ ∅ ∅ ∅.

(** The staging directory: the transfer subdirectories that exist and the files
    in them, by transfer id and base name. *)
Module FS.
Record t := mk {
  dirs : gset uuid;
  files : gmap (uuid * pystr) bytes
}.
Definition set_dirs (v : gset uuid) (r : t) : t :=
  mk v (files r).
Definition set_files (v : gmap (uuid * pystr) bytes) (r : t) : t :=
  mk (dirs r) v.
End FS.

(** Deployment settings the modelled code reads ([app/config.py]). *)
Class Config := {
  hcaptcha_secret : pystr;
  hcaptcha_site_key : pystr;
  telegram_bot_token : pystr;
  telegram_chat_id : pystr;
  public_url : pystr;
  dev_insecure_cookies : bool;
  rate_limit_cache_ttl : Z
}.

(** The state of the system. *)
Module World.
Section world.
Context {X : Services}.
Record t := mk {
  db : DB.t;
  sess : DB.t;
  redis : redisT;
  bucket : bucketT;
  fs : FS.t;
  tick : nat;
  smtp : list (pystr * RenderedEmail);
  telegram : list json;
  request_id : option pystr;
  master_key : option bytes;
  previous_master_key : option bytes;
  rl_cache : gmap pystr (Z * datetime)
}.
Definition set_db (v : DB.t) (r : t) : t :=
  mk v (sess r) (redis r) (bucket r) (fs r) (tick r) (smtp r) (telegram r) (request_id r)
    (master_key r) (previous_master_key r) (rl_cache r).
Definition set_sess (v : DB.t) (r : t) : t :=
  mk (db r) v (redis r) (bucket r) (fs r) (tick r) (smtp r) (telegram r) (request_id r)
    (master_key r) (previous_master_key r) (rl_cache r).
Definition set_redis (v : redisT) (r : t) : t :=
  mk (db r) (sess r) v (bucket r) (fs r) (tick r) (smtp r) (telegram r) (request_id r)
    (master_key r) (previous_master_key r) (rl_cache r).
Definition set_bucket (v : bucketT) (r : t) : t :=
  mk (db r) (sess r) (redis r) v (fs r) (tick r) (smtp r) (telegram r) (request_id r)
    (master_key r) (previous_master_key r) (rl_cache r).
Definition set_fs (v : FS.t) (r : t) : t :=
  mk (db r) (sess r) (redis r) (bucket r) v (tick r) (smtp r) (telegram r) (request_id r)
    (master_key r) (previous_master_key r) (rl_cache r).
Definition set_tick (v : nat) (r : t) : t :=
  mk (db r) (sess r) (redis r) (bucket r) (fs r) v (smtp r) (telegram r) (request_id r)
    (master_key r) (previous_master_key r) (rl_cache r).
Definition set_smtp (v : list (pystr * RenderedEmail)) (r : t) : t :=
  mk (db r) (sess r) (redis r) (bucket r) (fs r) (tick r) v (telegram r) (request_id r)
    (master_key r) (previous_master_key r) (rl_cache r).
Definition set_telegram (v : list json) (r : t) : t :=
  mk (db r) (sess r) (redis r) (bucket r) (fs r) (tick r) (smtp r) v (request_id r)
    (master_key r) (previous_master_key r) (rl_cache r).
Definition set_request_id (v : option pystr) (r : t) : t :=
  mk (db r) (sess r) (redis r) (bucket r) (fs r) (tick r) (smtp r) (telegram r) v (master_key r)
    (previous_master_key r) (rl_cache r).
Definition set_rl_cache (v : gmap pystr (Z * datetime)) (r : t) : t :=
  mk (db r) (sess r) (redis r) (bucket r) (fs r) (tick r) (smtp r) (telegram r) (request_id r)
    (master_key r) (previous_master_key r) v.
Definition set_master_key (v : option bytes) (r : t) : t :=
  mk (db r) (sess r) (redis r) (bucket r) (fs r) (tick r) (smtp r) (telegram r) (request_id r)
    v (previous_master_key r) (rl_cache r).
Definition set_previous_master_key (v : option bytes) (r : t) : t :=
  mk (db r) (sess r) (redis r) (bucket r) (fs r) (tick r) (smtp r) (telegram r) (request_id r)
    (master_key r) v (rl_cache r).
End world.
#[global] Arguments t {X}.
End World.

(** * The effect monad *)

Section monad.
Context {X : Services}.

Abbreviation World := (World.t (X := X)).

Definition M (A : Type) : Type := World → res A * World.

#[global] Instance M_ret : MRet M := λ A a w, (Ok a, w).
#[global] Instance M_bind : MBind M := λ A B f m w,
  let '(r, w') := m w in
  match r with
  | Ok a => f a w'
  | Err e => (Err e, w')
  end.

Definition raise {A} (e : exn) : M A := λ w, (Err e, w).

Definition lift {A} (r : res A) : M A := λ w, (r, w).

Definition gets {A} (f : World → A) : M A := λ w, (Ok (f w), w).

Definition modify (f : World → World) : M unit := λ w, (Ok tt, f w).

(** [try: m except Exception as e: h e] *)
Definition try_except {A} (m : M A) (h : exn → M A) : M A := λ w,
  let '(r, w') := m w in
  match r with
  | Ok a => (Ok a, w')
  | Err e => h e w'
  end.

(** [try: m finally: f] *)
Definition try_finally {A} (m : M A) (f : M unit) : M A := λ w,
  let '(r, w1) := m w in
  let '(rf, w2) := f w1 in
  (match rf with Ok _ => r | Err e => Err e end, w2).

(** [with contextlib.suppress(Exception): m] *)
Definition suppress (m : M unit) : M unit := try_except m (λ _, mret tt).

(** [for x in xs: f x] *)
Fixpoint for_ {A} (xs : list A) (f : A → M unit) : M unit :=
  match xs with
  | [] => mret tt
  | x :: xs' => f x;; for_ xs' f
  end.

(** A loop that threads an accumulator. *)
Fixpoint fold_m {A B} (f : B → A → M B) (b : B) (xs : list A) : M B :=
  match xs with
  | [] => mret b
  | x :: xs' => b' ← f b x; fold_m f b' xs'
  end.

(** ** Observations of the outside world *)

Definition next_tick (w : World) : World := World.set_tick (S (World.tick w)) w.

(** [datetime.now(UTC)] *)
Definition now : M datetime := λ w, (Ok (clock (World.tick w)), next_tick w).

(** A call to an external service: it may raise. *)
Definition call : M unit := λ w,
  ((if fault (World.tick w) then Err ServiceError else Ok tt), next_tick w).

Definition token_bytes (n : nat) : M bytes := λ w, (Ok (rand_bytes (World.tick w) n), next_tick w).
Definition token_urlsafe : M pystr := λ w, (Ok (rand_token (World.tick w)), next_tick w).
Definition uuid4 : M uuid := λ w, (Ok (rand_uuid (World.tick w)), next_tick w).

(** ** The database session *)

Definition query {A} (f : DB.t → A) : M A := gets (λ w, f (World.sess w)).

Definition modify_db (f : DB.t → DB.t) : M unit :=
  modify (λ w, World.set_sess (f (World.sess w)) w).

Definition commit : M unit :=
  call;; modify (λ w, World.set_db (World.sess w) w).

Definition rollback : M unit := modify (λ w, World.set_sess (World.db w) w).

(** One request, job or scheduler tick: a fresh session, dropped at the end. *)
Definition with_session {A} (m : M A) : M A := λ w,
  let '(r, w') := m (World.set_sess (World.db w) w) in
  (r, World.set_sess (World.db w') w').

(** [select(T).where(p)] over a keyed table: the rows satisfying [p]. *)
Definition rows {V} (p : V → bool) (m : gmap Z V) : list V :=
  filter (λ v, p v = true) (map_to_list m).*2.

(** [session.get(Transfer, id)] and the like. *)
Definition get_transfer (i : uuid) : M (option Transfer.t) := query (λ d, DB.transfers d !! i).
Definition get_file (i : uuid) : M (option TransferFile.t) := query (λ d, DB.files d !! i).
Definition get_recipient (i : uuid) : M (option TransferRecipient.t) :=
  query (λ d, DB.recipients d !! i).
Definition get_admin (i : uuid) : M (option Admin.t) := query (λ d, DB.admins d !! i).
Definition get_setting (k : pystr) : M (option Setting.t) := query (λ d, DB.settings d !! k).

(** Attribute assignments on a loaded row. *)
Definition update_transfer (i : uuid) (f : Transfer.t → Transfer.t) : M unit :=
  modify_db (λ d, DB.set_transfers (alter f i (DB.transfers d)) d).
Definition update_file (i : uuid) (f : TransferFile.t → TransferFile.t) : M unit :=
  modify_db (λ d, DB.set_files (alter f i (DB.files d)) d).
Definition update_recipient (i : uuid) (f : TransferRecipient.t → TransferRecipient.t) : M unit :=
  modify_db (λ d, DB.set_recipients (alter f i (DB.recipients d)) d).
Definition update_admin (i : uuid) (f : Admin.t → Admin.t) : M unit :=
  modify_db (λ d, DB.set_admins (alter f i (DB.admins d)) d).

(** [session.add(row)]; a primary key or unique token already present is an
    [IntegrityError]. *)
Definition add_transfer (t : Transfer.t) : M unit :=
  clash ← query (λ d, bool_decide (is_Some (DB.transfers d !! Transfer.id t)) ||
    existsb (λ t', bool_decide (Transfer.token t' = Transfer.token t) ||
                   bool_decide (Transfer.manage_token t' = Transfer.manage_token t))
            (map_to_list (DB.transfers d)).*2);
  if clash : bool then raise IntegrityError
  else modify_db (λ d, DB.set_transfers (<[Transfer.id t := t]> (DB.transfers d)) d).

Definition add_file (f : TransferFile.t) : M unit :=
  clash ← query (λ d, bool_decide (is_Some (DB.files d !! TransferFile.id f)));
  if clash : bool then raise IntegrityError
  else modify_db (λ d, DB.set_files (<[TransferFile.id f := f]> (DB.files d)) d).

Definition add_recipient (r : TransferRecipient.t) : M unit :=
  clash ← query (λ d, bool_decide (is_Some (DB.recipients d !! TransferRecipient.id r)));
  if clash : bool then raise IntegrityError
  else modify_db (λ d, DB.set_recipients (<[TransferRecipient.id r := r]> (DB.recipients d)) d).

Definition add_download (x : Download.t) : M unit :=
  modify_db (λ d, DB.set_downloads (DB.downloads d ++ [x]) d).

(** The log tables number their rows in insertion order. *)
Definition add_audit (mk : Z → AuditLog.t) : M unit :=
  modify_db (λ d, DB.set_audit_log
    (DB.audit_log d ++ [mk (zlen (DB.audit_log d) + 1)]) d).

Definition add_action (mk : Z → AdminAction.t) : M unit :=
  modify_db (λ d, DB.set_admin_actions
    (DB.admin_actions d ++ [mk (zlen (DB.admin_actions d) + 1)]) d).

(** ** Redis *)

Definition with_redis {A} (f : redisT → datetime → res A * redisT) : M A :=
  call;;
  t ← now;
  ((λ w, let '(r, s) := f (World.redis w) t in
         (r, match r with Ok _ => World.set_redis s w | Err _ => w end)) : M A).

Definition redis_get (k : pystr) : M (option json) :=
  with_redis (λ s t,
    (match r_view s t k with
     | None => Ok None
     | Some (RStr v, _) => Ok (Some v)
     | Some _ => Err ServiceError
     end, s)).

Definition redis_set (k : pystr) (v : json) (ex : option Z) : M unit :=
  with_redis (λ s t, (Ok tt, r_set s t k v ex)).

(** [redis.set(k, v, nx=True, ex=ttl)] *)
Definition redis_set_nx (k : pystr) (v : json) (ex : Z) : M bool :=
  with_redis (λ s t, let '(b, s') := r_set_nx s t k v ex in (Ok b, s')).

Definition redis_delete (ks : list pystr) : M unit :=
  with_redis (λ s t, (Ok tt, r_del s t ks)).

Definition redis_smembers (k : pystr) : M (gset pystr) :=
  with_redis (λ s t,
    (match set_of (r_view s t k) with Some m => Ok m | None => Err ServiceError end, s)).

Definition redis_lpush (k : pystr) (v : json) : M unit :=
  with_redis (λ s t,
    match list_of (r_view s t k) with
    | Some _ => (Ok tt, r_lpush s t k v)
    | None => (Err ServiceError, s)
    end).

(** [BRPOP] with a timeout: [None] when nothing arrived. *)
Definition redis_brpop (k : pystr) : M (option json) :=
  with_redis (λ s t,
    match list_of (r_view s t k) with
    | Some _ => let '(x, s') := r_rpop s t k in (Ok x, s')
    | None => (Err ServiceError, s)
    end).

Definition redis_llen (k : pystr) : M Z :=
  with_redis (λ s t,
    (match list_of (r_view s t k) with Some l => Ok (zlen l) | None => Err ServiceError end, s)).

End monad.
(** [str(exc)]: what an exception says is not part of the model. *)
Abbreviation exception_text e := (gets (λ w, exc_text (World.tick w) e)) (only parsing).
Abbreviation World := World.t.
