(* ===== verification/Seeds.v ===== *)
(** The settings the database migrations install ([alembic/versions]: 0003,
    0004 and 0006). *)
From S2P Require Import Prelude Text Services Model.
#[local] Open Scope Z_scope.

Module Seeds.

(** [SEED] of 0003. *)
Definition SEED : list (pystr * json) :=
  [(u "max_transfer_size_gb", JInt 2);
   (u "max_ttl_days", JInt 7);
   (u "rate_hourly", JInt 10);
   (u "rate_daily", JInt 100);
   (u "rate_download_hourly", JInt 30);
   (u "geoip_enabled", JBool false);
   (u "geoip_countries", JArr (JStr <$> [u "KZ"; u "UZ"; u "KG"]));
   (u "extension_blacklist", JArr (JStr <$>
      [u ".exe"; u ".bat"; u ".scr"; u ".vbs"; u ".js"; u ".msi"; u ".ps1"; u ".hta"; u ".lnk";
       u ".iso"]));
   (u "max_recipients", JInt 20);
   (u "max_message_length", JInt 2000);
   (u "audit_retention_days", JInt 730)].

(** [ADMIN_SETTINGS] of 0004. *)
Definition ADMIN_SETTINGS : list (pystr * json) :=
  [(u "admin_session_ttl_minutes", JInt 30);
   (u "admin_max_failed_attempts", JInt 5);
   (u "admin_lockout_minutes", JInt 15);
   (u "admin_cidr_allowlist", JArr [JStr (u "127.0.0.0/8")])].

(** [SEED] of 0006. *)
Definition TELEGRAM_SEED : list (pystr * json) :=
  [(u "telegram_alert_on_infected", JBool true);
   (u "telegram_alert_on_rate_limit_spike", JBool true);
   (u "telegram_alert_on_admin_login_fail_spike", JBool true);
   (u "telegram_alert_on_storage_high", JBool true);
   (u "telegram_alert_on_defender_event", JBool true);
   (u "telegram_rate_limit_spike_threshold", JInt 20)].

(** [INSERT INTO settings (key, value)], at the time [t]. *)
Definition insert (t : datetime) (d : DB.t) (kv : pystr * json) : res DB.t :=
  match DB.settings d !! kv.1 with
  | Some _ => Err IntegrityError
  | None => Ok (DB.set_settings (<[kv.1 := Setting.mk kv.1 kv.2 t None]> (DB.settings d)) d)
  end.

(** The same with [ON CONFLICT (key) DO NOTHING]. *)
Definition insert_missing (t : datetime) (d : DB.t) (kv : pystr * json) : DB.t :=
  match insert t d kv with Ok d' => d' | Err _ => d end.

Definition remove (d : DB.t) (kv : pystr * json) : DB.t :=
  DB.set_settings (delete kv.1 (DB.settings d)) d.

Definition upgrade_0003 (t : datetime) (d : DB.t) : res DB.t :=
  foldl (λ r kv, d ← r; insert t d kv) (Ok d) SEED.
Definition downgrade_0003 (d : DB.t) : DB.t := foldl remove d SEED.

Definition upgrade_0004 (t : datetime) (d : DB.t) : DB.t := foldl (insert_missing t) d ADMIN_SETTINGS.
Definition downgrade_0004 (d : DB.t) : DB.t := foldl remove d ADMIN_SETTINGS.

Definition upgrade_0006 (t : datetime) (d : DB.t) : DB.t := foldl (insert_missing t) d TELEGRAM_SEED.
Definition downgrade_0006 (d : DB.t) : DB.t := foldl remove d TELEGRAM_SEED.

(** The migrations that fill the table, in order. *)
Definition upgrade (t : datetime) (d : DB.t) : res DB.t :=
  d ← upgrade_0003 t d; Ok (upgrade_0006 t (upgrade_0004 t d)).

Definition downgrade (d : DB.t) : DB.t := downgrade_0003 (downgrade_0004 (downgrade_0006 d)).

End Seeds.
