(* ===== verification/Scenario.v ===== *)
(** A concrete deployment for the witnesses: settings, keys, an empty system
    and sample rows. *)
From S2P Require Import Prelude Text Services Sim Model.

Module Demo.

(** No captcha, no Telegram, secure cookies. *)
#[export] Instance config : Config := {|
  hcaptcha_secret := [];
  hcaptcha_site_key := [];
  telegram_bot_token := [];
  telegram_chat_id := [];
  public_url := u "https://files.example/";
  dev_insecure_cookies := false;
  rate_limit_cache_ttl := 30
|}.

Definition master : bytes := replicate 32 7.
Definition old_master : bytes := replicate 32 9.
Definition file_key : bytes := replicate 32 5.

(** A running system over the database [d]: Redis, bucket and staging empty. *)
Definition world (d : DB.t) : World.t (X := Sim.calm) :=
  World.mk (X := Sim.calm) d d (∅ : Sim.redis) (∅ : Sim.bucket) (FS.mk ∅ ∅) 0 [] [] None
    (Some master) None ∅.

(** The time of [Sim.calm]. *)
Definition now : datetime := 1000 * second.

Definition transfer (i : uuid) (s : Status) (wrapped : option bytes) (expires : datetime)
  : Transfer.t :=
  Transfer.mk i (u "download") (u "manage") (u "bob@example.org") (u "192.0.2.1") None None None
    None s wrapped 3 1 0 expires None None None.

Definition file (i tid : uuid) (key : pystr) : TransferFile.t :=
  TransferFile.mk i tid (u "a.txt") (u "a.txt") (u "text/plain") (Some (u ".txt")) 3 key
    (replicate 12 0) (replicate 32 0).

Definition admin (i : uuid) (email role : pystr) : Admin.t :=
  Admin.mk i email (u "argon2:" ++ u "correct horse") (Some (u "JBSWY3DP")) true role false 0 None 0 None.

Definition db_transfers (ts : list Transfer.t) (fs : list TransferFile.t) : DB.t :=
  DB.set_files (list_to_map ((λ f, (TransferFile.id f, f)) <$> fs))
    (DB.set_transfers (list_to_map ((λ t, (Transfer.id t, t)) <$> ts)) empty_db).

Definition db_admins (l : list Admin.t) : DB.t :=
  DB.set_admins (list_to_map ((λ a, (Admin.id a, a)) <$> l)) empty_db.

End Demo.
