(* ===== verification/Effects.v ===== *)
(** Reasoning about the effect monad: weakest preconditions with one rule per
    primitive, and footprints — the parts of the world an operation may
    change. *)
From S2P Require Import Prelude Text Services Model.

(** * Weakest preconditions *)

Section wp.
Context {X : Services}.

Definition wp {A} (m : M A) (w : World) (Q : res A → World → Prop) : Prop :=
  Q (m w).1 (m w).2.

Lemma wp_run {A} (m : M A) w Q r w' : wp m w Q → m w = (r, w') → Q r w'.
Proof. unfold wp. intros H E. by rewrite E in H. Qed.

Lemma wp_of {A} (m : M A) w (Q : res A → World → Prop) :
  (∀ r w', m w = (r, w') → Q r w') → wp m w Q.
Proof. intros H. apply H. by destruct (m w). Qed.

Lemma wp_of_run {A} (m : M A) w (Q : res A → World → Prop) :
  wp m w Q → ∀ r w', m w = (r, w') → Q r w'.
Proof. intros H r w'. by apply wp_run. Qed.

Lemma wp_mono {A} (m : M A) w (P Q : res A → World → Prop) :
  wp m w P → (∀ r w', P r w' → Q r w') → wp m w Q.
Proof. unfold wp. eauto. Qed.

Lemma wp_and {A} (m : M A) w (P Q : res A → World → Prop) :
  wp m w P → wp m w Q → wp m w (λ r w', P r w' ∧ Q r w').
Proof. done. Qed.

Lemma wp_ret {A} (a : A) w (Q : res A → World → Prop) : Q (Ok a) w → wp (mret a) w Q.
Proof. done. Qed.

Lemma wp_raise {A} e w (Q : res A → World → Prop) : Q (Err e) w → wp (raise e) w Q.
Proof. done. Qed.

Lemma wp_lift {A} (r : res A) w Q : Q r w → wp (lift r) w Q.
Proof. done. Qed.

Lemma wp_gets {A} (f : World → A) w Q : Q (Ok (f w)) w → wp (gets f) w Q.
Proof. done. Qed.

Lemma wp_modify f w Q : Q (Ok tt) (f w) → wp (modify f) w Q.
Proof. done. Qed.

Lemma wp_bind {A B} (m : M A) (f : A → M B) w Q :
  wp m w (λ r w1, match r with Ok a => wp (f a) w1 Q | Err e => Q (Err e) w1 end) →
  wp (m ≫= f) w Q.
Proof. unfold wp, mbind, M_bind. destruct (m w) as [[a|e] w1]; simpl; done. Qed.

Lemma wp_try_except {A} (m : M A) h w Q :
  wp m w (λ r w1, match r with Ok a => Q (Ok a) w1 | Err e => wp (h e) w1 Q end) →
  wp (try_except m h) w Q.
Proof. unfold wp, try_except. by destruct (m w) as [[a|e] w1]. Qed.

Lemma wp_try_finally {A} (m : M A) f w Q :
  wp m w (λ r w1, wp f w1 (λ rf w2, Q (match rf with Ok _ => r | Err e => Err e end) w2)) →
  wp (try_finally m f) w Q.
Proof. unfold wp, try_finally. destruct (m w) as [r w1]. simpl. by destruct (f w1). Qed.

Lemma wp_suppress m w Q :
  wp m w (λ _ w1, Q (Ok tt) w1) → wp (suppress m) w Q.
Proof. unfold wp, suppress, try_except. by destruct (m w) as [[[]|e] w1]. Qed.

Lemma wp_now w Q : Q (Ok (clock (World.tick w))) (next_tick w) → wp now w Q.
Proof. done. Qed.

Lemma wp_token_bytes n w Q :
  Q (Ok (rand_bytes (World.tick w) n)) (next_tick w) → wp (token_bytes n) w Q.
Proof. done. Qed.

Lemma wp_token_urlsafe w Q : Q (Ok (rand_token (World.tick w))) (next_tick w) → wp token_urlsafe w Q.
Proof. done. Qed.

Lemma wp_uuid4 w Q : Q (Ok (rand_uuid (World.tick w))) (next_tick w) → wp uuid4 w Q.
Proof. done. Qed.

Lemma wp_call w (Q : res unit → World → Prop) :
  Q (Ok tt) (next_tick w) → Q (Err ServiceError) (next_tick w) → wp call w Q.
Proof. unfold wp, call. simpl. by case_match. Qed.

Lemma wp_query {A} (f : DB.t → A) w Q : Q (Ok (f (World.sess w))) w → wp (query f) w Q.
Proof. done. Qed.

Lemma wp_modify_db f w Q :
  Q (Ok tt) (World.set_sess (f (World.sess w)) w) → wp (modify_db f) w Q.
Proof. done. Qed.

Lemma wp_commit w (Q : res unit → World → Prop) :
  Q (Ok tt) (World.set_db (World.sess w) (next_tick w)) → Q (Err ServiceError) (next_tick w) →
  wp commit w Q.
Proof. intros. unfold commit. apply wp_bind, wp_call; done. Qed.

Lemma wp_commit_fault w (Q : res unit → World → Prop) :
  Q (Ok tt) (World.set_db (World.sess w) (next_tick w)) →
  (fault (World.tick w) = true → Q (Err ServiceError) (next_tick w)) → wp commit w Q.
Proof.
  intros Ho He. unfold commit, wp, mbind, M_bind, call, modify.
  destruct (fault (World.tick w)); [by apply He|exact Ho].
Qed.

Lemma wp_rollback w Q : Q (Ok tt) (World.set_sess (World.db w) w) → wp rollback w Q.
Proof. done. Qed.

Lemma wp_with_session {A} (m : M A) w (Q : res A → World → Prop) :
  wp m (World.set_sess (World.db w) w) (λ r w1, Q r (World.set_sess (World.db w1) w1)) →
  wp (with_session m) w Q.
Proof. unfold wp, with_session. by destruct (m _). Qed.

(** Loops: an invariant of the items done so far. *)
Lemma wp_for {A} (xs : list A) f w (I : list A → World → Prop) (Q : res unit → World → Prop) :
  I [] w →
  (∀ pre x post w, xs = pre ++ x :: post → I pre w →
     wp (f x) w (λ r w1, match r with Ok _ => I (pre ++ [x]) w1 | Err e => Q (Err e) w1 end)) →
  (∀ w, I xs w → Q (Ok tt) w) →
  wp (for_ xs f) w Q.
Proof.
  intros HI Hf HQ.
  assert (H : ∀ post pre w, xs = pre ++ post → I pre w → wp (for_ post f) w Q).
  { induction post as [|x post IH]; intros pre w1 -> H1; simpl.
    - apply HQ. by rewrite app_nil_r.
    - apply wp_bind. eapply wp_mono; [by apply (Hf pre x post)|]. intros [[]|e] w2; [|done].
      apply IH. by rewrite <- app_assoc. }
  by apply (H xs [] w).
Qed.

Lemma wp_fold {A B} (xs : list A) (f : B → A → M B) b w (I : list A → B → World → Prop)
    (Q : res B → World → Prop) :
  I [] b w →
  (∀ pre x post b w, xs = pre ++ x :: post → I pre b w →
     wp (f b x) w (λ r w1, match r with Ok b' => I (pre ++ [x]) b' w1 | Err e => Q (Err e) w1 end)) →
  (∀ b w, I xs b w → Q (Ok b) w) →
  wp (fold_m f b xs) w Q.
Proof.
  intros HI Hf HQ.
  assert (H : ∀ post pre b w, xs = pre ++ post → I pre b w → wp (fold_m f b post) w Q).
  { induction post as [|x post IH]; intros pre b1 w1 -> H1; simpl.
    - apply HQ. by rewrite app_nil_r.
    - apply wp_bind. eapply wp_mono; [by apply (Hf pre x post)|]. intros [b2|e] w2; [|done].
      apply IH. by rewrite <- app_assoc. }
  by apply (H xs [] b w).
Qed.

(** A Redis command: it fails before or after the clock is read, or runs. *)
Lemma wp_redis {A} (f : redisT → datetime → res A * redisT) w Q :
  Q (Err ServiceError) (next_tick w) →
  (let w1 := next_tick (next_tick w) in
   let '(r, s) := f (World.redis w) (clock (S (World.tick w))) in
   Q r (match r with Ok _ => World.set_redis s w1 | Err _ => w1 end)) →
  wp (with_redis f) w Q.
Proof.
  intros HE HF. unfold with_redis. apply wp_bind, wp_call; [|done].
  apply wp_bind, wp_now. unfold wp. simpl. by destruct (f _ _).
Qed.

End wp.

(** * Footprints *)

(** The parts of the world: the tables of the session, the committed state and
    the rest. *)
Inductive part :=
  | PTransfers | PFiles | PRecipients | PDownloads | PAudit | PActions | PAdmins
  | PBlock | PSettings | PDb | PRedis | PBucket | PFs | PTick | PSmtp | PTelegram | PRid | PCache
  | PKeys.

#[export] Instance part_eq_dec : EqDecision part.
Proof. solve_decision. Defined.

Section footprint.
Context {X : Services}.

Definition same_part (p : part) (w w' : World) : Prop :=
  let s := World.sess w in
  let s' := World.sess w' in
  match p with
  | PTransfers => DB.transfers s' = DB.transfers s
  | PFiles => DB.files s' = DB.files s
  | PRecipients => DB.recipients s' = DB.recipients s
  | PDownloads => DB.downloads s' = DB.downloads s
  | PAudit => DB.audit_log s' = DB.audit_log s
  | PActions => DB.admin_actions s' = DB.admin_actions s
  | PAdmins => DB.admins s' = DB.admins s
  | PBlock => DB.blocklist_ips s' = DB.blocklist_ips s ∧
              DB.blocklist_domains s' = DB.blocklist_domains s ∧
              DB.blocklist_emails s' = DB.blocklist_emails s
  | PSettings => DB.settings s' = DB.settings s
  | PDb => World.db w' = World.db w
  | PRedis => World.redis w' = World.redis w
  | PBucket => World.bucket w' = World.bucket w
  | PFs => World.fs w' = World.fs w
  | PTick => World.tick w' = World.tick w
  | PSmtp => World.smtp w' = World.smtp w
  | PTelegram => World.telegram w' = World.telegram w
  | PRid => World.request_id w' = World.request_id w
  | PCache => World.rl_cache w' = World.rl_cache w
  | PKeys => World.master_key w' = World.master_key w ∧
             World.previous_master_key w' = World.previous_master_key w
  end.

#[global] Instance same_part_pre p : PreOrder (same_part p).
Proof.
  split; [intros w; by destruct p|]. intros w w1 w2.
  destruct p; simpl; intuition congruence.
Qed.

(** Everything outside [l] is as it was. *)
Definition agree (l : list part) (w w' : World) : Prop := ∀ p, p ∉ l → same_part p w w'.

#[global] Instance agree_pre l : PreOrder (agree l).
Proof. split; [by intros w p|]. intros w w1 w2 H1 H2 p Hp. etrans; eauto. Qed.

Definition touches {A} (l : list part) (m : M A) : Prop := ∀ w, agree l w (m w).2.

Lemma touches_wp {A} l (m : M A) w : touches l m → wp m w (λ _ w', agree l w w').
Proof. intros H. apply H. Qed.

Lemma touches_same {A} l (m : M A) p w r w' :
  touches l m → m w = (r, w') → p ∉ l → same_part p w w'.
Proof. intros H E Hp. specialize (H w p Hp). by rewrite E in H. Qed.

Lemma touches_agree {A} l (m : M A) w r w' : touches l m → m w = (r, w') → agree l w w'.
Proof. intros H E p Hp. eapply touches_same; eauto. Qed.

Lemma touches_weaken {A} l k (m : M A) : touches l m → l ⊆ k → touches k m.
Proof. intros H Hs w p Hp. apply H. by auto. Qed.

Lemma touches_ret {A} l (a : A) : touches l (mret a).
Proof. by intros w. Qed.

Lemma touches_raise {A} l e : touches l (raise (A := A) e).
Proof. by intros w. Qed.

Lemma touches_lift {A} l (r : res A) : touches l (lift r).
Proof. by intros w. Qed.

Lemma touches_gets {A} l (f : World → A) : touches l (gets f).
Proof. by intros w. Qed.

Lemma touches_query {A} l (f : DB.t → A) : touches l (query f).
Proof. by intros w. Qed.

Lemma touches_modify l f : (∀ w, agree l w (f w)) → touches l (modify f).
Proof. done. Qed.

Lemma touches_bind {A B} l (m : M A) (f : A → M B) :
  touches l m → (∀ a, touches l (f a)) → touches l (m ≫= f).
Proof.
  intros Hm Hf w. unfold mbind, M_bind. specialize (Hm w).
  destruct (m w) as [[a|e] w1]; simpl in *; [|done]. etrans; [done|apply Hf].
Qed.

Lemma touches_try_except {A} l (m : M A) h :
  touches l m → (∀ e, touches l (h e)) → touches l (try_except m h).
Proof.
  intros Hm Hh w. unfold try_except. specialize (Hm w).
  destruct (m w) as [[a|e] w1]; simpl in *; [done|]. etrans; [done|apply Hh].
Qed.

Lemma touches_try_finally {A} l (m : M A) f :
  touches l m → touches l f → touches l (try_finally m f).
Proof.
  intros Hm Hf w. unfold try_finally. specialize (Hm w). destruct (m w) as [r w1]. simpl in *.
  specialize (Hf w1). destruct (f w1) as [rf w2]. simpl in *. by etrans.
Qed.

Lemma touches_suppress l m : touches l m → touches l (suppress m).
Proof. intros. apply touches_try_except; [done|]. intros. apply touches_ret. Qed.

Lemma touches_for {A} l (xs : list A) f : (∀ x, touches l (f x)) → touches l (for_ xs f).
Proof.
  intros Hf. induction xs as [|x xs IH]; simpl; [apply touches_ret|].
  apply touches_bind; [apply Hf|done].
Qed.

Lemma touches_fold {A B} l (xs : list A) (f : B → A → M B) b :
  (∀ b x, touches l (f b x)) → touches l (fold_m f b xs).
Proof.
  intros Hf. revert b. induction xs as [|x xs IH]; intros b; simpl; [apply touches_ret|].
  apply touches_bind; [apply Hf|intros; apply IH].
Qed.

(** A tick of the outside world changes [w_tick] alone. *)
Lemma agree_tick l w : PTick ∈ l → agree l w (next_tick w).
Proof. intros H p Hp. destruct p; simpl; done. Qed.

Lemma touches_now l : PTick ∈ l → touches l now.
Proof. intros H w. by apply agree_tick. Qed.
Lemma touches_call l : PTick ∈ l → touches l call.
Proof. intros H w. by apply agree_tick. Qed.
Lemma touches_token_bytes l n : PTick ∈ l → touches l (token_bytes n).
Proof. intros H w. by apply agree_tick. Qed.
Lemma touches_token_urlsafe l : PTick ∈ l → touches l token_urlsafe.
Proof. intros H w. by apply agree_tick. Qed.
Lemma touches_uuid4 l : PTick ∈ l → touches l uuid4.
Proof. intros H w. by apply agree_tick. Qed.

(** The tables a session operation leaves alone. *)
Definition db_same (p : part) (d d' : DB.t) : Prop :=
  match p with
  | PTransfers => DB.transfers d' = DB.transfers d
  | PFiles => DB.files d' = DB.files d
  | PRecipients => DB.recipients d' = DB.recipients d
  | PDownloads => DB.downloads d' = DB.downloads d
  | PAudit => DB.audit_log d' = DB.audit_log d
  | PActions => DB.admin_actions d' = DB.admin_actions d
  | PAdmins => DB.admins d' = DB.admins d
  | PBlock => DB.blocklist_ips d' = DB.blocklist_ips d ∧
              DB.blocklist_domains d' = DB.blocklist_domains d ∧
              DB.blocklist_emails d' = DB.blocklist_emails d
  | PSettings => DB.settings d' = DB.settings d
  | _ => True
  end.

Lemma touches_modify_db l f :
  (∀ d p, p ∉ l → db_same p d (f d)) → touches l (modify_db f).
Proof. intros H w p Hp. specialize (H (World.sess w) p Hp). destruct p; done. Qed.

Lemma touches_commit l : PTick ∈ l → PDb ∈ l → touches l commit.
Proof.
  intros H1 H2. apply touches_bind; [by apply touches_call|]. intros _.
  apply touches_modify. intros w p Hp. destruct p; done.
Qed.

Lemma touches_redis {A} l (f : redisT → datetime → res A * redisT) :
  PTick ∈ l → PRedis ∈ l → touches l (with_redis f).
Proof.
  intros H1 H2. apply touches_bind; [by apply touches_call|]. intros _.
  apply touches_bind; [by apply touches_now|]. intros t w p Hp.
  simpl. destruct (f _ _) as [[a|e] s]; destruct p; done.
Qed.

End footprint.

(** * Invariants *)

Section preserves.
Context {X : Services} (I : World → Prop).

(** However the operation ends, [I] holds after it if it held before. *)
Definition preserves {A} (m : M A) : Prop := ∀ w, I w → wp m w (λ _ w', I w').

Lemma preserves_foot {A} l (m : M A) :
  (∀ w w', agree l w w' → I w → I w') → touches l m → preserves m.
Proof. intros HI Ht w Hw. by apply (HI w); [apply Ht|]. Qed.

Lemma preserves_ret {A} (a : A) : preserves (mret a).
Proof. by intros w Hw. Qed.

Lemma preserves_raise {A} e : preserves (raise (A := A) e).
Proof. by intros w Hw. Qed.

Lemma preserves_bind {A B} (m : M A) (f : A → M B) :
  preserves m → (∀ a, preserves (f a)) → preserves (m ≫= f).
Proof.
  intros Hm Hf w Hw. apply wp_bind. eapply wp_mono; [by apply Hm|].
  intros [a|e] w1 H1; [by apply Hf|done].
Qed.

Lemma preserves_try_except {A} (m : M A) h :
  preserves m → (∀ e, preserves (h e)) → preserves (try_except m h).
Proof.
  intros Hm Hh w Hw. apply wp_try_except. eapply wp_mono; [by apply Hm|].
  intros [a|e] w1 H1; [done|by apply Hh].
Qed.

Lemma preserves_try_finally {A} (m : M A) f :
  preserves m → preserves f → preserves (try_finally m f).
Proof.
  intros Hm Hf w Hw. apply wp_try_finally. eapply wp_mono; [by apply Hm|].
  intros r w1 H1. by apply Hf.
Qed.

Lemma preserves_suppress m : preserves m → preserves (suppress m).
Proof. intros. apply preserves_try_except; [done|]. intros. apply preserves_ret. Qed.

Lemma preserves_for {A} (xs : list A) f : (∀ x, x ∈ xs → preserves (f x)) → preserves (for_ xs f).
Proof.
  induction xs as [|x xs IH]; intros Hf; simpl; [apply preserves_ret|].
  apply preserves_bind; [apply Hf; left|]. intros _. apply IH. intros y Hy. apply Hf. by right.
Qed.

Lemma preserves_fold {A B} (xs : list A) (f : B → A → M B) b :
  (∀ b x, x ∈ xs → preserves (f b x)) → preserves (fold_m f b xs).
Proof.
  revert b. induction xs as [|x xs IH]; intros b Hf; simpl; [apply preserves_ret|].
  apply preserves_bind; [apply Hf; left|]. intros b'. apply IH. intros c y Hy. apply Hf. by right.
Qed.

End preserves.

(** Membership in a concrete list of parts. *)
Ltac part_in := solve [repeat (first [left; reflexivity | right]) | eassumption].

(** The parts an update of one table leaves alone. *)
Ltac part_out :=
  let d := fresh in let p := fresh in let Hp := fresh in
  intros d p Hp; destruct p; simpl; try done; exfalso; apply Hp; part_in.

Ltac part_notin := apply (bool_decide_unpack _); vm_compute; exact I.

Create HintDb foot discriminated.

(** Footprint of an operation, by its structure. *)
Ltac foot_step :=
  match goal with
  | |- touches _ (mbind _ _) => apply touches_bind; [|intros ?]
  | |- touches _ (mret _) => apply touches_ret
  | |- touches _ (raise _) => apply touches_raise
  | |- touches _ (lift _) => apply touches_lift
  | |- touches _ (gets _) => apply touches_gets
  | |- touches _ (query _) => apply touches_query
  | |- touches _ now => apply touches_now; part_in
  | |- touches _ call => apply touches_call; part_in
  | |- touches _ (token_bytes _) => apply touches_token_bytes; part_in
  | |- touches _ token_urlsafe => apply touches_token_urlsafe; part_in
  | |- touches _ uuid4 => apply touches_uuid4; part_in
  | |- touches _ commit => apply touches_commit; part_in
  | |- touches _ (with_redis _) => apply touches_redis; part_in
  | |- touches _ (modify_db _) => apply touches_modify_db; part_out
  | |- touches _ (modify _) => apply touches_modify; part_out
  | |- touches _ (try_except _ _) => apply touches_try_except; [|intros ?]
  | |- touches _ (try_finally _ _) => apply touches_try_finally
  | |- touches _ (suppress _) => apply touches_suppress
  | |- touches _ (for_ _ _) => apply touches_for; intros ?
  | |- touches _ (fold_m _ _ _) => apply touches_fold; intros ? ?
  | |- touches _ (match ?x with _ => _ end) => destruct x
  | |- touches _ (let '_ := ?x in _) => destruct x
  | |- touches _ _ => solve [auto with foot]
  | |- touches _ _ =>
      eapply touches_weaken; [solve [eauto with foot] | intros ?; rewrite !list_elem_of_In; simpl; tauto]
  end.

Ltac foot := intros; repeat foot_step.

(** One step of symbolic execution. *)
Ltac wp_step :=
  lazymatch goal with
  | |- wp (mbind _ _) _ _ => apply wp_bind
  | |- wp (mret _) _ _ => apply wp_ret
  | |- wp (raise _) _ _ => apply wp_raise
  | |- wp (lift _) _ _ => apply wp_lift
  | |- wp (gets _) _ _ => apply wp_gets
  | |- wp (query _) _ _ => apply wp_query
  | |- wp (modify _) _ _ => apply wp_modify
  | |- wp (modify_db _) _ _ => apply wp_modify_db
  | |- wp (add_audit _) _ _ => apply wp_modify_db
  | |- wp (add_action _) _ _ => apply wp_modify_db
  | |- wp (add_download _) _ _ => apply wp_modify_db
  | |- wp (get_transfer _) _ _ => apply wp_query
  | |- wp (get_file _) _ _ => apply wp_query
  | |- wp (get_recipient _) _ _ => apply wp_query
  | |- wp (get_admin _) _ _ => apply wp_query
  | |- wp (get_setting _) _ _ => apply wp_query
  | |- wp now _ _ => apply wp_now
  | |- wp call _ _ => apply wp_call
  | |- wp (token_bytes _) _ _ => apply wp_token_bytes
  | |- wp token_urlsafe _ _ => apply wp_token_urlsafe
  | |- wp uuid4 _ _ => apply wp_uuid4
  | |- wp commit _ _ => apply wp_commit
  | |- wp rollback _ _ => apply wp_rollback
  | |- wp (with_session _) _ _ => apply wp_with_session
  | |- wp (try_except _ _) _ _ => apply wp_try_except
  | |- wp (try_finally _ _) _ _ => apply wp_try_finally
  | |- wp (suppress _) _ _ => apply wp_suppress
  end.

(** A run is what its weakest precondition says. *)
Ltac by_wp H E :=
  let H' := fresh in pose proof H as H'; unfold wp in H'; rewrite E in H'; exact H'.

(** A helper of known footprint, executed as one step. *)
Ltac wp_foot l :=
  eapply wp_mono; [eapply (touches_wp l); foot | ].

(** A Redis command that only reads. *)
Lemma redis_read_run `{Services} {A} (f : redisT → datetime → res A) w :
  with_redis (λ s t, (f s t, s)) w =
  if fault (World.tick w) then (Err ServiceError, next_tick w)
  else (f (World.redis w) (clock (S (World.tick w))), next_tick (next_tick w)).
Proof.
  unfold with_redis, call, now, mbind, M_bind. cbn. destruct (fault _); [done|]. cbn.
  destruct (f _ _); [|done]. by destruct w.
Qed.

Section basic_footprints.
Context {X : Services}.

Lemma touches_get_transfer l i : touches l (get_transfer i).
Proof. unfold get_transfer. foot. Qed.
Lemma touches_get_file l i : touches l (get_file i).
Proof. unfold get_file. foot. Qed.
Lemma touches_get_recipient l i : touches l (get_recipient i).
Proof. unfold get_recipient. foot. Qed.
Lemma touches_get_admin l i : touches l (get_admin i).
Proof. unfold get_admin. foot. Qed.
Lemma touches_get_setting l k : touches l (get_setting k).
Proof. unfold get_setting. foot. Qed.

Lemma touches_update_transfer i f : touches [PTransfers] (update_transfer i f).
Proof. unfold update_transfer. foot. Qed.
Lemma touches_update_file i f : touches [PFiles] (update_file i f).
Proof. unfold update_file. foot. Qed.
Lemma touches_update_recipient i f : touches [PRecipients] (update_recipient i f).
Proof. unfold update_recipient. foot. Qed.
Lemma touches_update_admin i f : touches [PAdmins] (update_admin i f).
Proof. unfold update_admin. foot. Qed.
Lemma touches_add_transfer t : touches [PTransfers] (add_transfer t).
Proof. unfold add_transfer. foot. Qed.
Lemma touches_add_file t : touches [PFiles] (add_file t).
Proof. unfold add_file. foot. Qed.
Lemma touches_add_recipient t : touches [PRecipients] (add_recipient t).
Proof. unfold add_recipient. foot. Qed.
Lemma touches_add_download t : touches [PDownloads] (add_download t).
Proof. unfold add_download. foot. Qed.
Lemma touches_add_audit f : touches [PAudit] (add_audit f).
Proof. unfold add_audit. foot. Qed.
Lemma touches_add_action f : touches [PActions] (add_action f).
Proof. unfold add_action. foot. Qed.

Lemma touches_redis_get k : touches [PTick; PRedis] (redis_get k).
Proof. unfold redis_get. foot. Qed.
Lemma touches_redis_set k v ex : touches [PTick; PRedis] (redis_set k v ex).
Proof. unfold redis_set. foot. Qed.
Lemma touches_redis_set_nx k v ex : touches [PTick; PRedis] (redis_set_nx k v ex).
Proof. unfold redis_set_nx. foot. Qed.
Lemma touches_redis_delete ks : touches [PTick; PRedis] (redis_delete ks).
Proof. unfold redis_delete. foot. Qed.
Lemma touches_redis_smembers k : touches [PTick; PRedis] (redis_smembers k).
Proof. unfold redis_smembers. foot. Qed.
Lemma touches_redis_lpush k v : touches [PTick; PRedis] (redis_lpush k v).
Proof. unfold redis_lpush. foot. Qed.
Lemma touches_redis_brpop k : touches [PTick; PRedis] (redis_brpop k).
Proof. unfold redis_brpop. foot. Qed.
Lemma touches_redis_llen k : touches [PTick; PRedis] (redis_llen k).
Proof. unfold redis_llen. foot. Qed.

End basic_footprints.

#[export] Hint Resolve touches_get_transfer touches_get_file touches_get_recipient
  touches_get_admin touches_get_setting touches_update_transfer touches_update_file
  touches_update_recipient touches_update_admin touches_add_transfer touches_add_file
  touches_add_recipient touches_add_download touches_add_audit touches_add_action
  touches_redis_get touches_redis_set touches_redis_set_nx touches_redis_delete
  touches_redis_smembers touches_redis_lpush touches_redis_brpop touches_redis_llen : foot.

(** * Rows of a table *)

Lemma elem_of_rows {V} (p : V → bool) (m : gmap Z V) v :
  v ∈ rows p m ↔ p v = true ∧ ∃ i, m !! i = Some v.
Proof.
  unfold rows. rewrite list_elem_of_filter, list_elem_of_fmap. split.
  - intros (Hp & [i v'] & -> & Hm). apply elem_of_map_to_list in Hm. eauto.
  - intros (Hp & i & Hm). split; [done|]. exists (i, v). by rewrite elem_of_map_to_list.
Qed.

Lemma head_rows {V} (p : V → bool) (m : gmap Z V) v :
  head (rows p m) = Some v → p v = true ∧ ∃ i, m !! i = Some v.
Proof. intros H. apply elem_of_rows. destruct (rows p m); simplify_eq/=. by left. Qed.

Lemma rows_size {V} p (m : gmap Z V) : (length (rows p m) ≤ size m)%nat.
Proof.
  unfold rows. etrans; [apply length_filter|]. by rewrite length_fmap, length_map_to_list.
Qed.

Lemma map_fmap_id_eq {V} (f : V → V) (m : gmap Z V) :
  (∀ i v, m !! i = Some v → f v = v) → f <$> m = m.
Proof.
  intros Hf. apply map_eq. intros i. rewrite lookup_fmap.
  destruct (m !! i) as [v|] eqn:E; simpl; [|done]. by rewrite (Hf i v E).
Qed.

(** The key column of each row is its key in the table. *)
Definition keyed {V} (k : V → Z) (m : gmap Z V) : Prop := ∀ i v, m !! i = Some v → k v = i.

Lemma rows_keys_NoDup {V} (k : V → Z) p (m : gmap Z V) : keyed k m → NoDup (k <$> rows p m).
Proof.
  intros Hk. apply NoDup_fmap_2_strong.
  - intros x y [_ [i Hx]]%elem_of_rows [_ [j Hy]]%elem_of_rows He.
    rewrite (Hk _ _ Hx), (Hk _ _ Hy) in He. subst. congruence.
  - unfold rows. apply NoDup_filter, NoDup_fmap_2_strong; [|apply NoDup_map_to_list].
    intros [i x] [j y] Hx%elem_of_map_to_list Hy%elem_of_map_to_list. simpl. intros ->.
    by rewrite <- (Hk _ _ Hx), <- (Hk _ _ Hy).
Qed.

(** Updating, one after the other, the rows of a list with distinct keys. *)
Definition alter_all {V} (k : V → Z) (g : V → V) (xs : list V) (m : gmap Z V) : gmap Z V :=
  foldl (λ m x, alter g (k x) m) m xs.

Lemma lookup_alter_all {V} (k : V → Z) g (xs : list V) m i :
  NoDup (k <$> xs) →
  alter_all k g xs m !! i = if decide (i ∈ k <$> xs) then g <$> m !! i else m !! i.
Proof.
  unfold alter_all. revert m. induction xs as [|x xs IH]; intros m; [done|]. cbn [foldl]. rewrite fmap_cons.
  intros [Hx Hn]%NoDup_cons. rewrite IH by done. rewrite lookup_alter.
  pose proof (elem_of_cons (k <$> xs) i (k x)) as He.
  repeat case_decide; subst; naive_solver.
Qed.

(** ... is a conditional update of every row. *)
Lemma alter_all_rows {V} (k : V → Z) g p (m : gmap Z V) :
  keyed k m → alter_all k g (rows p m) m = (λ v, if p v then g v else v) <$> m.
Proof.
  intros Hk. apply map_eq. intros i. rewrite lookup_alter_all by by apply rows_keys_NoDup.
  rewrite lookup_fmap. destruct (m !! i) as [v|] eqn:E; simpl; [|by case_decide].
  assert (i ∈ k <$> rows p m ↔ p v = true) as Hi.
  { rewrite list_elem_of_fmap. split.
    - intros (y & -> & (Hp & j & Hj)%elem_of_rows). rewrite (Hk _ _ Hj) in E. congruence.
    - intros Hp. exists v. rewrite (Hk _ _ E). split; [done|]. apply elem_of_rows. eauto. }
  case_decide; destruct (p v) eqn:?; naive_solver.
Qed.

(** A row not updated yet is still the row of the table. *)
Lemma alter_all_next {V} (k : V → Z) g (m : gmap Z V) pre x post :
  NoDup (k <$> pre ++ x :: post) → m !! k x = Some x → alter_all k g pre m !! k x = Some x.
Proof.
  rewrite fmap_app. intros (Hn1 & Hd & _)%NoDup_app Hx.
  rewrite lookup_alter_all by done. rewrite decide_False; [done|].
  intros Hin. apply (Hd _ Hin). simpl. by left.
Qed.

Lemma alter_all_snoc {V} (k : V → Z) g (xs : list V) x m :
  alter_all k g (xs ++ [x]) m = alter g (k x) (alter_all k g xs m).
Proof. unfold alter_all. by rewrite foldl_app. Qed.

Lemma filter_split_length {A} (p q r : A → bool) (l : list A) :
  (∀ x, p x = q x || r x) → (∀ x, q x && r x = false) →
  length (filter (λ x, p x = true) l)
  = (length (filter (λ x, q x = true) l) + length (filter (λ x, r x = true) l))%nat.
Proof.
  intros Hp Hqr. induction l as [|x l IH]; [done|]. rewrite !filter_cons, Hp.
  specialize (Hqr x). destruct (q x), (r x); simpl in *; rewrite ?decide_True, ?decide_False by done;
    simpl; lia.
Qed.

(** ** Sessions that differ in one table *)

Lemma set_transfers_same d m : DB.transfers d = m → DB.set_transfers m d = d.
Proof. intros <-. by destruct d. Qed.

(** The parts outside the session, and its transfers. *)
Definition transfers_only : list part :=
  [PTransfers; PDb; PRedis; PBucket; PFs; PTick; PSmtp; PTelegram; PRid; PCache; PKeys].

Lemma agree_weaken `{Services} l k w w' : agree l w w' → l ⊆ k → agree k w w'.
Proof. intros Ha Hs p Hp. apply Ha. auto. Qed.

Lemma agree_sess_transfers `{Services} w w' m :
  agree transfers_only w w' → DB.transfers (World.sess w') = m →
  World.sess w' = DB.set_transfers m (World.sess w).
Proof.
  intros Ha <-.
  pose proof (Ha PFiles ltac:(part_notin)) as H1. pose proof (Ha PRecipients ltac:(part_notin)) as H2.
  pose proof (Ha PDownloads ltac:(part_notin)) as H3. pose proof (Ha PAudit ltac:(part_notin)) as H4.
  pose proof (Ha PActions ltac:(part_notin)) as H5. pose proof (Ha PAdmins ltac:(part_notin)) as H6.
  pose proof (Ha PBlock ltac:(part_notin)) as [H7 [H8 H9]].
  pose proof (Ha PSettings ltac:(part_notin)) as H10. simpl in *.
  destruct (World.sess w'), (World.sess w). simpl in *. unfold DB.set_transfers. simpl. congruence.
Qed.

(** Nothing of the session changed. *)
Lemma agree_sess `{Services} l w w' :
  agree l w w' → l ⊆ transfers_only → PTransfers ∉ l → World.sess w' = World.sess w.
Proof.
  intros Ha Hs Ht. rewrite (agree_sess_transfers w w' _ (agree_weaken _ _ _ _ Ha Hs) eq_refl).
  apply set_transfers_same. symmetry. by apply (Ha PTransfers).
Qed.

Ltac part_sub := apply (bool_decide_unpack _); vm_compute; exact I.
