(* ===== verification/Storage.v ===== *)
(** The staging directory ([services/staging.py]) and the object store
    ([services/storage.py]).  Staging files are keyed by transfer and base
    name, as the paths [root/<transfer>/<file>__<name>] are; a base name longer
    than the file system allows makes every system call on it fail, and where
    staged files are removed every operation on the disk may fail. *)
From S2P Require Import Prelude Text Services Sim Stream Model Scenario Effects.

(** * services/staging.py *)
Module Staging.

(** [[^A-Za-z0-9._\- ]] *)
Definition is_safe_char (c : Z) : bool :=
  is_alnum c || (c =? 46) || (c =? 95) || (c =? 45) || (c =? 32).

Definition _UNSAFE_sub (name : pystr) : pystr :=
  (λ c, if is_safe_char c then c else 95) <$> name.

Definition safe_filename (name : pystr) : pystr :=
  let name := path_name name in
  let name := _UNSAFE_sub name in
  let name := lstrip_by (Z.eqb 46) name in
  let name := if nonempty name then name else u "file" in
  take 255 name.

(** The base name of [file_path(transfer_id, file_id, filename)]. *)
Definition file_path (transfer_id file_id : uuid) (filename : pystr) : res (uuid * pystr) :=
  if negb (nonempty filename) then Err StagingError
  else let safe := safe_filename filename in
       Ok (transfer_id, uuid_str file_id ++ u "__" ++ safe).

Section staging.
Context {X : Services}.

(** A system call on a path: [OSError] when the name is too long. *)
Definition syscall (p : uuid * pystr) : M unit :=
  if name_max <? zlen p.2 then raise ServiceError else mret tt.

Definition exists_ (p : uuid * pystr) : M bool :=
  syscall p;; gets (λ w, bool_decide (is_Some (FS.files (World.fs w) !! p))).

(** [path.stat().st_size if path.exists() else 0] *)
Definition size_or_zero (p : uuid * pystr) : M Z :=
  syscall p;;
  gets (λ w, match FS.files (World.fs w) !! p with Some b => zlen b | None => 0 end).

(** [path.parent.mkdir(parents=True, exist_ok=True)] *)
Definition mkdir (transfer_id : uuid) : M unit :=
  modify (λ w, World.set_fs (FS.set_dirs ({[transfer_id]} ∪ FS.dirs (World.fs w)) (World.fs w)) w).

Definition read_bytes (p : uuid * pystr) : M bytes :=
  syscall p;;
  o ← gets (λ w, FS.files (World.fs w) !! p);
  match o with Some b => mret b | None => raise ServiceError end.

Definition write_bytes (p : uuid * pystr) (b : bytes) : M unit :=
  syscall p;;
  modify (λ w, World.set_fs (FS.set_files (<[p := b]> (FS.files (World.fs w))) (World.fs w)) w).

(** [open_write]: the directory is made, the file opened (and cut to nothing) for
    the caller's block. *)
Definition open_write {A} (transfer_id file_id : uuid) (filename : pystr)
    (block : uuid * pystr → M A) : M A :=
  p ← lift (file_path transfer_id file_id filename);
  mkdir transfer_id;;
  write_bytes p [];;
  block p.

Definition transfer_dir_exists (transfer_id : uuid) : M bool :=
  gets (λ w, bool_decide (transfer_id ∈ FS.dirs (World.fs w))).

(** An operation on the disk that may raise [OSError]. *)
Definition os_call : M unit := λ w,
  ((if disk_fault (World.tick w) then Err ServiceError else Ok tt), next_tick w).

Definition modify_files (f : gmap (uuid * pystr) bytes → gmap (uuid * pystr) bytes) : M unit :=
  modify (λ w, World.set_fs (FS.set_files (f (FS.files (World.fs w))) (World.fs w)) w).

Definition _OVERWRITE_CHUNK : Z := 64 * 1024.

(** The sizes of the chunks [while written < size] writes. *)
Fixpoint overwrite_chunks (fuel : nat) (size written : Z) : option (list Z) :=
  match fuel with
  | O => None
  | S fuel' =>
      if written <? size then
        let n := Z.min _OVERWRITE_CHUNK (size - written) in
        (n ::.) <$> overwrite_chunks fuel' size (written + n)
      else Some []
  end.

(** One turn: [n] random bytes at the position [written] of the file. *)
Definition overwrite_chunk (p : uuid * pystr) (written n : Z) : M Z :=
  b ← token_bytes (Z.to_nat n);
  os_call;;
  modify_files (alter (λ old, take (Z.to_nat written) old ++ b ++ drop (Z.to_nat (written + n)) old) p);;
  mret (written + n).

(** [_overwrite_and_unlink]: opening, writing and syncing are best effort; what
    [stat] and [unlink] raise, other than a missing file, goes to the caller. *)
Definition _overwrite_and_unlink (p : uuid * pystr) : M unit :=
  o ← gets (λ w, FS.files (World.fs w) !! p);
  match o with
  | None => mret tt
  | Some b =>
      os_call;;
      let size := zlen b in
      suppress
        (os_call;;
         fold_m (overwrite_chunk p) 0 (default [] (overwrite_chunks (S (Z.to_nat size)) size 0));;
         os_call);;
      os_call;;
      modify_files (delete p)
  end.

(** [d.iterdir()] *)
Definition iterdir (transfer_id : uuid) : M (list (uuid * pystr)) :=
  os_call;;
  gets (λ w, filter (λ p, p.1 = transfer_id) (map_to_list (FS.files (World.fs w))).*1).

(** [d.rmdir()] of a directory that has to be empty. *)
Definition rmdir (transfer_id : uuid) : M unit :=
  os_call;;
  w ← gets (λ w, World.fs w);
  if bool_decide (filter (λ p, p.1 = transfer_id) (map_to_list (FS.files w)).*1 = []) then
    modify (λ w, World.set_fs (FS.set_dirs (FS.dirs (World.fs w) ∖ {[transfer_id]}) (World.fs w)) w)
  else raise ServiceError.

Definition secure_delete (transfer_id : uuid) : M unit :=
  d ← transfer_dir_exists transfer_id;
  if negb d then mret tt
  else
    paths ← iterdir transfer_id;
    for_ paths _overwrite_and_unlink;;
    suppress (rmdir transfer_id).

End staging.

End Staging.

(** * services/storage.py *)
Module Storage.
Section storage.
Context {X : Services}.

(** [ensure_bucket], on the two calls of the client. *)
Definition ensure_bucket (bucket_exists : M bool) (make_bucket : M unit) : M unit :=
  present ← bucket_exists;
  if negb present then make_bucket else mret tt.

Definition object_key (transfer_id file_id : uuid) : pystr :=
  uuid_str transfer_id ++ u "/" ++ uuid_str file_id ++ u ".enc".

Definition put_bytes (key : pystr) (data : bytes) : M unit :=
  call;; modify (λ w, World.set_bucket (o_put (World.bucket w) key data) w).

(** [put_file]: the first [length] bytes of the source, which must
    have that many. *)
Definition put_file (key : pystr) (data : bytes) (length : Z) : M unit :=
  call;;
  if zlen data <? length then raise ServiceError
  else modify (λ w, World.set_bucket
         (o_put (World.bucket w) key (take (Z.to_nat length) data)) w).

(** [put_stream]: an iterable of chunks through [_IteratorIO]. *)
Definition put_stream (key : pystr) (stream : list bytes) (length : Z) : M unit :=
  put_file key (IteratorIO.content (IteratorIO.init stream)) length.

(** [get_stream]: the chunks of the HTTP body; a missing object raises. *)
Definition get_stream (key : pystr) : M (list bytes) :=
  call;;
  o ← gets (λ w, o_get (World.bucket w) key);
  match o with Some v => mret (o_chunks v) | None => raise StorageError end.

Definition delete_object (key : pystr) : M unit :=
  call;; modify (λ w, World.set_bucket (o_remove (World.bucket w) key) w).

Definition list_transfer_keys (transfer_id : uuid) : M (list pystr) :=
  call;; gets (λ w, o_list (World.bucket w) (uuid_str transfer_id ++ u "/")).

(** Removal of one object of a bulk request: it may fail on its own. *)
Definition remove_one (errors : list pystr) (key : pystr) : M (list pystr) :=
  try_except (delete_object key;; mret errors) (λ _, mret (errors ++ [key])).

(** [delete_transfer]: [remove_objects] over the listed keys, the failed ones
    collected. *)
Definition delete_transfer (transfer_id : uuid) : M unit :=
  keys ← list_transfer_keys transfer_id;
  errors ← fold_m remove_one [] keys;
  if nonempty errors then raise StorageError else mret tt.

End storage.
End Storage.

(** * Theorems *)

Section staging_facts.
Import Staging.

Lemma lstrip_by_suffix p s : ∃ pre, s = pre ++ lstrip_by p s.
Proof.
  induction s as [|c s [pre IH]]; simpl; [by exists []|].
  case_match; [exists (c :: pre); simpl; by f_equal | by exists []].
Qed.

Lemma lstrip_by_head p s c r : lstrip_by p s = c :: r → p c = false.
Proof. induction s as [|d s IH]; simpl; [done|]. case_match; naive_solver. Qed.

Lemma is_safe_underscore : is_safe_char 95 = true.
Proof. done. Qed.

Lemma unsafe_sub_safe s : Forall (λ c, is_safe_char c = true) (_UNSAFE_sub s).
Proof.
  unfold _UNSAFE_sub. apply Forall_fmap, Forall_true. intros c. simpl. by case_match.
Qed.

Lemma unsafe_sub_id s : Forall (λ c, is_safe_char c = true) s → _UNSAFE_sub s = s.
Proof.
  induction 1 as [|c s Hc _ IH]; [done|]. unfold _UNSAFE_sub in *.
  rewrite fmap_cons, Hc. by f_equal.
Qed.

(** The stem before truncation: safe characters, not empty, no leading dot. *)
Definition safe_stem (s : pystr) : Prop :=
  Forall (λ c, is_safe_char c = true) s ∧ s ≠ [] ∧ head s ≠ Some 46.

Lemma safe_stem_file : safe_stem (u "file").
Proof. repeat split; repeat constructor; done. Qed.

Lemma safe_filename_stem name : ∃ s, safe_stem s ∧ safe_filename name = take 255 s.
Proof.
  unfold safe_filename. set (s := lstrip_by (Z.eqb 46) (_UNSAFE_sub (path_name name))).
  destruct s as [|c r] eqn:E; simpl.
  - exists (u "file"). split; [apply safe_stem_file | done].
  - exists (c :: r). split; [|done]. repeat split; [|done|].
    + destruct (lstrip_by_suffix (Z.eqb 46) (_UNSAFE_sub (path_name name))) as [pre Hp].
      pose proof (unsafe_sub_safe (path_name name)) as Hs. rewrite Hp in Hs.
      apply Forall_app in Hs as [_ Hs]. by fold s in Hs; rewrite E in Hs.
    + intros [= ->]. apply lstrip_by_head in E. done.
Qed.

Lemma safe_no_slash s : Forall (λ c, is_safe_char c = true) s → 47 ∉ s.
Proof. intros H Hin. eapply Forall_forall in H; [|exact Hin]. done. Qed.

Lemma split_on_single sep s : sep ∉ s → split_on sep s = [s].
Proof.
  induction s as [|c s IH]; simpl; [done|]. rewrite not_elem_of_cons. intros [Hc Hs].
  rewrite IH by done. by destruct (Z.eqb_spec c sep); [congruence|].
Qed.

Lemma path_name_single s : 47 ∉ s → s ≠ [] → s ≠ [46] → path_name s = s.
Proof.
  intros Hs H1 H2. unfold path_name, path_parts. rewrite split_on_single by done.
  by rewrite filter_cons_True.
Qed.

(** A name that is already safe and short is kept. *)
Lemma safe_filename_fixed s :
  safe_stem s → (length s ≤ 255)%nat → safe_filename s = s.
Proof.
  intros (Hs & Hne & Hd) Hl. unfold safe_filename.
  rewrite path_name_single by (auto using safe_no_slash || by intros ->).
  rewrite unsafe_sub_id by done.
  destruct s as [|c r]; [done|].
  change (lstrip_by (Z.eqb 46) (c :: r)) with (if 46 =? c then lstrip_by (Z.eqb 46) r else c :: r).
  destruct (Z.eqb_spec 46 c) as [<-|]; [done|]. cbn [nonempty]. by apply take_ge.
Qed.

Lemma safe_stem_take s : safe_stem s → safe_stem (take 255 s).
Proof.
  intros (Hs & Hne & Hd). destruct s as [|c r]; [done|].
  repeat split; [by apply Forall_take | done | done].
Qed.

(** C24: a sanitised file name is never empty, has at most 255 characters, only
    safe ones (so no slash), does not start with a dot, is a single path
    component other than "..", and sanitising it again changes nothing. *)
Theorem safe_filename_spec name :
  let s := safe_filename name in
  safe_stem s ∧ (1 ≤ length s ≤ 255)%nat ∧ 47 ∉ s ∧ path_parts s = [s] ∧
  s ≠ [46; 46] ∧ safe_filename s = s.
Proof.
  destruct (safe_filename_stem name) as (s & Hs & ->). simpl.
  apply safe_stem_take in Hs.
  assert (Hl : (length (take 255 s) ≤ 255)%nat) by (rewrite length_take; lia).
  pose proof (safe_filename_fixed _ Hs Hl) as Hfix. pose proof Hs as (Hc & Hne & Hd).
  split; [done|]. split; [destruct (take 255 s); simpl in *; [done|lia]|].
  split; [by apply safe_no_slash|]. split.
  - unfold path_parts. rewrite split_on_single by by apply safe_no_slash.
    rewrite filter_cons_True; [done|]. split; [done|]. intros E. rewrite E in Hd. done.
  - split; [|done]. intros E. rewrite E in Hd. done.
Qed.

(** A staged file lies directly in its transfer's directory, and its name tells
    the file id apart. *)
Lemma file_path_ok t f name p :
  file_path t f name = Ok p →
  p = (t, uuid_str f ++ u "__" ++ safe_filename name) ∧ name ≠ [].
Proof. unfold file_path. destruct name; simpl; [done|]. by intros [= <-]. Qed.

Lemma file_path_inj t f name t' f' name' p :
  0 ≤ f < 2 ^ 128 → 0 ≤ f' < 2 ^ 128 →
  file_path t f name = Ok p → file_path t' f' name' = Ok p → t = t' ∧ f = f'.
Proof.
  intros Hf Hf' H H'. apply file_path_ok in H as [-> _], H' as [E _].
  pose proof (f_equal fst E) as E1. pose proof (f_equal snd E) as E2. simpl fst in E1.
  cbn [snd] in E2. split; [done|]. apply uuid_str_inj; [done..|].
  apply app_inj_1 in E2 as [E2 _]; [done|]. by rewrite !uuid_str_length.
Qed.

(** The staged base name is 38 characters longer than the sanitised name. *)
Lemma file_path_length t f name p :
  file_path t f name = Ok p → zlen p.2 = 38 + zlen (safe_filename name).
Proof.
  intros [-> _]%file_path_ok. cbn [snd]. rewrite !zlen_app. unfold zlen at 1.
  rewrite uuid_str_length. change (zlen (u "__")) with 2. lia.
Qed.

(** The overwrite loop ends and covers the file exactly. *)
Lemma overwrite_chunks_spec fuel size written :
  0 ≤ written ≤ size → (Z.to_nat (size - written) < fuel)%nat →
  ∃ l, overwrite_chunks fuel size written = Some l ∧
       foldr Z.add 0 l = size - written ∧ Forall (λ n, 0 < n ≤ _OVERWRITE_CHUNK) l.
Proof.
  unfold _OVERWRITE_CHUNK. revert written. induction fuel as [|fuel IH]; intros w Hw Hf; [lia|].
  simpl. destruct (Z.ltb_spec w size) as [Hlt|Hge].
  - destruct (IH (w + Z.min _OVERWRITE_CHUNK (size - w))) as (l & -> & Hs & Hl);
      unfold _OVERWRITE_CHUNK in *; [lia..|].
    eexists. split; [done|]. simpl. split; [lia|]. constructor; [lia|done].
  - exists []. split; [done|]. simpl. split; [lia|constructor].
Qed.

End staging_facts.

Section storage_facts.
Context {X : Services} {XOk : ServicesOk}.
Import Storage.

(** An object key starts with its own transfer's prefix and no other's. *)
Lemma object_key_prefix t t' f :
  0 ≤ t < 2 ^ 128 → 0 ≤ t' < 2 ^ 128 →
  startswith (object_key t f) (uuid_str t' ++ u "/") = true ↔ t = t'.
Proof.
  intros Ht Ht'. split.
  - intros [r E]%startswith_spec. unfold object_key in E.
    rewrite !app_assoc in E. rewrite <- !app_assoc in E.
    apply app_inj_1 in E as [E _]; [|by rewrite !uuid_str_length]. by apply uuid_str_inj.
  - intros ->. unfold object_key. rewrite app_assoc. apply startswith_app.
Qed.

(** Nothing but the bucket and the tick counter changes. *)
Definition only_bucket (w w' : World) : Prop :=
  ∃ b n, w' = World.set_bucket b (World.set_tick n w).

Lemma only_bucket_trans w w1 w2 : only_bucket w w1 → only_bucket w1 w2 → only_bucket w w2.
Proof. intros (b & n & ->) (b' & n' & ->). by exists b', n'. Qed.

Lemma remove_one_spec errs k w :
  let '(r, w') := remove_one errs k w in
  only_bucket w w' ∧
  (r = Ok (errs ++ [k]) ∧ World.bucket w' = World.bucket w ∨
   r = Ok errs ∧ World.bucket w' = o_remove (World.bucket w) k).
Proof.
  unfold remove_one, try_except, delete_object, call, modify, mbind, M_bind, mret, M_ret.
  destruct (fault (World.tick w)).
  - split; [by exists (World.bucket w), (S (World.tick w)) | by left].
  - split; [by exists (o_remove (World.bucket w) k), (S (World.tick w)) | by right].
Qed.

Lemma remove_all_spec keys errs w :
  let '(r, w') := fold_m remove_one errs keys w in
  only_bucket w w' ∧
  ∃ errs', r = Ok (errs ++ errs') ∧
    (errs' = [] → ∀ k, k ∈ keys → o_get (World.bucket w') k = None) ∧
    ∀ k, o_get (World.bucket w') k = o_get (World.bucket w) k ∨
         k ∈ keys ∧ o_get (World.bucket w') k = None.
Proof.
  revert errs w. induction keys as [|k0 keys IH]; intros errs w.
  { simpl. split; [exists (World.bucket w), (World.tick w); by destruct w|]. exists [].
    rewrite app_nil_r. split; [done|]. split; [by intros _ k ?%elem_of_nil|]. by left. }
  simpl. unfold mbind, M_bind. pose proof (remove_one_spec errs k0 w) as H1.
  destruct (remove_one errs k0 w) as [r1 w1]. destruct H1 as [Ho1 H1].
  assert (Hr : ∃ e1, r1 = Ok (errs ++ e1) ∧
     (e1 = [k0] ∧ World.bucket w1 = World.bucket w ∨
      e1 = [] ∧ World.bucket w1 = o_remove (World.bucket w) k0)).
  { destruct H1 as [[-> ?]|[-> ?]]; [exists [k0] | exists []; rewrite app_nil_r]; auto. }
  destruct Hr as (e1 & -> & Hb). specialize (IH (errs ++ e1) w1).
  destruct (fold_m remove_one (errs ++ e1) keys w1) as [r w'].
  destruct IH as (Ho & errs' & -> & Hall & Hget).
  split; [by eapply only_bucket_trans|]. exists (e1 ++ errs').
  rewrite app_assoc. split; [done|]. split.
  - intros [-> ->]%app_nil k Hk. destruct Hb as [[? _]|[_ Hb]]; [done|].
    rewrite elem_of_cons in Hk. destruct Hk as [->|Hk]; [|by apply Hall].
    destruct (Hget k0) as [->|[_ ->]]; [|done]. rewrite Hb, o_remove_get. by case_decide.
  - intros k. destruct (Hget k) as [->|[? ->]]; [|right; rewrite elem_of_cons; auto].
    destruct Hb as [[_ ->]|[_ ->]]; [by left|]. rewrite o_remove_get.
    case_decide as Hk; [subst; right; rewrite elem_of_cons; auto | by left].
Qed.

(** C23: [delete_transfer] changes nothing but the bucket; an object of another
    transfer is never touched, and when the call returns normally no object of
    the transfer is left. *)
Theorem delete_transfer_spec t w r w' :
  0 ≤ t < 2 ^ 128 → delete_transfer t w = (r, w') →
  only_bucket w w' ∧
  (∀ t' f, 0 ≤ t' < 2 ^ 128 → t' ≠ t →
     o_get (World.bucket w') (object_key t' f) = o_get (World.bucket w) (object_key t' f)) ∧
  (r = Ok tt → ∀ f, o_get (World.bucket w') (object_key t f) = None).
Proof.
  intros Ht. unfold delete_transfer, list_transfer_keys, call, gets, mbind, M_bind.
  destruct (fault (World.tick w)).
  { intros [= <- <-]. split; [by exists (World.bucket w), (S (World.tick w))|]. done. }
  cbn beta iota. change (World.bucket (next_tick w)) with (World.bucket w).
  set (ks := o_list _ _). pose proof (remove_all_spec ks [] (next_tick w)) as H.
  destruct (fold_m remove_one [] ks (next_tick w)) as [r1 w1].
  destruct H as (Ho & errs & -> & Hall & Hget). simpl in *.
  intros E. assert (w' = w1 ∧ (r = Ok tt → errs = [])) as [-> Hr].
  { destruct errs; simpl in E; by inversion E. }
  split; [|split].
  - eapply only_bucket_trans; [|exact Ho]. by exists (World.bucket w), (S (World.tick w)).
  - intros t' f Ht' Hne. destruct (Hget (object_key t' f)) as [->|[Hin _]]; [done|].
    apply o_list_spec in Hin as [Hp _]. by apply object_key_prefix in Hp.
  - intros Hok f. destruct (Hget (object_key t f)) as [Hs|[_ Hs]]; [|done].
    destruct (o_get (World.bucket w) (object_key t f)) as [v|] eqn:E'; [|done].
    apply Hall; [by apply Hr|]. apply o_list_spec.
    split; [by apply object_key_prefix | by rewrite E'].
Qed.

End storage_facts.

(** ** Footprints *)

Section storage_footprints.
Context {X : Services}.

Lemma touches_syscall p : touches [] (Staging.syscall p).
Proof. unfold Staging.syscall. foot. Qed.
#[local] Hint Resolve touches_syscall : foot.
Lemma touches_exists_ p : touches [] (Staging.exists_ p).
Proof. unfold Staging.exists_. foot. Qed.
#[local] Hint Resolve touches_exists_ : foot.
Lemma touches_size_or_zero p : touches [] (Staging.size_or_zero p).
Proof. unfold Staging.size_or_zero. foot. Qed.
#[local] Hint Resolve touches_size_or_zero : foot.
Lemma touches_read_bytes p : touches [] (Staging.read_bytes p).
Proof. unfold Staging.read_bytes. foot. Qed.
#[local] Hint Resolve touches_read_bytes : foot.
Lemma touches_transfer_dir_exists i : touches [] (Staging.transfer_dir_exists i).
Proof. unfold Staging.transfer_dir_exists. foot. Qed.
#[local] Hint Resolve touches_transfer_dir_exists : foot.
Lemma touches_mkdir i : touches [PFs] (Staging.mkdir i).
Proof. unfold Staging.mkdir. foot. Qed.
#[local] Hint Resolve touches_mkdir : foot.
Lemma touches_write_bytes p b : touches [PFs] (Staging.write_bytes p b).
Proof. unfold Staging.write_bytes. foot. Qed.
#[local] Hint Resolve touches_write_bytes : foot.
Lemma touches_put_bytes k b : touches [PTick; PBucket] (Storage.put_bytes k b).
Proof. unfold Storage.put_bytes. foot. Qed.
#[local] Hint Resolve touches_put_bytes : foot.
Lemma touches_put_file k b n : touches [PTick; PBucket] (Storage.put_file k b n).
Proof. unfold Storage.put_file. foot. Qed.
#[local] Hint Resolve touches_put_file : foot.
Lemma touches_get_stream k : touches [PTick] (Storage.get_stream k).
Proof. unfold Storage.get_stream. foot. Qed.
#[local] Hint Resolve touches_get_stream : foot.
Lemma touches_delete_object k : touches [PTick; PBucket] (Storage.delete_object k).
Proof. unfold Storage.delete_object. foot. Qed.
#[local] Hint Resolve touches_delete_object : foot.
Lemma touches_list_transfer_keys i : touches [PTick] (Storage.list_transfer_keys i).
Proof. unfold Storage.list_transfer_keys. foot. Qed.
#[local] Hint Resolve touches_list_transfer_keys : foot.
Lemma touches_remove_one e k : touches [PTick; PBucket] (Storage.remove_one e k).
Proof. unfold Storage.remove_one. foot. Qed.
#[local] Hint Resolve touches_remove_one : foot.
Lemma touches_delete_transfer i : touches [PTick; PBucket] (Storage.delete_transfer i).
Proof. unfold Storage.delete_transfer. foot. Qed.
#[local] Hint Resolve touches_delete_transfer : foot.

Lemma touches_os_call : touches [PTick] Staging.os_call.
Proof. intros w q Hq. destruct q; try done. exfalso. apply Hq. part_in. Qed.
#[local] Hint Resolve touches_os_call : foot.
Lemma touches_modify_files f : touches [PFs] (Staging.modify_files f).
Proof. unfold Staging.modify_files. foot. Qed.
#[local] Hint Resolve touches_modify_files : foot.
Lemma touches_overwrite_chunk p k n : touches [PTick; PFs] (Staging.overwrite_chunk p k n).
Proof. unfold Staging.overwrite_chunk. foot. Qed.
#[local] Hint Resolve touches_overwrite_chunk : foot.
Lemma touches_overwrite_and_unlink p : touches [PTick; PFs] (Staging._overwrite_and_unlink p).
Proof. unfold Staging._overwrite_and_unlink. foot. Qed.
#[local] Hint Resolve touches_overwrite_and_unlink : foot.
Lemma touches_secure_delete i : touches [PTick; PFs] (Staging.secure_delete i).
Proof. unfold Staging.secure_delete, Staging.iterdir, Staging.rmdir. foot. Qed.

End storage_footprints.

#[export] Hint Resolve touches_syscall touches_exists_ touches_size_or_zero touches_read_bytes
  touches_transfer_dir_exists touches_mkdir touches_write_bytes touches_put_bytes
  touches_put_file touches_get_stream touches_delete_object touches_list_transfer_keys
  touches_remove_one touches_delete_transfer touches_secure_delete : foot.

(** * Shredding *)

Section shredding.
Context {X : Services}.
Import Staging.

Lemma wp_os_call w (Q : res unit → World → Prop) :
  (disk_fault (World.tick w) = false → Q (Ok tt) (next_tick w)) →
  (disk_fault (World.tick w) = true → Q (Err ServiceError) (next_tick w)) → wp os_call w Q.
Proof. unfold wp, os_call. simpl. destruct (disk_fault _); auto. Qed.

Definition disk_fails : Prop := ∃ n, disk_fault n = true.

(** The directories are those there were, files of other transfers untouched,
    and no file is new. *)
Record only_files_of (i : uuid) (w w' : World) : Prop := {
  of_agree : agree [PTick; PFs] w w';
  of_dirs : FS.dirs (World.fs w') = FS.dirs (World.fs w);
  of_others p : p.1 ≠ i → FS.files (World.fs w') !! p = FS.files (World.fs w) !! p;
  of_none p : FS.files (World.fs w) !! p = None → FS.files (World.fs w') !! p = None
}.

#[export] Instance only_files_pre i : PreOrder (only_files_of i).
Proof.
  split; [by split|]. intros w w1 w2 [A1 D1 O1 N1] [A2 D2 O2 N2]. split.
  - by etrans.
  - congruence.
  - intros p Hp. rewrite O2, O1; done.
  - auto.
Qed.

Lemma only_files_tick i w : only_files_of i w (next_tick w).
Proof. split; try done. apply agree_tick. part_in. Qed.

Lemma only_files_modify (i : uuid) (f : gmap (uuid * pystr) bytes → gmap (uuid * pystr) bytes) w :
  (∀ m (p : uuid * pystr), p.1 ≠ i → f m !! p = m !! p) →
  (∀ m (p : uuid * pystr), m !! p = None → f m !! p = None) →
  only_files_of i w (World.set_fs (FS.set_files (f (FS.files (World.fs w))) (World.fs w)) w).
Proof.
  intros H1 H2. split; simpl; auto. intros q Hq. destruct q; try done; exfalso; apply Hq; part_in.
Qed.

Lemma wp_overwrite_chunk p k n w :
  wp (overwrite_chunk p k n) w (λ _ w', only_files_of p.1 w w').
Proof.
  unfold overwrite_chunk. do 2 wp_step. wp_step. apply wp_os_call; intros _.
  2:{ etrans; apply only_files_tick. }
  wp_step. unfold modify_files. do 2 wp_step. do 2 (etrans; [apply only_files_tick|]).
  apply only_files_modify; intros m q Hq.
  - apply lookup_alter_ne. by intros <-.
  - rewrite lookup_alter. case_decide; subst; by rewrite ?Hq.
Qed.

(** A file is gone, or the disk failed. *)
Lemma wp_overwrite_and_unlink p w :
  wp (_overwrite_and_unlink p) w (λ r w', only_files_of p.1 w w' ∧
    (r = Ok tt ∧ FS.files (World.fs w') !! p = None ∨ r = Err ServiceError ∧ disk_fails)).
Proof.
  unfold _overwrite_and_unlink. do 2 wp_step. destruct (FS.files _ !! p) as [b|] eqn:Hp; [|wp_step; split; [done|by left]].
  wp_step. apply wp_os_call; intros Hf; [|split; [apply only_files_tick|right; split; [done|by eexists]]].
  cbn zeta. wp_step. wp_step.
  eapply (wp_mono _ _ (λ _ w', only_files_of p.1 w w')).
  { wp_step. apply wp_os_call; intros _; [|etrans; apply only_files_tick].
    wp_step. apply (wp_fold _ _ _ _ (λ _ _ w', only_files_of p.1 w w')).
    - etrans; apply only_files_tick.
    - intros pre n post k w1 _ H1. eapply wp_mono; [apply wp_overwrite_chunk|].
      intros [k'|e] w2 H2; by etrans.
    - intros k w1 H1. apply wp_os_call; intros _; (etrans; [exact H1|apply only_files_tick]). }
  intros _ w1 H1. wp_step. apply wp_os_call; intros Hf2.
  2:{ split; [etrans; [exact H1|apply only_files_tick]|]. right. split; [done|by eexists]. }
  unfold modify_files. wp_step. split; [|left; split; [done|apply lookup_delete_eq]].
  etrans; [exact H1|]. etrans; [apply only_files_tick|]. apply only_files_modify; intros m q Hq.
  - apply lookup_delete_ne. by intros <-.
  - rewrite lookup_delete. by case_decide.
Qed.

Definition emptied (i : uuid) (w : World) : Prop :=
  i ∉ FS.dirs (World.fs w) ∨ ∀ p, p.1 = i → FS.files (World.fs w) !! p = None.

(** What shredding the directory of a transfer leaves: other transfers' staging
    as it was; no file of its own unless the disk failed, which is raised; and
    no directory when the disk does not fail. *)
Record shredding (i : uuid) (w : World) (r : res unit) (w' : World) : Prop := {
  sh_agree : agree [PTick; PFs] w w';
  sh_dirs : FS.dirs (World.fs w') ⊆ FS.dirs (World.fs w) ∧
            FS.dirs (World.fs w) ⊆ FS.dirs (World.fs w') ∪ {[i]};
  sh_others p : p.1 ≠ i → FS.files (World.fs w') !! p = FS.files (World.fs w) !! p;
  sh_none p : FS.files (World.fs w) !! p = None → FS.files (World.fs w') !! p = None;
  sh_result : r = Ok tt ∧ emptied i w' ∨ r = Err ServiceError ∧ disk_fails;
  sh_disk : ¬ disk_fails → i ∉ FS.dirs (World.fs w')
}.

Lemma shredding_files i w r w' :
  only_files_of i w w' → r = Ok tt ∧ emptied i w' ∨ r = Err ServiceError ∧ disk_fails →
  (¬ disk_fails → i ∉ FS.dirs (World.fs w)) → shredding i w r w'.
Proof.
  intros [Ha Hd Ho Hn] Hr Hi. split; try done; rewrite Hd; [set_solver|done].
Qed.

Lemma wp_secure_delete i w : wp (secure_delete i) w (shredding i w).
Proof.
  unfold secure_delete, transfer_dir_exists. do 2 wp_step. case_bool_decide as Hin; cbn [negb].
  2:{ wp_step. apply shredding_files; [done| |done]. left. split; [done|by left]. }
  unfold iterdir. do 2 wp_step. apply wp_os_call; intros Hf.
  2:{ apply shredding_files; [apply only_files_tick|right; split; [done|by eexists]|].
      intros H. exfalso. apply H. by eexists. }
  do 2 wp_step. set (paths := filter _ _).
  assert (Hpaths : ∀ p, p.1 = i → p ∈ paths ∨ FS.files (World.fs w) !! p = None).
  { intros p Hp. destruct (FS.files (World.fs w) !! p) as [b|] eqn:E; [left|by right].
    apply list_elem_of_filter. split; [done|]. apply list_elem_of_fmap. exists (p, b). split; [done|].
    by apply elem_of_map_to_list. }
  assert (Hfst : ∀ p, p ∈ paths → p.1 = i) by (intros p Hp; by apply list_elem_of_filter in Hp as [? _]).
  apply (wp_for paths _ _ (λ pre w', only_files_of i w w' ∧
    ∀ p, p ∈ pre → FS.files (World.fs w') !! p = None)).
  - split; [apply only_files_tick|]. by intros p ?%not_elem_of_nil.
  - intros pre p post w1 Hl [H1 Hg]. assert (Hi : p.1 = i).
    { apply Hfst. rewrite Hl, elem_of_app. right. by left. }
    eapply wp_mono; [apply wp_overwrite_and_unlink|]. rewrite Hi.
    intros r w2 [H2 [[-> Hp]|[-> Hd]]].
    + split; [by etrans|]. intros q. rewrite elem_of_app, list_elem_of_singleton.
      intros [Hq| ->]; [|done]. by apply (of_none _ _ _ H2), Hg.
    + apply shredding_files; [by etrans|by right|done].
  - intros w1 [H1 Hg]. assert (Hnone : ∀ p, p.1 = i → FS.files (World.fs w1) !! p = None).
    { intros p Hp. destruct (Hpaths p Hp) as [?|?]; [by apply Hg|by apply (of_none _ _ _ H1)]. }
    unfold rmdir. do 2 wp_step. apply wp_os_call; intros Hf2.
    2:{ assert (only_files_of i w (next_tick w1)) by (etrans; [exact H1|apply only_files_tick]).
        apply shredding_files; [done| |intros Hno; exfalso; apply Hno; by eexists].
        left. split; [done|by right]. }
    do 2 wp_step. simpl. rewrite bool_decide_true.
    2:{ apply elem_of_nil_inv. intros p [Hi Hp]%list_elem_of_filter.
        apply list_elem_of_fmap in Hp as ([q b] & -> & Hq).
        apply elem_of_map_to_list in Hq. by rewrite Hnone in Hq. }
    wp_step. destruct H1 as [A1 D1 O1 N1]. split; simpl.
    + etrans; [exact A1|]. intros q Hq. destruct q; try done; exfalso; apply Hq; part_in.
    + rewrite D1. split; [set_solver|]. intros x Hx. destruct (decide (x = i)); set_solver.
    + done.
    + done.
    + left. split; [done|]. left. set_solver.
    + set_solver.
Qed.

(** Staging changed only for the transfers [ids], and gained nothing. *)
Record shreds (ids : list uuid) (w w' : World) : Prop := {
  ss_dirs : FS.dirs (World.fs w') ⊆ FS.dirs (World.fs w);
  ss_kept : FS.dirs (World.fs w) ⊆ FS.dirs (World.fs w') ∪ list_to_set ids;
  ss_others p : p.1 ∉ ids → FS.files (World.fs w') !! p = FS.files (World.fs w) !! p;
  ss_none p : FS.files (World.fs w) !! p = None → FS.files (World.fs w') !! p = None
}.

Lemma shreds_same ids w w' : World.fs w' = World.fs w → shreds ids w w'.
Proof. intros E. split; rewrite E; set_solver. Qed.

Lemma shreds_trans l1 l2 l w w1 w2 :
  shreds l1 w w1 → shreds l2 w1 w2 → l1 ⊆ l → l2 ⊆ l → shreds l w w2.
Proof.
  intros [D1 K1 O1 N1] [D2 K2 O2 N2] H1 H2. split.
  - set_solver.
  - intros x Hx. apply K1 in Hx. rewrite elem_of_union, elem_of_list_to_set in *.
    destruct Hx as [Hx|Hx]; [|right; by apply H1]. apply K2 in Hx.
    rewrite elem_of_union, elem_of_list_to_set in Hx. destruct Hx as [Hx|Hx]; [by left|right; by apply H2].
  - intros p Hp. rewrite O2, O1; [done|..]; intros Hi; apply Hp; [by apply H1|by apply H2].
  - auto.
Qed.

Lemma shredding_shreds i w r w' : shredding i w r w' → shreds [i] w w'.
Proof.
  intros [_ [D K] O N _ _]. split; [done|set_solver| |done].
  intros p Hp. apply O. set_solver.
Qed.

Lemma emptied_shreds i ids w w' : emptied i w → shreds ids w w' → emptied i w'.
Proof. intros [H|H] S; [left; intros Hi; apply H, (ss_dirs _ _ _ S), Hi|right; intros p Hp; by apply (ss_none _ _ _ S), H]. Qed.

End shredding.

Section storage_witness.
#[local] Instance demo_services : Services := Sim.calm.
#[local] Instance demo_services_ok : ServicesOk := Sim.calm_ok.

(** Two transfers with an object each; the first is deleted. *)
Definition storage_demo : World :=
  World.set_bucket (list_to_map [(Storage.object_key 1 2, [1]); (Storage.object_key 3 4, [2])])
    (Demo.world empty_db).

Lemma delete_transfer_spec_witness :
  let w' := (Storage.delete_transfer 1 storage_demo).2 in
  o_get (World.bucket w') (Storage.object_key 1 2) = None ∧
  o_get (World.bucket w') (Storage.object_key 3 4) = o_get (World.bucket storage_demo) (Storage.object_key 3 4).
Proof.
  assert (H1 : (Storage.delete_transfer 1 storage_demo).1 = Ok tt) by (vm_compute; reflexivity).
  destruct (Storage.delete_transfer 1 storage_demo) as [r w'] eqn:E. simpl in H1. subst r.
  destruct (delete_transfer_spec 1 storage_demo (Ok tt) w') as (_ & H2 & H3); [lia|exact E|].
  split; [by apply H3|]. apply H2; lia.
Defined.

End storage_witness.
