(* ===== verification/Support.v ===== *)
(** Small services every handler uses: [services/audit.py],
    [services/admin_actions.py], [services/telegram.py], [services/alerts.py],
    [services/settings_service.py] and the key holder [app/state.py]. *)
From S2P Require Import Prelude Text Encoding Services Format Model Effects.

(** * services/audit.py *)
Module Audit.
Section audit.
Context {X : Services}.

Definition severities : list pystr := [u "info"; u "warn"; u "error"; u "critical"].

Definition write_event (event_type severity : pystr) (ip country : option pystr)
    (transfer_id admin_id : option uuid) (details : option json) : M unit :=
  if bool_decide (severity ∈ severities) then
    ts ← now;
    add_audit (λ i, AuditLog.mk i ts event_type severity ip country transfer_id admin_id details)
  else raise AssertionError.

End audit.
End Audit.

(** * services/admin_actions.py *)
Module AdminActions.
Section admin_actions.
Context {X : Services}.

Definition record (admin_id : uuid) (action : pystr) (target_type target_id ip : option pystr)
    (details : option json) : M unit :=
  ts ← now;
  add_action (λ i, AdminAction.mk i ts (Some admin_id) action target_type target_id ip details).

End admin_actions.
End AdminActions.

(** * services/telegram.py and services/alerts.py *)
Module Alerts.
Section alerts.
Context {X : Services} {C : Config}.

(** [TelegramClient.enabled] *)
Definition enabled : bool := nonempty telegram_bot_token && nonempty telegram_chat_id.

(** The body [TelegramClient.send] posts. *)
Definition payload (text : pystr) : json :=
  JObj [(u "chat_id", JStr telegram_chat_id); (u "text", JStr text);
        (u "parse_mode", JStr (u "Markdown")); (u "disable_web_page_preview", JBool true)].

(** [TelegramClient.send]: one HTTP request; an error status is only logged. *)
Definition send (text : pystr) : M unit :=
  if negb enabled then mret tt
  else call;; modify (λ w, World.set_telegram (World.telegram w ++ [payload text]) w).

Definition _TG_SEVERITIES : list pystr := [u "error"; u "critical"].

(** The characters of the texts outside ASCII. *)
Definition siren : pystr := [128680].
Definition warning_sign : pystr := [9888; 65039].
Definition em_dash : pystr := [8212].
Definition bullet : pystr := [8226].

Definition code_span (s : pystr) : pystr := u "`" ++ s ++ u "`".

(** [_format] at the time [t]. *)
Definition _format (t : datetime) (event_type severity message : pystr) (details : option json)
  : pystr :=
  let icon := if bool_decide (severity = u "critical") then siren else warning_sign in
  let lines :=
    [icon ++ u " *" ++ event_type ++ u "* " ++ em_dash ++ u " " ++ code_span severity;
     u "_" ++ Calendar.strftime_minute t ++ u "_"; []; message] in
  join [10] (lines ++
    match details with
    | Some (JObj ((_ :: _) as kvs)) =>
        [] :: ((λ kv, bullet ++ u " " ++ code_span kv.1 ++ u ": " ++ code_span (py_str kv.2)) <$> kvs)
    | _ => []
    end).

Definition alert (event_type severity message : pystr) (ip : option pystr)
    (transfer_id : option uuid) (details : option json) : M unit :=
  Audit.write_event event_type severity ip None transfer_id None details;;
  commit;;
  if bool_decide (severity ∈ _TG_SEVERITIES) && enabled then
    t ← now;
    suppress (send (_format t event_type severity message details))
  else mret tt.

End alerts.
End Alerts.

(** * services/settings_service.py *)
Module Settings.
Section settings.
Context {X : Services}.

Definition get (key : pystr) (dflt : json) : M json :=
  row ← get_setting key;
  match row with
  | Some r => match Setting.value r with JNull => mret dflt | v => mret v end
  | None => mret dflt
  end.

(** [int(v)]; [None] stands for [TypeError] and [ValueError]. *)
Definition int_of (v : json) : option Z :=
  match v with
  | JInt n => Some n
  | JDec m s => Some (Z.quot m (10 ^ Z.of_nat s))
  | JBool b => Some (Z.b2z b)
  | JStr s => int10 s
  | _ => None
  end.

Definition get_int (key : pystr) (dflt : Z) : M Z :=
  v ← get key (JInt dflt);
  mret (default dflt (int_of v)).

Definition truth_words : list pystr := [u "true"; u "1"; u "yes"].

Definition get_bool (key : pystr) (dflt : bool) : M bool :=
  v ← get key (JBool dflt);
  match v with
  | JBool b => mret b
  | JStr s => mret (bool_decide (lower s ∈ truth_words))
  | _ => mret dflt
  end.

Definition get_list (key : pystr) (dflt : list json) : M (list json) :=
  v ← get key (JArr dflt);
  match v with
  | JArr l => mret l
  | _ => mret dflt
  end.

Definition get_many (keys : list pystr) : M (list (pystr * json)) :=
  if negb (nonempty keys) then mret []
  else query (λ d, (λ r, (Setting.key r, Setting.value r)) <$>
         filter (λ r, Setting.key r ∈ keys) (map_to_list (DB.settings d)).*2).

End settings.
End Settings.

(** * app/state.py *)
Module State.
Section state.
Context {X : Services}.

Definition get_master_key : M bytes :=
  k ← gets World.master_key;
  match k with Some k => mret k | None => raise RuntimeError end.

Definition get_previous_master_key : M (option bytes) := gets World.previous_master_key.

Definition set_master_key (key : bytes) : M unit := modify (World.set_master_key (Some key)).

Definition set_previous_master_key (key : option bytes) : M unit :=
  modify (World.set_previous_master_key key).

Definition clear_master_keys : M unit :=
  modify (World.set_master_key None);; modify (World.set_previous_master_key None).

End state.
End State.

(** ** Footprints *)

Section support_footprints.
Context {X : Services} {C : Config}.

Lemma touches_write_event a b c d e f g : touches [PTick; PAudit] (Audit.write_event a b c d e f g).
Proof. unfold Audit.write_event. foot. Qed.
#[local] Hint Resolve touches_write_event : foot.
Lemma touches_record a b c d e f : touches [PTick; PActions] (AdminActions.record a b c d e f).
Proof. unfold AdminActions.record. foot. Qed.
#[local] Hint Resolve touches_record : foot.
Lemma touches_send m : touches [PTick; PTelegram] (Alerts.send m).
Proof. unfold Alerts.send. foot. Qed.
#[local] Hint Resolve touches_send : foot.
Lemma touches_alert a b c d e f : touches [PTick; PAudit; PDb; PTelegram] (Alerts.alert a b c d e f).
Proof. unfold Alerts.alert. foot. Qed.
#[local] Hint Resolve touches_alert : foot.
Lemma touches_settings_get k d : touches [] (Settings.get k d).
Proof. unfold Settings.get. foot. Qed.
#[local] Hint Resolve touches_settings_get : foot.
Lemma touches_get_int k d : touches [] (Settings.get_int k d).
Proof. unfold Settings.get_int. foot. Qed.
#[local] Hint Resolve touches_get_int : foot.
Lemma touches_get_bool k d : touches [] (Settings.get_bool k d).
Proof. unfold Settings.get_bool. foot. Qed.
#[local] Hint Resolve touches_get_bool : foot.
Lemma touches_get_list k d : touches [] (Settings.get_list k d).
Proof. unfold Settings.get_list. foot. Qed.
#[local] Hint Resolve touches_get_list : foot.
Lemma touches_get_many k : touches [] (Settings.get_many k).
Proof. unfold Settings.get_many. foot. Qed.
#[local] Hint Resolve touches_get_many : foot.
Lemma touches_get_master_key  : touches [] (State.get_master_key).
Proof. unfold State.get_master_key. foot. Qed.
#[local] Hint Resolve touches_get_master_key : foot.
Lemma touches_get_previous_master_key  : touches [] (State.get_previous_master_key).
Proof. unfold State.get_previous_master_key. foot. Qed.
#[local] Hint Resolve touches_get_previous_master_key : foot.

End support_footprints.

#[export] Hint Resolve touches_write_event touches_record touches_send touches_alert
  touches_settings_get touches_get_int touches_get_bool touches_get_list
  touches_get_many touches_get_master_key touches_get_previous_master_key : foot.
