(* ===== verification/Gates.v ===== *)
(** The admission checks of an upload: [services/policy.py],
    [services/blocklist.py], [services/geoip.py] and [services/captcha.py]. *)
From S2P Require Import Prelude Text Services Model Effects Support.

(** [schemas.transfer.FileDescriptor] *)
Module FileDescriptor.
Record t := mk { filename : pystr; size : Z }.
End FileDescriptor.

(** * services/policy.py *)
Module Policy.
Section policy.
Context {X : Services}.

(** All suffixes, lowercased, innermost first. *)
Definition _extensions_of (filename : pystr) : list pystr :=
  lower <$> reverse (path_suffixes filename).

Definition GB : Z := 1024 * 1024 * 1024.

(** [{ext.lower() for ext in blacklist_raw}]; an element that is not a string
    has no [lower]. *)
Fixpoint lower_set (l : list json) : res (list pystr) :=
  match l with
  | [] => Ok []
  | JStr s :: l' => r ← lower_set l'; Ok (lower s :: r)
  | _ :: _ => Err AttributeError
  end.

(** The first forbidden extension, in the order of the two loops. *)
Definition first_forbidden (blacklist : list pystr) (files : list FileDescriptor.t)
  : option pystr :=
  head (filter (λ e, e ∈ blacklist)
         (concat ((λ f, _extensions_of (FileDescriptor.filename f)) <$> files))).

Definition check (files : list FileDescriptor.t) (recipient_count : Z) : M unit :=
  max_gb ← Settings.get_int (u "max_transfer_size_gb") 2;
  max_recipients ← Settings.get_int (u "max_recipients") 20;
  blacklist_raw ← Settings.get_list (u "extension_blacklist") [];
  if recipient_count >? max_recipients then
    raise (PolicyViolation (u "too many recipients (max " ++ str_int max_recipients ++ u ")") 422)
  else
    let total := foldr Z.add 0 (FileDescriptor.size <$> files) in
    let max_bytes := max_gb * GB in
    if total >? max_bytes then
      raise (PolicyViolation (u "total size exceeds " ++ str_int max_gb ++ u " GB") 413)
    else
      blacklist ← lift (lower_set blacklist_raw);
      match first_forbidden blacklist files with
      | Some ext => raise (PolicyViolation (u "file extension " ++ ext ++ u " is not allowed") 422)
      | None => mret tt
      end.

End policy.
End Policy.

(** * services/blocklist.py *)
Module BlocklistChecker.
Section blocklist.
Context {X : Services}.

Definition _not_expired (now : datetime) (r : Blocklist.t) : bool :=
  match Blocklist.expires_at r with
  | None => true
  | Some e => e >? now
  end.

Definition some_row (p : Blocklist.t → bool) (m : gmap pystr Blocklist.t) : bool :=
  existsb p (map_to_list m).*2.

(** [CAST(:ip AS inet) <<= cidr] over the unexpired rows. *)
Definition check_ip (ip : pystr) : M bool :=
  t ← now;
  if negb (inet_valid ip) then raise ServiceError
  else query (λ d, some_row (λ r, inet_contained ip (Blocklist.value r) && _not_expired t r)
                            (DB.blocklist_ips d)).

(** Columns of type [citext] compare without case. *)
Definition citext_eqb (a b : pystr) : bool := bool_decide (lower a = lower b).

Definition check_email_domain (email : pystr) : M bool :=
  if negb (has_char 64 email) then mret false
  else
    let domain := after_last 64 email in
    if negb (nonempty domain) then mret false
    else
      t ← now;
      query (λ d, some_row (λ r, citext_eqb (Blocklist.value r) domain && _not_expired t r)
                           (DB.blocklist_domains d)).

Definition check_email (email : pystr) : M bool :=
  t ← now;
  query (λ d, some_row (λ r, citext_eqb (Blocklist.value r) email && _not_expired t r)
                       (DB.blocklist_emails d)).

End blocklist.
End BlocklistChecker.

(** * services/geoip.py *)
Module GeoIP.
Section geoip.
Context {X : Services}.

Definition country (ip : pystr) : option pystr :=
  if negb geoip_enabled then None
  else match geoip_lookup ip with
       | GeoCode c => c
       | GeoNotFound | GeoError => None
       end.


(** [{c.upper() for c in allowed}]; a value that is not a string has no [upper]. *)
Fixpoint upper_set (l : list json) : res (list pystr) :=
  match l with
  | [] => Ok []
  | JStr s :: l' => r ← upper_set l'; Ok (upper s :: r)
  | _ :: _ => Err AttributeError
  end.

Definition is_country_allowed (ip : pystr) (allowed : list json) : res bool :=
  if negb geoip_enabled then Ok (negb (nonempty allowed))
  else match country ip with
       | None => Ok true
       | Some c => codes ← upper_set allowed; Ok (bool_decide (upper c ∈ codes))
       end.

End geoip.
End GeoIP.

(** * services/captcha.py *)
Module Captcha.
Section captcha.
Context {X : Services} {C : Config}.

Definition required : bool := nonempty hcaptcha_secret.

Definition verify (token : pystr) (remote_ip : pystr) : M bool :=
  if negb required then mret true
  else if negb (nonempty token) then mret false
  else
    try_except
      (call;;
       '(status, body) ← lift (hcaptcha_post hcaptcha_secret token remote_ip);
       if status >=? 400 then mret false
       else match body with
            | JObj l => mret (match assoc (u "success") l with Some v => jtruthy v | None => false end)
            | _ => raise AttributeError
            end)
      (λ _, mret false).

End captcha.
End Captcha.

(** ** Footprints *)

Section gates_footprints.
Context {X : Services} {C : Config}.

Lemma touches_check a b : touches [] (Policy.check a b).
Proof. unfold Policy.check. foot. Qed.
#[local] Hint Resolve touches_check : foot.
Lemma touches_check_ip a : touches [PTick] (BlocklistChecker.check_ip a).
Proof. unfold BlocklistChecker.check_ip. foot. Qed.
#[local] Hint Resolve touches_check_ip : foot.
Lemma touches_check_email_domain a : touches [PTick] (BlocklistChecker.check_email_domain a).
Proof. unfold BlocklistChecker.check_email_domain. foot. Qed.
#[local] Hint Resolve touches_check_email_domain : foot.
Lemma touches_check_email a : touches [PTick] (BlocklistChecker.check_email a).
Proof. unfold BlocklistChecker.check_email. foot. Qed.
#[local] Hint Resolve touches_check_email : foot.
Lemma touches_verify a b : touches [PTick] (Captcha.verify a b).
Proof. unfold Captcha.verify. foot. Qed.
#[local] Hint Resolve touches_verify : foot.

End gates_footprints.

#[export] Hint Resolve touches_check touches_check_ip touches_check_email_domain touches_check_email
  touches_verify : foot.
