(* ===== verification/RateLimit.v ===== *)
(** Rate limiting: the Redis script of [services/rate_limit.py] and the ASGI
    middleware [middleware/rate_limit.py] with its settings cache. *)
From S2P Require Import Prelude Text Services Sim Model Scenario Effects Support.

(** * services/rate_limit.py *)
Module RateLimiter.

Record RateCheck := mkRateCheck { allowed : bool; remaining : Z; retry_after : Z }.

Section limiter.
Context {X : Services}.

(** The Lua script, one atomic step at time [t]:
    [INCR], [EXPIRE] when the counter is new, [TTL], then the comparison. *)
Definition _LUA (s : redisT) (t : datetime) (key : pystr) (limit window : Z)
  : (Z * Z * Z) * redisT :=
  let '(c, s1) := r_incr s t key in
  let s2 := if c =? 1 then r_expire s1 t key window else s1 in
  let ttl := r_ttl s2 t key in
  (if c >? limit then (0, 0, ttl) else (1, limit - c, ttl), s2).

Definition consume (key : pystr) (limit window_seconds : Z) : M RateCheck :=
  with_redis (λ s t,
    match counter_of (r_view s t key) with
    | None => (Err ServiceError, s)
    | Some _ =>
        let '((allowed, remaining, ttl), s') := _LUA s t key limit window_seconds in
        (Ok (mkRateCheck (negb (allowed =? 0)) remaining (Z.max ttl 0)), s')
    end).

End limiter.
End RateLimiter.

(** * ASGI scopes *)

(** What the middlewares read of an ASGI [scope]; header names arrive in any
    case, values are latin-1 text. *)
Record Scope := mkScope {
  sc_http : bool;                       (* scope["type"] == "http" *)
  sc_method : pystr;
  sc_path : pystr;
  sc_headers : list (pystr * pystr);
  sc_client : option pystr              (* host of scope["client"] *)
}.

(** The response messages the modelled code builds or rewrites. *)
Record Response := mkResponse {
  rs_status : Z;
  rs_headers : list (pystr * pystr);
  rs_body : json
}.

Definition lower_ascii (s : pystr) : pystr := ascii_lower <$> s.

(** First value of a header; [name] is lower case. *)
Fixpoint get_header (hs : list (pystr * pystr)) (name : pystr) : option pystr :=
  match hs with
  | [] => None
  | (k, v) :: hs' => if bool_decide (lower_ascii k = name) then Some v else get_header hs' name
  end.

(** [utils/http.py: client_ip_from_scope] *)
Definition client_ip_from_scope (sc : Scope) : pystr :=
  match get_header (sc_headers sc) (u "x-forwarded-for") with
  | Some v => strip (hd [] (split_on 44 v))
  | None => match sc_client sc with
            | Some host => host
            | None => u "0.0.0.0"
            end
  end.

(** * middleware/rate_limit.py *)
Module RateLimitMiddleware.
Section middleware.
Context {X : Services} {C : Config}.

Definition _DEFAULT_UPLOAD_HOURLY : Z := 10.
Definition _DEFAULT_UPLOAD_DAILY : Z := 100.
Definition _DEFAULT_DOWNLOAD_HOURLY : Z := 30.

(** A regular expression's [$] also matches before a final newline. *)
Definition chomp (s : pystr) : pystr := if endswith s [10] then removelast s else s.

Definition unslash (s : pystr) : pystr := if endswith s [47] then removelast s else s.

(** [^/api/transfers/?$] *)
Definition _UPLOAD_CREATE_RE (path : pystr) : bool :=
  bool_decide (unslash (chomp path) = u "/api/transfers").

(** [[^/]+] of the whole string. *)

(** [^/t/[^/]+/(file/[^/]+|zip)/?$]: the components after splitting at "/". *)
Definition _DOWNLOAD_RE_at (path : pystr) : bool :=
  match split_on 47 path with
  | e :: t :: tok :: kind :: rest =>
      negb (nonempty e) && bool_decide (t = u "t") && nonempty tok &&
      ((bool_decide (kind = u "zip") && match rest with [] => true | [l] => negb (nonempty l) | _ => false end)
       || (bool_decide (kind = u "file") &&
           match rest with
           | [f] => nonempty f
           | [f; l] => nonempty f && negb (nonempty l)
           | _ => false
           end))
  | _ => false
  end.

Definition _DOWNLOAD_RE (path : pystr) : bool :=
  _DOWNLOAD_RE_at path || (endswith path [10] && _DOWNLOAD_RE_at (removelast path)).

Inductive action := Upload | DownloadAct.

Definition _classify (method path : pystr) : option action :=
  if bool_decide (method = u "POST") && _UPLOAD_CREATE_RE path then Some Upload
  else if bool_decide (method = u "GET") && _DOWNLOAD_RE path then Some DownloadAct
  else None.

(** A live cache entry is used; otherwise the setting is read through a session
    of its own and cached. *)
Definition _get_int_cached (key : pystr) (dflt : Z) : M Z :=
  t ← now;
  cached ← gets (λ w, World.rl_cache w !! key);
  match cached with
  | Some (v, expires) =>
      if expires >? t then mret v
      else
        v ← with_session (Settings.get_int key dflt);
        modify (λ w, World.set_rl_cache
          (<[key := (v, t + rate_limit_cache_ttl * second)]> (World.rl_cache w)) w);;
        mret v
  | None =>
      v ← with_session (Settings.get_int key dflt);
      modify (λ w, World.set_rl_cache
        (<[key := (v, t + rate_limit_cache_ttl * second)]> (World.rl_cache w)) w);;
      mret v
  end.

Definition policy_for (a : action) (ip : pystr) : M (list (pystr * Z * Z)) :=
  match a with
  | Upload =>
      upload_hourly ← _get_int_cached (u "rate_hourly") _DEFAULT_UPLOAD_HOURLY;
      upload_daily ← _get_int_cached (u "rate_daily") _DEFAULT_UPLOAD_DAILY;
      mret [(u "rl:u:h:" ++ ip, upload_hourly, 3600); (u "rl:u:d:" ++ ip, upload_daily, 86400)]
  | DownloadAct =>
      download_hourly ← _get_int_cached (u "rate_download_hourly") _DEFAULT_DOWNLOAD_HOURLY;
      mret [(u "rl:d:h:" ++ ip, download_hourly, 3600)]
  end.

(** The loop over the policy: the first exhausted limit answers. *)
Fixpoint consume_all (policy : list (pystr * Z * Z)) : M (option Z) :=
  match policy with
  | [] => mret None
  | (key, limit, window) :: rest =>
      check ← RateLimiter.consume key limit window;
      if negb (RateLimiter.allowed check) then mret (Some (RateLimiter.retry_after check))
      else consume_all rest
  end.

Definition too_many (retry : Z) : Response :=
  mkResponse 429 [(u "Retry-After", str_int retry)]
    (JObj [(u "error", JStr (u "rate_limit_exceeded"))]).

Definition dispatch (app : Scope → M Response) (sc : Scope) : M Response :=
  if negb (sc_http sc) then app sc
  else
    match _classify (upper (sc_method sc)) (sc_path sc) with
    | None => app sc
    | Some a =>
        policy ← policy_for a (client_ip_from_scope sc);
        limited ← consume_all policy;
        match limited with
        | Some retry => mret (too_many retry)
        | None => app sc
        end
    end.

End middleware.
End RateLimitMiddleware.

(** ** Footprints *)

Section rate_limit_footprints.
Context {X : Services} {C : Config}.

Lemma touches_consume k l n : touches [PTick; PRedis] (RateLimiter.consume k l n).
Proof. unfold RateLimiter.consume. foot. Qed.
#[local] Hint Resolve touches_consume : foot.

Lemma touches_consume_all ps : touches [PTick; PRedis] (RateLimitMiddleware.consume_all ps).
Proof. induction ps as [|[[k l] n] ps IH]; simpl; foot. Qed.

End rate_limit_footprints.

#[export] Hint Resolve touches_consume touches_consume_all : foot.

(** * At most [limit] calls per window *)

Section window_facts.
Context {X : Services} {XOk : ServicesOk}.
Context (key : pystr) (limit window : Z).

(** Calls of the script on one key, each at its time and with its verdict; in
    between, other clients may do anything to the other keys. *)
Inductive served : datetime → redisT → list (datetime * bool) → Prop :=
  | served_nil t s : served t s []
  | served_cons t s t' s1 a rem ttl s2 l :
      t ≤ t' → r_view s1 t' key = r_view s t' key →
      RateLimiter._LUA s1 t' key limit window = ((a, rem, ttl), s2) →
      served t' s2 l → served t s ((t', negb (a =? 0)) :: l).

(** The counter stands at [n], to be reset at [d]. *)
Definition counting (s : redisT) (t : datetime) (n : Z) (d : datetime) : Prop :=
  r_view s t key = Some (RStr (JInt n), Some d).

Lemma lua_first s t a rem ttl s' :
  0 < window → r_view s t key = None →
  RateLimiter._LUA s t key limit window = ((a, rem, ttl), s') →
  negb (a =? 0) = (1 <=? limit) ∧ counting s' t 1 (t + window * second).
Proof.
  intros Hw Hv. unfold RateLimiter._LUA.
  pose proof (r_incr_view s t key 0 key) as Hi. rewrite Hv in Hi. specialize (Hi eq_refl).
  destruct (r_incr s t key) as [c s1]. destruct Hi as [-> Hi]. change (0 + 1 =? 1) with true.
  cbn iota. pose proof (r_expire_view s1 t key window key Hw) as He.
  rewrite decide_True in He, Hi by done. rewrite Hi in He. simpl in He.
  destruct (0 + 1 >? limit) eqn:E; rewrite Z.gtb_ltb in E; intros [= <- <- <- <-];
    (split; [|exact He]); simpl; symmetry; zbool; [apply Z.leb_gt|apply Z.leb_le]; lia.
Qed.

Lemma lua_next s t n d a rem ttl s' :
  1 ≤ n → counting s t n d →
  RateLimiter._LUA s t key limit window = ((a, rem, ttl), s') →
  negb (a =? 0) = (n + 1 <=? limit) ∧ counting s' t (n + 1) d.
Proof.
  intros Hn Hv. unfold RateLimiter._LUA, counting in *.
  pose proof (r_incr_view s t key n key) as Hi. rewrite Hv in Hi. specialize (Hi eq_refl).
  destruct (r_incr s t key) as [c s1]. destruct Hi as [-> Hi].
  rewrite (proj2 (Z.eqb_neq (n + 1) 1)) by lia. rewrite decide_True in Hi by done.
  destruct (n + 1 >? limit) eqn:E; rewrite Z.gtb_ltb in E; intros [= <- <- <- <-];
    (split; [|exact Hi]); simpl; symmetry; zbool; [apply Z.leb_gt|apply Z.leb_le]; lia.
Qed.

Lemma counting_later s t t' n d : t ≤ t' → t' < d → counting s t n d → counting s t' n d.
Proof.
  intros Ht Hd Hc. unfold counting in *. rewrite (r_view_later s t t') by done. rewrite Hc.
  unfold live. by rewrite (proj2 (Z.ltb_lt _ _)).
Qed.

Lemma served_counting t s n d l :
  1 ≤ n → served t s l → counting s t n d → Forall (λ x, x.1 < d) l →
  snd <$> l = (λ i, n + 1 + i <=? limit) <$> seqZ 0 (zlen l).
Proof.
  intros Hn Hs. revert n Hn. induction Hs as [|t s t' s1 a rem ttl s2 l Ht Hv HL Hs IH];
    intros n Hn Hc Hd; [done|].
  apply Forall_cons in Hd as [Hd Hl]. simpl in Hd.
  assert (Hc1 : counting s1 t' n d).
  { unfold counting. rewrite Hv. by apply (counting_later s t). }
  destruct (lua_next _ _ _ _ _ _ _ _ Hn Hc1 HL) as [Ha Hc2].
  rewrite zlen_cons, seqZ_cons by (pose proof (zlen_nonneg l); lia). rewrite !fmap_cons. f_equal.
  - simpl. rewrite Ha. f_equal. lia.
  - rewrite (IH (n + 1)) by (done || lia).
    replace (Z.pred (1 + zlen l)) with (zlen l) by lia.
    change (Z.succ 0) with (1 + 0). rewrite <- fmap_add_seqZ.
    rewrite <- list_fmap_compose. apply list_fmap_ext. intros _ i _. simpl. f_equal. lia.
Qed.

(** C18: when the counter of a key is fresh, the calls made before the window
    that starts with the first of them ends are allowed exactly up to the
    limit: the i-th call (from 0) passes if and only if [i < limit], whatever
    other clients do to other keys; so at most [limit] calls pass. *)
Theorem rate_limit_window t s t1 b1 l :
  0 < window → served t s ((t1, b1) :: l) → r_view s t1 key = None →
  Forall (λ x, x.1 < t1 + window * second) l →
  snd <$> ((t1, b1) :: l) = (λ i, i <? limit) <$> seqZ 0 (zlen ((t1, b1) :: l)).
Proof.
  intros Hw Hs Hv Hl. inversion Hs as [|? ? ? s1 a rem ttl s2 ? Ht Hv1 HL Hr]; subst.
  rewrite <- Hv1 in Hv. destruct (lua_first _ _ _ _ _ _ Hw Hv HL) as [Ha Hc].
  rewrite zlen_cons, seqZ_cons by (pose proof (zlen_nonneg l); lia). rewrite !fmap_cons. f_equal.
  - simpl. rewrite Ha. apply Bool.eq_iff_eq_true. rewrite Z.leb_le, Z.ltb_lt. lia.
  - rewrite (served_counting t1 s2 1 (t1 + window * second)) by (done || lia).
    replace (Z.pred (1 + zlen l)) with (zlen l) by lia.
    change (Z.succ 0) with (1 + 0). rewrite <- fmap_add_seqZ.
    rewrite <- list_fmap_compose. apply list_fmap_ext. intros _ i _. simpl.
    apply Bool.eq_iff_eq_true. rewrite Z.leb_le, Z.ltb_lt. lia.
Qed.

End window_facts.

Section window_witness.
#[local] Instance demo_services : Services := Sim.calm.
#[local] Instance demo_services_ok : ServicesOk := Sim.calm_ok.

Definition empty_redis : redisT := (∅ : Sim.redis).

(** Three requests in one window with a limit of two. *)
Lemma rate_limit_window_witness :
  ∃ l, served (u "k") 2 60 0 empty_redis ((1, true) :: l) ∧
    snd <$> ((1, true) :: l) = [true; true; false].
Proof.
  set (step s t := RateLimiter._LUA s t (u "k") 2 60).
  set (s1 := (step empty_redis 1).2). set (s2 := (step s1 2).2). set (s3 := (step s2 3).2).
  assert (Hp : ∀ s t x, (step s t).1 = x → step s t = (x, (step s t).2)).
  { intros s t x <-. apply surjective_pairing. }
  exists [(2, true); (3, false)].
  assert (H : served (u "k") 2 60 0 empty_redis [(1, true); (2, true); (3, false)]).
  { apply (served_cons _ _ _ 0 empty_redis 1 empty_redis 1 1 60 s1 [(2, true); (3, false)]);
      [lia|reflexivity|apply Hp; vm_compute; reflexivity|].
    apply (served_cons _ _ _ 1 s1 2 s1 1 0 60 s2 [(3, false)]);
      [lia|vm_compute; reflexivity|apply Hp; vm_compute; reflexivity|].
    apply (served_cons _ _ _ 2 s2 3 s2 0 0 60 s3 []);
      [lia|vm_compute; reflexivity|apply Hp; vm_compute; reflexivity|].
    apply served_nil. }
  split; [exact H|].
  rewrite (rate_limit_window (u "k") 2 60 0 empty_redis 1 true [(2, true); (3, false)]);
    [reflexivity|lia|exact H|vm_compute; reflexivity|].
  repeat constructor; vm_compute; reflexivity.
Defined.

End window_witness.
