(* ===== verification/Session.v ===== *)
(** Redis-backed admin sessions ([services/session.py]). *)
From S2P Require Import Prelude Text Services Model Effects.

Module SessionStore.

Record SessionData := mkSessionData {
  admin_id : uuid; issued_at : datetime; last_active : datetime
}.

Section store.
Context {X : Services}.
Context (ttl_seconds : Z).

Definition _session_key (sid : pystr) : pystr := u "session:" ++ sid.
Definition _index_key (admin_id : uuid) : pystr := u "admin_sessions:" ++ uuid_str admin_id.

(** The session JSON. *)
Definition payload (admin_id : uuid) (issued_at last_active : datetime) : json :=
  JObj [(u "admin_id", JStr (uuid_str admin_id));
        (u "issued_at", JStr (isoformat issued_at));
        (u "last_active", JStr (isoformat last_active))].

(** One MULTI/EXEC pipeline: SET with a TTL, SADD and EXPIRE of the index. *)
Definition create_pipe (sid : pystr) (admin_id : uuid) (p : json) (s : redisT) (t : datetime)
  : redisT :=
  let s := r_set s t (_session_key sid) p (Some ttl_seconds) in
  let s := r_sadd s t (_index_key admin_id) sid in
  r_expire s t (_index_key admin_id) ttl_seconds.

Definition create (admin_id : uuid) : M pystr :=
  sid ← token_urlsafe;
  t ← now;
  with_redis (λ s t', (Ok tt, create_pipe sid admin_id (payload admin_id t t) s t'));;
  mret sid.

Definition jstr (j : option json) : res pystr :=
  match j with Some (JStr s) => Ok s | Some _ => Err TypeError | None => Err ValueError end.

Definition jtime (j : option json) : res datetime :=
  s ← jstr j;
  match fromisoformat s with Some t => Ok t | None => Err ValueError end.

Definition parse (data : json) : res SessionData :=
  a ← jstr (jget (u "admin_id") data);
  i ← uuid_parse a;
  t1 ← jtime (jget (u "issued_at") data);
  t2 ← jtime (jget (u "last_active") data);
  Ok (mkSessionData i t1 t2).

Definition load (sid : pystr) : M (option SessionData) :=
  raw ← redis_get (_session_key sid);
  match raw with
  | None => mret None
  | Some data => d ← lift (parse data); mret (Some d)
  end.

Definition touch_pipe (key : pystr) (data : json) (admin : option uuid) (s : redisT) (t : datetime)
  : redisT :=
  let s := r_set s t key data (Some ttl_seconds) in
  match admin with
  | Some a => r_expire s t (_index_key a) ttl_seconds
  | None => s
  end.

Definition touch (sid : pystr) : M bool :=
  let key := _session_key sid in
  raw ← redis_get key;
  match raw with
  | None => mret false
  | Some (JObj fields) =>
      t ← now;
      let data := JObj (dict_set (u "last_active") (JStr (isoformat t)) fields) in
      admin ← match jget (u "admin_id") data with
              | Some (JStr ((_ :: _) as a)) => i ← lift (uuid_parse a); mret (Some i)
              | Some j => if jtruthy j then raise AttributeError else mret None
              | None => mret None
              end;
      with_redis (λ s t', (Ok tt, touch_pipe key data admin s t'));;
      mret true
  | Some _ => raise TypeError
  end.

Definition destroy (sid : pystr) : M unit :=
  raw ← redis_get (_session_key sid);
  match raw with
  | Some data =>
      a ← lift (jstr (jget (u "admin_id") data));
      admin ← lift (uuid_parse a);
      with_redis (λ s t,
        (Ok tt, r_srem (r_del s t [_session_key sid]) t (_index_key admin) sid))
  | None => redis_delete [_session_key sid]
  end.

Definition destroy_all_for (admin_id : uuid) : M Z :=
  members ← redis_smembers (_index_key admin_id);
  if decide (members = ∅) then mret 0
  else
    with_redis (λ s t,
      (Ok tt, r_del (r_del s t (_session_key <$> elements members)) t [_index_key admin_id]));;
    mret (Z.of_nat (size members)).

End store.
End SessionStore.

(** ** Footprints *)

Section session_footprints.
Context {X : Services}.

Lemma touches_session_create n i : touches [PTick; PRedis] (SessionStore.create n i).
Proof. unfold SessionStore.create. foot. Qed.
#[local] Hint Resolve touches_session_create : foot.
Lemma touches_session_load i : touches [PTick; PRedis] (SessionStore.load i).
Proof. unfold SessionStore.load. foot. Qed.
#[local] Hint Resolve touches_session_load : foot.
Lemma touches_session_touch n i : touches [PTick; PRedis] (SessionStore.touch n i).
Proof. unfold SessionStore.touch. foot. Qed.
#[local] Hint Resolve touches_session_touch : foot.
Lemma touches_session_destroy i : touches [PTick; PRedis] (SessionStore.destroy i).
Proof. unfold SessionStore.destroy. foot. Qed.
#[local] Hint Resolve touches_session_destroy : foot.
Lemma touches_destroy_all_for i : touches [PTick; PRedis] (SessionStore.destroy_all_for i).
Proof. unfold SessionStore.destroy_all_for. foot. Qed.
#[local] Hint Resolve touches_destroy_all_for : foot.

End session_footprints.

#[export] Hint Resolve touches_session_create touches_session_load touches_session_touch touches_session_destroy
  touches_destroy_all_for : foot.
