(* ===== verification/Auth.v ===== *)
(** Admin authentication primitives ([services/auth.py], class [AuthService]). *)
From S2P Require Import Prelude Text Services Model Effects.

Module AuthService.
Section auth.
Context {X : Services}.

Definition max_failed_attempts : Z := 5.
Definition lockout_minutes : Z := 15.
Definition minute : Z := 60 * second.

Definition hash_password (plain : pystr) : M pystr :=
  λ w, (Ok (argon2_hash (World.tick w) plain), next_tick w).

(** Any failure of the verifier counts as a mismatch. *)
Definition verify_password (plain hashed : pystr) : bool :=
  match argon2_verify hashed plain with Ok b => b | Err _ => false end.

Definition generate_totp_secret : M pystr :=
  λ w, (Ok (totp_random_base32 (World.tick w)), next_tick w).

Definition verify_totp (secret code : pystr) : M bool :=
  if negb (nonempty secret) || negb (nonempty code) || negb (isdigit code) then mret false
  else
    t ← now;
    lift (totp_verify secret code t).

Definition build_totp_uri (secret email issuer : pystr) : res pystr :=
  label ← quote (issuer ++ u ":" ++ email) [];
  iss ← quote issuer (u "/");
  Ok (u "otpauth://totp/" ++ label ++ u "?secret=" ++ secret ++ u "&issuer=" ++ iss
      ++ u "&algorithm=SHA1&digits=6&period=30").

Definition register_failure (now : datetime) (a : Admin.t) : Admin.t :=
  let n := Admin.failed_attempts a + 1 in
  let a := Admin.set_failed_attempts n a in
  if n >=? max_failed_attempts
  then Admin.set_locked_until (Some (now + lockout_minutes * minute)) a
  else a.

Definition reset_failures (a : Admin.t) : Admin.t :=
  Admin.set_locked_until None (Admin.set_failed_attempts 0 a).

Definition is_locked (now : datetime) (a : Admin.t) : bool :=
  match Admin.locked_until a with
  | None => false
  | Some l => l >? now
  end.

End auth.
End AuthService.

(** ** Footprints *)

Section auth_footprints.
Context {X : Services}.

Lemma touches_verify_totp s c : touches [PTick] (AuthService.verify_totp s c).
Proof. unfold AuthService.verify_totp. foot. Qed.
#[local] Hint Resolve touches_verify_totp : foot.

Lemma touches_hash_password p : touches [PTick] (AuthService.hash_password p).
Proof. intros w. apply agree_tick. part_in. Qed.

Lemma touches_generate_totp_secret : touches [PTick] AuthService.generate_totp_secret.
Proof. intros w. apply agree_tick. part_in. Qed.

End auth_footprints.

#[export] Hint Resolve touches_verify_totp touches_hash_password touches_generate_totp_secret : foot.
