(* ===== verification/Http.v ===== *)
(** HTTP helpers: [utils/http.py] and the cookie support of [app/http.py]. *)
From S2P Require Import Prelude Text Services Model Effects RateLimit.

(** What the handlers read of a request. *)
Record Request := mkRequest {
  rq_headers : list (pystr * pystr);
  rq_client : option pystr;
  rq_cookies : list (pystr * pystr)
}.

(** * utils/http.py *)
Module HttpUtils.

Definition client_ip (request : Request) : pystr :=
  match get_header (rq_headers request) (u "x-forwarded-for") with
  | Some ((_ :: _) as xff) => strip (hd [] (split_on 44 xff))
  | _ => match rq_client request with
         | None => u "0.0.0.0"
         | Some host => host
         end
  end.

(** [_client_ip(request) if request.client else None] *)
Definition client_ip_opt (request : Request) : option pystr :=
  match rq_client request with Some _ => Some (client_ip request) | None => None end.

Definition _is_safe_ascii (c : Z) : bool :=
  is_alnum c || (c =? 46) || (c =? 95) || (c =? 45) || (c =? 32).

Definition _ascii_only (name : pystr) : pystr :=
  (λ c, if _is_safe_ascii c then c else 95) <$> name.

(** Not a double quote, CR, LF or backslash. *)
Definition quoted_ok (c : Z) : bool :=
  negb ((c =? 34) || (c =? 13) || (c =? 10) || (c =? 92)).

Definition _strip_quoted_unsafe (name : pystr) : pystr := filter (λ c, quoted_ok c = true) name.

Definition or_file (s : pystr) : pystr := if nonempty s then s else u "file".

Definition dquote : pystr := [34].

Definition content_disposition_attachment (filename : pystr) (ascii_fallback : option pystr)
  : res pystr :=
  let ascii_fallback :=
    match ascii_fallback with
    | Some a => a
    | None => or_file (_ascii_only filename)
    end in
  let safe_ascii := or_file (_strip_quoted_unsafe ascii_fallback) in
  encoded ← quote filename [];
  Ok (u "attachment; filename=" ++ dquote ++ safe_ascii ++ dquote
      ++ u "; filename*=UTF-8''" ++ encoded).

End HttpUtils.

(** * app/http.py: several cookies on one response *)
Module Cookies.

Definition _COOKIE_SENTINEL : pystr := u "x-fylix-cookie-list".
Definition _COOKIE_SEP : Z := 31.

(** [str.capitalize()] of the ASCII words used as [samesite]. *)
Definition capitalize (s : pystr) : pystr :=
  match s with
  | [] => []
  | c :: s' => ascii_upper c :: (ascii_lower <$> s')
  end.

Definition cookie_str (name value : pystr) (max_age : option Z) (path : pystr)
    (domain : option pystr) (secure httponly : bool) (samesite : option pystr) : pystr :=
  let parts := [name ++ u "=" ++ value] in
  let parts := match max_age with
               | Some n => parts ++ [u "Max-Age=" ++ str_int n] | None => parts end in
  let parts := match domain with
               | Some ((_ :: _) as d) => parts ++ [u "Domain=" ++ d] | _ => parts end in
  let parts := parts ++ [u "Path=" ++ path] in
  let parts := if secure then parts ++ [u "Secure"] else parts in
  let parts := if httponly then parts ++ [u "HttpOnly"] else parts in
  let parts := match samesite with
               | Some ((_ :: _) as s) => parts ++ [u "SameSite=" ++ capitalize s]
               | _ => parts end in
  join (u "; ") parts.

(** [_headers] of a response: a dict from header name to text. *)
Definition set_cookie (headers : list (pystr * pystr)) (name value : pystr) (max_age : option Z)
    (path : pystr) (domain : option pystr) (secure httponly : bool) (samesite : option pystr)
  : list (pystr * pystr) :=
  let c := cookie_str name value max_age path domain secure httponly samesite in
  let existing := default [] (assoc _COOKIE_SENTINEL headers) in
  dict_set _COOKIE_SENTINEL
    (if nonempty existing then existing ++ [_COOKIE_SEP] ++ c else c) headers.

Definition delete_cookie (headers : list (pystr * pystr)) (name path : pystr)
    (domain : option pystr) : list (pystr * pystr) :=
  set_cookie headers name [] (Some 0) path domain false false None.

(** The patched [_build_raw_headers]: the sentinel entry leaves the dict and one
    [set-cookie] pair per stashed cookie joins the raw headers. *)
Definition build_raw_headers (headers : list (pystr * pystr)) : list (pystr * pystr) :=
  let extras := assoc _COOKIE_SENTINEL headers in
  let raw := filter (λ kv, kv.1 ≠ _COOKIE_SENTINEL) headers in
  match extras with
  | Some ((_ :: _) as e) =>
      raw ++ ((λ c, (u "set-cookie", c)) <$> filter (λ c, c ≠ []) (split_on _COOKIE_SEP e))
  | _ => raw
  end.

End Cookies.
