(* ===== verification/Tus.v ===== *)
(** The resumable upload protocol ([app/tus/handler.py]). *)
From S2P Require Import Prelude Text Services Sim Model Scenario Effects Storage.

Module Tus.

Definition UPLOAD_READY_QUEUE : pystr := u "upload:ready".

Record UploadState := mkUploadState {
  current_offset : Z; declared_length : Z; complete : bool
}.

(** [data[:k]] *)
Definition slice_to (k : Z) (data : bytes) : bytes :=
  take (Z.to_nat (if k <? 0 then Z.max 0 (zlen data + k) else k)) data.

Definition chunk_size : Z := 64 * 1024.

(** The loop of [_append_stream] over a [BytesIO]: the bytes appended to the
    file and the count [written]. *)
Fixpoint append_loop (fuel : nat) (src : bytes) (max_bytes : Z) (appended : bytes) (written : Z)
  : option (bytes * Z) :=
  match fuel with
  | O => None
  | S fuel' =>
      let data := take (Z.to_nat chunk_size) src in
      if negb (nonempty data) then Some (appended, written)
      else if written + zlen data >? max_bytes then
        Some (appended ++ slice_to (max_bytes - written) data, max_bytes)
      else append_loop fuel' (drop (Z.to_nat chunk_size) src) max_bytes
             (appended ++ data) (written + zlen data)
  end.

Definition append_bytes (current_size max_total : Z) (src : bytes) : option (bytes * Z) :=
  let max_bytes := max_total - current_size + chunk_size in
  append_loop (length src + 1) src max_bytes [] 0.

Section tus.
Context {X : Services}.

(** [_append_stream(path, src, max_total=...)] *)
Definition _append_stream (p : uuid * pystr) (src : bytes) (max_total : Z) : M Z :=
  current_size ← Staging.size_or_zero p;
  old ← gets (λ w, default [] (FS.files (World.fs w) !! p));
  match append_bytes current_size max_total src with
  | Some (appended, written) => Staging.write_bytes p (old ++ appended);; mret written
  | None => raise RuntimeError
  end.

(** [open(path, "r+b").truncate(n)]: shorter files are padded with zeros. *)
Definition truncate (p : uuid * pystr) (n : Z) : M unit :=
  b ← Staging.read_bytes p;
  Staging.write_bytes p (take (Z.to_nat n) b ++ replicate (Z.to_nat n - length b) 0).

Definition _load_file (transfer_id file_id : uuid) : M TransferFile.t :=
  tf ← get_file file_id;
  match tf with
  | Some tf => if decide (TransferFile.transfer_id tf = transfer_id) then mret tf
               else raise (TusError 404 (u "file not found"))
  | None => raise (TusError 404 (u "file not found"))
  end.

Definition _load_transfer_and_file (transfer_id file_id : uuid)
  : M (Transfer.t * TransferFile.t) :=
  t ← get_transfer transfer_id;
  match t with
  | None => raise (TusError 404 (u "transfer not found"))
  | Some t => tf ← _load_file transfer_id file_id; mret (t, tf)
  end.

Definition files_of (transfer_id : uuid) (d : DB.t) : list TransferFile.t :=
  rows (λ f, TransferFile.transfer_id f =? transfer_id) (DB.files d).

Definition file_path_of (transfer_id : uuid) (tf : TransferFile.t) : res (uuid * pystr) :=
  Staging.file_path transfer_id (TransferFile.id tf) (TransferFile.safe_filename tf).

Fixpoint all_complete (transfer_id : uuid) (fs : list TransferFile.t) : M bool :=
  match fs with
  | [] => mret true
  | f :: fs' =>
      p ← lift (file_path_of transfer_id f);
      size ← Staging.size_or_zero p;
      if negb (size =? TransferFile.size_bytes f) then mret false
      else all_complete transfer_id fs'
  end.

Definition _all_files_complete (transfer_id : uuid) : M bool :=
  fs ← query (files_of transfer_id);
  all_complete transfer_id fs.

Definition handle_head (transfer_id file_id : uuid) : M UploadState :=
  tf ← _load_file transfer_id file_id;
  path ← lift (file_path_of transfer_id tf);
  current ← Staging.size_or_zero path;
  mret (mkUploadState current (TransferFile.size_bytes tf)
          ((current =? TransferFile.size_bytes tf) && (TransferFile.size_bytes tf >? 0))).

Definition ready_job (transfer_id : uuid) : json :=
  JObj [(u "transfer_id", JStr (uuid_str transfer_id))].

Definition handle_patch (transfer_id file_id : uuid) (upload_offset : Z) (body_stream : bytes)
  : M UploadState :=
  '(transfer, tf) ← _load_transfer_and_file transfer_id file_id;
  if negb (bool_decide (Transfer.status transfer = Uploading)) then
    raise (TusError 409 (u "transfer status is " ++ status_str (Transfer.status transfer)))
  else
    path ← lift (file_path_of transfer_id tf);
    current ← Staging.size_or_zero path;
    if negb (upload_offset =? current) then
      raise (TusError 409 (u "Upload-Offset mismatch (expected " ++ str_int current
                           ++ u ", got " ++ str_int upload_offset ++ u ")"))
    else
      Staging.mkdir transfer_id;;
      written ← _append_stream path body_stream (TransferFile.size_bytes tf);
      let new_offset := current + written in
      if new_offset >? TransferFile.size_bytes tf then
        truncate path (TransferFile.size_bytes tf);;
        raise (TusError 413 (u "chunk exceeds declared Upload-Length ("
                             ++ str_int (TransferFile.size_bytes tf) ++ u ")"))
      else
        let state := mkUploadState new_offset (TransferFile.size_bytes tf)
                       (new_offset =? TransferFile.size_bytes tf) in
        (if complete state then
           all ← _all_files_complete transfer_id;
           if all : bool then redis_lpush UPLOAD_READY_QUEUE (ready_job transfer_id) else mret tt
         else mret tt);;
        mret state.

End tus.
End Tus.

(** ** Footprints *)

Section tus_footprints.
Context {X : Services}.

Lemma touches_append_stream p s n : touches [PFs] (Tus._append_stream p s n).
Proof. unfold Tus._append_stream. foot. Qed.
#[local] Hint Resolve touches_append_stream : foot.
Lemma touches_truncate p n : touches [PFs] (Tus.truncate p n).
Proof. unfold Tus.truncate. foot. Qed.
#[local] Hint Resolve touches_truncate : foot.
Lemma touches_load_file i j : touches [] (Tus._load_file i j).
Proof. unfold Tus._load_file. foot. Qed.
#[local] Hint Resolve touches_load_file : foot.
Lemma touches_load_transfer_and_file i j : touches [] (Tus._load_transfer_and_file i j).
Proof. unfold Tus._load_transfer_and_file. foot. Qed.
#[local] Hint Resolve touches_load_transfer_and_file : foot.

Lemma touches_all_complete i fs : touches [] (Tus.all_complete i fs).
Proof. induction fs; simpl; foot. Qed.
#[local] Hint Resolve touches_all_complete : foot.

Lemma touches_all_files_complete i : touches [] (Tus._all_files_complete i).
Proof. unfold Tus._all_files_complete. foot. Qed.
#[local] Hint Resolve touches_all_files_complete : foot.

Lemma touches_handle_head i j : touches [] (Tus.handle_head i j).
Proof. unfold Tus.handle_head. foot. Qed.

Lemma touches_handle_patch i j o b : touches [PTick; PRedis; PFs] (Tus.handle_patch i j o b).
Proof. unfold Tus.handle_patch. foot. Qed.

End tus_footprints.

#[export] Hint Resolve touches_append_stream touches_truncate touches_load_file touches_load_transfer_and_file
  touches_all_complete touches_all_files_complete touches_handle_head touches_handle_patch : foot.

(** * What a PATCH does *)

Section patch_facts.
Context {X : Services}.
Import Tus.

Lemma chunk_size_pos : 0 < chunk_size.
Proof. done. Qed.
#[local] Opaque chunk_size.

Lemma append_loop_spec fuel src max_bytes appended written :
  (length src < fuel)%nat → written ≤ max_bytes →
  append_loop fuel src max_bytes appended written
  = Some (appended ++ take (Z.to_nat (max_bytes - written)) src,
          Z.min (written + zlen src) max_bytes).
Proof.
  revert src appended written. induction fuel as [|fuel IH]; intros src appended written Hf Hw; [lia|].
  pose proof chunk_size_pos as Hpos. simpl.
  assert (Hc : Z.to_nat chunk_size = S (Z.to_nat (chunk_size - 1))) by lia.
  destruct src as [|b src].
  { rewrite take_nil. simpl. rewrite take_nil, app_nil_r. unfold zlen. simpl. do 2 f_equal. lia. }
  set (data := take (Z.to_nat chunk_size) (b :: src)).
  assert (Hne : nonempty data = true) by (unfold data; by rewrite Hc). rewrite Hne. simpl negb.
  pose proof (zlen_take (Z.to_nat chunk_size) (b :: src)) as Hd. fold data in Hd.
  assert (Hdl : 1 ≤ zlen data).
  { clearbody data. destruct data; [done|]. unfold zlen. simpl. lia. }
  destruct (written + zlen data >? max_bytes) eqn:E; rewrite Z.gtb_ltb in E; zbool.
  - unfold slice_to. rewrite (proj2 (Z.ltb_ge _ _)) by lia. unfold data. rewrite take_take.
    rewrite Nat.min_l by (unfold zlen in *; lia). do 2 f_equal. lia.
  - rewrite IH.
    2:{ rewrite length_drop, Hc. simpl in *. lia. }
    2:{ lia. }
    rewrite <- app_assoc. do 2 f_equal.
    + f_equal. unfold data.
      transitivity (take (Z.to_nat (max_bytes - written))
        (take (Z.to_nat chunk_size) (b :: src) ++ drop (Z.to_nat chunk_size) (b :: src)));
        [|by rewrite take_drop].
      fold data. rewrite take_app. rewrite (take_ge data) by (unfold zlen in *; lia).
      f_equal. f_equal. unfold zlen in *. lia.
    + rewrite zlen_drop, Hd. pose proof (zlen_nonneg (b :: src)). lia.
Qed.

(** The copy loop terminates.  A body that fits is written whole; of one that
    does not, what is written and counted goes past the declared size, and the
    file cut back to that size is what the whole body would have made it. *)
Lemma append_bytes_spec old size src :
  0 ≤ size →
  ∃ extra written, append_bytes (zlen old) size src = Some (extra, written) ∧
    (zlen old + zlen src ≤ size → extra = src ∧ written = zlen src) ∧
    (size < zlen old + zlen src →
       size < zlen old + written ∧ (Z.to_nat size ≤ length (old ++ extra))%nat ∧
       take (Z.to_nat size) (old ++ extra) = take (Z.to_nat size) (old ++ src)).
Proof.
  intros Hsz. unfold append_bytes. pose proof chunk_size_pos as Hpos.
  pose proof (zlen_nonneg src) as Hsrc.
  set (max := size - zlen old + chunk_size).
  destruct (decide (0 ≤ max)) as [Hm|Hm].
  - rewrite append_loop_spec by lia. rewrite Z.sub_0_r. cbn [app].
    eexists _, _. split; [reflexivity|]. split.
    + intros Hle. rewrite take_ge by (unfold zlen in *; lia). split; [done|lia].
    + intros Hlt. split; [lia|]. rewrite length_app, length_take. split; [unfold zlen in *; lia|].
      rewrite !take_app, take_take. f_equal. f_equal. unfold zlen in *. lia.
  - assert (Hold : (Z.to_nat size ≤ length old)%nat) by (unfold zlen in *; lia).
    rewrite Nat.add_1_r. cbn [append_loop]. set (data := take _ src).
    assert (Hcut : ∀ extra, (Z.to_nat size ≤ length (old ++ extra))%nat ∧
      take (Z.to_nat size) (old ++ extra) = take (Z.to_nat size) (old ++ src)).
    { intros extra. rewrite length_app. split; [lia|]. by rewrite !take_app_le. }
    destruct (nonempty data); cbn [negb].
    + rewrite (proj2 (Z.gtb_lt _ _)) by (pose proof (zlen_nonneg data); lia).
      eexists _, _. split; [reflexivity|]. split; [lia|]. intros _. split; [lia|]. apply Hcut.
    + eexists _, _. split; [reflexivity|]. split; [lia|]. intros _. split; [lia|]. apply Hcut.
Qed.

Definition staged (p : uuid * pystr) (w : World) : bytes := default [] (FS.files (World.fs w) !! p).

(** [w'] differs from [w] only in the staged file [p], which now holds [b], and
    in the directory of its transfer. *)
Definition wrote (p : uuid * pystr) (b : bytes) (w w' : World) : Prop :=
  World.fs w' = FS.mk ({[p.1]} ∪ FS.dirs (World.fs w)) (<[p := b]> (FS.files (World.fs w))) ∧
  agree [PFs] w w'.

Lemma file_path_of_fst tid tf p : file_path_of tid tf = Ok p → p.1 = tid.
Proof. unfold file_path_of, Staging.file_path. case_match; [done|]. by intros [= <-]. Qed.

Lemma size_or_zero_staged p w :
  zlen p.2 ≤ name_max → Staging.size_or_zero p w = (Ok (zlen (staged p w)), w).
Proof.
  intros Hn. unfold Staging.size_or_zero, Staging.syscall, staged, mbind, M_bind.
  rewrite (proj2 (Z.ltb_ge _ _)) by lia. cbv [mret M_ret gets].
  by destruct (FS.files (World.fs w) !! p).
Qed.

(** Appending the body to the staged file. *)
Lemma wp_append p src size w (Q : res Z → World → Prop) :
  zlen p.2 ≤ name_max → 0 ≤ size →
  (∀ w' extra written,
     World.fs w' = FS.set_files (<[p := staged p w ++ extra]> (FS.files (World.fs w))) (World.fs w) →
     agree [PFs] w w' →
     (zlen (staged p w) + zlen src ≤ size → extra = src ∧ written = zlen src) →
     (size < zlen (staged p w) + zlen src →
        size < zlen (staged p w) + written ∧
        (Z.to_nat size ≤ length (staged p w ++ extra))%nat ∧
        take (Z.to_nat size) (staged p w ++ extra) = take (Z.to_nat size) (staged p w ++ src)) →
     Q (Ok written) w') →
  wp (_append_stream p src size) w Q.
Proof.
  intros Hn Hs HQ. unfold _append_stream. wp_step. unfold wp at 1.
  rewrite size_or_zero_staged by done. cbn [fst snd]. do 2 wp_step. fold (staged p w).
  destruct (append_bytes_spec (staged p w) size src Hs) as (extra & written & -> & Hfit & Hover).
  wp_step. unfold Staging.write_bytes, Staging.syscall. wp_step.
  rewrite (proj2 (Z.ltb_ge _ _)) by lia. do 3 wp_step. apply (HQ _ extra written); try done.
  intros q Hq. destruct q; try done; exfalso; apply Hq; part_in.
Qed.

Lemma wp_truncate p n w b (Q : res unit → World → Prop) :
  zlen p.2 ≤ name_max → FS.files (World.fs w) !! p = Some b → (Z.to_nat n ≤ length b)%nat →
  (∀ w', World.fs w' = FS.set_files (<[p := take (Z.to_nat n) b]> (FS.files (World.fs w))) (World.fs w) →
     agree [PFs] w w' → Q (Ok tt) w') →
  wp (truncate p n) w Q.
Proof.
  intros Hn Hb Hl HQ. unfold truncate, Staging.read_bytes, Staging.write_bytes, Staging.syscall.
  do 2 wp_step. rewrite (proj2 (Z.ltb_ge _ _)) by lia. do 3 wp_step. rewrite Hb. do 2 wp_step.
  wp_step. apply HQ.
  - simpl. f_equal. f_equal. replace (Z.to_nat n - length b)%nat with O by lia. by rewrite app_nil_r.
  - intros q Hq. destruct q; try done; exfalso; apply Hq; part_in.
Qed.

(** Every file of the transfer is staged with its declared size. *)
Definition all_staged (tid : uuid) (fs : list TransferFile.t) (w : World) : bool :=
  forallb (λ f, match file_path_of tid f with
                | Ok p => zlen (staged p w) =? TransferFile.size_bytes f
                | Err _ => false
                end) fs.

Lemma all_complete_spec tid fs w :
  (all_complete tid fs w).2 = w ∧
  ∀ b, (all_complete tid fs w).1 = Ok b → b = all_staged tid fs w.
Proof.
  induction fs as [|f fs [IH1 IH2]]; [split; [done|by intros b [= <-]]|].
  cbn [all_complete all_staged forallb]. unfold lift, mbind, M_bind.
  destruct (file_path_of tid f) as [p|e]; [|done].
  destruct (decide (zlen p.2 ≤ name_max)) as [Hn|Hn].
  - rewrite size_or_zero_staged by done. destruct (_ =? _); simpl; [done|].
    split; [done|by intros b [= <-]].
  - unfold Staging.size_or_zero, Staging.syscall, mbind, M_bind.
    by rewrite (proj2 (Z.ltb_lt _ _)) by lia.
Qed.

(** The answer to a PATCH and the state it leaves, case by case. *)
Definition patched (tid : uuid) (t : Transfer.t) (tf : TransferFile.t) (path : uuid * pystr)
    (off : Z) (body : bytes) (w : World) (r : res UploadState) (w' : World) : Prop :=
  let size := TransferFile.size_bytes tf in
  let new := staged path w ++ body in
  if decide (Transfer.status t ≠ Uploading ∨ off ≠ zlen (staged path w)) then
    w' = w ∧ ∃ d, r = Err (TusError 409 d)
  else
    ((∀ q, q ≠ path → FS.files (World.fs w') !! q = FS.files (World.fs w) !! q) ∧
     FS.dirs (World.fs w') = {[tid]} ∪ FS.dirs (World.fs w)) ∧
    staged path w' = take (Z.to_nat size) new ∧
    if decide (size < zlen new) then
      (∃ d, r = Err (TusError 413 d)) ∧ World.redis w' = World.redis w
    else
      match r with
      | Ok s =>
          s = mkUploadState (zlen new) size (zlen new =? size) ∧
          if (zlen new =? size) && all_staged tid (files_of tid (World.sess w)) w'
          then ∃ at_, World.redis w'
                      = r_lpush (World.redis w) at_ UPLOAD_READY_QUEUE (ready_job tid)
          else World.redis w' = World.redis w
      | Err _ => zlen new = size
      end.

Lemma staged_after path fs b w :
  World.fs w = FS.set_files (<[path := b]> (FS.files fs)) fs → staged path w = b.
Proof. intros E. unfold staged. rewrite E. simpl. by rewrite lookup_insert_eq. Qed.

Lemma wp_push_ready tid (w : World) (Q : res unit → World → Prop) :
  (∀ e w', World.fs w' = World.fs w → Q (Err e) w') →
  (∀ w' at_, World.fs w' = World.fs w →
     World.redis w' = r_lpush (World.redis w) at_ UPLOAD_READY_QUEUE (ready_job tid) → Q (Ok tt) w') →
  wp (redis_lpush UPLOAD_READY_QUEUE (ready_job tid)) w Q.
Proof.
  intros HE HQ. apply wp_redis; [by apply HE|].
  destruct (list_of _); [by eapply HQ|by apply HE].
Qed.

Lemma wp_handle_patch tid fid off body w t tf path :
  DB.transfers (World.sess w) !! tid = Some t → DB.files (World.sess w) !! fid = Some tf →
  TransferFile.transfer_id tf = tid → file_path_of tid tf = Ok path → zlen path.2 ≤ name_max →
  0 ≤ TransferFile.size_bytes tf →
  wp (handle_patch tid fid off body) w (patched tid t tf path off body w).
Proof.
  intros Ht Hf Hid Hp Hn Hle. unfold handle_patch, _load_transfer_and_file, _load_file.
  assert (Hrefuse : ∀ d, Transfer.status t ≠ Uploading ∨ off ≠ zlen (staged path w) →
    patched tid t tf path off body w (Err (TusError 409 d)) w).
  { intros d Hor. unfold patched. rewrite decide_True by done. eauto. }
  do 3 wp_step. rewrite Ht. do 3 wp_step. rewrite Hf. rewrite decide_True by done. do 2 wp_step.
  case_bool_decide as Hs; cbn [negb]; [|wp_step; by apply Hrefuse; left].
  do 2 wp_step. rewrite Hp. wp_step. unfold wp at 1. rewrite size_or_zero_staged by done.
  cbn [fst snd]. destruct (off =? zlen (staged path w)) eqn:Eo; cbn [negb]; zbool.
  2:{ wp_step. by apply Hrefuse; right. }
  wp_step. unfold Staging.mkdir. wp_step. set (w1 := World.set_fs _ _).
  assert (Hst1 : staged path w1 = staged path w) by done.
  wp_step. apply wp_append; [done..|]. rewrite Hst1.
  assert (Hbr : ∀ (P Q : Prop), Q → if decide (Transfer.status t ≠ Uploading ∨ off ≠ zlen (staged path w)) then P else Q).
  { intros P Q HQ. by rewrite decide_False by naive_solver. }
  intros w2 extra written Hfs2 Ha2 Hfit Hover. pose proof (zlen_nonneg body) as Hb0.
  assert (Hother : ∀ q, q ≠ path → FS.files (World.fs w2) !! q = FS.files (World.fs w) !! q).
  { intros q Hq. rewrite Hfs2. simpl. by rewrite lookup_insert_ne. }
  assert (Hdir : FS.dirs (World.fs w2) = {[tid]} ∪ FS.dirs (World.fs w)) by (by rewrite Hfs2).
  pose proof (Ha2 PRedis ltac:(part_notin)) as Hr2. simpl in Hr2.
  pose proof (Ha2 PFiles ltac:(part_notin)) as Hfi2. simpl in Hfi2.
  destruct (_ >? _) eqn:Ebig; rewrite Z.gtb_ltb in Ebig; zbool.
  - assert (TransferFile.size_bytes tf < zlen (staged path w) + zlen body) as Hbig by lia.
    destruct (Hover Hbig) as (_ & Hlen & Hcut). wp_step.
    eapply (wp_truncate _ _ _ (staged path w ++ extra));
      [done|rewrite Hfs2; simpl; by rewrite lookup_insert_eq|done|].
    intros w3 Hfs3 Ha3. wp_step. unfold patched. apply Hbr. split; [split|split].
    + intros q Hq. rewrite Hfs3. simpl. rewrite lookup_insert_ne by done. by apply Hother.
    + by rewrite Hfs3.
    + by rewrite (staged_after _ _ _ _ Hfs3).
    + rewrite decide_True by (rewrite zlen_app; lia). split; [eauto|].
      pose proof (Ha3 PRedis ltac:(part_notin)) as Hr3. simpl in Hr3. by rewrite Hr3, Hr2.
  - destruct Hfit as [-> ->].
    { destruct (decide (zlen (staged path w) + zlen body ≤ TransferFile.size_bytes tf)); [done|].
      destruct Hover as [? _]; lia. }
    assert (Hst2 : staged path w2 = staged path w ++ body) by by rewrite (staged_after _ _ _ _ Hfs2).
    assert (Htake : staged path w2
      = take (Z.to_nat (TransferFile.size_bytes tf)) (staged path w ++ body)).
    { rewrite Hst2, take_ge; [done|]. rewrite length_app. unfold zlen in *. lia. }
    assert (Hfin : ∀ r w', World.fs w' = World.fs w2 →
      match r with
      | Ok s =>
          s = mkUploadState (zlen (staged path w ++ body)) (TransferFile.size_bytes tf)
                (zlen (staged path w ++ body) =? TransferFile.size_bytes tf) ∧
          if (zlen (staged path w ++ body) =? TransferFile.size_bytes tf)
             && all_staged tid (files_of tid (World.sess w)) w'
          then ∃ at_, World.redis w' = r_lpush (World.redis w) at_ UPLOAD_READY_QUEUE (ready_job tid)
          else World.redis w' = World.redis w
      | Err _ => zlen (staged path w ++ body) = TransferFile.size_bytes tf
      end → patched tid t tf path off body w r w').
    { intros r w' Hfs' Hr. unfold patched. apply Hbr. split; [split|split].
      - intros q Hq. rewrite Hfs'. by apply Hother.
      - by rewrite Hfs'.
      - unfold staged at 1. rewrite Hfs'. exact Htake.
      - rewrite decide_False by (rewrite zlen_app; lia). exact Hr. }
    rewrite !zlen_app in Hfin. wp_step. cbn [complete].
    destruct (zlen (staged path w) + zlen body =? TransferFile.size_bytes tf) eqn:Ec; zbool.
    2:{ do 2 wp_step. by apply Hfin. }
    assert (Hfo : files_of tid (World.sess w2) = files_of tid (World.sess w)).
    { unfold files_of. by rewrite Hfi2. }
    wp_step. unfold _all_files_complete. do 2 wp_step. rewrite Hfo.
    destruct (all_complete_spec tid (files_of tid (World.sess w)) w2) as [E1 E2].
    apply wp_of. intros r w3 E. rewrite E in E1, E2. cbn [fst snd] in E1, E2. subst w3.
    destruct r as [b|e]; [|by apply Hfin]. rewrite (E2 b eq_refl) in *.
    destruct (all_staged _ _ w2) eqn:Eall.
    + apply wp_push_ready; [intros e w3 Hw3; by apply Hfin|]. intros w3 at_ Hw3 Hr3. wp_step.
      apply Hfin; [done|]. split; [done|]. simpl.
      replace (all_staged tid (files_of tid (World.sess w)) w3) with true; [exists at_; by rewrite Hr3, Hr2|].
      rewrite <- Eall. unfold all_staged, staged. by rewrite Hw3.
    + do 2 wp_step. apply Hfin; [done|]. split; [done|]. by rewrite Eall.
Qed.

(** A client that sends the body in pieces, each at the offset reached. *)
Fixpoint send_chunks (tid fid : uuid) (off : Z) (chunks : list bytes) : M unit :=
  match chunks with
  | [] => mret tt
  | c :: cs => handle_patch tid fid off c;; send_chunks tid fid (off + zlen c) cs
  end.

Lemma wp_send_chunks tid fid chunks w t tf path :
  DB.transfers (World.sess w) !! tid = Some t → DB.files (World.sess w) !! fid = Some tf →
  TransferFile.transfer_id tf = tid → Transfer.status t = Uploading →
  file_path_of tid tf = Ok path → zlen path.2 ≤ name_max →
  zlen (staged path w ++ concat chunks) ≤ TransferFile.size_bytes tf →
  wp (send_chunks tid fid (zlen (staged path w)) chunks) w (λ r w',
    staged path w' = staged path w ++ concat chunks ∧
    (r = Ok tt ∨ zlen (staged path w') = TransferFile.size_bytes tf)).
Proof.
  intros Ht Hf Hid Hs Hp Hn. revert w Ht Hf.
  induction chunks as [|c cs IH]; intros w Ht Hf Hle; cbn [send_chunks concat] in *.
  { wp_step. rewrite app_nil_r. auto. }
  rewrite !zlen_app in Hle. pose proof (zlen_nonneg c). pose proof (zlen_nonneg (concat cs)).
  wp_step. eapply wp_mono.
  { apply wp_and; [apply (touches_wp [PTick; PRedis; PFs]); foot|].
    eapply (wp_handle_patch tid fid _ c w t tf path); try done. pose proof (zlen_nonneg (staged path w)). lia. }
  intros r w1 [Ha Hr]. unfold patched in Hr. rewrite decide_False in Hr by naive_solver.
  destruct Hr as (_ & Hst & Hr). rewrite zlen_app, decide_False in Hr by lia.
  rewrite take_ge in Hst by (rewrite length_app; unfold zlen in *; lia).
  destruct r as [st|e].
  - replace (zlen (staged path w) + zlen c) with (zlen (staged path w1))
      by (rewrite Hst, zlen_app; lia).
    eapply wp_mono; [apply IH|].
    + by rewrite (Ha PTransfers ltac:(part_notin) : DB.transfers _ = _).
    + by rewrite (Ha PFiles ltac:(part_notin) : DB.files _ = _).
    + rewrite Hst, !zlen_app. lia.
    + intros r w2 [E Hor]. split; [by rewrite E, Hst, <- app_assoc|done].
  - assert (concat cs = []) as ->.
    { destruct (concat cs) as [|b bs]; [done|]. rewrite zlen_cons in *.
      pose proof (zlen_nonneg bs). lia. }
    rewrite app_nil_r, Hst, zlen_app. auto.
Qed.

(** What a PATCH answers and leaves, on every branch. *)
Definition patch_outcome (tid fid : uuid) (off : Z) (body : bytes) (w : World)
    (r : res UploadState) (w' : World) : Prop :=
  let refused e := w' = w ∧ r = Err e in
  match DB.transfers (World.sess w) !! tid, DB.files (World.sess w) !! fid with
  | None, _ => refused (TusError 404 (u "transfer not found"))
  | Some _, None => refused (TusError 404 (u "file not found"))
  | Some t, Some tf =>
      if decide (TransferFile.transfer_id tf ≠ tid) then refused (TusError 404 (u "file not found"))
      else if decide (Transfer.status t ≠ Uploading) then
        refused (TusError 409 (u "transfer status is " ++ status_str (Transfer.status t)))
      else match file_path_of tid tf with
           | Err _ => TransferFile.safe_filename tf = [] ∧ refused StagingError
           | Ok path =>
               if decide (name_max < zlen path.2) then refused ServiceError
               else patched tid t tf path off body w r w'
           end
  end.

Lemma patch_load_run tid fid w :
  _load_transfer_and_file tid fid w =
    (match DB.transfers (World.sess w) !! tid, DB.files (World.sess w) !! fid with
     | None, _ => Err (TusError 404 (u "transfer not found"))
     | Some _, None => Err (TusError 404 (u "file not found"))
     | Some t, Some tf => if decide (TransferFile.transfer_id tf = tid) then Ok (t, tf)
                          else Err (TusError 404 (u "file not found"))
     end, w).
Proof.
  unfold _load_transfer_and_file, _load_file, get_transfer, get_file, query, gets, mbind, M_bind.
  destruct (DB.transfers _ !! tid); [|done]. destruct (DB.files _ !! fid); [|done]. by case_decide.
Qed.

Lemma wp_patch_outcome tid fid off body w :
  (∀ tf, DB.files (World.sess w) !! fid = Some tf → 0 ≤ TransferFile.size_bytes tf) →
  wp (handle_patch tid fid off body) w (patch_outcome tid fid off body w).
Proof.
  intros Hpos.
  assert (Hbody : ∀ t tf path, DB.transfers (World.sess w) !! tid = Some t →
    DB.files (World.sess w) !! fid = Some tf → TransferFile.transfer_id tf = tid →
    file_path_of tid tf = Ok path → zlen path.2 ≤ name_max →
    wp (handle_patch tid fid off body) w (patched tid t tf path off body w)).
  { intros. by apply wp_handle_patch; auto. }
  apply wp_of. intros r w' E. unfold patch_outcome. revert E.
  destruct (DB.transfers (World.sess w) !! tid) as [t|] eqn:Ht;
    [destruct (DB.files (World.sess w) !! fid) as [tf|] eqn:Hf|];
    [repeat case_decide|..].
  all: try (unfold handle_patch, mbind at 1, M_bind at 1; rewrite patch_load_run, Ht, ?Hf, ?decide_False by done;
            by intros [= <- <-]).
  - unfold handle_patch, mbind at 1, M_bind at 1. rewrite patch_load_run, Ht, Hf, decide_True by naive_solver.
    rewrite bool_decide_false by done. by intros [= <- <-].
  - destruct (file_path_of tid tf) as [path|e] eqn:Hp; [case_decide|].
    2:{ intros E. apply (wp_run _ _ _ _ _ (Hbody t tf path eq_refl eq_refl ltac:(naive_solver) Hp ltac:(lia)) E). }
    all: unfold handle_patch, mbind at 1, M_bind at 1; rewrite patch_load_run, Ht, Hf, decide_True by naive_solver.
    all: rewrite bool_decide_true by naive_solver.
    all: unfold lift, mbind, M_bind; cbn [negb]; rewrite Hp.
    + unfold Staging.size_or_zero, Staging.syscall, mbind, M_bind.
      rewrite (proj2 (Z.ltb_lt _ _)) by lia. by intros [= <- <-].
    + intros [= <- <-]. unfold file_path_of, Staging.file_path in Hp.
      destruct (TransferFile.safe_filename tf); by simplify_eq/=.
Qed.

(** C7: one PATCH of an upload, on every branch (declared sizes not being
    negative).  An unknown transfer, an unknown file or the file of another
    transfer is refused with 404; a transfer that is not uploading, or an offset
    that is not the current length of the staged file, with 409; a file without
    a name, or with one the file system does not take, fails; all of these change
    nothing.  Otherwise only this file and its directory change: the body is
    appended and the file never exceeds its declared size, also when more was
    staged before; a body that would overrun it is refused with 413 after the
    file is cut back to that size, and no job is queued; a body that fits yields
    the new offset, and exactly when it completes the last incomplete file of
    the transfer one encryption job for it is pushed (if that push fails the
    request fails, with the bytes kept).  Nothing outside staging and Redis is
    ever touched. *)
Theorem tus_patch_spec tid fid off body w r w' :
  (∀ tf, DB.files (World.sess w) !! fid = Some tf → 0 ≤ TransferFile.size_bytes tf) →
  handle_patch tid fid off body w = (r, w') →
  patch_outcome tid fid off body w r w' ∧ agree [PTick; PRedis; PFs] w w'.
Proof.
  intros Hpos E. split.
  - by apply (wp_run _ _ _ _ _ (wp_patch_outcome tid fid off body w Hpos)).
  - apply (touches_agree _ _ _ _ _ (touches_handle_patch tid fid off body) E).
Qed.

(** C8: resumable uploads.  A client that sends a file in any number of pieces
    of any sizes, each at the offset reached, ends with exactly the
    concatenation of the pieces staged after what was there; until the declared
    size is reached no piece is refused. *)
Theorem chunked_upload tid fid chunks w r w' t tf path :
  DB.transfers (World.sess w) !! tid = Some t → DB.files (World.sess w) !! fid = Some tf →
  TransferFile.transfer_id tf = tid → Transfer.status t = Uploading →
  file_path_of tid tf = Ok path → zlen path.2 ≤ name_max →
  zlen (staged path w ++ concat chunks) ≤ TransferFile.size_bytes tf →
  send_chunks tid fid (zlen (staged path w)) chunks w = (r, w') →
  staged path w' = staged path w ++ concat chunks ∧
  (r = Ok tt ∨ zlen (staged path w') = TransferFile.size_bytes tf).
Proof.
  intros Ht Hf Hid Hs Hp Hn Hle.
  by apply (wp_run _ _ _ _ _ (wp_send_chunks tid fid chunks w t tf path Ht Hf Hid Hs Hp Hn Hle)).
Qed.

End patch_facts.

Section tus_witnesses.
Import Tus.
#[local] Instance demo_services : Services := Sim.calm.

Definition tus_demo_transfer : Transfer.t := Demo.transfer 1 Uploading None Demo.now.
Definition tus_demo_file : TransferFile.t := Demo.file 2 1 [].
Definition tus_demo_world : World := Demo.world (Demo.db_transfers [tus_demo_transfer] [tus_demo_file]).
Definition tus_demo_path : uuid * pystr := (1, uuid_str 2 ++ u "__a.txt").

(** The three bytes of the file at once: the job is queued. *)
Lemma tus_patch_spec_witness :
  let '(r, w') := handle_patch 1 2 0 [1; 2; 3] tus_demo_world in
  patched 1 tus_demo_transfer tus_demo_file tus_demo_path 0 [1; 2; 3] tus_demo_world r w' ∧
  r = Ok (mkUploadState 3 3 true).
Proof.
  destruct (handle_patch 1 2 0 [1; 2; 3] tus_demo_world) as [r w'] eqn:E. split.
  - assert (Hpos : ∀ tf, DB.files (World.sess tus_demo_world) !! 2 = Some tf →
      0 ≤ TransferFile.size_bytes tf) by (intros tf [= <-]; vm_compute; discriminate).
    exact (proj1 (tus_patch_spec 1 2 0 [1; 2; 3] tus_demo_world r w' Hpos E)).
  - change r with (r, w').1. rewrite <- E. vm_compute. reflexivity.
Defined.

(** Two pieces. *)
Lemma chunked_upload_witness :
  let '(r, w') := send_chunks 1 2 0 [[1]; [2; 3]] tus_demo_world in
  staged tus_demo_path w' = [1; 2; 3].
Proof.
  destruct (send_chunks 1 2 0 [[1]; [2; 3]] tus_demo_world) as [r w'] eqn:E.
  apply (chunked_upload 1 2 [[1]; [2; 3]] tus_demo_world r w' tus_demo_transfer tus_demo_file
    tus_demo_path); try exact E; try (vm_compute; reflexivity).
  all: vm_compute; discriminate.
Defined.

End tus_witnesses.
