(* ===== verification/Transfers.v ===== *)
(** Creating transfers: the request schema ([schemas/transfer.py]) and
    [services/transfer.py]. *)
From S2P Require Import Prelude Text Services Model Effects Storage Gates.

(** * schemas/transfer.py *)
Module CreateTransferRequest.

Record t := mk {
  sender_email : pystr;
  recipient_emails : list pystr;
  message : option pystr;
  ttl_days : Z;
  files : list FileDescriptor.t;
  captcha_token : option pystr
}.

Section schema.
Context {X : Services}.

(** First-seen order and casing, duplicates by lowercase key dropped. *)
Fixpoint _dedup_from (seen : list pystr) (v : list pystr) : list pystr :=
  match v with
  | [] => []
  | e :: v' =>
      let key := lower e in
      if decide (key ∈ seen) then _dedup_from seen v'
      else e :: _dedup_from (key :: seen) v'
  end.

Definition _dedup_recipients (v : list pystr) : list pystr := _dedup_from [] v.

Definition in_range (lo hi n : Z) : bool := (lo <=? n) && (n <=? hi).

Definition max_len (n : Z) (o : option pystr) : bool :=
  match o with Some s => zlen s <=? n | None => true end.

Definition file_ok (f : FileDescriptor.t) : bool :=
  in_range 1 255 (zlen (FileDescriptor.filename f)) && (0 <=? FileDescriptor.size f).

(** The model's validation: the field constraints, then the recipients without
    duplicates. *)
Definition validate (r : t) : res t :=
  if in_range 1 20 (zlen (recipient_emails r)) && max_len 2000 (message r)
     && in_range 1 7 (ttl_days r) && in_range 1 50 (zlen (files r))
     && forallb file_ok (files r) && max_len 2000 (captcha_token r)
  then Ok (mk (sender_email r) (_dedup_recipients (recipient_emails r)) (message r)
             (ttl_days r) (files r) (captcha_token r))
  else Err ValidationError.

Definition total_size (r : t) : Z := foldr Z.add 0 (FileDescriptor.size <$> files r).
Definition file_count (r : t) : Z := zlen (files r).

End schema.
End CreateTransferRequest.

(** [schemas.transfer.CreateTransferResponse] *)
Record CreateTransferResponse := mkCreateTransferResponse {
  r_transfer_id : uuid;
  r_download_token : pystr;
  r_manage_token : pystr;
  r_upload_urls : list (pystr * pystr);
  r_expires_at : datetime
}.

(** * services/transfer.py *)
Module TransferService.
Section service.
Context {X : Services}.

Definition day : Z := 86400 * second.

(** ["".join(Path(safe).suffixes[-1:]) or None] *)
Definition last_suffix (safe : pystr) : option pystr :=
  match last (path_suffixes safe) with
  | Some ((_ :: _) as e) => Some e
  | _ => None
  end.

Definition add_one_recipient (transfer_id : uuid) (email : pystr) : M unit :=
  i ← uuid4;
  add_recipient (TransferRecipient.mk i transfer_id email None (Some (u "queued")) None).

(** One turn of the loop over [req.files]: the row is added and its upload URL
    joins the dict. *)
Definition add_one_file (transfer_id : uuid) (public_base_url : pystr)
    (urls : list (pystr * pystr)) (f : FileDescriptor.t) : M (list (pystr * pystr)) :=
  let safe := Staging.safe_filename (FileDescriptor.filename f) in
  file_id ← uuid4;
  add_file (TransferFile.mk file_id transfer_id (FileDescriptor.filename f) safe
              (u "application/octet-stream") (last_suffix safe) (FileDescriptor.size f)
              (Storage.object_key transfer_id file_id) (replicate 12 0) (replicate 32 0));;
  mret (dict_set (FileDescriptor.filename f)
          (public_base_url ++ u "/api/transfers/" ++ uuid_str transfer_id ++ u "/files/"
           ++ uuid_str file_id) urls).

Definition create (req : CreateTransferRequest.t) (sender_ip : pystr)
    (sender_ua sender_country sender_city : option pystr) (public_base_url : pystr)
  : M CreateTransferResponse :=
  t ← now;
  let expires := t + CreateTransferRequest.ttl_days req * day in
  transfer_id ← uuid4;
  token ← token_urlsafe;
  manage_token ← token_urlsafe;
  created ← now;
  add_transfer (Transfer.mk transfer_id token manage_token
    (CreateTransferRequest.sender_email req) sender_ip sender_country sender_city sender_ua
    (CreateTransferRequest.message req) Uploading None
    (CreateTransferRequest.total_size req) (CreateTransferRequest.file_count req)
    created expires None None None);;
  for_ (CreateTransferRequest.recipient_emails req) (add_one_recipient transfer_id);;
  upload_urls ← fold_m (add_one_file transfer_id public_base_url) []
                  (CreateTransferRequest.files req);
  mret (mkCreateTransferResponse transfer_id token manage_token upload_urls expires).

(** [scalar_one_or_none] on a unique column. *)
Definition find_transfer (p : Transfer.t → bool) (d : DB.t) : option Transfer.t :=
  head (rows p (DB.transfers d)).

Definition get_by_download_token (token : pystr) : M (option Transfer.t) :=
  query (find_transfer (λ t, bool_decide (Transfer.token t = token))).

Definition get_by_manage_token (manage_token : pystr) : M (option Transfer.t) :=
  query (find_transfer (λ t, bool_decide (Transfer.manage_token t = manage_token))).

End service.
End TransferService.

(** ** Footprints *)

Section transfer_footprints.
Context {X : Services}.

Lemma touches_add_one_recipient i e : touches [PTick; PRecipients] (TransferService.add_one_recipient i e).
Proof. unfold TransferService.add_one_recipient. foot. Qed.
#[local] Hint Resolve touches_add_one_recipient : foot.
Lemma touches_add_one_file i b us f : touches [PTick; PFiles] (TransferService.add_one_file i b us f).
Proof. unfold TransferService.add_one_file. foot. Qed.
#[local] Hint Resolve touches_add_one_file : foot.
Lemma touches_transfer_create r a b c d e : touches [PTick; PTransfers; PFiles; PRecipients] (TransferService.create r a b c d e).
Proof. unfold TransferService.create. foot. Qed.
#[local] Hint Resolve touches_transfer_create : foot.
Lemma touches_get_by_download_token i : touches [] (TransferService.get_by_download_token i).
Proof. unfold TransferService.get_by_download_token. foot. Qed.
#[local] Hint Resolve touches_get_by_download_token : foot.
Lemma touches_get_by_manage_token i : touches [] (TransferService.get_by_manage_token i).
Proof. unfold TransferService.get_by_manage_token. foot. Qed.
#[local] Hint Resolve touches_get_by_manage_token : foot.

End transfer_footprints.

#[export] Hint Resolve touches_add_one_recipient touches_add_one_file touches_transfer_create touches_get_by_download_token
  touches_get_by_manage_token : foot.
