(* ===== verification/Public.v ===== *)
(** The public endpoints ([routers/public.py]): creating a transfer behind its
    gates, tus uploads, downloads and the sender's panel. *)
From S2P Require Import Prelude Text Services Model Effects Storage Support Gates RateLimit Http.
From S2P Require Import Mail Envelope Stream Tus Transfers.
From stdpp Require Import sorting.
#[local] Open Scope Z_scope.

Module Public.

Definition SECURITY_HEADERS : list (pystr * pystr) :=
  [(u "X-Content-Type-Options", u "nosniff"); (u "X-Frame-Options", u "DENY");
   (u "Referrer-Policy", u "no-referrer"); (u "Cache-Control", u "no-store")].

Definition EMAIL_QUEUE : pystr := u "email:queue".

(** A streamed download: its headers and what the generator closes over. *)
Record Source := mkSource { src_object_key : pystr; src_iv : bytes; src_name : pystr }.

Record StreamingResponse := mkStreamingResponse {
  st_headers : list (pystr * pystr);
  st_key : bytes;
  st_entries : list Source
}.

Record SenderPanelResponse := mkSenderPanelResponse {
  sp_transfer_id : uuid; sp_status : Status; sp_sender_email : pystr;
  sp_recipient_emails : list pystr; sp_message : option pystr; sp_created_at : datetime;
  sp_expires_at : datetime; sp_download_token : option pystr;
  sp_files : list (pystr * Z * pystr); sp_downloads : list Download.t
}.

Section public.
Context {X : Services} {C : Config}.

(** ** Creating a transfer *)

Definition blocked : exn := http_err 403 "blocked".

Definition captcha_gate (payload : CreateTransferRequest.t) (client_ip : pystr) : M unit :=
  if Captcha.required then
    ok ← Captcha.verify (default [] (CreateTransferRequest.captcha_token payload)) client_ip;
    if ok : bool then mret tt
    else
      Alerts.alert (u "captcha_failed") (u "info") (u "hCaptcha verification failed")
        (Some client_ip) None
        (Some (JObj [(u "had_token", JBool (truthy (CreateTransferRequest.captcha_token payload)))]));;
      raise (HTTPException 403 (JObj [(u "error", JStr (u "captcha_required"));
                                      (u "site_key", JStr hcaptcha_site_key)]))
  else mret tt.

Definition block_alert (message client_ip kind : pystr) (email : option pystr) : M unit :=
  Alerts.alert (u "blocklist_hit") (u "warn") message (Some client_ip) None
    (Some (JObj ((u "kind", JStr kind) ::
                 match email with Some e => [(u "email", JStr e)] | None => [] end)));;
  raise blocked.

Definition blocklist_gate (sender client_ip : pystr) : M unit :=
  hit_ip ← BlocklistChecker.check_ip client_ip;
  if hit_ip : bool then
    block_alert (u "IP " ++ client_ip ++ u " is on blocklist") client_ip (u "ip") None
  else
    hit_email ← BlocklistChecker.check_email sender;
    if hit_email : bool then
      block_alert (u "email " ++ sender ++ u " is on blocklist") client_ip (u "email") (Some sender)
    else
      hit_domain ← BlocklistChecker.check_email_domain sender;
      if hit_domain : bool then
        block_alert (u "domain of " ++ sender ++ u " is on blocklist") client_ip (u "domain")
          (Some sender)
      else mret tt.

(** The country of the sender when the reader is loaded. *)
Definition geoip_gate (client_ip : pystr) : M (option pystr) :=
  on ← Settings.get_bool (u "geoip_enabled") false;
  allowed ← Settings.get_list (u "geoip_countries") [JStr (u "KZ"); JStr (u "UZ"); JStr (u "KG")];
  if geoip_enabled then
    let sender_country := GeoIP.country client_ip in
    ok ← (if on : bool then lift (GeoIP.is_country_allowed client_ip allowed) else mret true);
    if ok : bool then mret sender_country
    else
      Alerts.alert (u "geo_blocked") (u "warn")
        (u "country " ++ default (u "None") sender_country ++ u " not allowed")
        (Some client_ip) None
        (Some (JObj [(u "country", ojson sender_country); (u "allowed", JArr allowed)]));;
      raise (http_err 403 "country_not_allowed")
  else mret None.

Definition policy_gate (payload : CreateTransferRequest.t) (client_ip : pystr) : M unit :=
  try_except
    (Policy.check (CreateTransferRequest.files payload)
       (zlen (CreateTransferRequest.recipient_emails payload)))
    (λ e, match e with
          | PolicyViolation reason status_code =>
              Alerts.alert (u "policy_reject") (u "info") reason (Some client_ip) None
                (Some (JObj [(u "reason", JStr reason); (u "status", JInt status_code)]));;
              raise (HTTPException status_code
                (JObj [(u "error", JStr (u "policy_violation")); (u "reason", JStr reason)]))
          | _ => raise e
          end).

Definition create_transfer (payload : CreateTransferRequest.t) (request : Request)
  : M CreateTransferResponse :=
  let client_ip := HttpUtils.client_ip request in
  captcha_gate payload client_ip;;
  blocklist_gate (CreateTransferRequest.sender_email payload) client_ip;;
  sender_country ← geoip_gate client_ip;
  policy_gate payload client_ip;;
  resp ← TransferService.create payload client_ip
           (get_header (rq_headers request) (u "user-agent")) sender_country None [];
  commit;;
  mret resp.

(** ** Tus *)

(** [except TusError as e: raise HTTPException(e.status_code, e.detail)] *)
Definition tus_errors {A} (m : M A) : M A :=
  try_except m (λ e, match e with
                     | TusError code detail => raise (HTTPException code (JStr detail))
                     | _ => raise e
                     end).

Definition tus_head (transfer_id file_id : uuid) : M Response :=
  state ← tus_errors (Tus.handle_head transfer_id file_id);
  mret (mkResponse 200
    [(u "Tus-Resumable", u "1.0.0");
     (u "Upload-Offset", str_int (Tus.current_offset state));
     (u "Upload-Length", str_int (Tus.declared_length state));
     (u "Cache-Control", u "no-store")] JNull).

Definition tus_patch (transfer_id file_id : uuid) (request : Request) (body : bytes)
  : M Response :=
  if negb (bool_decide (get_header (rq_headers request) (u "content-type")
                        = Some (u "application/offset+octet-stream"))) then
    raise (http_text 415 "Content-Type must be application/offset+octet-stream")
  else
    match int10 (default [] (get_header (rq_headers request) (u "upload-offset"))) with
    | None => raise (http_text 400 "invalid Upload-Offset header")
    | Some upload_offset =>
        state ← tus_errors (Tus.handle_patch transfer_id file_id upload_offset body);
        commit;;
        mret (mkResponse 204
          [(u "Tus-Resumable", u "1.0.0");
           (u "Upload-Offset", str_int (Tus.current_offset state))] JNull)
    end.

(** ** Downloads *)

Definition not_found : exn := http_text 404 "not found".

Definition _load_ready_transfer (token : pystr) : M (Transfer.t * list TransferFile.t) :=
  row ← TransferService.get_by_download_token token;
  match row with
  | None => raise not_found
  | Some t =>
      if negb (bool_decide (Transfer.status t = Ready)) then raise not_found
      else
        cur ← now;
        if Transfer.expires_at t <=? cur then raise (http_text 410 "gone")
        else match Transfer.wrapped_key t with
             | None => raise not_found
             | Some _ =>
                 files ← query (Tus.files_of (Transfer.id t));
                 mret (t, files)
             end
  end.

(** The file key of a transfer that passed [_load_ready_transfer]. *)
Definition open_file_key (t : Transfer.t) : M bytes :=
  master_key ← State.get_master_key;
  previous ← State.get_previous_master_key;
  match Transfer.wrapped_key t with
  | Some wrapped => lift (Envelope.unwrap_key master_key wrapped previous)
  | None => raise TypeError
  end.

Definition notice_job (to : pystr) (m : RenderedEmail) : json :=
  JObj [(u "to", JStr to); (u "subject", JStr (subject m));
        (u "html", JStr (html m)); (u "text", JStr (text m))].

(** The best-effort download notice to the sender. *)
Definition enqueue_notice (t : Transfer.t) (client_ip : pystr) (country : option pystr)
    (file_count : Z) : M unit :=
  suppress
    (at_ ← now;
     redis_lpush EMAIL_QUEUE
       (notice_job (Transfer.sender_email t)
          (Mail.render_download_notice Mail.RU client_ip country file_count at_))).

Definition record_download (t : Transfer.t) (client_ip : pystr) (country ua : option pystr)
    (f : TransferFile.t) : M unit :=
  started ← now;
  add_download (Download.mk (Transfer.id t) (Some (TransferFile.id f)) client_ip country ua
                  started None (Some (TransferFile.size_bytes f)) false).

Definition source_of (f : TransferFile.t) : Source :=
  mkSource (TransferFile.object_key f) (TransferFile.iv f) (TransferFile.safe_filename f).

Definition download_file (token : pystr) (file_id : uuid) (request : Request)
  : M StreamingResponse :=
  '(t, files) ← _load_ready_transfer token;
  match find (λ f, TransferFile.id f =? file_id) files with
  | None => raise not_found
  | Some tf =>
      file_key ← open_file_key t;
      let client_ip := HttpUtils.client_ip request in
      let download_country := GeoIP.country client_ip in
      record_download t client_ip download_country
        (get_header (rq_headers request) (u "user-agent")) tf;;
      enqueue_notice t client_ip download_country 1;;
      commit;;
      disposition ← lift (HttpUtils.content_disposition_attachment (TransferFile.filename tf)
                            (Some (TransferFile.safe_filename tf)));
      mret (mkStreamingResponse
        (SECURITY_HEADERS ++
         [(u "Content-Length", str_int (TransferFile.size_bytes tf));
          (u "Content-Disposition", disposition)])
        file_key [source_of tf])
  end.

(** The text of the Telegram notice of a ZIP download. *)
Definition download_notice (t : Transfer.t) (files : list TransferFile.t) (client_ip : pystr)
    (country : option pystr) : pystr :=
  let country_str :=
    match country with Some ((_ :: _) as c) => c | _ => Alerts.em_dash end in
  Text.join [10]
    [[128229] ++ u " *Fylix download*";
     u "Transfer: " ++ Alerts.code_span (uuid_str (Transfer.id t));
     u "Files: " ++ str_int (zlen files) ++ u "  Size: "
       ++ str_int (foldr Z.add 0 (TransferFile.size_bytes <$> files)) ++ u " bytes";
     u "IP: " ++ Alerts.code_span client_ip ++ u "  Country: " ++ country_str;
     u "To: " ++ Transfer.sender_email t].

Definition download_zip (token : pystr) (request : Request) : M StreamingResponse :=
  '(t, files) ← _load_ready_transfer token;
  file_key ← open_file_key t;
  let client_ip := HttpUtils.client_ip request in
  let download_country := GeoIP.country client_ip in
  for_ files (record_download t client_ip download_country
                (get_header (rq_headers request) (u "user-agent")));;
  enqueue_notice t client_ip download_country (zlen files);;
  suppress (Alerts.send (download_notice t files client_ip download_country));;
  commit;;
  disposition ← lift (HttpUtils.content_disposition_attachment
                        (uuid_str (Transfer.id t) ++ u ".zip") None);
  mret (mkStreamingResponse
    (SECURITY_HEADERS ++ [(u "Content-Disposition", disposition)])
    file_key (source_of <$> files)).

(** The body generator of one entry, run after the handler returned: the stored
    ciphertext through [decrypt_stream_iter]; the chunks it yields and how it
    ends. *)
Definition _stream_decrypted_file (file_key : bytes) (s : Source) : M (list bytes * res unit) :=
  ciphertext_stream ← Storage.get_stream (src_object_key s);
  match Stream.decrypt_stream_iter file_key (src_iv s) (IteratorIO.init ciphertext_stream)
          Stream._DEFAULT_CHUNK with
  | Some r => mret r
  | None => raise RuntimeError
  end.

(** ** Sender panel *)

Definition _load_by_manage_token (manage_token : pystr) : M Transfer.t :=
  row ← TransferService.get_by_manage_token manage_token;
  match row with
  | None => raise not_found
  | Some t => mret t
  end.

Definition later_first (a b : Download.t) : Prop := Download.started_at b ≤ Download.started_at a.
#[global] Instance later_first_dec a b : Decision (later_first a b).
Proof. unfold later_first. apply _. Defined.

Definition sender_panel (manage_token : pystr) : M SenderPanelResponse :=
  t ← _load_by_manage_token manage_token;
  files ← query (Tus.files_of (Transfer.id t));
  recipients ← query (λ d, rows (λ r, TransferRecipient.transfer_id r =? Transfer.id t)
                                (DB.recipients d));
  downloads ← query (λ d, merge_sort later_first
    (filter (λ x, Download.transfer_id x = Transfer.id t) (DB.downloads d)));
  mret (mkSenderPanelResponse (Transfer.id t) (Transfer.status t) (Transfer.sender_email t)
    (TransferRecipient.email <$> recipients) (Transfer.message t) (Transfer.created_at t)
    (Transfer.expires_at t)
    (if decide (Transfer.status t = Ready) then Some (Transfer.token t) else None)
    ((λ f, (TransferFile.filename f, TransferFile.size_bytes f, TransferFile.mime_type f)) <$> files)
    downloads).

Definition mark_deleted (cur : datetime) (t : Transfer.t) : Transfer.t :=
  Transfer.set_deleted_at (Some cur)
    (Transfer.set_wrapped_key None (Transfer.set_status Deleted t)).

Definition mark_revoked (cur : datetime) (t : Transfer.t) : Transfer.t :=
  Transfer.set_revoked_at (Some cur) (Transfer.set_status Revoked t).

Definition by_manage_token : option json := Some (JObj [(u "by", JStr (u "manage_token"))]).

Definition sender_delete (manage_token : pystr) (request : Request) : M Response :=
  t ← _load_by_manage_token manage_token;
  if decide (Transfer.status t = Deleted) then mret (mkResponse 204 [] JNull)
  else
    suppress (Storage.delete_transfer (Transfer.id t));;
    cur ← now;
    update_transfer (Transfer.id t) (mark_deleted cur);;
    ts ← now;
    add_audit (λ i, AuditLog.mk i ts (u "sender_delete") (u "info")
      (HttpUtils.client_ip_opt request) None (Some (Transfer.id t)) None by_manage_token);;
    commit;;
    mret (mkResponse 204 [] JNull).

Definition closed_status (s : Status) : bool :=
  match s with Revoked | Deleted | Expired | Infected => true | Uploading | Ready => false end.

Definition sender_revoke (manage_token : pystr) (request : Request) : M Response :=
  t ← _load_by_manage_token manage_token;
  if closed_status (Transfer.status t) then mret (mkResponse 204 [] JNull)
  else
    cur ← now;
    update_transfer (Transfer.id t) (mark_revoked cur);;
    ts ← now;
    add_audit (λ i, AuditLog.mk i ts (u "sender_revoke") (u "info")
      (HttpUtils.client_ip_opt request) None (Some (Transfer.id t)) None by_manage_token);;
    commit;;
    mret (mkResponse 204 [] JNull).

End public.
End Public.

(** ** Footprints *)

Section public_footprints.
Context {X : Services} {C : Config}.

Lemma touches_captcha_gate a b : touches [PTick; PAudit; PDb; PTelegram] (Public.captcha_gate a b).
Proof. unfold Public.captcha_gate. foot. Qed.
#[local] Hint Resolve touches_captcha_gate : foot.
Lemma touches_block_alert a b c d : touches [PTick; PAudit; PDb; PTelegram] (Public.block_alert a b c d).
Proof. unfold Public.block_alert. foot. Qed.
#[local] Hint Resolve touches_block_alert : foot.
Lemma touches_blocklist_gate a b : touches [PTick; PAudit; PDb; PTelegram] (Public.blocklist_gate a b).
Proof. unfold Public.blocklist_gate. foot. Qed.
#[local] Hint Resolve touches_blocklist_gate : foot.
Lemma touches_geoip_gate a : touches [PTick; PAudit; PDb; PTelegram] (Public.geoip_gate a).
Proof. unfold Public.geoip_gate. foot. Qed.
#[local] Hint Resolve touches_geoip_gate : foot.
Lemma touches_policy_gate a b : touches [PTick; PAudit; PDb; PTelegram] (Public.policy_gate a b).
Proof. unfold Public.policy_gate. foot. Qed.
#[local] Hint Resolve touches_policy_gate : foot.
Lemma touches_load_ready_transfer t : touches [PTick] (Public._load_ready_transfer t).
Proof. unfold Public._load_ready_transfer. foot. Qed.
#[local] Hint Resolve touches_load_ready_transfer : foot.
Lemma touches_open_file_key t : touches [] (Public.open_file_key t).
Proof. unfold Public.open_file_key. foot. Qed.
#[local] Hint Resolve touches_open_file_key : foot.
Lemma touches_enqueue_notice a b c d : touches [PTick; PRedis] (Public.enqueue_notice a b c d).
Proof. unfold Public.enqueue_notice. foot. Qed.
#[local] Hint Resolve touches_enqueue_notice : foot.
Lemma touches_record_download a b c d e : touches [PTick; PDownloads] (Public.record_download a b c d e).
Proof. unfold Public.record_download. foot. Qed.
#[local] Hint Resolve touches_record_download : foot.
Lemma touches_load_by_manage_token t : touches [] (Public._load_by_manage_token t).
Proof. unfold Public._load_by_manage_token. foot. Qed.
#[local] Hint Resolve touches_load_by_manage_token : foot.
Lemma touches_download_file a b c : touches [PTick; PDownloads; PRedis; PDb] (Public.download_file a b c).
Proof. unfold Public.download_file. foot. Qed.
#[local] Hint Resolve touches_download_file : foot.
Lemma touches_download_zip a b : touches [PTick; PDownloads; PRedis; PDb; PTelegram] (Public.download_zip a b).
Proof. unfold Public.download_zip. foot. Qed.
#[local] Hint Resolve touches_download_zip : foot.
Lemma touches_stream_decrypted_file a b : touches [PTick] (Public._stream_decrypted_file a b).
Proof. unfold Public._stream_decrypted_file. foot. Qed.
#[local] Hint Resolve touches_stream_decrypted_file : foot.
Lemma touches_tus_head a b : touches [] (Public.tus_head a b).
Proof. unfold Public.tus_head, Public.tus_errors. foot. Qed.
#[local] Hint Resolve touches_tus_head : foot.
Lemma touches_tus_patch a b c d : touches [PTick; PRedis; PFs; PDb] (Public.tus_patch a b c d).
Proof. unfold Public.tus_patch, Public.tus_errors. foot. Qed.
#[local] Hint Resolve touches_tus_patch : foot.
Lemma touches_sender_panel a : touches [] (Public.sender_panel a).
Proof. unfold Public.sender_panel. foot. Qed.
#[local] Hint Resolve touches_sender_panel : foot.

End public_footprints.

#[export] Hint Resolve touches_captcha_gate touches_block_alert touches_blocklist_gate touches_geoip_gate
  touches_policy_gate touches_load_ready_transfer touches_open_file_key touches_enqueue_notice
  touches_record_download touches_load_by_manage_token touches_download_file touches_download_zip
  touches_stream_decrypted_file touches_tus_head touches_tus_patch touches_sender_panel : foot.
