(* ===== verification/Page.v ===== *)
(** The HTML the API writes itself: the download page of [routers/public.py]
    with [html.escape] and [_humansize].  User text cannot add markup to the
    page. *)
From S2P Require Import Prelude Text Format Services Sim Model Scenario Effects RateLimit Http Tus Transfers Public.
#[local] Open Scope Z_scope.

(** * [html.escape] *)
Module Html.

Definition escape_char (c : Z) : pystr :=
  if c =? 38 then u "&amp;"
  else if c =? 60 then u "&lt;"
  else if c =? 62 then u "&gt;"
  else if c =? 34 then u "&quot;"
  else if c =? 39 then u "&#x27;"
  else [c].

(** [html.escape(s)] *)
Definition escape (s : pystr) : pystr := concat (escape_char <$> s).

End Html.

(** * routers/public.py: the download page *)
Module DownloadPage.

(** A text of the source with its double quotes written as backquotes and its
    dashes (U+2014) as tildes. *)
Definition markup_literal (s : string) : pystr :=
  (λ c, if c =? 96 then 34 else if c =? 126 then 8212 else c) <$> u s.

Definition _page_head : pystr := markup_literal "<!doctype html>
<html lang=`en`>
<head>
<meta charset=`utf-8`>
<meta name=`viewport` content=`width=device-width,initial-scale=1`>
<title>Download ~ Fylix</title>
<style>
  body { font-family: -apple-system, BlinkMacSystemFont, `Segoe UI`, Inter, sans-serif;
          max-width: 720px; margin: 48px auto; padding: 24px;
          color: #2D2D3A; background: #F7F8FC; }
  h1 { color: #272666; font-size: 28px; margin: 0 0 24px; }
  .card { background: #fff; border: 1px solid #DDE0EC; border-radius: 10px; padding: 24px;
           box-shadow: 0 1px 3px rgba(39,38,102,0.04), 0 4px 12px rgba(39,38,102,0.06); }
  .meta { color: #5A5E7A; font-size: 14px; margin-bottom: 16px; }
  .msg { background: #EDEEF5; padding: 12px 16px; border-radius: 8px;
          white-space: pre-wrap; margin-bottom: 20px; }
  ul { list-style: none; padding: 0; margin: 0 0 24px; }
  li { padding: 10px 0; border-bottom: 1px solid #E8EBF4; display: flex;
        justify-content: space-between; }
  li:last-child { border-bottom: none; }
  a.btn { display: inline-block; background: #272666; color: #fff; padding: 12px 24px;
           border-radius: 8px; text-decoration: none; font-weight: 600; }
  a.btn:hover { background: #1c1c50; }
  footer { margin-top: 48px; text-align: center; color: #8A8EA8; font-size: 12px; }
</style>
</head>
<body>
  <h1>Fylix</h1>
  <div class=`card`>
    <div class=`meta`>Expires: ".

Definition _page_message : pystr := markup_literal "</div>
    ".

Definition _page_files : pystr := markup_literal "
    <ul>".

Definition _page_link : pystr := markup_literal "</ul>
    <a class=`btn` href=`/t/".

Definition _page_tail : pystr := markup_literal "/zip` rel=`nofollow noreferrer`>Download all as ZIP</a>
  </div>
  <footer>Fylix ~ secure file transfer</footer>
</body>
</html>
".

(** [_DOWNLOAD_PAGE_TMPL.format(...)] *)
Definition _DOWNLOAD_PAGE_TMPL (expires_at message_block files_html token : pystr) : pystr :=
  _page_head ++ expires_at ++ _page_message ++ message_block ++ _page_files ++ files_html
  ++ _page_link ++ token ++ _page_tail.

Definition PAGE_CSP : pystr :=
  u "default-src 'none'; style-src 'unsafe-inline'; img-src 'self' data:".

Definition _humansize (n : Z) : pystr :=
  if n <? 1024 then str_int n ++ u " B"
  else if n <? 1024 ^ 2 then fixed1 n 1024 ++ u " KB"
  else if n <? 1024 ^ 3 then fixed1 n (1024 ^ 2) ++ u " MB"
  else if n <? 1024 ^ 4 then fixed1 n (1024 ^ 3) ++ u " GB"
  else fixed1 n (1024 ^ 4) ++ u " TB".

Section page.
Context {X : Services}.

Definition file_item (f : TransferFile.t) : pystr :=
  u "<li><span>" ++ Html.escape (TransferFile.filename f) ++ u "</span><span>"
  ++ _humansize (TransferFile.size_bytes f) ++ u "</span></li>".

Definition message_block (m : option pystr) : pystr :=
  match m with
  | Some ((_ :: _) as s) => markup_literal "<div class=`msg`>" ++ Html.escape s ++ u "</div>"
  | _ => []
  end.

Definition page_html (t : Transfer.t) (files : list TransferFile.t) (token : pystr) : pystr :=
  _DOWNLOAD_PAGE_TMPL (Calendar.strftime_minute (Transfer.expires_at t))
    (message_block (Transfer.message t)) (concat (file_item <$> files)) (Html.escape token).

Definition download_page (token : pystr) : M Response :=
  '(t, files) ← Public._load_ready_transfer token;
  mret (mkResponse 200 (Public.SECURITY_HEADERS ++ [(u "Content-Security-Policy", PAGE_CSP)])
          (JStr (page_html t files token))).

(** [GET /api/public-config] *)
Definition public_config `{Config} : json :=
  JObj [(u "hcaptcha_site_key", JStr hcaptcha_site_key);
        (u "hcaptcha_required", JBool (nonempty hcaptcha_secret))].

End page.
End DownloadPage.


(** * User text adds no markup *)

Section escape_facts.
Import Html.

(** The characters HTML gives a meaning to: angle brackets, quotes, ampersand. *)
Definition is_tag (c : Z) : Prop := c = 60 ∨ c = 62 ∨ c = 34 ∨ c = 39.
#[global] Instance is_tag_dec c : Decision (is_tag c).
Proof. unfold is_tag. apply _. Defined.

(** The markup of a text: all a tokenizer reacts to, in order. *)
Definition tags (s : pystr) : pystr := filter is_tag s.
Definition plain (s : pystr) : Prop := Forall (λ c, ¬ is_tag c) s.

Lemma tags_app s t : tags (s ++ t) = tags s ++ tags t.
Proof. apply filter_app. Qed.

Lemma tags_plain s : plain s → tags s = [].
Proof. apply filter_none. Qed.

Lemma plain_app s t : plain s → plain t → plain (s ++ t).
Proof. intros. by apply Forall_app. Qed.

Lemma escape_plain s : plain (escape s).
Proof.
  unfold escape. induction s as [|c s IH]; [constructor|]. cbn [fmap list_fmap concat].
  apply plain_app; [|exact IH]. unfold escape_char.
  repeat (case_match; [apply (bool_decide_unpack _); vm_compute; exact I|]).
  zbool. apply Forall_singleton. unfold is_tag. lia.
Qed.

(** What a browser reads back: the five entities [escape] writes. *)
Definition entity (s : pystr) : option (Z * nat) :=
  if startswith s (u "&amp;") then Some (38, 5%nat)
  else if startswith s (u "&lt;") then Some (60, 4%nat)
  else if startswith s (u "&gt;") then Some (62, 4%nat)
  else if startswith s (u "&quot;") then Some (34, 6%nat)
  else if startswith s (u "&#x27;") then Some (39, 6%nat)
  else None.

Fixpoint unescape (skip : nat) (s : pystr) : pystr :=
  match s with
  | [] => []
  | c :: s' =>
      match skip with
      | S k => unescape k s'
      | O => match entity s with
             | Some (x, n) => x :: unescape (n - 1) s'
             | None => c :: unescape 0 s'
             end
      end
  end.

Lemma entity_other c s : c ≠ 38 → entity (c :: s) = None.
Proof.
  intros H. assert (Hs : ∀ p, startswith (c :: s) (u (String (Ascii.ascii_of_nat 38) p)) = false).
  { intros p. change (u (String (Ascii.ascii_of_nat 38) p)) with (38 :: u p). cbn [startswith]. by rewrite (proj2 (Z.eqb_neq 38 c)). }
  unfold entity. by rewrite !Hs.
Qed.

Lemma unescape_escape_char c s :
  unescape 0 (escape_char c ++ s) = c :: unescape 0 s.
Proof.
  unfold escape_char. repeat (case_match; zbool; [subst; by destruct s|]).
  cbn [app unescape]. by rewrite entity_other.
Qed.

Lemma unescape_escape s : unescape 0 (escape s) = s.
Proof.
  unfold escape. induction s as [|c s IH]; [done|]. cbn [fmap list_fmap concat].
  by rewrite unescape_escape_char, IH.
Qed.

(** Numbers are printed with digits and a sign. *)
Lemma u_plain s : forallb (λ c, negb (bool_decide (is_tag c))) (u s) = true → plain (u s).
Proof.
  intros H. apply Forall_forall. intros c Hc%list_elem_of_In. rewrite forallb_forall in H.
  specialize (H c Hc). apply negb_true_iff in H. by apply bool_decide_eq_false_1 in H.
Qed.

Lemma u_String a s : u (String a s) = Z.of_N (Ascii.N_of_ascii a) :: u s.
Proof. done. Qed.

Lemma pretty_digit_plain x : ¬ is_tag (Z.of_N (Ascii.N_of_ascii (pretty_N_char (x `mod` 10)))).
Proof.
  pose proof (N.mod_lt x 10 ltac:(done)) as H. generalize dependent (x `mod` 10)%N.
  intros n Hn. assert (Hd : n ∈ N.of_nat <$> seq 0 10).
  { apply list_elem_of_fmap. exists (N.to_nat n). rewrite N2Nat.id. split; [done|].
    apply elem_of_seq. lia. }
  clear Hn. revert n Hd. apply Forall_forall. repeat constructor; intros [|[|[|]]]; discriminate.
Qed.

Lemma pretty_go_plain x s : plain (u s) → plain (u (pretty_N_go x s)).
Proof.
  revert s. induction (N.lt_wf_0 x) as [x _ IH]. intros s Hs.
  destruct (decide (0 < x)%N) as [Hx|Hx].
  - rewrite pretty_N_go_step by done. apply IH; [by apply N.div_lt|].
    rewrite u_String. constructor; [apply pretty_digit_plain|done].
  - assert (x = 0%N) as -> by lia. by rewrite pretty_N_go_0.
Qed.

Lemma pretty_N_plain n : plain (u (pretty_N n)).
Proof. unfold pretty_N. case_decide; [by apply u_plain|]. apply pretty_go_plain. constructor. Qed.

Lemma str_int_plain n : plain (str_int n).
Proof.
  unfold str_int. destruct n as [|p|p]; [by apply u_plain|apply pretty_N_plain|].
  constructor; [intros [|[|[|]]]; discriminate|apply pretty_N_plain].
Qed.

End escape_facts.

#[export] Hint Resolve escape_plain str_int_plain plain_app : plain.

Section page_facts.
Context {X : Services}.
Import DownloadPage.

Lemma fixed1_plain n d : plain (fixed1 n d).
Proof. unfold fixed1. repeat apply plain_app; solve [by apply u_plain|apply str_int_plain]. Qed.

Lemma humansize_plain n : plain (_humansize n).
Proof.
  unfold _humansize. repeat case_match; apply plain_app;
    solve [by apply u_plain|apply str_int_plain|apply fixed1_plain].
Qed.

Lemma pad2_plain n : plain (Calendar.pad2 n).
Proof. unfold Calendar.pad2. apply plain_app; [|apply str_int_plain]. case_match; [by apply u_plain|constructor]. Qed.

Lemma strftime_plain t : plain (Calendar.strftime_minute t).
Proof.
  unfold Calendar.strftime_minute. destruct (Calendar.civil _) as [[y m] d].
  repeat first [apply pad2_plain | apply str_int_plain | apply plain_app]; by apply u_plain.
Qed.

(** The markup of the page: the template's own, and one list item per file. *)
Definition item_tags : pystr := tags (u "<li><span></span><span></span></li>").
Definition page_tags (files : nat) (has_message : bool) : pystr :=
  tags _page_head ++ tags _page_message
  ++ (if has_message then tags (markup_literal "<div class=`msg`></div>") else [])
  ++ tags _page_files ++ concat (replicate files item_tags) ++ tags _page_link ++ tags _page_tail.

Lemma file_item_tags f : tags (file_item f) = item_tags.
Proof.
  unfold file_item. rewrite !tags_app.
  rewrite (tags_plain (Html.escape _)), (tags_plain (_humansize _));
    auto using escape_plain, humansize_plain.
Qed.

Lemma message_tags m :
  tags (message_block m) = if truthy m then tags (markup_literal "<div class=`msg`></div>") else [].
Proof.
  destruct m as [[|c s]|]; try done. cbn [message_block truthy]. rewrite !tags_app.
  rewrite (tags_plain (Html.escape _)) by apply escape_plain. reflexivity.
Qed.

Lemma page_html_tags t files token :
  tags (page_html t files token) = page_tags (length files) (truthy (Transfer.message t)).
Proof.
  unfold page_html, _DOWNLOAD_PAGE_TMPL, page_tags. rewrite !tags_app, message_tags.
  rewrite (tags_plain (Calendar.strftime_minute _)), (tags_plain (Html.escape token))
    by auto using strftime_plain, escape_plain.
  cbn [app]. do 4 f_equal.
  f_equal. induction files as [|f files IH]; [done|]. cbn [fmap list_fmap concat length replicate].
  by rewrite tags_app, file_item_tags, IH.
Qed.

(** The transfer a download token opens: ready, not expired, its key present. *)
Definition open_transfer (d : DB.t) (cur : datetime) (token : pystr) (t : Transfer.t) : Prop :=
  (∃ i, DB.transfers d !! i = Some t) ∧ Transfer.token t = token ∧ Transfer.status t = Ready ∧
  cur < Transfer.expires_at t ∧ is_Some (Transfer.wrapped_key t).

Lemma wp_load_ready token w (Q : res (Transfer.t * list TransferFile.t) → World → Prop) :
  (∀ c d w', agree [PTick] w w' → (c = 404 ∨ c = 410) → Q (Err (HTTPException c d)) w') →
  (∀ t, open_transfer (World.sess w) (clock (World.tick w)) token t →
     Q (Ok (t, Tus.files_of (Transfer.id t) (World.sess w))) (next_tick w)) →
  wp (Public._load_ready_transfer token) w Q.
Proof.
  intros HE HQ. unfold Public._load_ready_transfer, TransferService.get_by_download_token.
  assert (Ht : agree [PTick] w (next_tick w)).
  { intros q Hq. destruct q; try done. exfalso. apply Hq. part_in. }
  do 2 wp_step. destruct (TransferService.find_transfer _ _) as [t|] eqn:E.
  2:{ wp_step. apply HE; [done|by left]. }
  apply head_rows in E as [Hp Hi]. apply bool_decide_eq_true_1 in Hp.
  case_bool_decide as Hs; cbn [negb]; [|wp_step; apply HE; [done|by left]].
  do 2 wp_step. destruct (_ <=? _) eqn:Ee; [wp_step; apply HE; [done|by right]|]. zbool.
  destruct (Transfer.wrapped_key t) as [k|] eqn:Ek; [|wp_step; apply HE; [done|by left]].
  do 3 wp_step. apply HQ. split_and!; [done..|lia|]. rewrite Ek. by eexists.
Qed.

(** C29: the download page.  A page is served only for a transfer that is ready,
    not expired and holds its key; otherwise the answer is 404 or 410, and
    nothing changes either way.  The page is sent with a policy that forbids
    scripts, and its markup is fixed: the angle brackets and quotes of the
    document are the template's, with one list item per file, whatever the file
    names, the message and the token are; what the browser reads back from an
    escaped text is the text itself. *)
Theorem download_page_spec token w r w' :
  download_page token w = (r, w') →
  agree [PTick] w w' ∧
  match r with
  | Ok resp => ∃ t html,
      let files := Tus.files_of (Transfer.id t) (World.sess w) in
      open_transfer (World.sess w) (clock (World.tick w)) token t ∧
      resp = mkResponse 200
        (Public.SECURITY_HEADERS ++ [(u "Content-Security-Policy", PAGE_CSP)]) (JStr html) ∧
      tags html = page_tags (length files) (truthy (Transfer.message t)) ∧
      html = _DOWNLOAD_PAGE_TMPL (Calendar.strftime_minute (Transfer.expires_at t))
        (message_block (Transfer.message t)) (concat (file_item <$> files)) (Html.escape token) ∧
      (∀ s, unescape 0 (Html.escape s) = s)
  | Err e => ∃ c d, e = HTTPException c d ∧ (c = 404 ∨ c = 410)
  end.
Proof.
  intros E. revert r w' E. apply wp_of_run. unfold download_page. wp_step. apply wp_load_ready.
  - intros c d w' Ha Hc. split; [done|]. eauto.
  - intros t Ht. wp_step. split.
    { intros q Hq. destruct q; try done. exfalso. apply Hq. part_in. }
    eexists t, _. split; [done|]. split; [done|]. split; [apply page_html_tags|].
    split; [done|]. apply unescape_escape.
Qed.

End page_facts.

Section page_witness.
#[local] Instance demo_services : Services := Sim.calm.

(** A hostile file name. *)
Definition hostile_file : TransferFile.t :=
  TransferFile.mk 2 1 (u "<img src=x onerror=alert(1)>") (u "img") (u "text/plain") None 2048
    (u "k") [] [].
Definition page_world : World :=
  Demo.world (Demo.db_transfers [Demo.transfer 1 Ready (Some []) (Demo.now + second)] [hostile_file]).

Lemma download_page_spec_witness :
  ∃ t html w', DownloadPage.download_page (u "download") page_world =
      (Ok (mkResponse 200 (Public.SECURITY_HEADERS
             ++ [(u "Content-Security-Policy", DownloadPage.PAGE_CSP)]) (JStr html)), w') ∧
    tags html = page_tags (length (Tus.files_of (Transfer.id t) (World.sess page_world)))
                  (truthy (Transfer.message t)).
Proof.
  destruct (DownloadPage.download_page (u "download") page_world) as [r w'] eqn:E.
  assert (H : is_ok (DownloadPage.download_page (u "download") page_world).1 = true)
    by (vm_compute; reflexivity).
  rewrite E in H. destruct r as [resp|e]; [|discriminate H].
  destruct (download_page_spec _ _ _ _ E) as (_ & t & html & _ & -> & Ht & _).
  exists t, html, w'. split; [reflexivity|exact Ht].
Defined.

End page_witness.
