(* ===== verification/Worker.v ===== *)
(** The background worker: queues and dead letters ([worker/queues.py],
    [worker/dlq.py]), the encrypt, e-mail, cleanup and Defender tasks
    ([worker/tasks]) and the dispatch of [worker/main.py]. *)
From S2P Require Import Prelude Text Services Sim Model Scenario Effects Storage Support.
From S2P Require Import Mail Envelope Stream Tus Transfers Public.

(** * worker/queues.py and app/context.py *)
Module Queues.
Section queues.
Context {X : Services}.

Definition UPLOAD_READY : pystr := u "upload:ready".
Definition EMAIL_QUEUE : pystr := u "email:queue".
Definition REQUEST_ID_KEY : pystr := u "request_id".

Definition current_request_id : M (option pystr) := gets World.request_id.

(** The payload with the request id of the context, unless it has one. *)
Definition tagged (payload : list (pystr * json)) (rid : option pystr) : list (pystr * json) :=
  match assoc REQUEST_ID_KEY payload, rid with
  | None, Some r => payload ++ [(REQUEST_ID_KEY, JStr r)]
  | _, _ => payload
  end.

Definition push_job (queue : pystr) (payload : list (pystr * json)) : M unit :=
  rid ← current_request_id;
  redis_lpush queue (JObj (tagged payload rid)).

Definition pop_job (queue : pystr) : M (option json) := redis_brpop queue.

End queues.
End Queues.

(** * worker/dlq.py *)
Module Dlq.
Section dlq.
Context {X : Services}.

Definition _dlq_name (queue_name : pystr) : pystr := queue_name ++ u ":dlq".

Definition dlq_record (queue_name : pystr) (job : json) (e : exn) (text : pystr) (t : datetime)
  : json :=
  JObj [(u "original_queue", JStr queue_name); (u "payload", job);
        (u "error", JStr (exn_name e ++ u ": " ++ text)); (u "failed_at", JStr (isoformat t))].

(** The request id a payload carries, if it is a non-empty string. *)
Definition job_request_id (job : json) : option pystr :=
  match jget (u "request_id") job with
  | Some (JStr ((_ :: _) as r)) => Some r
  | _ => None
  end.

(** [run_consumer_iteration] for a job that is a JSON object: the context
    variable is bound around the handler and reset to what it was; a failing
    job goes to the dead-letter list; a failure of that push is swallowed. *)
Definition run_consumer_iteration (queue_name : pystr) (job : json) (handler : json → M unit)
  : M unit :=
  match job with
  | JObj _ =>
      old ← gets World.request_id;
      let body :=
        try_except (handler job)
          (λ e, suppress
             (text ← exception_text e;
              t ← now;
              redis_lpush (_dlq_name queue_name) (dlq_record queue_name job e text t))) in
      match job_request_id job with
      | Some rid =>
          modify (World.set_request_id (Some rid));;
          try_finally body (modify (World.set_request_id old))
      | None => body
      end
  | _ => raise AttributeError
  end.

End dlq.
End Dlq.

(** * worker/tasks/encrypt.py *)
Module Encrypt.
Section encrypt.
Context {X : Services} {C : Config}.

Definition _LOCK_TTL_SECONDS : Z := 600.

Definition _encrypt_lock_key (transfer_id : uuid) : pystr :=
  u "transfer:" ++ uuid_str transfer_id ++ u ":encrypting".

Definition set_crypto (iv digest : bytes) (mime : pystr) (f : TransferFile.t) : TransferFile.t :=
  TransferFile.set_mime_type mime (TransferFile.set_sha256_cipher digest (TransferFile.set_iv iv f)).

(** One file: checks, MIME sniffing, encryption into the bucket, row update. *)
Definition encrypt_one (transfer_id : uuid) (file_key : bytes) (tf : TransferFile.t) : M unit :=
  plaintext_path ← lift (Tus.file_path_of transfer_id tf);
  present ← Staging.exists_ plaintext_path;
  if negb present then raise EncryptError
  else
    actual_size ← Staging.size_or_zero plaintext_path;
    if negb (actual_size =? TransferFile.size_bytes tf) then raise EncryptError
    else
      content ← Staging.read_bytes plaintext_path;
      let sniffed := magic_mime (take 2048 content) in
      let mime := if nonempty sniffed then sniffed else u "application/octet-stream" in
      iv ← token_bytes 12;
      match Stream.encrypt_stream file_key iv content Stream._DEFAULT_CHUNK with
      | None => raise RuntimeError
      | Some (Err e) => raise e
      | Some (Ok (ct_buf, digest)) =>
          Storage.put_file (TransferFile.object_key tf) ct_buf (zlen ct_buf);;
          update_file (TransferFile.id tf) (set_crypto iv digest mime)
      end.

Definition mark_ready (wrapped : bytes) (t : Transfer.t) : Transfer.t :=
  Transfer.set_status Ready (Transfer.set_wrapped_key (Some wrapped) t).

Definition mark_infected (cur : datetime) (t : Transfer.t) : Transfer.t :=
  Transfer.set_infected_at (Some cur) (Transfer.set_status Infected t).

(** [settings.public_url.rstrip("/")] and the download link. *)
Definition download_url (t : Transfer.t) : pystr :=
  rstrip_by (Z.eqb 47) public_url ++ u "/t/" ++ Transfer.token t.

Definition recipient_job (t : Transfer.t) (file_count : Z) (r : TransferRecipient.t) : json :=
  let mail := Mail.render_recipient Mail.RU (Transfer.sender_email t) (Transfer.message t)
                (download_url t)
                file_count (Transfer.total_size t) (Transfer.expires_at t) in
  JObj [(u "to", JStr (TransferRecipient.email r)); (u "subject", JStr (subject mail));
        (u "html", JStr (html mail)); (u "text", JStr (text mail));
        (u "recipient_id", JStr (uuid_str (TransferRecipient.id r)))].

Definition confirm_job (t : Transfer.t) (file_count : Z) (rs : list TransferRecipient.t) : json :=
  Public.notice_job (Transfer.sender_email t)
    (Mail.render_sender_confirm Mail.RU (download_url t) (TransferRecipient.email <$> rs) file_count
       (Transfer.expires_at t)).

Definition recipients_of (transfer_id : uuid) (d : DB.t) : list TransferRecipient.t :=
  rows (λ r, TransferRecipient.transfer_id r =? transfer_id) (DB.recipients d).

(** One pipeline pushes every e-mail job; any failure is logged and dropped. *)
Definition _enqueue_transfer_emails (t : Transfer.t) (transfer_id : uuid)
    (files : list TransferFile.t) : M unit :=
  suppress
    (recipients ← query (recipients_of transfer_id);
     let jobs := (recipient_job t (zlen files) <$> recipients)
                 ++ [confirm_job t (zlen files) recipients] in
     with_redis (λ s n,
       match list_of (r_view s n Queues.EMAIL_QUEUE) with
       | Some _ => (Ok tt, foldl (λ s j, r_lpush s n Queues.EMAIL_QUEUE j) s jobs)
       | None => (Err ServiceError, s)
       end)).

Definition upload_complete_details (files : list TransferFile.t) (t : datetime) : option json :=
  Some (JObj [(u "file_count", JInt (zlen files));
              (u "total_size", JInt (foldr Z.add 0 (TransferFile.size_bytes <$> files)));
              (u "completed_at", JStr (isoformat t))]).

(** The [try] block: encrypt every file, wrap the key, mark the transfer ready. *)
Definition encrypt_all (master_key : bytes) (transfer : Transfer.t) (files : list TransferFile.t)
  : M unit :=
  let transfer_id := Transfer.id transfer in
  file_key ← token_bytes 32;
  for_ files (encrypt_one transfer_id file_key);;
  wrapped ← lift (Envelope.wrap_key master_key file_key);
  update_transfer transfer_id (mark_ready wrapped);;
  t ← now;
  add_audit (λ i, AuditLog.mk i t (u "upload_complete") (u "info") None None (Some transfer_id) None
                    (upload_complete_details files t));;
  commit;;
  _enqueue_transfer_emails transfer transfer_id files.

(** The [except] block: the failure is recorded in a fresh transaction and the
    partial objects are removed. *)
Definition encrypt_failed (transfer_id : uuid) (e : exn) : M unit :=
  rollback;;
  transfer ← get_transfer transfer_id;
  match transfer with
  | Some _ =>
      text ← exception_text e;
      t ← now;
      update_transfer transfer_id (mark_infected t);;
      add_audit (λ i, AuditLog.mk i t (u "upload_failed") (u "error") None None (Some transfer_id)
                        None (Some (JObj [(u "error", JStr text)])));;
      commit
  | None => mret tt
  end;;
  suppress (Storage.delete_transfer transfer_id).

Definition encrypt_locked (master_key : bytes) (transfer_id : uuid) : M unit :=
  transfer ← get_transfer transfer_id;
  match transfer with
  | None => mret tt
  | Some transfer =>
      if negb (bool_decide (Transfer.status transfer = Uploading)) then mret tt
      else
        files ← query (Tus.files_of transfer_id);
        try_finally
          (try_except (encrypt_all master_key transfer files) (encrypt_failed transfer_id))
          (Staging.secure_delete transfer_id)
  end.

Definition process_encrypt_job (master_key : bytes) (transfer_id : uuid) : M unit :=
  let lock_key := _encrypt_lock_key transfer_id in
  acquired ← redis_set_nx lock_key (JStr (u "1")) _LOCK_TTL_SECONDS;
  if negb acquired then mret tt
  else try_finally (encrypt_locked master_key transfer_id)
                   (suppress (redis_delete [lock_key])).

End encrypt.
End Encrypt.

(** * worker/tasks/cleanup.py *)
Module Cleanup.
Section cleanup.
Context {X : Services}.

Definition expired_ready (cur : datetime) (t : Transfer.t) : bool :=
  bool_decide (Transfer.status t = Ready) && (Transfer.expires_at t <? cur).

Definition mark_expired (cur : datetime) (t : Transfer.t) : Transfer.t :=
  Transfer.set_deleted_at (Some cur) (Transfer.set_status Expired (Transfer.set_wrapped_key None t)).

Definition expire_one (cur : datetime) (t : Transfer.t) : M unit :=
  suppress (Storage.delete_transfer (Transfer.id t));;
  update_transfer (Transfer.id t) (mark_expired cur);;
  add_audit (λ i, AuditLog.mk i cur (u "expired") (u "info") None None (Some (Transfer.id t)) None
                    (Some (JObj [(u "reason", JStr (u "ttl"))])));;
  Staging.secure_delete (Transfer.id t).

Definition run_cleanup_once : M Z :=
  cur ← now;
  rs ← query (λ d, rows (expired_ready cur) (DB.transfers d));
  for_ rs (expire_one cur);;
  (if zlen rs >? 0 then commit else mret tt);;
  mret (zlen rs).

End cleanup.
End Cleanup.

(** * worker/tasks/defender_poll.py *)
Module Defender.
Section defender.
Context {X : Services} {C : Config}.

Definition min_age_seconds : Z := 10.

Definition candidate (cutoff : datetime) (t : Transfer.t) : bool :=
  bool_decide (Transfer.status t = Uploading) && (Transfer.created_at t <? cutoff).

(** The names of the files whose staged copy is gone although the transfer's
    directory exists. *)
Fixpoint missing_files (transfer_id : uuid) (fs : list TransferFile.t) : M (list pystr) :=
  match fs with
  | [] => mret []
  | f :: fs' =>
      path ← lift (Tus.file_path_of transfer_id f);
      dir ← Staging.transfer_dir_exists transfer_id;
      if negb dir then missing_files transfer_id fs'
      else
        present ← Staging.exists_ path;
        rest ← missing_files transfer_id fs';
        mret (if present : bool then rest else TransferFile.safe_filename f :: rest)
  end.

(** One candidate: flagged when something is missing. *)
Definition inspect (cur : datetime) (flipped : Z) (t : Transfer.t) : M Z :=
  files ← query (Tus.files_of (Transfer.id t));
  missing ← missing_files (Transfer.id t) files;
  if negb (nonempty missing) then mret flipped
  else
    update_transfer (Transfer.id t) (Encrypt.mark_infected cur);;
    add_audit (λ i, AuditLog.mk i cur (u "defender_quarantine") (u "critical")
      (Some (Transfer.sender_ip t)) None (Some (Transfer.id t)) None
      (Some (JObj [(u "missing_files", JArr (JStr <$> missing))])));;
    mret (flipped + 1).

Definition alert_infected (t : Transfer.t) : M unit :=
  cur ← get_transfer (Transfer.id t);
  match cur with
  | Some t' =>
      if bool_decide (Transfer.status t' = Infected) then
        Alerts.alert (u "defender_quarantine_alert") (u "critical")
          (u "Transfer " ++ uuid_str (Transfer.id t) ++ u " quarantined by Defender")
          (Some (Transfer.sender_ip t)) (Some (Transfer.id t))
          (Some (JObj [(u "sender", JStr (Transfer.sender_email t))]))
      else mret tt
  | None => mret tt
  end.

Definition run_defender_poll_once : M Z :=
  cur ← now;
  let cutoff := cur - min_age_seconds * second in
  candidates ← query (λ d, rows (candidate cutoff) (DB.transfers d));
  flipped ← fold_m (inspect cur) 0 candidates;
  if flipped =? 0 then mret 0
  else
    commit;;
    for_ candidates alert_infected;;
    mret flipped.

End defender.
End Defender.

(** * worker/tasks/email_send.py and SmtpSender *)
Module Email.
Section email.
Context {X : Services}.

(** Whether [job.get(k)] is truthy. *)
Definition given (k : string) (job : json) : bool :=
  match jget (u k) job with Some v => jtruthy v | None => false end.

(** A truthy field that is a string. *)
Definition field (k : string) (job : json) : option pystr :=
  match jget (u k) job with
  | Some (JStr ((_ :: _) as s)) => Some s
  | _ => None
  end.

(** A header value: a line break is accepted only at its very end, as
    [len(value.splitlines()) > 1] of [email.policy] decides. *)
Fixpoint one_line (s : pystr) : bool :=
  match s with
  | [] => true
  | 13 :: 10 :: s' => negb (nonempty s')
  | c :: s' =>
      if bool_decide (c ∈ [10; 11; 12; 13; 28; 29; 30; 133; 8232; 8233]) then negb (nonempty s')
      else one_line s'
  end.

(** [msg["To"]] and [msg["Subject"]] raise on a second line; then the message
    is handed to [aiosmtplib]. *)
Definition smtp_send (to : pystr) (m : RenderedEmail) : M unit :=
  if negb (one_line to && one_line (subject m)) then raise ValueError
  else call;; modify (λ w, World.set_smtp (World.smtp w ++ [(to, m)]) w).

Definition mark_sent (cur : datetime) (r : TransferRecipient.t) : TransferRecipient.t :=
  TransferRecipient.set_email_sent_at (Some cur) (TransferRecipient.set_email_status (Some (u "sent")) r).

Definition mark_failed (r : TransferRecipient.t) : TransferRecipient.t :=
  TransferRecipient.set_email_status (Some (u "failed")) r.

Definition update_status (recipient_id : pystr) (sent : bool) : M unit :=
  suppress
    (i ← lift (uuid_parse recipient_id);
     r ← get_recipient i;
     match r with
     | None => mret tt
     | Some _ =>
         (if sent then cur ← now; update_recipient i (mark_sent cur)
          else update_recipient i mark_failed);;
         commit
     end).

(** A part of the message: the library refuses what is not a string. *)
Definition text_of (k : string) (job : json) : M pystr :=
  match field k job with Some s => mret s | None => raise TypeError end.

Definition send_job (job : json) : M unit :=
  to ← text_of "to" job;
  subj ← text_of "subject" job;
  t ← text_of "text" job;
  h ← text_of "html" job;
  smtp_send to (mkRenderedEmail subj h t).

(** A [recipient_id] that is not a string fails inside its own [try]. *)
Definition process_email_job (job : json) : M unit :=
  if negb (given "to" job && given "subject" job && given "html" job && given "text" job) then mret tt
  else
    sent ← try_except (send_job job;; mret true) (λ _, mret false);
    match field "recipient_id" job with
    | Some rid => update_status rid sent
    | None => mret tt
    end.

End email.
End Email.

(** * worker/main.py *)
Module WorkerMain.
Section main.
Context {X : Services} {C : Config}.
Context (master_key : bytes).

Definition _handle_upload (job : json) : M unit :=
  match jget (u "transfer_id") job with
  | Some (JStr s) =>
      match uuid_parse s with
      | Ok transfer_id => with_session (Encrypt.process_encrypt_job master_key transfer_id)
      | Err _ => raise ValueError
      end
  | Some _ => raise AttributeError
  | None => raise ValueError
  end.

Definition _handle_email (job : json) : M unit := with_session (Email.process_email_job job).

(** One turn of a consumer loop. *)
Definition consumer_turn (queue : pystr) (handler : json → M unit) : M unit :=
  job ← Queues.pop_job queue;
  match job with
  | None => mret tt
  | Some job => Dlq.run_consumer_iteration queue job handler
  end.

Definition upload_consumer_turn : M unit := consumer_turn Queues.UPLOAD_READY _handle_upload.
Definition email_consumer_turn : M unit := consumer_turn Queues.EMAIL_QUEUE _handle_email.

(** The heartbeat is written only after a successful cleanup. *)
Definition _cleanup_tick : M unit :=
  ok ← try_except (with_session Cleanup.run_cleanup_once;; mret true) (λ _, mret false);
  if negb ok then mret tt
  else
    suppress (t ← now; redis_set (u "metrics:cleanup_last_run_ts") (JInt (t / second)) None).

Definition _defender_tick : M unit :=
  suppress (with_session Defender.run_defender_poll_once;; mret tt).

End main.
End WorkerMain.

(** * The cleanup tick *)

Section cleanup_facts.
Context {X : Services}.
Import Cleanup.

Definition expired_audit (cur : datetime) (t : Transfer.t) (i : Z) : AuditLog.t :=
  AuditLog.mk i cur (u "expired") (u "info") None None (Some (Transfer.id t)) None
    (Some (JObj [(u "reason", JStr (u "ttl"))])).

(** What the loop has done after the transfers [pre]. *)
Record expired_so_far (cur : datetime) (w0 : World) (pre : list Transfer.t) (w : World) : Prop := {
  sofar_agree : agree [PTick; PBucket; PFs; PTransfers; PAudit] w0 w;
  sofar_transfers : DB.transfers (World.sess w)
    = alter_all Transfer.id (mark_expired cur) pre (DB.transfers (World.sess w0));
  sofar_audit : ∃ new, DB.audit_log (World.sess w) = DB.audit_log (World.sess w0) ++ new ∧
    Forall2 (λ t r, r = expired_audit cur t (AuditLog.id r)) pre new;
  sofar_shreds : shreds (Transfer.id <$> pre) w0 w;
  sofar_emptied : Forall (λ t, emptied (Transfer.id t) w) pre;
  sofar_disk : ¬ disk_fails →
    FS.dirs (World.fs w) = FS.dirs (World.fs w0) ∖ list_to_set (Transfer.id <$> pre)
}.

Lemma expire_one_sofar cur w0 pre t w :
  expired_so_far cur w0 pre w →
  wp (expire_one cur t) w (λ r w',
    match r with
    | Ok _ => expired_so_far cur w0 (pre ++ [t]) w'
    | Err e => e = ServiceError ∧ disk_fails ∧ shreds (Transfer.id <$> pre ++ [t]) w0 w' ∧
               agree [PTick; PBucket; PFs; PTransfers; PAudit] w0 w'
    end).
Proof.
  intros [Ha Ht (new & Hn & Hf) Hs He Hd]. unfold expire_one. do 2 wp_step.
  eapply wp_mono; [apply (touches_wp [PTick; PBucket]); foot|]. intros r1 w1 H1.
  pose proof (H1 PTransfers ltac:(part_notin)) as E1. pose proof (H1 PAudit ltac:(part_notin)) as E2.
  pose proof (H1 PFs ltac:(part_notin)) as E3. simpl in E1, E2, E3.
  wp_step. unfold update_transfer. do 3 wp_step.
  set (w2 := World.set_sess _ _). eapply wp_mono; [apply wp_secure_delete|]. intros r w3 Hsh.
  pose proof (sh_agree _ _ _ _ Hsh) as Ha3. pose proof (shredding_shreds _ _ _ _ Hsh) as S3.
  assert (S2 : shreds [] w w2) by by apply shreds_same.
  assert (Hfin : agree [PTick; PBucket; PFs; PTransfers; PAudit] w0 w3).
  { etrans; [exact Ha|]. intros p Hp. transitivity w1.
    { apply H1. intros Hin. apply Hp. rewrite !elem_of_cons in *. naive_solver. }
    transitivity w2; [|apply Ha3; intros Hin; apply Hp; rewrite !elem_of_cons in *; naive_solver].
    destruct p; try done; exfalso; apply Hp; part_in. }
  assert (Hwhole : shreds (Transfer.id <$> pre ++ [t]) w0 w3).
  { rewrite fmap_app. eapply shreds_trans; [exact Hs| |set_solver|].
    - eapply (shreds_trans [] [Transfer.id t] [Transfer.id t]); [exact S2|exact S3|set_solver..].
    - set_solver. }
  destruct (sh_result _ _ _ _ Hsh) as [[-> Hem]|[-> Hdf]]; [|done]. split; try done.
  - rewrite (Ha3 PTransfers ltac:(part_notin) : DB.transfers _ = _). simpl.
    by rewrite alter_all_snoc, E1, Ht.
  - rewrite (Ha3 PAudit ltac:(part_notin) : DB.audit_log _ = _). simpl. rewrite E2, Hn.
    eexists. rewrite <- app_assoc. split; [done|].
    apply Forall2_app; [done|]. by constructor.
  - apply Forall_app. split; [|by constructor]. eapply Forall_impl; [exact He|]. intros t' H'.
    exact (emptied_shreds _ _ _ _ (emptied_shreds _ _ _ _ H' S2) S3).
  - intros Hno. pose proof (sh_disk _ _ _ _ Hsh Hno) as Hi. destruct S3 as [D K _ _].
    change (World.fs w2) with (World.fs w1) in D, K. rewrite E3 in D, K.
    rewrite fmap_app, list_to_set_app_L, (Hd Hno) in *. simpl in *. set_solver.
Qed.

(** The whole run: the transfers whose time has come, and nothing else. *)
Lemma wp_run_cleanup w (Q : res Z → World → Prop) :
  let cur := clock (World.tick w) in
  let expired := rows (expired_ready cur) (DB.transfers (World.sess w)) in
  (∀ w1, expired ≠ [] → disk_fails → shreds (Transfer.id <$> expired) w w1 →
     agree [PTick; PBucket; PFs; PTransfers; PAudit] w w1 → Q (Err ServiceError) w1) →
  (∀ w1, expired_so_far cur (next_tick w) expired w1 →
     (expired = [] → Q (Ok 0) w1) ∧
     (expired ≠ [] → Q (Ok (zlen expired)) (World.set_db (World.sess w1) (next_tick w1)) ∧
                     Q (Err ServiceError) (next_tick w1))) →
  wp run_cleanup_once w Q.
Proof.
  intros cur expired HE HQ. unfold run_cleanup_once. do 5 wp_step.
  apply (wp_for expired _ _ (expired_so_far cur (next_tick w))).
  - split; try done.
    + exists []. by rewrite app_nil_r.
    + by apply shreds_same.
    + simpl. set_solver.
  - intros pre t post w1 Hl H1. eapply wp_mono; [by apply (expire_one_sofar _ _ _ _ _ H1)|].
    intros [[]|e] w2; [done|]. intros (-> & Hdf & Hs & Ha). apply HE; [by rewrite Hl; destruct pre|done| |].
    + eapply (shreds_trans []); [by apply (shreds_same [] w (next_tick w))|exact Hs|set_solver|].
      rewrite Hl. rewrite !fmap_app. set_solver.
    + etrans; [apply agree_tick; part_in|exact Ha].
  - intros w1 H1. destruct (HQ w1 H1) as [Hnil Hcons].
    change (rows _ _) with expired. clear HE. clearbody expired. destruct expired as [|t l].
    + wp_step. change (zlen (@nil Transfer.t) >? 0) with false.
      cbn iota. do 2 wp_step. by apply Hnil.
    + destruct (Hcons ltac:(done)) as [Hok Herr]. wp_step.
      replace (zlen (t :: l) >? 0) with true by (symmetry; apply Z.gtb_lt; unfold zlen; simpl; lia).
      apply wp_commit; [by wp_step|done].
Qed.

(** A transfer after the tick at [cur]. *)
Definition after_cleanup (cur : datetime) (t : Transfer.t) : Transfer.t :=
  if expired_ready cur t then mark_expired cur t else t.

Lemma after_cleanup_not_expired cur t : expired_ready cur (after_cleanup cur t) = false.
Proof.
  unfold after_cleanup. destruct (expired_ready cur t) eqn:E; [|done].
  done.
Qed.

(** What a run of the cleanup leaves: the committed rows when it succeeds, the
    database as it was when the commit or the disk fails; staging, where only
    the expired transfers lose anything and nothing of them is left when the
    run succeeds, and their directories go when the disk does not fail; and the
    rest of the world as it was. *)
Record cleaned (cur : datetime) (expired : list Transfer.t) (w : World) (r : res Z) (w' : World)
  : Prop := {
  cl_result :
    (r = Ok (zlen expired) ∧
     DB.transfers (World.db w') = after_cleanup cur <$> DB.transfers (World.db w) ∧
     (∃ new, DB.audit_log (World.db w') = DB.audit_log (World.db w) ++ new ∧
       Forall2 (λ t a, a = expired_audit cur t (AuditLog.id a)) expired new) ∧
     Forall (λ t, emptied (Transfer.id t) w') expired)
    ∨ (r = Err ServiceError ∧ World.db w' = World.db w ∧ expired ≠ []);
  cl_shreds : shreds (Transfer.id <$> expired) w w';
  cl_disk : ¬ disk_fails →
    FS.dirs (World.fs w') = FS.dirs (World.fs w) ∖ list_to_set (Transfer.id <$> expired);
  cl_rest : agree [PTick; PBucket; PFs; PTransfers; PAudit; PDb] w w'
}.

Lemma wp_cleanup w :
  keyed Transfer.id (DB.transfers (World.db w)) → World.sess w = World.db w →
  wp run_cleanup_once w (cleaned (clock (World.tick w))
    (rows (expired_ready (clock (World.tick w))) (DB.transfers (World.db w))) w).
Proof.
  intros Hk Hsd. apply wp_run_cleanup; rewrite Hsd.
  { intros w1 Hne Hdf Hs Ha. split; [|done|done|].
    - right. split; [done|]. split; [|done]. apply (Ha PDb). part_notin.
    - eapply agree_weaken; [exact Ha|part_sub]. }
  set (cur := clock _). set (expired := rows _ _). intros w1 [Ha Ht (new & Hn & Hf) Hs He Hd].
  assert (Hrows : DB.transfers (World.sess w1) = after_cleanup cur <$> DB.transfers (World.db w)).
  { rewrite Ht. simpl. rewrite Hsd. unfold expired. by rewrite alter_all_rows. }
  pose proof (Ha PDb ltac:(part_notin)) as Hdb. simpl in Hdb, Hd. simpl in Hn. rewrite Hsd in Hn.
  assert (Ha' : agree [PTick; PBucket; PFs; PTransfers; PAudit; PDb] w w1).
  { etrans; [apply agree_tick; part_in|]. eapply agree_weaken; [exact Ha|part_sub]. }
  assert (Hs' : ∀ w2, World.fs w2 = World.fs w1 → shreds (Transfer.id <$> expired) w w2).
  { intros w2 E. eapply (shreds_trans []); [by apply (shreds_same [] w (next_tick w))| |set_solver|done].
    eapply (shreds_trans _ []); [exact Hs|by apply shreds_same|done|set_solver]. }
  split.
  - intros E. split; [|by apply Hs'|done|done]. left. rewrite E. split; [done|]. rewrite Hdb.
    split; [|split; [exists []; rewrite app_nil_r; split; [done|constructor]|constructor]].
    rewrite <- Hrows, Ht, E. simpl. by rewrite Hsd.
  - intros E. split; (split; [|by apply Hs'|done|]).
    + left. split; [done|]. split; [done|]. split; [by exists new|done].
    + etrans; [exact Ha'|]. intros q Hq. destruct q; try done; exfalso; apply Hq; part_in.
    + by right.
    + etrans; [exact Ha'|]. apply agree_tick. part_in.
Qed.


End cleanup_facts.

(** * The Defender poll *)

Section defender_facts.
Context {X : Services} {C : Config}.
Import Defender.

Lemma missing_files_fs i fs w w' :
  World.fs w' = World.fs w → (missing_files i fs w').1 = (missing_files i fs w).1 ∧
  (missing_files i fs w).2 = w.
Proof.
  intros Hw. induction fs as [|f fs [IH1 IH2]]; [done|]. cbn [missing_files].
  unfold lift, mbind, M_bind. destruct (Tus.file_path_of i f) as [p|e]; [|done].
  unfold Staging.transfer_dir_exists, gets. rewrite Hw.
  destruct (negb _); [done|].
  unfold Staging.exists_, Staging.syscall, mbind, M_bind, gets, raise, mret, M_ret.
  destruct (name_max <? zlen p.2); [done|]. rewrite Hw.
  destruct (missing_files i fs w') as [[l|e] w1], (missing_files i fs w) as [[l'|e'] w1'];
    simpl in *; simplify_eq; done.
Qed.

(** Where a file is staged: [<transfer>/<file>__<safe name>]. *)
Definition staged_at (f : TransferFile.t) : uuid * pystr :=
  (TransferFile.transfer_id f,
   uuid_str (TransferFile.id f) ++ u "__" ++ Staging.safe_filename (TransferFile.safe_filename f)).

(** A file row no path can be made for, or one the file system refuses. *)
Definition unstageable (f : TransferFile.t) : Prop :=
  TransferFile.safe_filename f = [] ∨ name_max < zlen (staged_at f).2.

Definition vanished (w : World) (f : TransferFile.t) : Prop :=
  FS.files (World.fs w) !! staged_at f = None.

(** What the poll finds missing for a transfer. *)
Definition missing_of (w : World) (t : Transfer.t) : res (list pystr) :=
  (missing_files (Transfer.id t) (Tus.files_of (Transfer.id t) (World.sess w)) w).1.

(** The loop finds something exactly when the directory is there and a file is
    not, and fails only at a name that has no path. *)
Lemma missing_files_spec i fs w :
  Forall (λ f, TransferFile.transfer_id f = i) fs →
  match (missing_files i fs w).1 with
  | Ok l => nonempty l = true ↔ i ∈ FS.dirs (World.fs w) ∧ Exists (vanished w) fs
  | Err _ => Exists unstageable fs
  end.
Proof.
  induction 1 as [|f fs Hf Hfs IH]; cbn [missing_files].
  { cbn. split; [done|]. intros [_ H]. by apply Exists_nil in H. }
  unfold lift, mbind, M_bind. destruct (Tus.file_path_of i f) as [p|e] eqn:Ep.
  2:{ apply Exists_cons_hd. left. unfold Tus.file_path_of, Staging.file_path in Ep.
      by destruct (TransferFile.safe_filename f). }
  apply file_path_ok in Ep as [Ep _].
  assert (p = staged_at f) as -> by (unfold staged_at; by rewrite Hf).
  unfold Staging.transfer_dir_exists, gets.
  case_bool_decide as Hd; cbn [negb].
  2:{ destruct (missing_files i fs w).1; [|by apply Exists_cons_tl]. rewrite IH. naive_solver. }
  unfold Staging.exists_, Staging.syscall, mbind, M_bind, gets, raise, mret, M_ret.
  destruct (name_max <? zlen (staged_at f).2) eqn:En.
  { apply Exists_cons_hd. right. lia. }
  destruct (missing_files_fs i fs w w eq_refl) as [_ Hw].
  destruct (missing_files i fs w) as [[l|e] w1]; cbn [fst snd] in *; subst; [|by apply Exists_cons_tl].
  rewrite Exists_cons. unfold vanished at 1.
  case_bool_decide as Hp; cbn; [rewrite IH, eq_None_not_Some; naive_solver|].
  rewrite <- eq_None_not_Some in Hp. naive_solver.
Qed.

(** A transfer the poll must quarantine: uploading for more than ten seconds,
    its staging directory there and one of its files gone. *)
Definition quarantined (cur : datetime) (w : World) (t : Transfer.t) : Prop :=
  Transfer.status t = Uploading ∧ Transfer.created_at t < cur - 10 * second ∧
  Transfer.id t ∈ FS.dirs (World.fs w) ∧
  Exists (λ f, TransferFile.transfer_id f = Transfer.id t ∧ vanished w f)
    (map_to_list (DB.files (World.db w))).*2.

#[global] Instance quarantined_dec cur w t : Decision (quarantined cur w t).
Proof. unfold quarantined, vanished. apply _. Defined.

Definition flagged (w : World) (t : Transfer.t) : bool :=
  match missing_of w t with Ok l => nonempty l | Err _ => false end.

Lemma missing_of_spec w t :
  match missing_of w t with
  | Ok l => nonempty l = true ↔ Transfer.id t ∈ FS.dirs (World.fs w) ∧
      Exists (λ f, TransferFile.transfer_id f = Transfer.id t ∧ vanished w f)
        (map_to_list (DB.files (World.sess w))).*2
  | Err _ => Exists (λ f, TransferFile.transfer_id f = Transfer.id t ∧ unstageable f)
        (map_to_list (DB.files (World.sess w))).*2
  end.
Proof.
  assert (HE : ∀ P : TransferFile.t → Prop, Exists P (Tus.files_of (Transfer.id t) (World.sess w)) ↔
    Exists (λ f, TransferFile.transfer_id f = Transfer.id t ∧ P f)
      (map_to_list (DB.files (World.sess w))).*2).
  { intros P. unfold Tus.files_of, rows. rewrite !Exists_exists.
    setoid_rewrite list_elem_of_filter. setoid_rewrite Z.eqb_eq. naive_solver. }
  pose proof (missing_files_spec (Transfer.id t) (Tus.files_of (Transfer.id t) (World.sess w)) w) as H.
  fold (missing_of w t) in H.
  destruct (missing_of w t); rewrite ?HE in H; apply H;
    apply Forall_forall; intros f [Hf _]%list_elem_of_filter; by apply Z.eqb_eq.
Qed.

(** Where every look succeeds, the poll flags what it must quarantine. *)
Lemma flagged_quarantined cur w t :
  World.sess w = World.db w → is_ok (missing_of w t) = true →
  candidate (cur - 10 * second) t = true → (flagged w t = true ↔ quarantined cur w t).
Proof.
  intros Hsd Hok [Hs Hc]%andb_true_iff. apply bool_decide_eq_true in Hs. apply Z.ltb_lt in Hc.
  pose proof (missing_of_spec w t) as H. unfold flagged, quarantined. rewrite <- Hsd.
  destruct (missing_of w t); [|done]. rewrite H. naive_solver.
Qed.

Definition quarantine_audit (cur : datetime) (t : Transfer.t) (r : AuditLog.t) : Prop :=
  AuditLog.event_type r = u "defender_quarantine" ∧ AuditLog.severity r = u "critical" ∧
  AuditLog.transfer_id r = Some (Transfer.id t) ∧ AuditLog.ts r = cur.

Record inspected (cur : datetime) (w0 : World) (pre : list Transfer.t) (n : Z) (w : World)
  : Prop := {
  insp_agree : agree [PTransfers; PAudit] w0 w;
  insp_transfers : DB.transfers (World.sess w)
    = alter_all Transfer.id (Encrypt.mark_infected cur) (filter (λ t, flagged w0 t = true) pre)
        (DB.transfers (World.sess w0));
  insp_seen : Forall (λ t, is_ok (missing_of w0 t) = true) pre;
  insp_count : n = zlen (filter (λ t, flagged w0 t = true) pre);
  insp_audit : ∃ new, DB.audit_log (World.sess w) = DB.audit_log (World.sess w0) ++ new ∧
    Forall2 (quarantine_audit cur) (filter (λ t, flagged w0 t = true) pre) new
}.

Lemma inspect_sofar cur w0 pre t n w :
  inspected cur w0 pre n w →
  wp (inspect cur n t) w (λ r w',
    match r with
    | Ok n' => inspected cur w0 (pre ++ [t]) n' w'
    | Err e => missing_of w0 t = Err e ∧ World.db w' = World.db w0
    end).
Proof.
  intros [Ha Ht Hseen -> (new & Hn & Hf)]. unfold inspect. do 3 wp_step.
  pose proof (Ha PFs ltac:(part_notin)) as Hfs. pose proof (Ha PFiles ltac:(part_notin)) as Hfi.
  simpl in Hfs, Hfi.
  assert (Tus.files_of (Transfer.id t) (World.sess w) = Tus.files_of (Transfer.id t) (World.sess w0))
    as -> by (unfold Tus.files_of; by rewrite Hfi).
  pose proof (missing_files_fs (Transfer.id t) (Tus.files_of (Transfer.id t) (World.sess w0)) w0 w Hfs)
    as [M1 _].
  pose proof (missing_files_fs (Transfer.id t) (Tus.files_of (Transfer.id t) (World.sess w0)) w w eq_refl)
    as [_ M2].
  apply wp_of. intros r w1 E. rewrite E in M1, M2. cbn [fst snd] in M1, M2. subst w1.
  fold (missing_of w0 t) in M1. destruct r as [missing|e].
  2:{ split; [done|]. apply (Ha PDb). part_notin. }
  assert (flagged w0 t = nonempty missing) as Hfl by (unfold flagged; by rewrite <- M1).
  assert (Forall (λ t, is_ok (missing_of w0 t) = true) (pre ++ [t])) as Hseen'
    by (apply Forall_app; split; [done|]; constructor; [by rewrite <- M1|done]).
  destruct (nonempty missing) eqn:Hm; cbn [negb].
  - wp_step. unfold update_transfer. do 4 wp_step.
    assert (filter (λ t, flagged w0 t = true) (pre ++ [t])
            = filter (λ t, flagged w0 t = true) pre ++ [t]) as Hflt.
    { rewrite filter_app. f_equal. by rewrite filter_cons_True. }
    split.
    + etrans; [exact Ha|]. intros p Hp. destruct p; try done; exfalso; apply Hp; part_in.
    + rewrite Hflt, alter_all_snoc. simpl. by rewrite Ht.
    + exact Hseen'.
    + rewrite Hflt, zlen_app. done.
    + simpl. rewrite Hn, Hflt. eexists. rewrite <- app_assoc. split; [done|].
      apply Forall2_app; [done|]. by repeat constructor.
  - wp_step.
    assert (filter (λ t, flagged w0 t = true) (pre ++ [t]) = filter (λ t, flagged w0 t = true) pre)
      as Hflt.
    { rewrite filter_app, filter_cons_False, filter_nil; [by rewrite app_nil_r|]. by rewrite Hfl. }
    split; rewrite ?Hflt; try done. eauto.
Qed.

Lemma touches_alert_infected t : touches [PTick; PAudit; PDb; PTelegram] (alert_infected t).
Proof. unfold alert_infected. foot. Qed.

Lemma wp_run_defender w (Q : res Z → World → Prop) :
  let cur := clock (World.tick w) in
  let w0 := next_tick w in
  let candidates := rows (candidate (cur - 10 * second)) (DB.transfers (World.sess w)) in
  let found := filter (λ t, flagged w0 t = true) candidates in
  (∀ w1 e, World.db w1 = World.db w →
     fault (S (World.tick w)) = true ∨ (∃ t, t ∈ candidates ∧ is_ok (missing_of w0 t) = false) →
     Q (Err e) w1) →
  (∀ w1, inspected cur w0 candidates (zlen found) w1 →
     (found = [] → Q (Ok 0) w1) ∧
     (found ≠ [] → wp (for_ candidates alert_infected)
        (World.set_db (World.sess w1) (next_tick w1))
        (λ r w2, Q (match r with Ok _ => Ok (zlen found) | Err e => Err e end) w2))) →
  wp run_defender_poll_once w Q.
Proof.
  intros cur w0 candidates found HE HQ. unfold run_defender_poll_once. do 5 wp_step.
  apply (wp_fold candidates _ _ _ (inspected cur w0)).
  - split; try done. exists []. by rewrite app_nil_r.
  - intros pre t post n w1 Hpre H1. eapply wp_mono; [by apply (inspect_sofar _ _ _ _ _ _ H1)|].
    intros [n'|e] w2 H2; [done|]. destruct H2 as [Hm H2]. apply HE; [done|]. right. exists t.
    rewrite Hm. split; [|done]. fold candidates in Hpre. rewrite Hpre. set_solver.
  - intros n w1 H1. pose proof (insp_count _ _ _ _ _ H1) as Hc. fold found in Hc. subst n.
    destruct (HQ w1 H1) as [Hnil Hcons].
    destruct (zlen found =? 0) eqn:Ez.
    + wp_step. apply Hnil. apply Z.eqb_eq in Ez. destruct found; [done|]. unfold zlen in Ez. simpl in Ez. lia.
    + wp_step. apply wp_commit_fault.
      * wp_step. eapply wp_mono; [apply Hcons|].
        { intros Hf. by rewrite Hf in Ez. }
        intros [[]|e] w2 H2; [by wp_step|done].
      * intros Hfault. apply HE; [apply (insp_agree _ _ _ _ _ H1 PDb); part_notin|]. left.
        pose proof (insp_agree _ _ _ _ _ H1 PTick ltac:(part_notin)) as Htk. simpl in Htk.
        by rewrite <- Htk.
Qed.

(** Alerts write and commit audit rows; transfers stay. *)
Definition transfers_are (m : gmap uuid Transfer.t) (w : World) : Prop :=
  DB.transfers (World.db w) = m ∧ DB.transfers (World.sess w) = m.

Lemma wp_alert_transfers m a b c d e f w :
  transfers_are m w → wp (Alerts.alert a b c d e f) w (λ _ w', transfers_are m w').
Proof.
  intros [H1 H2]. unfold Alerts.alert, Audit.write_event. wp_step.
  case_bool_decide; [|by wp_step]. do 4 wp_step. apply wp_commit; [|by split].
  case_match; [|by wp_step]. eapply wp_mono; [apply (touches_wp [PTick; PTelegram]); foot|].
  intros r w' Ha. unfold transfers_are.
  rewrite (Ha PDb ltac:(part_notin) : World.db _ = _).
  by rewrite (Ha PTransfers ltac:(part_notin) : DB.transfers _ = _).
Qed.

Lemma wp_alerts m l w :
  transfers_are m w → wp (for_ l alert_infected) w (λ _ w', transfers_are m w').
Proof.
  intros H. apply (wp_for l _ _ (λ _ w, transfers_are m w)); [done| |done].
  intros pre t post w1 _ H1. eapply (wp_mono _ _ (λ _ w', transfers_are m w')); [|by intros [[]|e] w2 H2].
  unfold alert_infected. do 2 wp_step. case_match; [|by wp_step].
  case_bool_decide; [by apply wp_alert_transfers|by wp_step].
Qed.

(** What a poll makes of a row. *)
Definition after_poll (cur : datetime) (w : World) (t : Transfer.t) : Transfer.t :=
  if decide (quarantined cur w t) then Encrypt.mark_infected cur t else t.

Definition to_quarantine (cur : datetime) (w : World) : list Transfer.t :=
  rows (λ t, bool_decide (quarantined cur w t)) (DB.transfers (World.db w)).

(** A candidate with a file the poll cannot look for. *)
Definition unpollable (cur : datetime) (w : World) : Prop :=
  ∃ t f, t ∈ (map_to_list (DB.transfers (World.db w))).*2 ∧
    candidate (cur - 10 * second) t = true ∧
    f ∈ (map_to_list (DB.files (World.db w))).*2 ∧
    TransferFile.transfer_id f = Transfer.id t ∧ unstageable f.

Lemma filter_iff_in {A} (P Q : A → Prop) `{∀ x, Decision (P x), ∀ x, Decision (Q x)} (l : list A) :
  (∀ x, x ∈ l → P x ↔ Q x) → filter P l = filter Q l.
Proof.
  induction l as [|x l IH]; intros H'; [done|].
  pose proof (H' x ltac:(left)) as Hx. specialize (IH (λ y Hy, H' y ltac:(by right))).
  destruct (decide (P x)) as [p|p].
  - rewrite !filter_cons_True; [by rewrite IH|by apply Hx|done].
  - rewrite !filter_cons_False; [done|by rewrite <- Hx|done].
Qed.

Lemma filter_flagged cur w :
  World.sess w = World.db w →
  Forall (λ t, is_ok (missing_of w t) = true)
    (rows (candidate (cur - 10 * second)) (DB.transfers (World.db w))) →
  filter (λ t, flagged w t = true) (rows (candidate (cur - 10 * second)) (DB.transfers (World.db w)))
  = to_quarantine cur w.
Proof.
  intros Hsd Hok. unfold to_quarantine, rows in *. rewrite list_filter_filter.
  apply filter_iff_in. intros t Ht. rewrite bool_decide_eq_true.
  rewrite Forall_forall in Hok. split.
  - intros [Hf Hc]. apply flagged_quarantined; try done. apply Hok.
    by apply list_elem_of_filter.
  - intros Hq. assert (candidate (cur - 10 * second) t = true) as Hc.
    { destruct Hq as (Hs & Hc & _). unfold candidate. apply andb_true_iff.
      rewrite bool_decide_eq_true. split; [done|lia]. }
    split; [|done]. apply (flagged_quarantined cur); try done. apply Hok.
    by apply list_elem_of_filter.
Qed.

Lemma unseen_unpollable cur w t :
  World.sess w = World.db w →
  t ∈ rows (candidate (cur - 10 * second)) (DB.transfers (World.db w)) →
  is_ok (missing_of w t) = false → unpollable cur w.
Proof.
  intros Hsd [Hc Ht]%list_elem_of_filter Hm. pose proof (missing_of_spec w t) as H.
  destruct (missing_of w t); [done|]. rewrite Hsd in H.
  apply Exists_exists in H as (f & Hf & Hft & Hu). by exists t, f.
Qed.

Lemma missing_files_tick w t : missing_of (next_tick w) t = missing_of w t.
Proof. unfold missing_of. by apply missing_files_fs. Qed.

(** What a poll did with the rows. *)
Definition polled (w : World) (r : res Z) (w' : World) : Prop :=
  let cur := clock (World.tick w) in
  let found := to_quarantine cur w in
  (DB.transfers (World.db w') = DB.transfers (World.db w) ∧
   match r with
   | Ok n => found = [] ∧ n = 0
   | Err _ => fault (S (World.tick w)) = true ∨ unpollable cur w
   end) ∨
  (DB.transfers (World.db w') = after_poll cur w <$> DB.transfers (World.db w) ∧
   (is_ok r = true → r = Ok (zlen found))).

Lemma wp_defender w :
  keyed Transfer.id (DB.transfers (World.db w)) → World.sess w = World.db w →
  wp run_defender_poll_once w (polled w).
Proof.
  intros Hk Hsd. apply wp_run_defender; set (cur := clock _); rewrite Hsd.
  - intros w1 e Hdb H. left. split; [by rewrite Hdb|]. destruct H as [H|(t & Ht & Hm)]; [by left|right].
    rewrite missing_files_tick in Hm. by apply (unseen_unpollable cur w t).
  - intros w1 H1.
    pose proof (insp_transfers _ _ _ _ _ H1) as Ht. simpl in Ht. rewrite Hsd in Ht.
    pose proof (filter_flagged cur (next_tick w) Hsd (insp_seen _ _ _ _ _ H1)) as Hff.
    cbn [World.db next_tick World.set_tick] in Hff. rewrite Hff in *.
    change (to_quarantine cur (next_tick w)) with (to_quarantine cur w) in *.
    unfold to_quarantine in Ht. rewrite alter_all_rows in Ht by done.
    split; [intros E; left|intros _].
    + rewrite (insp_agree _ _ _ _ _ H1 PDb ltac:(part_notin) : World.db _ = _). done.
    + eapply wp_mono; [apply wp_alerts; split; exact Ht|].
      intros r w2 [Hd _]. right. rewrite Hd. split; [|by destruct r; intros [=]].
      apply map_fmap_ext. intros i t _. unfold after_poll. cbn beta.
      fold cur. unfold bool_decide, decide. by destruct (quarantined_dec cur w t).
Qed.

(** C14: the Defender poll is all or nothing.  A transfer must be quarantined
    when it is uploading, was made more than ten seconds ago, its staging
    directory is there, and some row of its files names a staged copy that is not.
    Either no transfer row changes - nothing was to quarantine and the poll
    returns zero, or it failed before its commit, because the commit failed or
    because some candidate's file has no name the file system takes - or exactly
    those transfers become infected, with the time set; a poll that succeeds
    returns how many. *)
Theorem defender_spec w r w' :
  keyed Transfer.id (DB.transfers (World.db w)) → World.sess w = World.db w →
  run_defender_poll_once w = (r, w') → polled w r w'.
Proof. intros Hk Hsd. by apply (wp_run _ _ _ _ _ (wp_defender w Hk Hsd)). Qed.

End defender_facts.
#[export] Hint Resolve touches_alert_infected : foot.

(** * Dead letters *)

Section dlq_facts.
Context {X : Services}.
Import Dlq.

(** The request id of a payload: a non-empty string under its key. *)
Definition carried_id (fields : list (pystr * json)) : option pystr :=
  match assoc (u "request_id") fields with Some (JStr ((_ :: _) as r)) => Some r | _ => None end.

(** The world the handler runs in, and the one it leaves once the request id is
    reset to what it was. *)
Definition bound (fields : list (pystr * json)) (w : World) : World :=
  match carried_id fields with Some rid => World.set_request_id (Some rid) w | None => w end.

Definition unbound (fields : list (pystr * json)) (old : option pystr) (w : World) : World :=
  match carried_id fields with Some _ => World.set_request_id old w | None => w end.

(** What the dead-letter list keeps of a job: the queue, the whole payload, the
    exception and the time. *)
Definition dead_letter (q : pystr) (fields : list (pystr * json)) (e : exn) (text : pystr) (t : datetime)
  : json :=
  JObj [(u "original_queue", JStr q); (u "payload", JObj fields);
        (u "error", JStr (exn_name e ++ u ": " ++ text)); (u "failed_at", JStr (isoformat t))].

(** The push of the dead letter: two observations of the outside world later;
    it is dropped when Redis fails or the key is not a list. *)
Definition dead_lettered (q : pystr) (fields : list (pystr * json)) (e : exn) (wh : World) : World :=
  let n := World.tick wh in
  let dlq := q ++ u ":dlq" in
  if fault (S n) then World.set_tick (S (S n)) wh
  else
    let w1 := World.set_tick (S (S (S n))) wh in
    match list_of (r_view (World.redis wh) (clock (S (S n))) dlq) with
    | Some _ => World.set_redis (r_lpush (World.redis wh) (clock (S (S n))) dlq
                                   (dead_letter q fields e (exc_text n e) (clock n))) w1
    | None => w1
    end.

Lemma gets_run {A B} (f : World → A) (k : A → M B) w : (x ← gets f; k x) w = k (f w) w.
Proof. done. Qed.

Lemma modify_run {A} f (m : M A) w : (modify f;; m) w = m (f w).
Proof. done. Qed.

Lemma run_iteration q fields handler w :
  run_consumer_iteration q (JObj fields) handler w =
    (Ok tt, unbound fields (World.request_id w)
              (let '(r, wh) := handler (JObj fields) (bound fields w) in
               match r with Ok _ => wh | Err e => dead_lettered q fields e wh end)).
Proof.
  unfold run_consumer_iteration, bound, unbound.
  assert (Hbody : ∀ w1, try_except (handler (JObj fields)) (λ e, suppress
      (text ← exception_text e; t ← now;
       redis_lpush (_dlq_name q) (dlq_record q (JObj fields) e text t))) w1
    = (Ok tt, let '(r, wh) := handler (JObj fields) w1 in
              match r with Ok _ => wh | Err e => dead_lettered q fields e wh end)).
  { intros w1. unfold try_except at 1. destruct (handler (JObj fields) w1) as [[[]|e] wh]; [done|].
    unfold suppress, try_except, redis_lpush, with_redis, now, call, dead_lettered, gets, mbind, M_bind.
    cbn [World.tick next_tick World.set_tick].
    destruct (fault (S (World.tick wh))); [done|]. cbn.
    by destruct (list_of _). }
  change (job_request_id (JObj fields)) with (carried_id fields).
  rewrite (gets_run World.request_id). destruct (carried_id fields); [|apply Hbody].
  rewrite modify_run. unfold try_finally. by rewrite Hbody.
Qed.


End dlq_facts.

(** * One e-mail job *)

Section email_facts.
Context {X : Services}.
Import Email.

(** The recipient row of a job that names one. *)
Definition named_recipient (job : json) (w : World) : option uuid :=
  match field "recipient_id" job with
  | Some rid => match uuid_parse rid with
                | Ok i => if decide (is_Some (DB.recipients (World.sess w) !! i)) then Some i else None
                | Err _ => None
                end
  | None => None
  end.

Definition delivered_to (sent : bool) (cur : datetime) : TransferRecipient.t → TransferRecipient.t :=
  if sent then mark_sent cur else mark_failed.

Lemma wp_update_status rid sent w i (Q : res unit → World → Prop) :
  uuid_parse rid = Ok i → is_Some (DB.recipients (World.sess w) !! i) →
  (∀ w', World.smtp w' = World.smtp w →
     World.db w' = World.db w ∨
     (∃ cur, World.db w' = DB.set_recipients
        (alter (delivered_to sent cur) i (DB.recipients (World.sess w))) (World.sess w)) →
     Q (Ok tt) w') →
  wp (update_status rid sent) w Q.
Proof.
  intros Hp [row Hrow] HQ. unfold update_status. do 3 wp_step. rewrite Hp. do 2 wp_step. rewrite Hrow.
  wp_step. destruct sent.
  - do 2 wp_step. unfold update_recipient. wp_step. apply wp_commit; apply HQ; try done.
    + right. by exists (clock (World.tick w)).
    + by left.
  - unfold update_recipient. wp_step. apply wp_commit; apply HQ; try done.
    + right. by exists 0.
    + by left.
Qed.

Lemma update_status_nothing rid sent w :
  (∀ i, uuid_parse rid = Ok i → DB.recipients (World.sess w) !! i = None) →
  update_status rid sent w = (Ok tt, w).
Proof.
  intros H. unfold update_status, suppress, try_except, lift, mbind, M_bind.
  destruct (uuid_parse rid) as [i|e]; [|done]. unfold get_recipient, query, gets.
  by rewrite (H i eq_refl).
Qed.

Lemma field_given k job s : field k job = Some s → given k job = true.
Proof.
  unfold field, given. destruct (jget (u k) job) as [[| | | |[|c x]| |]|]; try done.
Qed.

(** A job with its four texts. *)
Lemma email_job_run job to s h t w :
  field "to" job = Some to → field "subject" job = Some s → field "html" job = Some h →
  field "text" job = Some t →
  process_email_job job w =
    (sent ← try_except (smtp_send to (mkRenderedEmail s h t);; mret true) (λ _, mret false);
     match field "recipient_id" job with
     | Some rid => update_status rid sent
     | None => mret tt
     end) w.
Proof.
  intros Ht Hs Hh Hx. unfold process_email_job.
  rewrite (field_given _ _ _ Ht), (field_given _ _ _ Hs), (field_given _ _ _ Hh), (field_given _ _ _ Hx).
  unfold send_job, text_of. by rewrite Ht, Hs, Hh, Hx.
Qed.

Lemma wp_email_job job w to s h t :
  field "to" job = Some to → field "subject" job = Some s → field "html" job = Some h →
  field "text" job = Some t →
  let sent := one_line to && one_line s && negb (fault (World.tick w)) in
  wp (process_email_job job) w (λ r w', r = Ok tt ∧
    World.smtp w' = World.smtp w ++ (if sent then [(to, mkRenderedEmail s h t)] else []) ∧
    (World.db w' = World.db w ∨
     ∃ i cur, named_recipient job w = Some i ∧
       World.db w' = DB.set_recipients
         (alter (delivered_to sent cur) i (DB.recipients (World.sess w))) (World.sess w))).
Proof.
  intros Ht Hs Hh Hx sent. unfold wp at 1. rewrite (email_job_run _ _ _ _ _ _ Ht Hs Hh Hx).
  match goal with |- context [mbind ?k ?m w] => change (wp (mbind k m) w (λ r w', r = Ok tt ∧
    World.smtp w' = World.smtp w ++ (if sent then [(to, mkRenderedEmail s h t)] else []) ∧
    (World.db w' = World.db w ∨
     ∃ i cur, named_recipient job w = Some i ∧
       World.db w' = DB.set_recipients
         (alter (delivered_to sent cur) i (DB.recipients (World.sess w))) (World.sess w)))) end.
  wp_step. unfold smtp_send, wp at 1, try_except, call, modify, mbind, M_bind. fold sent.
  assert (Hcase : ∀ w1, World.sess w1 = World.sess w → World.db w1 = World.db w →
    wp (match field "recipient_id" job with Some rid => update_status rid sent | None => mret tt end) w1
      (λ r w', r = Ok tt ∧ World.smtp w' = World.smtp w1 ∧
        (World.db w' = World.db w ∨ ∃ i cur, named_recipient job w = Some i ∧
          World.db w' = DB.set_recipients
            (alter (delivered_to sent cur) i (DB.recipients (World.sess w))) (World.sess w)))).
  { intros w1 E1 E2. unfold named_recipient. destruct (field "recipient_id" job) as [rid|].
    2:{ wp_step. auto. }
    destruct (uuid_parse rid) as [i|e] eqn:Hp.
    2:{ unfold wp. rewrite update_status_nothing by by rewrite Hp. auto. }
    case_decide as Hd.
    - rewrite <- E1 in Hd. eapply wp_update_status; [done..|]. intros w2 Hsm Hor.
      split; [done|]. split; [done|]. rewrite E1, E2 in Hor. destruct Hor as [?|[cur ?]]; eauto.
    - unfold wp. rewrite update_status_nothing; [auto|]. intros j Hj.
      assert (j = i) as -> by congruence. rewrite E1. by apply eq_None_not_Some. }
  unfold sent in *. cbn [subject] in *.
  destruct (one_line to && one_line s); cbn [negb andb] in *.
  2:{ eapply wp_mono; [by apply Hcase|]. intros r w' (-> & -> & ?). by rewrite app_nil_r. }
  destruct (fault (World.tick w)); cbn [negb] in *.
  - eapply wp_mono; [by apply Hcase|]. intros r w' (-> & -> & ?). by rewrite app_nil_r.
  - eapply wp_mono; [by apply Hcase|]. by intros r w' (-> & -> & ?).
Qed.

(** An e-mail job with its four fields makes exactly one delivery attempt
    and never fails, so it is never retried nor dead-lettered: the message goes
    out unless its address or subject spans several lines or the SMTP call fails,
    and then the row of the recipient it names,
    if there is one, is committed as sent (with the time) or failed
    accordingly; nothing else in the database changes, and a failing commit
    leaves it as it was. *)
Theorem email_job_spec job w r w' to s h t :
  field "to" job = Some to → field "subject" job = Some s → field "html" job = Some h →
  field "text" job = Some t → process_email_job job w = (r, w') →
  let sent := one_line to && one_line s && negb (fault (World.tick w)) in
  r = Ok tt ∧
  World.smtp w' = World.smtp w ++ (if sent then [(to, mkRenderedEmail s h t)] else []) ∧
  (World.db w' = World.db w ∨
   ∃ i cur, named_recipient job w = Some i ∧
     World.db w' = DB.set_recipients
       (alter (delivered_to sent cur) i (DB.recipients (World.sess w))) (World.sess w)).
Proof.
  intros Ht Hs Hh Hx E. by_wp (wp_email_job job w to s h t Ht Hs Hh Hx) E.
Qed.

End email_facts.

Section worker_witnesses.
#[local] Instance demo_services : Services := Sim.calm.
#[local] Instance demo_config : Config := Demo.config.

(** One ready transfer past its expiry, one that is not. *)
Definition cleanup_demo : World := Demo.world (Demo.db_transfers
  [Demo.transfer 1 Ready (Some (replicate 40 1)) (Demo.now - 1);
   Demo.transfer 2 Ready (Some (replicate 40 2)) (Demo.now + 1)] []).

Lemma demo_keyed : keyed Transfer.id (DB.transfers (World.db cleanup_demo)).
Proof.
  intros i t Ht%elem_of_map_to_list. revert Ht. vm_compute (map_to_list _).
  rewrite !elem_of_cons, elem_of_nil. naive_solver.
Qed.


(** An upload whose directory is there but whose file is gone. *)
Definition defender_demo : World :=
  World.set_fs (FS.mk {[1]} ∅)
    (Demo.world (Demo.db_transfers [Demo.transfer 1 Uploading None Demo.now] [Demo.file 2 1 []])).

Lemma defender_spec_witness :
  let w' := (Defender.run_defender_poll_once defender_demo).2 in
  (Defender.run_defender_poll_once defender_demo).1 = Ok 1 ∧
  DB.transfers (World.db w')
    = after_poll Demo.now defender_demo <$> DB.transfers (World.db defender_demo).
Proof.
  assert (H1 : (Defender.run_defender_poll_once defender_demo).1 = Ok 1) by (vm_compute; reflexivity).
  split; [exact H1|].
  destruct (Defender.run_defender_poll_once defender_demo) as [r w'] eqn:E. simpl in H1. subst r.
  destruct (defender_spec defender_demo (Ok 1) w') as [[_ H]|[H _]]; [|reflexivity|exact E| |exact H].
  - intros i t Ht%elem_of_map_to_list. revert Ht. vm_compute (map_to_list _).
    rewrite !elem_of_cons, elem_of_nil. naive_solver.
  - destruct H as [_ H2]. discriminate H2.
Defined.

(** A job whose handler fails ends on the dead-letter list. *)
Definition dlq_demo_job : list (pystr * json) := [(u "request_id", JStr (u "r1"))].
Definition dlq_demo_world : World :=
  World.set_redis (r_lpush (∅ : Sim.redis) Demo.now (u "q") (JObj dlq_demo_job)) (Demo.world empty_db).
Definition dlq_demo_turn := WorkerMain.consumer_turn (u "q") (λ _, raise ValueError) dlq_demo_world.


Definition email_demo_job : json :=
  JObj [(u "to", JStr (u "eve@example.org")); (u "subject", JStr (u "Files"));
        (u "html", JStr (u "html")); (u "text", JStr (u "text"))].

Lemma email_job_spec_witness :
  let w := Demo.world empty_db in
  World.smtp (Email.process_email_job email_demo_job w).2
  = [(u "eve@example.org", mkRenderedEmail (u "Files") (u "html") (u "text"))].
Proof.
  intros w. destruct (Email.process_email_job email_demo_job w) as [r w'] eqn:E.
  destruct (email_job_spec email_demo_job w r w' (u "eve@example.org") (u "Files") (u "html")
    (u "text")) as (_ & H & _); try exact E; try (vm_compute; reflexivity). exact H.
Defined.

End worker_witnesses.
