(* ===== verification/Drain.v ===== *)
(** Liveness of the e-mail queue: while no external service fails, the consumer
    delivers every queued job, in the order the jobs were pushed. *)
From S2P Require Import Prelude Text Services Sim Model Scenario Effects Storage Support.
From S2P Require Import Envelope Stream Tus Transfers Public Worker.
#[local] Open Scope Z_scope.

Section drain.
Context {X : Services} {XOk : ServicesOk}.
Import Dlq Email.

(** * A world in which nothing fails *)

Definition no_faults (n : nat) : Prop := ∀ i, (n ≤ i)%nat → fault i = false.

Lemma no_faults_le n m : no_faults n → (n ≤ m)%nat → no_faults m.
Proof. intros H Hm i Hi. apply H. lia. Qed.

Lemma wp_call_ok w (Q : res unit → World → Prop) :
  no_faults (World.tick w) → Q (Ok tt) (next_tick w) → wp call w Q.
Proof. intros Hf HQ. unfold wp, call. simpl. by rewrite (Hf (World.tick w)). Qed.

Lemma wp_commit_ok w (Q : res unit → World → Prop) :
  no_faults (World.tick w) → Q (Ok tt) (World.set_db (World.sess w) (next_tick w)) → wp commit w Q.
Proof. intros Hf HQ. unfold commit. apply wp_bind, wp_call_ok; [done|]. by wp_step. Qed.

(** The jobs of a queue, oldest last as [LPUSH] leaves them; queues have no
    time to live. *)
Definition queued (w : World) (q : pystr) (l : list json) : Prop :=
  match r_view (World.redis w) (clock (World.tick w)) q with
  | None => l = []
  | Some (RList l', None) => l' = l
  | _ => False
  end.

Lemma queued_list w q l t :
  queued w q l → clock (World.tick w) ≤ t →
  list_of (r_view (World.redis w) t q) = Some l ∧ deadline_of (r_view (World.redis w) t q) = None.
Proof.
  unfold queued. intros H Ht. rewrite (r_view_later _ _ t q Ht).
  destruct (r_view _ _ q) as [[[] [d|]]|]; simpl in *; try done; by subst.
Qed.

(** Later, with the same Redis, the queue is the same. *)
Lemma queued_later w w' q l :
  queued w q l → World.redis w' = World.redis w → (World.tick w ≤ World.tick w')%nat →
  queued w' q l.
Proof.
  unfold queued. intros H -> Ht. pose proof (clock_mono _ _ Ht) as Hc.
  rewrite (r_view_later _ _ _ q Hc). by destruct (r_view _ _ q) as [[[] [d|]]|].
Qed.

(** Popping takes the oldest job. *)
Lemma wp_pop_ok w q l job (Q : res (option json) → World → Prop) :
  no_faults (World.tick w) → queued w q (l ++ [job]) →
  (∀ w', agree [PTick; PRedis] w w' → (World.tick w ≤ World.tick w')%nat → queued w' q l →
     Q (Ok (Some job)) w') →
  wp (redis_brpop q) w Q.
Proof.
  intros Hf Hq HQ. unfold redis_brpop, with_redis. apply wp_bind, wp_call_ok; [done|].
  apply wp_bind, wp_now. set (t := clock (World.tick (next_tick w))).
  assert (Ht : clock (World.tick w) ≤ t) by (apply clock_mono; simpl; lia).
  destruct (queued_list w q _ t Hq Ht) as [Hl Hd]. unfold wp. cbn [World.redis next_tick World.set_tick].
  rewrite Hl. pose proof (r_rpop_view (World.redis w) t q _ q Hl) as Hp.
  destruct (r_rpop (World.redis w) t q) as [x s]. destruct Hp as [-> Hv]. simpl. rewrite last_snoc.
  rewrite decide_True in Hv by done. apply HQ.
  - intros p Hp. destruct p; try done; exfalso; apply Hp; part_in.
  - simpl. lia.
  - unfold queued. simpl.
    assert (Ht' : t ≤ clock (S (S (World.tick w)))) by (apply clock_mono; simpl; lia).
    rewrite (r_view_later s _ _ q Ht'), Hv. clear Hv. rewrite Hd, length_app. cbn [length].
    case_decide as Hc; simpl.
    + destruct l as [|j l]; [done|]. simpl in Hc. lia.
    + by rewrite Nat.add_sub, take_app_length.
Qed.

(** * One e-mail job *)

(** A complete job has its four fields. *)
Definition complete_job (job : json) : bool :=
  given "to" job && given "subject" job && given "html" job && given "text" job.

(** Its message, when they are texts. *)
Definition message_of (job : json) : option (pystr * RenderedEmail) :=
  match field "to" job, field "subject" job, field "html" job, field "text" job with
  | Some to, Some s, Some h, Some t => Some (to, mkRenderedEmail s h t)
  | _, _, _, _ => None
  end.

Definition deliverable (m : pystr * RenderedEmail) : bool := one_line m.1 && one_line (subject m.2).

(** What the SMTP server receives of a job. *)
Definition delivery (job : json) : option (pystr * RenderedEmail) :=
  m ← message_of job; if deliverable m then Some m else None.

Definition is_sent (job : json) : bool := if delivery job is Some _ then true else false.

(** The recipient row a job names. *)
Definition names (job : json) : option uuid :=
  field "recipient_id" job ≫= λ s, match uuid_parse s with Ok j => Some j | Err _ => None end.

(** What a job makes of the status of recipient [i]: a complete job that names it
    is sent when its message can be delivered, and failed otherwise. *)
Definition status_after (i : uuid) (old : option pystr) (job : json) : option pystr :=
  match names job with
  | Some j =>
      if complete_job job && bool_decide (i = j)
      then Some (if is_sent job then u "sent" else u "failed")
      else old
  | None => old
  end.

(** The committed status of every recipient row. *)
Definition statuses (d : DB.t) (i : uuid) : option (option pystr) :=
  TransferRecipient.email_status <$> DB.recipients d !! i.

Lemma delivery_complete job : complete_job job = false → delivery job = None.
Proof.
  unfold complete_job, delivery, message_of. intros Hc.
  destruct (field "to" job) eqn:E1, (field "subject" job) eqn:E2, (field "html" job) eqn:E3,
    (field "text" job) eqn:E4; try done.
  by rewrite (field_given _ _ _ E1), (field_given _ _ _ E2), (field_given _ _ _ E3),
    (field_given _ _ _ E4) in Hc.
Qed.

Lemma wp_update_status_ok rid sent w :
  no_faults (World.tick w) → World.sess w = World.db w →
  wp (update_status rid sent) w (λ r w', r = Ok tt ∧
    agree [PTick; PRecipients; PDb] w w' ∧ (World.tick w ≤ World.tick w')%nat ∧
    ∀ i, statuses (World.db w') i = (λ old, match uuid_parse rid with
      | Ok j => if decide (i = j) then Some (if sent then u "sent" else u "failed") else old
      | Err _ => old
      end) <$> statuses (World.db w) i).
Proof.
  intros Hf Hs. unfold update_status.
  assert (Hid : ∀ i, statuses (World.db w) i = (λ old, old) <$> statuses (World.db w) i)
    by (intros i; by rewrite option_fmap_id).
  do 3 wp_step. destruct (uuid_parse rid) as [j|e].
  2:{ do 3 (split; [done|]). exact Hid. }
  do 2 wp_step. rewrite Hs.
  destruct (DB.recipients (World.db w) !! j) as [row|] eqn:Hrow.
  2:{ wp_step. do 3 (split; [done|]). intros i. case_decide; [subst|done].
      unfold statuses. by rewrite Hrow. }
  set (Q := λ w', Ok tt = Ok tt ∧ agree [PTick; PRecipients; PDb] w w' ∧
    (World.tick w ≤ World.tick w')%nat ∧
    ∀ i, statuses (World.db w') i = (λ old,
      if decide (i = j) then Some (if sent then u "sent" else u "failed") else old)
      <$> statuses (World.db w) i).
  assert (Hend : ∀ cur w1, agree [PTick] w w1 → (World.tick w ≤ World.tick w1)%nat →
    wp (update_recipient j (delivered_to sent cur)) w1 (λ r w2,
      match r with Ok _ => wp commit w2 (λ _ w3, Q w3) | Err _ => Q w2 end)).
  { intros cur w1 Ha Ht. unfold update_recipient. wp_step.
    apply wp_commit_ok; [simpl; by eapply no_faults_le|]. split; [done|]. split.
    { intros p Hp. pose proof (Ha p) as Hp'. destruct p; try (exfalso; apply Hp; part_in);
        apply Hp'; part_notin. }
    split; [simpl; lia|]. intros i. unfold statuses. simpl.
    assert (Hr : DB.recipients (World.sess w1) = DB.recipients (World.sess w))
      by (apply (Ha PRecipients); part_notin).
    rewrite Hr, Hs. destruct (decide (i = j)) as [->|Hn].
    - rewrite lookup_alter_eq, Hrow. unfold delivered_to. by destruct sent.
    - rewrite lookup_alter_ne by done. by rewrite option_fmap_id. }
  unfold delivered_to in Hend. wp_step. destruct sent.
  - wp_step. wp_step. apply (Hend (clock (World.tick w)) (next_tick w)); [|simpl; lia].
    apply agree_tick. part_in.
  - by apply (Hend 0 w).
Qed.

(** What handling a job has done, as far as the queue and the mail are concerned. *)
Record handled (job : json) (w w' : World) : Prop := {
  hd_redis : World.redis w' = World.redis w;
  hd_tick : (World.tick w ≤ World.tick w')%nat;
  hd_smtp : World.smtp w' = World.smtp w ++ option_list (delivery job);
  hd_status i : statuses (World.db w') i = (λ old, status_after i old job) <$> statuses (World.db w) i
}.

Lemma handled_agree job w w1 w' :
  agree [PTick; PRecipients; PDb] w1 w' → World.redis w1 = World.redis w →
  World.smtp w1 = World.smtp w ++ option_list (delivery job) →
  (World.tick w ≤ World.tick w1 ≤ World.tick w')%nat →
  (∀ i, statuses (World.db w') i = (λ old, status_after i old job) <$> statuses (World.db w) i) →
  handled job w w'.
Proof.
  intros Ha Hr Hs Ht Hst. split; [|lia| |done].
  - rewrite <- Hr. apply (Ha PRedis). part_notin.
  - rewrite <- Hs. apply (Ha PSmtp). part_notin.
Qed.

Lemma statuses_id d i (f : option pystr → option pystr) :
  (∀ old, f old = old) → statuses d i = f <$> statuses d i.
Proof. intros H. destruct (statuses d i); simpl; by rewrite ?H. Qed.

(** The attempt to send, while nothing fails. *)
Lemma send_attempt job w :
  no_faults (World.tick w) →
  try_except (send_job job;; mret true) (λ _, mret false) w =
    (Ok (is_sent job),
     if delivery job is Some m then World.set_smtp (World.smtp w ++ [m]) (next_tick w) else w).
Proof.
  intros Hf. unfold is_sent, delivery, message_of, send_job, text_of, deliverable.
  destruct (field "to" job) as [to|], (field "subject" job) as [s|], (field "text" job) as [t|],
    (field "html" job) as [h|]; try done.
  unfold smtp_send, try_except, call, modify, mbind, M_bind. cbn [fst snd subject mret M_ret option_bind].
  destruct (one_line to && one_line s); cbn [negb]; [|done]. by rewrite (Hf (World.tick w)) by lia.
Qed.

Lemma wp_email_job_ok job w :
  no_faults (World.tick w) → World.sess w = World.db w →
  wp (process_email_job job) w (λ r w', r = Ok tt ∧ handled job w w').
Proof.
  intros Hf Hs. unfold process_email_job. fold (complete_job job).
  destruct (complete_job job) eqn:Hc; cbn [negb].
  2:{ wp_step. split; [done|]. apply (handled_agree _ w w); [done|done| |lia|].
      - rewrite (delivery_complete job Hc). by rewrite app_nil_r.
      - intros i. apply statuses_id. intros old. unfold status_after. rewrite Hc. by destruct (names job). }
  wp_step. unfold wp at 1. rewrite (send_attempt job w Hf). cbn [fst snd].
  set (w1 := if delivery job is Some m then _ else w) in *.
  assert (Hw1 : World.redis w1 = World.redis w ∧ World.sess w1 = World.db w ∧ World.db w1 = World.db w ∧
    (World.tick w ≤ World.tick w1)%nat ∧ World.smtp w1 = World.smtp w ++ option_list (delivery job)).
  { unfold w1. destruct (delivery job); simpl; rewrite ?app_nil_r; repeat split; try done; lia. }
  clearbody w1. destruct Hw1 as (H1 & H2 & H3 & H4 & H5).
  destruct (field "recipient_id" job) as [rid|] eqn:Hrid.
  - eapply wp_mono; [apply wp_update_status_ok; [by eapply no_faults_le|by rewrite H2]|].
    intros r w' (-> & Ha & Ht & Hst). split; [done|]. apply (handled_agree _ w w1); [done..|lia|].
    intros i. rewrite Hst, H3. unfold status_after, names. rewrite Hrid, Hc. unfold mbind, option_bind.
    destruct (uuid_parse rid) as [j|]; [|done]. destruct (bool_decide_reflect (i = j)) as [->|Hn]; [by destruct (decide (j = j))|by destruct (decide (i = j))].
  - wp_step. split; [done|]. apply (handled_agree _ w w1); [done..|lia|].
    intros i. rewrite H3. apply statuses_id. intros old. unfold status_after, names. by rewrite Hrid.
Qed.

(** * Turns of the consumer *)

(** [n] iterations of [while True] of [email_consumer]. *)
Fixpoint email_consumer (n : nat) : M unit :=
  match n with
  | O => mret tt
  | S n' => WorkerMain.email_consumer_turn;; email_consumer n'
  end.

Lemma wp_turn_ok fields l w :
  no_faults (World.tick w) → queued w Queues.EMAIL_QUEUE (l ++ [JObj fields]) →
  wp WorkerMain.email_consumer_turn w (λ r w', r = Ok tt ∧ queued w' Queues.EMAIL_QUEUE l ∧
    (World.tick w ≤ World.tick w')%nat ∧
    World.smtp w' = World.smtp w ++ option_list (delivery (JObj fields)) ∧
    ∀ i, statuses (World.db w') i =
      (λ old, status_after i old (JObj fields)) <$> statuses (World.db w) i).
Proof.
  intros Hf Hq. set (job := JObj fields). apply wp_bind. unfold Queues.pop_job.
  eapply wp_pop_ok; [done|exact Hq|]. intros w1 Ha Ht Hq1.
  pose proof (run_iteration Queues.EMAIL_QUEUE fields WorkerMain._handle_email w1) as E.
  unfold wp. fold job in E |- *. rewrite E. clear E.
  assert (Hb : World.tick (bound fields w1) = World.tick w1 ∧ World.redis (bound fields w1) = World.redis w1 ∧
    World.smtp (bound fields w1) = World.smtp w1 ∧ World.db (bound fields w1) = World.db w1)
    by (unfold bound; by destruct (carried_id fields)).
  destruct Hb as (B1 & B2 & B3 & B4). set (wb := bound fields w1) in *.
  assert (H : wp (WorkerMain._handle_email job) wb (λ r w', r = Ok tt ∧ handled job wb w')).
  { unfold WorkerMain._handle_email. apply wp_with_session.
    eapply wp_mono; [apply wp_email_job_ok; [|done]|].
    - simpl. rewrite B1. by eapply no_faults_le.
    - intros r w' [-> [H1 H2 H3 H4]]. split; [done|]. by split. }
  unfold wp in H. destruct (WorkerMain._handle_email job wb) as [r wh]. simpl in H.
  destruct H as [-> [H1 H2 H3 H4]]. cbn [fst snd].
  assert (Hu : ∀ old, World.tick (unbound fields old wh) = World.tick wh ∧
    World.redis (unbound fields old wh) = World.redis wh ∧ World.smtp (unbound fields old wh) = World.smtp wh ∧
    World.db (unbound fields old wh) = World.db wh)
    by (intros old; unfold unbound; by destruct (carried_id fields)).
  destruct (Hu (World.request_id w1)) as (U1 & U2 & U3 & U4). split; [done|]. split; [|split; [|split]].
  - eapply queued_later; [exact Hq1|by rewrite U2, H1|lia].
  - lia.
  - rewrite U3, H3, B3. f_equal. apply (Ha PSmtp). part_notin.
  - intros i. rewrite U4, H4, B4. f_equal. f_equal. apply (Ha PDb). part_notin.
Qed.

Lemma wp_drain jobs : ∀ w,
  no_faults (World.tick w) → queued w Queues.EMAIL_QUEUE (reverse (JObj <$> jobs)) →
  wp (email_consumer (length jobs)) w (λ r w', r = Ok tt ∧ queued w' Queues.EMAIL_QUEUE [] ∧
    World.smtp w' = World.smtp w ++ omap delivery (JObj <$> jobs) ∧
    ∀ i, statuses (World.db w') i =
      (λ old, foldl (status_after i) old (JObj <$> jobs)) <$> statuses (World.db w) i).
Proof.
  induction jobs as [|fields jobs IH]; intros w Hf Hq; simpl.
  - wp_step. split; [done|]. split; [done|]. split; [by rewrite app_nil_r|].
    intros i. by apply statuses_id.
  - rewrite fmap_cons, reverse_cons in Hq. apply wp_bind. eapply wp_mono; [by apply wp_turn_ok|].
    intros r w1 (-> & Hq1 & Ht & Hs & Hst). eapply wp_mono; [apply IH; [by eapply no_faults_le|done]|].
    intros r w' (-> & Hq' & Hs' & Hst'). split; [done|]. split; [done|]. split.
    + rewrite Hs', Hs, <- app_assoc. f_equal. by destruct (delivery _).
    + intros i. rewrite Hst', Hst. by destruct (statuses (World.db w) i).
Qed.

(** C17: queued e-mails are delivered.  While no external service fails, as many
    turns of the consumer as there are jobs empty the e-mail queue: no turn
    raises, every complete job whose address and subject fit on one line is
    handed to the SMTP server, once, in the order the jobs were pushed and
    whatever the other jobs are, and the status of each recipient row is what
    the last job that names it makes of it. *)
Theorem emails_are_delivered jobs w r w' :
  no_faults (World.tick w) → queued w Queues.EMAIL_QUEUE (reverse (JObj <$> jobs)) →
  email_consumer (length jobs) w = (r, w') →
  r = Ok tt ∧ queued w' Queues.EMAIL_QUEUE [] ∧
  World.smtp w' = World.smtp w ++ omap delivery (JObj <$> jobs) ∧
  ∀ i, statuses (World.db w') i =
    (λ old, foldl (status_after i) old (JObj <$> jobs)) <$> statuses (World.db w) i.
Proof. intros Hf Hq E. by_wp (wp_drain jobs w Hf Hq) E. Qed.

End drain.

(** ** Witness *)

Section drain_witness.
#[local] Instance demo_services : Services := Sim.calm.
#[local] Instance demo_services_ok : ServicesOk := Sim.calm_ok.

Definition drain_job (to : string) : list (pystr * json) :=
  [(u "to", JStr (u to)); (u "subject", JStr (u "Files")); (u "html", JStr (u "<p>x</p>"));
   (u "text", JStr (u "x"))].

(** Two jobs pushed, one of them incomplete. *)
Definition drain_jobs : list (list (pystr * json)) :=
  [drain_job "eve@example.org"; [(u "to", JStr (u "nobody"))]].

Definition drain_world : World :=
  World.set_redis (foldl (λ s j, r_lpush s 0 Queues.EMAIL_QUEUE (JObj j)) (∅ : Sim.redis) drain_jobs)
    (Demo.world empty_db).

Lemma emails_are_delivered_witness :
  let w' := (email_consumer 2 drain_world).2 in
  (email_consumer 2 drain_world).1 = Ok tt ∧
  World.smtp w' = [(u "eve@example.org", mkRenderedEmail (u "Files") (u "<p>x</p>") (u "x"))].
Proof.
  destruct (email_consumer 2 drain_world) as [r w'] eqn:E.
  destruct (emails_are_delivered drain_jobs drain_world r w') as (-> & _ & Hs & _).
  - done.
  - vm_compute. reflexivity.
  - exact E.
  - split; [done|]. cbn [snd]. rewrite Hs. vm_compute. reflexivity.
Defined.

End drain_witness.
