(* ===== verification/Metrics.v ===== *)
(** The Prometheus endpoint ([routers/metrics.py]): queue depths and the
    heartbeat the cleanup tick leaves in Redis. *)
From S2P Require Import Prelude Text Encoding Services Sim Model Scenario Effects Storage Support.
From S2P Require Import Envelope Stream Tus Transfers Public Worker.
#[local] Open Scope Z_scope.

Module Metrics.

Definition _OBSERVED_QUEUES : list pystr :=
  [u "upload:ready"; u "email:queue"; u "upload:ready:dlq"; u "email:queue:dlq"].

Definition _CLEANUP_HEARTBEAT_KEY : pystr := u "metrics:cleanup_last_run_ts".

Section metrics.
Context {X : Services}.

(** Floats: those of integers, those read from a text, and the exposition of
    the two gauges, which [prometheus_client] prints. *)
Context {float : Type} (of_int : Z → float) (of_text : pystr → option float).

(** The two gauges of [_REGISTRY]: the labelled one by its label. *)
Record Registry := mkRegistry {
  queue_depth : list (pystr * float);
  cleanup_last_run : float
}.

Context (generate_latest : Registry → bytes).

(** The registry as the module creates it: a gauge without labels starts at 0. *)
Definition _REGISTRY : Registry := mkRegistry [] (of_int 0).

Definition _observe_queue_depths (reg : Registry) : M Registry :=
  fold_m (λ reg q,
    depth ← try_except (redis_llen q) (λ _, mret 0);
    mret (mkRegistry (dict_set q (of_int depth) (queue_depth reg)) (cleanup_last_run reg)))
    reg _OBSERVED_QUEUES.

(** [float(text)] of what the key holds, [None] for a [ValueError]. *)
Definition float_of (raw : json) : option float :=
  match raw with
  | JInt n => Some (of_int n)
  | JDec m s => of_text (float_digits m s)
  | JStr s => of_text s
  | _ => None
  end.

Definition _observe_cleanup_heartbeat (reg : Registry) : M Registry :=
  raw ← try_except (redis_get _CLEANUP_HEARTBEAT_KEY) (λ _, mret None);
  mret (mkRegistry (queue_depth reg)
          match raw with
          | None => of_int 0
          | Some raw => default (of_int 0) (float_of raw)
          end).

(** One scrape: the registry it leaves and the text it answers. *)
Definition metrics (reg : Registry) : M (Registry * bytes) :=
  reg ← _observe_queue_depths reg;
  reg ← _observe_cleanup_heartbeat reg;
  mret (reg, generate_latest reg).

End metrics.
#[global] Arguments Registry : clear implicits.
End Metrics.

(** ** What a scrape reads *)

Section metrics_theorems.
Context {X : Services} {XOk : ServicesOk} {C : Config}.
Context {float : Type} (of_int : Z → float) (of_text : pystr → option float).
Context (generate_latest : Metrics.Registry float → bytes).
Import Metrics.

(** A value read at some observation from the tick [n] on: what Redis held then,
    or [dflt] when the command failed. *)
Definition reading {A} (n : nat) (dflt : A) (f : datetime → A) (v : A) : Prop :=
  ∃ i, (n ≤ i)%nat ∧ ((fault i = true ∧ v = dflt) ∨ v = f (clock i)).

Definition depth_at (s : redisT) (q : pystr) (t : datetime) : float :=
  of_int (match list_of (r_view s t q) with Some l => zlen l | None => 0 end).

Definition heartbeat_at (s : redisT) (t : datetime) : float :=
  match r_view s t _CLEANUP_HEARTBEAT_KEY with
  | Some (RStr raw, _) => default (of_int 0) (float_of of_int of_text raw)
  | _ => of_int 0
  end.

Lemma reading_later {A} n m (dflt : A) f v : reading m dflt f v → (n ≤ m)%nat → reading n dflt f v.
Proof. intros (i & Hi & H) Hm. exists i. split; [lia|done]. Qed.

Lemma observe_queue q w :
  wp (try_except (redis_llen q) (λ _, mret 0)) w (λ r w', ∃ n, r = Ok n ∧
    agree [PTick] w w' ∧ (World.tick w ≤ World.tick w')%nat ∧
    reading (World.tick w) (of_int 0) (depth_at (World.redis w) q) (of_int n)).
Proof.
  wp_step. apply wp_of. intros r w' E. unfold redis_llen in E. rewrite redis_read_run in E.
  destruct (fault _) eqn:Hf.
  - injection E as <- <-. wp_step. exists 0. split; [done|]. split; [by apply agree_tick; left|].
    split; [simpl; lia|]. exists (World.tick w). auto.
  - assert (Ha : agree [PTick] w (next_tick (next_tick w))).
    { etrans; apply agree_tick; by left. }
    assert (Ht : (World.tick w ≤ World.tick (next_tick (next_tick w)))%nat) by (simpl; lia).
    unfold reading, depth_at.
    destruct (list_of _) as [l|] eqn:Hl; injection E as <- <-; [exists (zlen l)|wp_step; exists 0];
      (do 3 (split; [done|]); exists (S (World.tick w)); split; [lia|]; right; by rewrite Hl).
Qed.

(** The labels already read, each with a reading; the others of the registry
    that came in are overwritten later. *)
Lemma observe_queues reg w :
  (∀ q, is_Some (assoc q (queue_depth reg)) → q ∈ _OBSERVED_QUEUES) →
  wp (_observe_queue_depths of_int reg) w (λ r w', ∃ reg', r = Ok reg' ∧
    agree [PTick] w w' ∧ (World.tick w ≤ World.tick w')%nat ∧
    cleanup_last_run reg' = cleanup_last_run reg ∧
    (∀ q, is_Some (assoc q (queue_depth reg')) ↔ q ∈ _OBSERVED_QUEUES) ∧
    (∀ q v, assoc q (queue_depth reg') = Some v →
       reading (World.tick w) (of_int 0) (depth_at (World.redis w) q) v)).
Proof.
  intros Hreg. unfold _observe_queue_depths.
  apply (wp_fold _ _ _ _ (λ pre reg' w', agree [PTick] w w' ∧ (World.tick w ≤ World.tick w')%nat ∧
    cleanup_last_run reg' = cleanup_last_run reg ∧
    (∀ q, is_Some (assoc q (queue_depth reg')) → q ∈ _OBSERVED_QUEUES) ∧
    (∀ q, q ∈ pre → ∃ v, assoc q (queue_depth reg') = Some v ∧
       reading (World.tick w) (of_int 0) (depth_at (World.redis w) q) v))).
  - split; [done|]. split; [lia|]. split; [done|]. split; [done|]. intros q Hq. by apply elem_of_nil in Hq.
  - intros pre q post reg1 w1 Hqs (Ha & Ht & Hc & Hl & Hp). wp_step.
    eapply wp_mono; [apply observe_queue|]. intros r w2 (n & -> & Ha2 & Ht2 & Hr). wp_step.
    split; [by etrans|]. split; [lia|]. split; [done|]. cbn [queue_depth].
    rewrite (Ha PRedis ltac:(part_notin) : World.redis _ = _) in Hr. split.
    + intros q'. rewrite assoc_dict_set. case_decide; [intros _; subst|apply Hl].
      rewrite Hqs, elem_of_app. right. left.
    + intros q' Hq'. rewrite assoc_dict_set. case_decide.
      * subst. eexists. split; [done|]. by eapply reading_later.
      * apply Hp. apply elem_of_app in Hq' as [?| ->%list_elem_of_singleton]; done.
  - intros reg1 w1 (Ha & Ht & Hc & Hl & Hp). exists reg1. do 4 (split; [done|]). split.
    + intros q. split; [apply Hl|]. intros (v & -> & _)%Hp. eauto.
    + intros q v Hv. destruct (Hp q) as (v' & Hv' & Hr); [apply Hl; eauto|]. congruence.
Qed.

Lemma observe_heartbeat reg w :
  wp (_observe_cleanup_heartbeat of_int of_text reg) w (λ r w', ∃ reg', r = Ok reg' ∧
    agree [PTick] w w' ∧ queue_depth reg' = queue_depth reg ∧
    reading (World.tick w) (of_int 0) (heartbeat_at (World.redis w)) (cleanup_last_run reg')).
Proof.
  unfold _observe_cleanup_heartbeat. do 2 wp_step. apply wp_of. intros r w' E.
  unfold redis_get in E. rewrite redis_read_run in E.
  destruct (fault _) eqn:Hf.
  - injection E as <- <-. do 2 wp_step. eexists. split; [done|].
    split; [by apply agree_tick; left|]. split; [done|]. exists (World.tick w). auto.
  - assert (Ha : agree [PTick] w (next_tick (next_tick w))).
    { etrans; apply agree_tick; by left. }
    unfold reading, heartbeat_at.
    destruct (r_view _ _ _) as [[[v| |] dl]|] eqn:Hv; injection E as <- <-; repeat wp_step;
      (eexists; do 3 (split; [done|]); exists (S (World.tick w)); split; [lia|]; right; by rewrite Hv).
Qed.

(** The cleanup does not talk to Redis. *)
Lemma cleanup_redis w : wp (with_session Cleanup.run_cleanup_once) w (λ _ w',
  World.redis w' = World.redis w).
Proof.
  wp_step. unfold Cleanup.run_cleanup_once, Cleanup.expire_one.
  eapply wp_mono; [apply (touches_wp [PTick; PTransfers; PAudit; PBucket; PFs; PDb])|].
  - foot.
  - intros r w' Ha. exact (Ha PRedis ltac:(part_notin)).
Qed.

(** C39: a scrape never fails and changes nothing.  It answers the exposition of
    a registry that has exactly the four observed queues, the two worker queues
    and their dead-letter lists; every value in it was read from Redis during
    the scrape, or is zero because that command failed; so while Redis answers
    the depths are the lengths of the queues.  The heartbeat moves only when the
    expired transfers were really dealt with: a cleanup tick never fails, and
    either leaves Redis as it was or was a cleanup that returned normally, and
    then only the heartbeat key changes, to the second of the clock. *)
Theorem scrape_spec reg w r w' :
  (∀ q, is_Some (assoc q (queue_depth reg)) → q ∈ _OBSERVED_QUEUES) →
  metrics of_int of_text generate_latest reg w = (r, w') →
  _OBSERVED_QUEUES = (λ q, q) <$> [Queues.UPLOAD_READY; Queues.EMAIL_QUEUE;
    Dlq._dlq_name Queues.UPLOAD_READY; Dlq._dlq_name Queues.EMAIL_QUEUE] ∧
  agree [PTick] w w' ∧
  (∃ reg', r = Ok (reg', generate_latest reg') ∧
    (∀ q, is_Some (assoc q (queue_depth reg')) ↔ q ∈ _OBSERVED_QUEUES) ∧
    (∀ q v, assoc q (queue_depth reg') = Some v →
       reading (World.tick w) (of_int 0) (depth_at (World.redis w) q) v) ∧
    reading (World.tick w) (of_int 0) (heartbeat_at (World.redis w)) (cleanup_last_run reg')) ∧
  ∀ w0 r0 w1, WorkerMain._cleanup_tick w0 = (r0, w1) →
    r0 = Ok tt ∧
    (World.redis w1 = World.redis w0 ∨
     (is_ok (with_session Cleanup.run_cleanup_once w0).1 = true ∧
      ∃ i j, (World.tick (with_session Cleanup.run_cleanup_once w0).2 ≤ i ≤ j)%nat ∧
        heartbeat_at (World.redis w1) (clock j) = of_int (clock i / second) ∧
        ∀ k, k ≠ _CLEANUP_HEARTBEAT_KEY →
          r_view (World.redis w1) (clock j) k = r_view (World.redis w0) (clock j) k)).
Proof.
  intros Hreg E. split; [done|]. cut (agree [PTick] w w' ∧ ∃ reg', r = Ok (reg', generate_latest reg') ∧
    (∀ q, is_Some (assoc q (queue_depth reg')) ↔ q ∈ _OBSERVED_QUEUES) ∧
    (∀ q v, assoc q (queue_depth reg') = Some v →
       reading (World.tick w) (of_int 0) (depth_at (World.redis w) q) v) ∧
    reading (World.tick w) (of_int 0) (heartbeat_at (World.redis w)) (cleanup_last_run reg')).
  - intros [Ha Hs]. split; [exact Ha|]. split; [exact Hs|]. clear -XOk.
    intros w0. refine (wp_of_run _ _ (λ r0 w1, _) _). unfold WorkerMain._cleanup_tick. do 3 wp_step.
    apply wp_of. intros r1 w1 E1. pose proof (wp_run _ _ _ _ _ (cleanup_redis w0) E1) as Hr.
    cbv beta in Hr. destruct r1 as [n|e]; repeat wp_step; [|by split; [|left]].
    rewrite E1. cbn [negb]. do 3 wp_step. unfold redis_set.
    apply wp_redis; [by split; [|left]|]. cbv zeta. split; [done|]. right. split; [done|].
    exists (World.tick w1), (S (S (World.tick w1))). split; [simpl; lia|]. cbn [World.redis World.set_redis].
    unfold heartbeat_at. split.
    + rewrite r_set_view by done. by rewrite decide_True.
    + intros k Hk. rewrite r_set_view, decide_False by done. by rewrite <- Hr.
  - revert r w' E. refine (wp_of_run _ _ (λ r w', _) _). unfold metrics. wp_step.
    eapply wp_mono; [by apply observe_queues|]. intros r1 w1 (reg1 & -> & Ha & Ht & _ & Hq & Hv).
    wp_step. eapply wp_mono; [apply observe_heartbeat|]. intros r2 w2 (reg2 & -> & Ha2 & Hd & Hb).
    wp_step. split; [by etrans|]. exists reg2. rewrite Hd.
    rewrite (Ha PRedis ltac:(part_notin) : World.redis _ = _) in Hb.
    do 3 (split; [done|]). by eapply reading_later.
Qed.

End metrics_theorems.

(** ** Witness *)

Section metrics_witnesses.
#[local] Instance demo_services : Services := Sim.calm.
#[local] Instance demo_services_ok : ServicesOk := Sim.calm_ok.
#[local] Instance demo_config : Config := Demo.config.

(** Floats as decimal fractions are enough here. *)
Definition demo_text (s : pystr) : option Z := int10 s.

Definition demo_exposition (r : Metrics.Registry Z) : bytes :=
  Metrics.cleanup_last_run r :: (Metrics.queue_depth r).*2.

(** One job in the upload queue and a cleanup tick, then a scrape. *)
Definition demo_world : World :=
  (WorkerMain._cleanup_tick (redis_lpush Queues.UPLOAD_READY (JObj []) (Demo.world empty_db)).2).2.

Definition demo_scrape : res (Metrics.Registry Z * bytes) * World :=
  Metrics.metrics (λ n, n) demo_text demo_exposition (Metrics._REGISTRY (λ n, n)) demo_world.

Lemma scrape_spec_witness :
  demo_scrape.1 = Ok (Metrics.mkRegistry
    [(u "upload:ready", 1); (u "email:queue", 0); (u "upload:ready:dlq", 0);
     (u "email:queue:dlq", 0)] 1000, [1000; 1; 0; 0; 0]) ∧
  agree [PTick] demo_world demo_scrape.2.
Proof.
  split; [vm_compute; reflexivity|].
  refine (proj1 (proj2 (scrape_spec (λ n, n) demo_text demo_exposition
    (Metrics._REGISTRY (λ n, n)) demo_world demo_scrape.1 demo_scrape.2 _ (surjective_pairing _)))).
  intros q [v Hv]. discriminate Hv.
Defined.
End metrics_witnesses.
