(* ===== verification/AdminAuth.v ===== *)
(** Admin login, sessions and roles ([routers/admin.py], first part). *)
From S2P Require Import Prelude Text Services Model Effects Support Gates RateLimit Http.
From S2P Require Import Envelope Session Auth.

(** [schemas.admin.LoginRequest] *)
Module LoginRequest.
Record t := mk { email : pystr; password : pystr; totp_code : pystr }.

Definition validate (r : t) : res t :=
  if (1 <=? zlen (password r)) && (zlen (password r) <=? 256)
     && (6 <=? zlen (totp_code r)) && (zlen (totp_code r) <=? 8)
  then Ok r else Err ValidationError.
End LoginRequest.

Module AdminAuth.
Section admin_auth.
Context {X : Services} {C : Config}.

Definition SESSION_COOKIE : pystr := u "session_id".
Definition _SESSION_TTL : Z := 30 * 60.

Definition _cookie_secure : bool := negb dev_insecure_cookies.

(** [select(Admin).where(Admin.email == email)] on the unique [citext] column. *)
Definition find_admin (email : pystr) (d : DB.t) : option Admin.t :=
  head (rows (λ a, BlocklistChecker.citext_eqb (Admin.email a) email) (DB.admins d)).

Definition jtime (o : option datetime) : json :=
  match o with Some t => JStr (isoformat t) | None => JNull end.

(** [AdminPublic(...).model_dump(mode="json")] *)
Definition admin_public (a : Admin.t) : json :=
  JObj [(u "id", JStr (uuid_str (Admin.id a))); (u "email", JStr (Admin.email a));
        (u "role", JStr (Admin.role a)); (u "disabled", JBool (Admin.disabled a));
        (u "totp_enrolled", JBool (Admin.totp_enrolled a));
        (u "last_login_at", jtime (Admin.last_login_at a))].

(** A failed check is counted and the count committed before the answer. *)
Definition refuse (a : Admin.t) (error : string) {A} : M A :=
  t ← now;
  update_admin (Admin.id a) (AuthService.register_failure t);;
  commit;;
  raise (http_err 401 error).

(** The TOTP secret of an enrolled admin: wrapped, or legacy plaintext. *)
Definition totp_secret_str (secret : bytes) : M pystr :=
  if Secrets.is_wrapped_totp secret then
    master ← State.get_master_key;
    previous ← State.get_previous_master_key;
    lift (Secrets.unwrap_totp_secret master secret previous)
  else lift (utf8_decode secret).

Definition logged_in (t : datetime) (a : Admin.t) : Admin.t :=
  Admin.set_last_login_at (Some t) (AuthService.reset_failures a).

Definition session_cookie (sid : pystr) : list (pystr * pystr) :=
  Cookies.set_cookie [] SESSION_COOKIE sid (Some _SESSION_TTL) (u "/") None _cookie_secure true
    (Some (u "strict")).

Definition login (payload : LoginRequest.t) : M Response :=
  found ← query (find_admin (LoginRequest.email payload));
  match found with
  | None => raise (http_err 401 "invalid_credentials")
  | Some admin =>
      if Admin.disabled admin then raise (http_err 403 "disabled")
      else
        t0 ← now;
        if AuthService.is_locked t0 admin then raise (http_err 423 "locked")
        else if negb (AuthService.verify_password (LoginRequest.password payload)
                        (Admin.password_hash admin)) then
          refuse admin "invalid_credentials"
        else if negb (Admin.totp_enrolled admin) then raise (http_err 400 "totp_not_enrolled")
        else match Admin.totp_secret admin with
             | None => raise (http_err 500 "totp_missing")
             | Some secret =>
                 s ← totp_secret_str secret;
                 ok ← AuthService.verify_totp s (LoginRequest.totp_code payload);
                 if negb ok then refuse admin "invalid_totp"
                 else
                   t ← now;
                   update_admin (Admin.id admin) (logged_in t);;
                   commit;;
                   sid ← SessionStore.create _SESSION_TTL (Admin.id admin);
                   mret (mkResponse 200 (session_cookie sid)
                           (JObj [(u "admin", admin_public (logged_in t admin))]))
             end
  end.

Definition session_id (request : Request) : pystr :=
  default [] (assoc SESSION_COOKIE (rq_cookies request)).

Definition logout (request : Request) : M Response :=
  let sid := session_id request in
  (if nonempty sid then SessionStore.destroy sid else mret tt);;
  mret (mkResponse 204 (Cookies.delete_cookie [] SESSION_COOKIE (u "/") None) JNull).

(** [_AdminCtx] is the admin row the session belongs to. *)
Definition require_session (request : Request) : M Admin.t :=
  let sid := session_id request in
  if negb (nonempty sid) then raise (http_err 401 "no_session")
  else
    data ← SessionStore.load sid;
    match data with
    | None => raise (http_err 401 "expired")
    | Some data =>
        SessionStore.touch _SESSION_TTL sid;;
        admin ← get_admin (SessionStore.admin_id data);
        match admin with
        | Some a => if Admin.disabled a then raise (http_err 401 "admin_gone") else mret a
        | None => raise (http_err 401 "admin_gone")
        end
    end.

Definition require_admin_role (request : Request) : M Admin.t :=
  ctx ← require_session request;
  if bool_decide (Admin.role ctx = u "admin") then mret ctx
  else raise (http_err 403 "admin_role_required").

Definition require_viewer_or_admin (request : Request) : M Admin.t :=
  ctx ← require_session request;
  if bool_decide (Admin.role ctx ∈ [u "admin"; u "viewer"]) then mret ctx
  else raise (http_err 403 "role_forbidden").

Definition me (request : Request) : M json :=
  ctx ← require_session request;
  mret (admin_public ctx).

End admin_auth.
End AdminAuth.

(** ** Footprints *)

Section admin_auth_footprints.
Context {X : Services} {C : Config}.

Lemma touches_require_session r : touches [PTick; PRedis] (AdminAuth.require_session r).
Proof. unfold AdminAuth.require_session. foot. Qed.
#[local] Hint Resolve touches_require_session : foot.
Lemma touches_require_admin_role r : touches [PTick; PRedis] (AdminAuth.require_admin_role r).
Proof. unfold AdminAuth.require_admin_role. foot. Qed.
#[local] Hint Resolve touches_require_admin_role : foot.
Lemma touches_require_viewer_or_admin r : touches [PTick; PRedis] (AdminAuth.require_viewer_or_admin r).
Proof. unfold AdminAuth.require_viewer_or_admin. foot. Qed.
#[local] Hint Resolve touches_require_viewer_or_admin : foot.
Lemma touches_totp_secret_str s : touches [] (AdminAuth.totp_secret_str s).
Proof. unfold AdminAuth.totp_secret_str. foot. Qed.
#[local] Hint Resolve touches_totp_secret_str : foot.
Lemma touches_logout r : touches [PTick; PRedis] (AdminAuth.logout r).
Proof. unfold AdminAuth.logout. foot. Qed.
#[local] Hint Resolve touches_logout : foot.

End admin_auth_footprints.

#[export] Hint Resolve touches_require_session touches_require_admin_role touches_require_viewer_or_admin touches_totp_secret_str
  touches_logout : foot.
