(* ===== verification/AdminApi.v ===== *)
(** Admin management endpoints ([routers/admin.py]): transfers, blocklists,
    settings, logs and accounts. *)
From stdpp Require Import sorting.
From S2P Require Import Prelude Text Services Model Effects Storage Support Gates RateLimit Http.
From S2P Require Import Envelope Session Auth AdminAuth Tus Public.
#[local] Open Scope Z_scope.

(** * Cursors and pages *)
Module Paging.
Section paging.
Context {X : Services}.

(** [f"{ts.isoformat()}|{id_}"] *)
Definition _encode_cursor (ts : datetime) (id_ : pystr) : pystr := isoformat ts ++ u "|" ++ id_.

Definition _decode_cursor (raw : pystr) : option (datetime * uuid) :=
  match partition_on 124 raw with
  | (ts_str, Some id_str) =>
      match fromisoformat ts_str, uuid_parse id_str with
      | Some ts, Ok i => Some (ts, i)
      | _, _ => None
      end
  | _ => None
  end.

(** Row comparison [(a, b) < (c, d)] of SQL. *)
Definition before (x y : Z * Z) : bool :=
  (x.1 <? y.1) || ((x.1 =? y.1) && (x.2 <? y.2)).

(** [ORDER BY ts DESC, id DESC] *)
Definition newest_first {A} (key : A → Z * Z) (a b : A) : Prop := before (key a) (key b) = false.
#[global] Instance newest_first_dec {A} (key : A → Z * Z) a b : Decision (newest_first key a b).
Proof. unfold newest_first. apply _. Defined.

(** [limit(limit + 1)], then the page and the row its cursor is made of. *)
Definition page {A} (limit : Z) (rows : list A) : list A * option A :=
  let fetched := take (Z.to_nat (limit + 1)) rows in
  let items := take (Z.to_nat limit) fetched in
  (items, if zlen fetched >? limit then last items else None).

Definition clamp (hi limit : Z) : Z := Z.max 1 (Z.min limit hi).

(** A [where] that an absent query parameter leaves out. *)
Definition when {A} (o : option A) (p : A → bool) : bool :=
  match o with Some a => p a | None => true end.

(** [if s:] on an optional string parameter. *)
Definition given (o : option pystr) : option pystr :=
  match o with Some (_ :: _) => o | _ => None end.

(** The condition a cursor adds, when it decodes. *)
Definition after_cursor (cursor : option pystr) (key : Z * Z) : bool :=
  when (given cursor ≫= _decode_cursor) (before key).

(** SQL [LIKE]: percent matches any string, underscore any character, a
    backslash quotes. *)
Fixpoint like (p : pystr) : pystr → bool :=
  match p with
  | [] => λ s, negb (nonempty s)
  | c :: p' =>
      if c =? 37 then
        (fix any (s : pystr) : bool :=
           like p' s || match s with [] => false | _ :: s' => any s' end)
      else if c =? 95 then
        λ s, match s with [] => false | _ :: s' => like p' s' end
      else if c =? 92 then
        match p' with
        | [] => λ _, false
        | d :: p'' => λ s, match s with [] => false | x :: s' => (x =? d) && like p'' s' end
        end
      else λ s, match s with [] => false | x :: s' => (x =? c) && like p' s' end
  end.

Definition ilike (s p : pystr) : bool := like (lower p) (lower s).

End paging.
End Paging.

(** * Transfers *)
Module AdminTransfers.
Import Paging.

Record Query := mkQuery {
  q_status : option pystr; q_country : option pystr; q_size_min : option Z;
  q_size_max : option Z; q_q : option pystr; q_limit : Z; q_cursor : option pystr
}.

(** [TransferRow] *)
Record TransferRow := mkTransferRow {
  tr_id : uuid; tr_sender_email : pystr; tr_sender_ip : pystr; tr_sender_country : option pystr;
  tr_total_size : Z; tr_file_count : Z; tr_status : Status; tr_created_at : datetime;
  tr_expires_at : datetime
}.

Record TransferListResponse := mkTransferListResponse {
  tl_items : list TransferRow; tl_next_cursor : option pystr
}.

Record TransferDetailResponse := mkTransferDetailResponse {
  td_transfer : Transfer.t;
  td_files : list (uuid * pystr * Z * pystr);
  td_recipients : list (pystr * option datetime * option pystr);
  td_downloads : list Download.t
}.

Section transfers.
Context {X : Services} {C : Config}.

Definition transfer_row (t : Transfer.t) : TransferRow :=
  mkTransferRow (Transfer.id t) (Transfer.sender_email t) (Transfer.sender_ip t)
    (Transfer.sender_country t) (Transfer.total_size t) (Transfer.file_count t)
    (Transfer.status t) (Transfer.created_at t) (Transfer.expires_at t).

Definition sort_key (t : Transfer.t) : Z * Z := (Transfer.created_at t, Transfer.id t).

(** The search term, ignored below three characters. *)
Definition search_term (q : option pystr) : option pystr :=
  match given q with
  | Some s => if 3 <=? zlen s then Some (u "%" ++ s ++ u "%") else None
  | None => None
  end.

Definition matches (d : DB.t) (r : Query) (t : Transfer.t) : bool :=
  when (given (q_status r)) (λ s, bool_decide (status_str (Transfer.status t) = s)) &&
  when (given (q_country r)) (λ c, bool_decide (Transfer.sender_country t = Some c)) &&
  when (q_size_min r) (λ n, n <=? Transfer.total_size t) &&
  when (q_size_max r) (λ n, Transfer.total_size t <=? n) &&
  when (search_term (q_q r)) (λ p,
    ilike (Transfer.sender_email t) p ||
    existsb (λ f, ilike (TransferFile.filename f) p) (Tus.files_of (Transfer.id t) d)).

Definition selected (r : Query) (d : DB.t) : list Transfer.t :=
  merge_sort (newest_first sort_key)
    (rows (λ t, matches d r t && after_cursor (q_cursor r) (sort_key t)) (DB.transfers d)).

Definition list_page (r : Query) (d : DB.t) : TransferListResponse :=
  let '(items, more) := page (clamp 200 (q_limit r)) (selected r d) in
  mkTransferListResponse (transfer_row <$> items)
    ((λ t, _encode_cursor (Transfer.created_at t) (uuid_str (Transfer.id t))) <$> more).

Definition admin_list_transfers (request : Request) (r : Query) : M TransferListResponse :=
  AdminAuth.require_session request;;
  query (list_page r).

Definition not_found : exn := http_err 404 "not_found".

Definition admin_get_transfer (transfer_id : uuid) (request : Request)
  : M TransferDetailResponse :=
  AdminAuth.require_session request;;
  t ← get_transfer transfer_id;
  match t with
  | None => raise not_found
  | Some t =>
      files ← query (Tus.files_of transfer_id);
      recipients ← query (λ d, rows (λ r, TransferRecipient.transfer_id r =? transfer_id)
                                    (DB.recipients d));
      downloads ← query (λ d, merge_sort Public.later_first
        (filter (λ x, Download.transfer_id x = transfer_id) (DB.downloads d)));
      mret (mkTransferDetailResponse t
        ((λ f, (TransferFile.id f, TransferFile.filename f, TransferFile.size_bytes f,
                TransferFile.mime_type f)) <$> files)
        ((λ r, (TransferRecipient.email r, TransferRecipient.email_sent_at r,
                TransferRecipient.email_status r)) <$> recipients)
        downloads)
  end.

Definition no_content : Response := mkResponse 204 [] JNull.

Definition admin_delete_transfer (transfer_id : uuid) (request : Request) : M Response :=
  ctx ← AdminAuth.require_admin_role request;
  t ← get_transfer transfer_id;
  match t with
  | None => raise not_found
  | Some t =>
      if decide (Transfer.status t = Deleted) then mret no_content
      else
        suppress (Storage.delete_transfer transfer_id);;
        cur ← now;
        update_transfer transfer_id (Public.mark_deleted cur);;
        AdminActions.record (Admin.id ctx) (u "delete_transfer") (Some (u "transfer"))
          (Some (uuid_str transfer_id)) (Some (HttpUtils.client_ip request)) None;;
        commit;;
        mret no_content
  end.

Definition admin_revoke_transfer (transfer_id : uuid) (request : Request) : M Response :=
  ctx ← AdminAuth.require_admin_role request;
  t ← get_transfer transfer_id;
  match t with
  | None => raise not_found
  | Some t =>
      if Public.closed_status (Transfer.status t) then mret no_content
      else
        cur ← now;
        update_transfer transfer_id (Public.mark_revoked cur);;
        AdminActions.record (Admin.id ctx) (u "revoke_transfer") (Some (u "transfer"))
          (Some (uuid_str transfer_id)) (Some (HttpUtils.client_ip request)) None;;
        commit;;
        mret no_content
  end.

End transfers.
End AdminTransfers.

(** * Blocklists *)
Module AdminBlocklist.

Inductive Kind := Ips | Domains | Emails.

(** [schemas.admin.BlocklistAddRequest] and [BlocklistEntry] *)
Record BlocklistAddRequest := mkBlocklistAddRequest {
  ba_value : pystr; ba_reason : option pystr; ba_expires_at : option datetime
}.

Record BlocklistEntry := mkBlocklistEntry {
  be_value : pystr; be_reason : option pystr; be_added_at : datetime;
  be_expires_at : option datetime
}.

Section blocklist.
Context {X : Services} {C : Config}.

(** [_BLOCKLIST_KINDS] *)
Definition kind_of (kind : pystr) : option Kind :=
  if decide (kind = u "ips") then Some Ips
  else if decide (kind = u "domains") then Some Domains
  else if decide (kind = u "emails") then Some Emails
  else None.

Definition unknown_kind : exn := http_err 404 "unknown_kind".

Definition is_ldh (c : Z) : bool := ((97 <=? c) && (c <=? 122)) || is_digit c || (c =? 45).

(** [[a-z0-9]([a-z0-9-]*[a-z0-9])?] *)
Definition is_label (s : pystr) : bool :=
  nonempty s && forallb is_ldh s && negb (startswith s [45]) && negb (endswith s [45]).

(** At least two labels; a pattern's [$] accepts one final newline. *)
Definition _DOMAIN_RE (s : pystr) : bool :=
  let labels := split_on 46 (RateLimitMiddleware.chomp s) in
  (2 <=? zlen labels) && forallb is_label labels.

Definition _validate_blocklist_value (kind : Kind) (value : pystr) : M unit :=
  match kind with
  | Ips => match ip_network value with
           | Some _ => mret tt
           | None => raise (http_err 400 "invalid_ip_or_cidr")
           end
  | Domains => if _DOMAIN_RE (lower value) then mret tt
               else raise (http_err 400 "invalid_domain")
  | Emails => if negb (has_char 64 value) || startswith value [64] || endswith value [64]
              then raise (http_err 400 "invalid_email") else mret tt
  end.

Definition table (kind : Kind) (d : DB.t) : gmap pystr Blocklist.t :=
  match kind with
  | Ips => DB.blocklist_ips d
  | Domains => DB.blocklist_domains d
  | Emails => DB.blocklist_emails d
  end.

Definition set_table (kind : Kind) (m : gmap pystr Blocklist.t) (d : DB.t) : DB.t :=
  match kind with
  | Ips => DB.set_blocklist_ips m d
  | Domains => DB.set_blocklist_domains m d
  | Emails => DB.set_blocklist_emails m d
  end.

Definition entry_of (r : Blocklist.t) : BlocklistEntry :=
  mkBlocklistEntry (Blocklist.value r) (Blocklist.reason r) (Blocklist.added_at r)
    (Blocklist.expires_at r).

Definition admin_blocklist_list (kind : pystr) (request : Request) : M (list BlocklistEntry) :=
  AdminAuth.require_session request;;
  match kind_of kind with
  | None => raise unknown_kind
  | Some k => query (λ d, entry_of <$> (map_to_list (table k d)).*2)
  end.

(** The key a value is stored under: the canonical CIDR or the lowercase text. *)
Definition canonical (kind : Kind) (value : pystr) : pystr :=
  match kind with
  | Ips => default value (ip_network value)
  | Domains | Emails => lower value
  end.

Definition admin_blocklist_add (kind : pystr) (payload : BlocklistAddRequest) (request : Request)
  : M BlocklistEntry :=
  ctx ← AdminAuth.require_admin_role request;
  match kind_of kind with
  | None => raise unknown_kind
  | Some k =>
      _validate_blocklist_value k (ba_value payload);;
      t ← now;
      let key := canonical k (ba_value payload) in
      existing ← query (λ d, table k d !! key);
      match existing with
      | Some _ => raise (http_err 409 "already_exists")
      | None =>
          let row := Blocklist.mk key (ba_reason payload) (Some (Admin.id ctx)) t
                       (ba_expires_at payload) in
          modify_db (λ d, set_table k (<[key := row]> (table k d)) d);;
          AdminActions.record (Admin.id ctx) (u "blocklist_add_" ++ kind) (Some kind)
            (Some (ba_value payload)) (Some (HttpUtils.client_ip request))
            (Some (JObj [(u "reason", ojson (ba_reason payload))]));;
          commit;;
          mret (entry_of row)
      end
  end.

Definition admin_blocklist_delete (kind value : pystr) (request : Request) : M Response :=
  ctx ← AdminAuth.require_admin_role request;
  match kind_of kind with
  | None => raise unknown_kind
  | Some k =>
      let key := canonical k value in
      row ← query (λ d, table k d !! key);
      match row with
      | None => raise AdminTransfers.not_found
      | Some _ =>
          modify_db (λ d, set_table k (delete key (table k d)) d);;
          AdminActions.record (Admin.id ctx) (u "blocklist_remove_" ++ kind) (Some kind)
            (Some value) (Some (HttpUtils.client_ip request)) None;;
          commit;;
          mret AdminTransfers.no_content
      end
  end.

End blocklist.
End AdminBlocklist.

(** * Settings and the extension blacklist *)
Module AdminSettings.

(** The type of a field of [PatchSettingsRequest] and its bounds. *)
Inductive Field := IntField (ge : Z) (le : option Z) | BoolField | StrListField.

Section settings.
Context {X : Services} {C : Config}.

(** The fields in the order of the class. *)
Definition fields : list (pystr * Field) :=
  [(u "max_transfer_size_gb", IntField 1 (Some 100)); (u "max_ttl_days", IntField 1 (Some 90));
   (u "max_recipients", IntField 1 (Some 100)); (u "max_message_length", IntField 0 (Some 10000));
   (u "rate_hourly", IntField 1 None); (u "rate_daily", IntField 1 None);
   (u "rate_download_hourly", IntField 1 None); (u "geoip_enabled", BoolField);
   (u "geoip_countries", StrListField); (u "extension_blacklist", StrListField);
   (u "audit_retention_days", IntField 30 (Some 3650))].

Definition is_jstr (j : json) : bool := match j with JStr _ => true | _ => false end.

Definition within (ge : Z) (le : option Z) (n : Z) : bool :=
  (ge <=? n) && match le with Some m => n <=? m | None => true end.

(** The value a field takes from the body, within its bounds; an explicit null
    is accepted. *)
Definition coerce (f : Field) (v : json) : option json :=
  match f, v with
  | _, JNull => Some JNull
  | IntField ge le, _ => n ← pydantic_int v; if within ge le n then Some (JInt n) else None
  | BoolField, _ => JBool <$> pydantic_bool v
  | StrListField, JArr l => if forallb is_jstr l then Some v else None
  | StrListField, _ => None
  end.

(** One field of the body; [extra="forbid"] refuses an unknown one. *)
Definition field_value (kv : pystr * json) : option (pystr * json) :=
  f ← assoc kv.1 fields; v ← coerce f kv.2; Some (kv.1, v).

(** [PatchSettingsRequest], then [model_dump(exclude_unset=True)]: the fields the
    client sent, in the order of the class. *)
Definition validate (body : list (pystr * json)) : res (list (pystr * json)) :=
  match mapM field_value body with
  | Some values => Ok (omap (λ kf, (λ v, (kf.1, v)) <$> assoc kf.1 values) fields)
  | None => Err ValidationError
  end.

Definition put_setting (key : pystr) (value : json) (t : datetime) (by_ : uuid) : M unit :=
  modify_db (λ d, DB.set_settings
    (<[key := Setting.mk key value t (Some by_)]> (DB.settings d)) d).

Definition admin_get_settings (request : Request) : M (list (pystr * json)) :=
  AdminAuth.require_session request;;
  query (λ d, (λ r, (Setting.key r, Setting.value r)) <$> (map_to_list (DB.settings d)).*2).

(** One turn of the loop over the changes. *)
Definition patch_one (ctx : Admin.t) (request : Request) (t : datetime) (change : pystr * json)
  : M unit :=
  let '(key, new_value) := change in
  row ← get_setting key;
  let old_value := match row with Some r => Setting.value r | None => JNull end in
  put_setting key new_value t (Admin.id ctx);;
  AdminActions.record (Admin.id ctx) (u "update_setting") (Some (u "setting")) (Some key)
    (Some (HttpUtils.client_ip request))
    (Some (JObj [(u "old", old_value); (u "new", new_value)])).

Definition admin_patch_settings (body : list (pystr * json)) (request : Request)
  : M (list (pystr * json)) :=
  ctx ← AdminAuth.require_admin_role request;
  changes ← lift (validate body);
  t ← now;
  for_ changes (patch_one ctx request t);;
  commit;;
  mret changes.

Definition EXTENSION_BLACKLIST : pystr := u "extension_blacklist".

Definition as_list (v : json) : list json := match v with JArr l => l | _ => [] end.

Definition admin_get_extensions (request : Request) : M (list json) :=
  AdminAuth.require_session request;;
  row ← get_setting EXTENSION_BLACKLIST;
  mret (match row with Some r => as_list (Setting.value r) | None => [] end).

Definition contains (ext : pystr) (l : list json) : bool := existsb (json_eqb (JStr ext)) l.

(** [str(payload.get("extension", "")).strip().lower()]; the text of a value
    that is not a string never starts with a dot. *)
Definition extension_of (payload : json) : pystr :=
  match jget (u "extension") payload with
  | Some (JStr s) => lower (strip s)
  | _ => []
  end.

Definition ext_action (ctx : Admin.t) (request : Request) (action ext : pystr) : M unit :=
  AdminActions.record (Admin.id ctx) action (Some (u "setting")) (Some EXTENSION_BLACKLIST)
    (Some (HttpUtils.client_ip request)) (Some (JObj [(u "extension", JStr ext)])).

Definition admin_add_extension (payload : option json) (request : Request) : M (list json) :=
  ctx ← AdminAuth.require_admin_role request;
  match payload with
  | None => raise (http_err 400 "invalid JSON body")
  | Some (JObj _ as payload) =>
      let ext := extension_of payload in
      if negb (nonempty ext) || negb (startswith ext [46]) then
        raise (http_err 400 "extension must start with '.'")
      else if zlen ext >? 16 then raise (http_err 400 "extension too long (max 16 chars)")
      else
        row ← get_setting EXTENSION_BLACKLIST;
        t ← now;
        let current := match row with Some r => as_list (Setting.value r) | None => [] end in
        (if contains ext current then mret tt
         else put_setting EXTENSION_BLACKLIST (JArr (current ++ [JStr ext])) t (Admin.id ctx));;
        ext_action ctx request (u "add_extension") ext;;
        commit;;
        mret (if contains ext current then current else current ++ [JStr ext])
  | Some _ => raise (http_err 400 "body must be an object")
  end.

Definition admin_remove_extension (ext : pystr) (request : Request) : M Response :=
  ctx ← AdminAuth.require_admin_role request;
  row ← get_setting EXTENSION_BLACKLIST;
  match row with
  | None => raise AdminTransfers.not_found
  | Some r =>
      let current := as_list (Setting.value r) in
      if negb (contains ext current) then raise AdminTransfers.not_found
      else
        t ← now;
        put_setting EXTENSION_BLACKLIST
          (JArr (filter (λ e, json_eqb e (JStr ext) = false) current)) t (Admin.id ctx);;
        ext_action ctx request (u "remove_extension") ext;;
        commit;;
        mret AdminTransfers.no_content
  end.

End settings.
End AdminSettings.

(** * Audit log and admin actions *)
Module AdminLogs.
Import Paging.

Record AuditQuery := mkAuditQuery {
  aq_event_type : option pystr; aq_severity : option pystr; aq_ip : option pystr;
  aq_transfer_id : option uuid; aq_since : option datetime; aq_until : option datetime;
  aq_limit : Z; aq_cursor : option pystr
}.

Record ActionQuery := mkActionQuery {
  cq_admin_id : option uuid; cq_since : option datetime; cq_until : option datetime;
  cq_limit : Z; cq_cursor : option pystr
}.

Record AuditListResponse := mkAuditListResponse {
  al_items : list AuditLog.t; al_next_cursor : option pystr
}.

Record AdminActionListResponse := mkAdminActionListResponse {
  xl_items : list AdminAction.t; xl_next_cursor : option pystr
}.

Section logs.
Context {X : Services} {C : Config}.

Definition audit_key (r : AuditLog.t) : Z * Z := (AuditLog.ts r, AuditLog.id r).
Definition action_key (r : AdminAction.t) : Z * Z := (AdminAction.ts r, AdminAction.id r).

Definition audit_matches (r : AuditQuery) (x : AuditLog.t) : bool :=
  when (given (aq_event_type r)) (λ s, bool_decide (AuditLog.event_type x = s)) &&
  when (given (aq_severity r)) (λ s, bool_decide (AuditLog.severity x = s)) &&
  when (given (aq_ip r)) (λ s, match AuditLog.ip x with Some i => inet_eqb i s | None => false end) &&
  when (aq_transfer_id r) (λ i, bool_decide (AuditLog.transfer_id x = Some i)) &&
  when (aq_since r) (λ t, t <=? AuditLog.ts x) &&
  when (aq_until r) (λ t, AuditLog.ts x <=? t).

Definition audit_page (r : AuditQuery) (d : DB.t) : AuditListResponse :=
  let selected := merge_sort (newest_first audit_key)
    (filter (λ x, audit_matches r x && after_cursor (aq_cursor r) (audit_key x) = true)
       (DB.audit_log d)) in
  let '(items, more) := page (clamp 500 (aq_limit r)) selected in
  mkAuditListResponse items
    ((λ x, _encode_cursor (AuditLog.ts x) (str_int (AuditLog.id x))) <$> more).

(** A search address PostgreSQL cannot read is an error of the query. *)
Definition admin_list_audit (request : Request) (r : AuditQuery) : M AuditListResponse :=
  AdminAuth.require_session request;;
  if when (given (aq_ip r)) inet_valid then query (audit_page r) else raise ServiceError.

Definition _CSV_MAX_WINDOW_DAYS : Z := 90.
Definition day : Z := 86400 * second.

Definition range_error (error hint : string) : exn :=
  HTTPException 400 (JObj [(u "error", JStr (u error)); (u "hint", JStr (u hint))]).

Definition _validate_audit_window (since until : option datetime) : res (datetime * datetime) :=
  match since, until with
  | Some s, Some e =>
      if e <=? s then Err (range_error "bad_range" "until must be > since")
      else if e - s >? _CSV_MAX_WINDOW_DAYS * day then
        Err (range_error "window_too_large" "max window is 90 days")
      else Ok (s, e)
  | _, _ => Err (range_error "missing_range"
      "audit.csv export requires both `since` and `until` query params; max window is 90 days")
  end.

Definition ostr (o : option pystr) : pystr := default [] o.

Definition csv_row (r : AuditLog.t) : pystr :=
  join (u ",") [str_int (AuditLog.id r); isoformat (AuditLog.ts r); AuditLog.event_type r;
                AuditLog.severity r; ostr (AuditLog.ip r); ostr (AuditLog.country r);
                ostr (uuid_str <$> AuditLog.transfer_id r); ostr (uuid_str <$> AuditLog.admin_id r)]
  ++ [10].

Definition csv_header : pystr :=
  u "id,ts,event_type,severity,ip,country,transfer_id,admin_id" ++ [10].

(** The rows of an export are read after the export itself has been recorded
    and committed. *)
Definition admin_audit_csv (request : Request) (event_type severity : option pystr)
    (since until : option datetime) : M (list pystr) :=
  ctx ← AdminAuth.require_session request;
  '(s, e) ← lift (_validate_audit_window since until);
  AdminActions.record (Admin.id ctx) (u "export_audit_csv") None None
    (Some (HttpUtils.client_ip request))
    (Some (JObj [(u "since", JStr (isoformat s)); (u "until", JStr (isoformat e));
                 (u "event_type", ojson event_type); (u "severity", ojson severity)]));;
  commit;;
  rs ← query (λ d, merge_sort (newest_first audit_key)
    (filter (λ x, audit_matches (mkAuditQuery event_type severity None None (Some s) (Some e) 0 None) x
                  = true) (DB.audit_log d)));
  mret (csv_header :: (csv_row <$> rs)).

Definition action_matches (r : ActionQuery) (x : AdminAction.t) : bool :=
  when (cq_admin_id r) (λ i, bool_decide (AdminAction.admin_id x = Some i)) &&
  when (cq_since r) (λ t, t <=? AdminAction.ts x) &&
  when (cq_until r) (λ t, AdminAction.ts x <=? t).

(** This cursor is a bare timestamp. *)
Definition after_ts (cursor : option pystr) (ts : datetime) : bool :=
  when (given cursor ≫= fromisoformat) (λ c, ts <? c).

Definition action_page (r : ActionQuery) (d : DB.t) : AdminActionListResponse :=
  let selected := merge_sort (newest_first action_key)
    (filter (λ x, action_matches r x && after_ts (cq_cursor r) (AdminAction.ts x) = true)
       (DB.admin_actions d)) in
  let '(items, more) := page (clamp 500 (cq_limit r)) selected in
  mkAdminActionListResponse items ((λ x, isoformat (AdminAction.ts x)) <$> more).

(** [AdminActionRow] requires the admin's id and details that are an object. *)
Definition row_ok (x : AdminAction.t) : bool :=
  bool_decide (is_Some (AdminAction.admin_id x)) &&
  match AdminAction.details x with None | Some (JObj _) => true | Some _ => false end.

Definition admin_list_actions (request : Request) (r : ActionQuery) : M AdminActionListResponse :=
  AdminAuth.require_session request;;
  p ← query (action_page r);
  if forallb row_ok (xl_items p) then mret p else raise ValidationError.

End logs.
End AdminLogs.
