(* ===== verification/Listing.v ===== *)
(** Listing with cursors: following the cursors of [admin_list_transfers] shows
    every matching transfer exactly once, newest first, and ends; the cursors of
    the audit list are never accepted back. *)
From stdpp Require Import sorting.
From S2P Require Import Prelude Text Services Sim Model Scenario Effects Storage Support Gates RateLimit Http.
From S2P Require Import Envelope Session Auth AdminAuth Tus Public AdminApi.
#[local] Open Scope Z_scope.

Section listing.
Context {X : Services} {XOk : ServicesOk} {C : Config}.
Import Paging AdminTransfers.

(** * Cursors *)

Lemma partition_on_app sep a b : sep ∉ a → partition_on sep (a ++ sep :: b) = (a, Some b).
Proof.
  induction a as [|c a IH]; simpl; [by rewrite Z.eqb_refl|].
  intros [Hc Ha]%not_elem_of_cons. rewrite (proj2 (Z.eqb_neq c sep)) by congruence. by rewrite IH.
Qed.

Lemma cursor_roundtrip ts i : 0 ≤ i < 2 ^ 128 → _decode_cursor (_encode_cursor ts (uuid_str i)) = Some (ts, i).
Proof.
  intros Hi. unfold _decode_cursor, _encode_cursor.
  change (isoformat ts ++ u "|" ++ uuid_str i) with (isoformat ts ++ 124 :: uuid_str i).
  rewrite partition_on_app by apply iso_no_bar. by rewrite iso_roundtrip, uuid_roundtrip.
Qed.

Lemma encode_nonempty ts s : ∃ c r, _encode_cursor ts s = c :: r.
Proof. unfold _encode_cursor. destruct (isoformat ts); simpl; eauto. Qed.

(** * Newest first *)

Section order.
Context {A : Type} (key : A → Z * Z).

Lemma before_spec x y : before x y = true ↔ x.1 < y.1 ∨ (x.1 = y.1 ∧ x.2 < y.2).
Proof. unfold before. rewrite orb_true_iff, andb_true_iff, !Z.ltb_lt, Z.eqb_eq. done. Qed.

Lemma newest_spec a b :
  newest_first key a b ↔ (key b).1 < (key a).1 ∨ ((key b).1 = (key a).1 ∧ (key b).2 ≤ (key a).2).
Proof. unfold newest_first. rewrite <- not_true_iff_false, before_spec. lia. Qed.

#[local] Instance newest_total : Total (newest_first key).
Proof. intros a b. rewrite !newest_spec. lia. Qed.
#[local] Instance newest_trans : Transitive (newest_first key).
Proof. intros a b c. rewrite !newest_spec. lia. Qed.

Lemma newest_sorted l : StronglySorted (newest_first key) (merge_sort (newest_first key) l).
Proof. apply (StronglySorted_merge_sort (newest_first key)). Qed.

(** What lies behind an element of a list without equal keys. *)
Lemma filter_before pre x post :
  StronglySorted (newest_first key) (pre ++ x :: post) → NoDup (key <$> pre ++ x :: post) →
  filter (λ y, before (key y) (key x) = true) (pre ++ x :: post) = post.
Proof.
  intros Hs Hn. rewrite filter_app, filter_cons_False.
  2:{ rewrite before_spec. lia. }
  assert (Hpre : filter (λ y, before (key y) (key x) = true) pre = []).
  { apply filter_none, Forall_forall. intros y Hy.
    pose proof (StronglySorted_app_1_elem_of _ _ _ y x Hs Hy ltac:(left)) as Hyx.
    apply newest_spec in Hyx. rewrite before_spec. lia. }
  rewrite Hpre. apply filter_all, Forall_forall. intros y Hy.
  apply StronglySorted_app_1_r, StronglySorted_cons in Hs as [Hx _].
  rewrite Forall_forall in Hx. specialize (Hx y Hy). apply newest_spec in Hx.
  assert (Hne : key y ≠ key x).
  { intros E. rewrite fmap_app, fmap_cons in Hn. apply NoDup_app in Hn as (_ & _ & Hn).
    apply NoDup_cons in Hn as [Hn _]. apply Hn. rewrite <- E. by apply list_elem_of_fmap_2. }
  apply before_spec. destruct (key x) as [a b], (key y) as [a' b']. simpl in *.
  destruct (decide (a' = a)), (decide (b' = b)); subst; try done; lia.
Qed.

(** Sorting commutes with filtering. *)
Lemma sort_filter (P : A → Prop) `{∀ a, Decision (P a)} l :
  NoDup (key <$> l) →
  merge_sort (newest_first key) (filter P l) = filter P (merge_sort (newest_first key) l).
Proof.
  intros Hn. apply (StronglySorted_unique_strong (newest_first key)).
  - intros a b Ha Hb H1 H2. rewrite !newest_spec in *.
    assert (E : key a = key b) by (destruct (key a), (key b); simpl in *; f_equal; lia).
    rewrite merge_sort_Permutation in Ha. apply list_elem_of_filter in Ha as [_ Ha].
    apply list_elem_of_filter in Hb as [_ Hb]. rewrite merge_sort_Permutation in Hb.
    apply list_elem_of_lookup in Ha as [i Hi], Hb as [j Hj].
    assert (i = j); [|congruence]. apply (NoDup_lookup _ i j (key a) Hn); rewrite list_lookup_fmap.
    + by rewrite Hi.
    + by rewrite Hj, E.
  - apply newest_sorted.
  - pose proof (newest_sorted l) as Hs. induction Hs as [|x l' Hs IH Hx]; [constructor|].
    rewrite filter_cons. case_decide; [|done]. constructor; [done|].
    rewrite Forall_forall in *. intros y [_ Hy]%list_elem_of_filter. by apply Hx.
  - by rewrite !merge_sort_Permutation.
Qed.

End order.

(** * Pages *)

Definition with_cursor (r : Query) (c : option pystr) : Query :=
  mkQuery (q_status r) (q_country r) (q_size_min r) (q_size_max r) (q_q r) (q_limit r) c.

(** The pages a client sees that follows the cursors from the query [r]. *)
Fixpoint walk (fuel : nat) (r : Query) (d : DB.t) : option (list TransferListResponse) :=
  match fuel with
  | O => None
  | S n =>
      let p := list_page r d in
      match tl_next_cursor p with
      | None => Some [p]
      | Some c => cons p <$> walk n (with_cursor r (Some c)) d
      end
  end.

Definition matching (r : Query) (d : DB.t) : list Transfer.t :=
  merge_sort (newest_first sort_key) (rows (matches d r) (DB.transfers d)).

Lemma rows_and {V} (p q : V → bool) (m : gmap Z V) :
  rows (λ v, p v && q v) m = filter (λ v, q v = true) (rows p m).
Proof.
  unfold rows. induction (map_to_list m).*2 as [|v l IH]; [done|]. rewrite !filter_cons.
  destruct (p v) eqn:Ep, (q v) eqn:Eq; simpl; rewrite ?filter_cons, ?Eq; repeat case_decide;
    simpl in *; rewrite ?IH; try done; congruence.
Qed.

Lemma sort_keys_NoDup r d :
  keyed Transfer.id (DB.transfers d) → NoDup (sort_key <$> rows (matches d r) (DB.transfers d)).
Proof.
  intros Hk. apply (NoDup_fmap_1 snd). rewrite <- list_fmap_compose. by apply rows_keys_NoDup.
Qed.

Lemma matching_NoDup r d : keyed Transfer.id (DB.transfers d) → NoDup (sort_key <$> matching r d).
Proof.
  intros Hk. unfold matching. rewrite (merge_sort_Permutation (newest_first sort_key)).
  by apply sort_keys_NoDup.
Qed.

(** With the cursor of [x], the query selects what comes after [x]. *)
Lemma selected_after r d pre x post :
  keyed Transfer.id (DB.transfers d) → 0 ≤ Transfer.id x < 2 ^ 128 →
  matching r d = pre ++ x :: post →
  selected (with_cursor r (Some (_encode_cursor (Transfer.created_at x) (uuid_str (Transfer.id x))))) d
  = post.
Proof.
  intros Hk Hx Hm. unfold selected. cbn [with_cursor q_cursor].
  change (λ t, matches d (with_cursor r _) t && _) with
    (λ t, matches d r t && after_cursor (Some (_encode_cursor (Transfer.created_at x)
       (uuid_str (Transfer.id x)))) (sort_key t)).
  rewrite rows_and, sort_filter by by apply sort_keys_NoDup. fold (matching r d).
  unfold after_cursor. destruct (encode_nonempty (Transfer.created_at x) (uuid_str (Transfer.id x)))
    as (c & s & E). unfold given. rewrite E, <- E. cbn [mbind option_bind].
  rewrite cursor_roundtrip by done. cbn [when]. rewrite Hm.
  apply (filter_before sort_key pre x post).
  - rewrite <- Hm. apply newest_sorted.
  - rewrite <- Hm. by apply matching_NoDup.
Qed.

(** One page: what is selected splits into the page and what its cursor selects. *)
Lemma page_split {A} k (l : list A) :
  0 < k →
  (page k l = (l, None) ∧ zlen l ≤ k) ∨
  ∃ pre x post, l = pre ++ x :: post ∧ page k l = (pre ++ [x], Some x) ∧
    zlen (pre ++ [x]) = k ∧ post ≠ [].
Proof.
  intros Hk. unfold page, zlen. rewrite take_take, Nat.min_l by lia. rewrite length_take.
  destruct (decide (Z.of_nat (length l) ≤ k)) as [Hle|Hgt].
  - left. split; [|done]. rewrite !take_ge by lia. case_match eqn:E; [|done].
    rewrite Z.gtb_ltb, Z.ltb_lt in E. lia.
  - right. assert (Hl : (Z.to_nat k <= length l)%nat) by lia.
    destruct (last (take (Z.to_nat k) l)) as [x|] eqn:E.
    2:{ apply last_None in E. assert (length (take (Z.to_nat k) l) = 0%nat) as H by by rewrite E.
        rewrite length_take in H. lia. }
    apply last_Some in E as [pre E]. exists pre, x, (drop (Z.to_nat k) l).
    rewrite E. split; [|split; [|split]].
    + change (x :: drop _ l) with ([x] ++ drop (Z.to_nat k) l). rewrite app_assoc, <- E.
      by rewrite take_drop.
    + case_match eqn:E2; [done|]. rewrite Z.gtb_ltb, Z.ltb_ge in E2. lia.
    + rewrite <- E, length_take. lia.
    + intros H. assert (length (drop (Z.to_nat k) l) = 0%nat) as H0 by by rewrite H.
      rewrite length_drop in H0. lia.
Qed.

Lemma walk_all d : keyed Transfer.id (DB.transfers d) →
  (∀ i t, DB.transfers d !! i = Some t → 0 ≤ i < 2 ^ 128) →
  ∀ n r pre post, matching r d = pre ++ post → selected r d = post → (length post < n)%nat →
  ∃ ps, walk n r d = Some ps ∧ concat (tl_items <$> ps) = transfer_row <$> post ∧
    Forall (λ p, zlen (tl_items p) ≤ clamp 200 (q_limit r)) ps.
Proof.
  intros Hk Hu n. induction n as [|n IH]; intros r pre post Hm Hs Hn; [lia|].
  assert (Hc : 0 < clamp 200 (q_limit r)) by (unfold clamp; lia).
  cbn [walk]. unfold list_page. rewrite Hs.
  destruct (page_split (clamp 200 (q_limit r)) post Hc) as [[-> Hl]|(a & x & b & -> & -> & Hl & Hb)].
  - eexists. split; [done|]. simpl. rewrite app_nil_r. split; [done|].
    constructor; [|done]. simpl. unfold zlen in *. by rewrite length_fmap.
  - cbn [tl_next_cursor fmap option_fmap option_map].
    set (r' := with_cursor r _).
    assert (Hx : 0 ≤ Transfer.id x < 2 ^ 128).
    { assert (Hin : x ∈ matching r d) by (rewrite Hm; set_solver).
      unfold matching in Hin. rewrite (merge_sort_Permutation (newest_first sort_key)) in Hin.
      apply elem_of_rows in Hin as [_ [i Hi]]. rewrite (Hk _ _ Hi). by eapply Hu. }
    assert (Hm' : matching r' d = (pre ++ a ++ [x]) ++ b).
    { change (matching r' d) with (matching r d). rewrite Hm, <- !app_assoc. done. }
    destruct (IH r' _ _ Hm') as (ps & Hw & Hc' & Hf).
    + apply (selected_after r d (pre ++ a) x b Hk Hx). by rewrite Hm, <- app_assoc.
    + rewrite length_app in Hn. simpl in Hn. lia.
    + eexists. rewrite Hw. split; [done|].
      rewrite fmap_cons. cbn [concat tl_items]. rewrite Hc', <- fmap_app, <- app_assoc.
      split; [done|].
      constructor; [|done]. cbn [tl_items]. unfold zlen in *. rewrite length_fmap. lia.
Qed.

(** C30: the list of transfers.  Following the cursors from the first page ends
    after at most one page per transfer, every page has at most the (clamped)
    limit of rows, and the pages together show exactly the transfers that match
    the filters, each once, newest first, whatever ties there are among the
    creation times. *)
Theorem transfer_pages r d :
  keyed Transfer.id (DB.transfers d) →
  (∀ i t, DB.transfers d !! i = Some t → 0 ≤ i < 2 ^ 128) → q_cursor r = None →
  ∃ ps ts, walk (S (size (DB.transfers d))) r d = Some ps ∧
    concat (tl_items <$> ps) = transfer_row <$> ts ∧
    ts ≡ₚ rows (matches d r) (DB.transfers d) ∧ NoDup (Transfer.id <$> ts) ∧
    StronglySorted (newest_first sort_key) ts ∧
    Forall (λ p, zlen (tl_items p) ≤ clamp 200 (q_limit r)) ps.
Proof.
  intros Hk Hu Hr.
  assert (Hp : matching r d ≡ₚ rows (matches d r) (DB.transfers d))
    by apply (merge_sort_Permutation (newest_first sort_key)).
  destruct (walk_all d Hk Hu (S (size (DB.transfers d))) r [] (matching r d)) as (ps & Hw & Hc & Hf).
  - done.
  - unfold selected, matching. rewrite rows_and, Hr. f_equal. apply filter_all, Forall_forall. done.
  - rewrite Hp. unfold rows. rewrite <- length_map_to_list, <- (length_fmap snd).
    pose proof (length_filter (λ v, matches d r v = true) (map_to_list (DB.transfers d)).*2). lia.
  - exists ps, (matching r d). split; [done|]. split; [done|]. split; [done|]. split; [|split; [|done]].
    + rewrite Hp. by apply rows_keys_NoDup.
    + apply newest_sorted.
Qed.

(** * The audit list *)

Lemma remove_sub_length k sub s : (length (remove_sub k sub s) <= length s)%nat.
Proof.
  revert k. induction s as [|c s IH]; intros k; [by destruct k|]. simpl.
  destruct k as [|k]; [|specialize (IH k); lia].
  case_match; simpl; [specialize (IH (length sub - 1)%nat)|specialize (IH 0%nat)]; lia.
Qed.

Lemma lstrip_length p s : (length (lstrip_by p s) <= length s)%nat.
Proof. induction s as [|c s IH]; simpl; [done|]. case_match; simpl; lia. Qed.

Lemma strip_length p s : (length (strip_by p s) <= length s)%nat.
Proof.
  unfold strip_by, rstrip_by. rewrite length_rev. etrans; [apply lstrip_length|].
  rewrite length_rev. apply lstrip_length.
Qed.

(** A UUID has 32 hexadecimal digits. *)
Lemma uuid_parse_short s : (length s < 32)%nat → uuid_parse s = Err ValueError.
Proof.
  intros H. unfold uuid_parse. set (h := filter _ _).
  assert (Hh : (length h <= length s)%nat).
  { unfold h. etrans; [apply length_filter|]. etrans; [apply strip_length|].
    etrans; [apply remove_sub_length|]. apply remove_sub_length. }
  destruct (Nat.eqb (length h) 32) eqn:E; [|done]. apply Nat.eqb_eq in E. lia.
Qed.

Lemma pretty_go_length k : ∀ x s, (x < 10 ^ N.of_nat k)%N →
  (length (u (pretty_N_go x s)) <= k + length (u s))%nat.
Proof.
  induction k as [|k IH]; intros x s Hx.
  - assert (x = 0%N) as -> by (simpl in Hx; lia). by rewrite pretty_N_go_0.
  - destruct (decide (x = 0%N)) as [->|Hn]; [rewrite pretty_N_go_0; lia|].
    rewrite pretty_N_go_step by lia. etrans; [apply IH|].
    + apply N.Div0.div_lt_upper_bound. rewrite Nat2N.inj_succ, N.pow_succ_r in Hx by lia. lia.
    + unfold u. simpl. rewrite !length_fmap. lia.
Qed.

Lemma str_int_length n : 0 ≤ n < 2 ^ 63 → (length (str_int n) < 32)%nat.
Proof.
  intros Hn. unfold str_int. destruct n as [|p|p]; [vm_compute; lia| |lia].
  change (pretty (Z.pos p)) with (pretty_N (N.pos p)). unfold pretty_N. case_decide; [done|].
  eapply Nat.le_lt_trans; [apply (pretty_go_length 19)|vm_compute; lia].
  change (N.of_nat 19) with 19%N. lia.
Qed.

Definition audit_query_after (r : AdminLogs.AuditQuery) (c : pystr) : AdminLogs.AuditQuery :=
  AdminLogs.mkAuditQuery (AdminLogs.aq_event_type r) (AdminLogs.aq_severity r) (AdminLogs.aq_ip r)
    (AdminLogs.aq_transfer_id r) (AdminLogs.aq_since r) (AdminLogs.aq_until r)
    (AdminLogs.aq_limit r) (Some c).

(** C31: the audit list's cursors.  The list hands out cursors made of integer row
    ids, which its decoder takes for UUIDs: it ignores every one of them, and
    the page behind a cursor is the first page again. *)
Theorem audit_cursor_ignored r d c :
  Forall (λ x, 0 ≤ AuditLog.id x < 2 ^ 63) (DB.audit_log d) → AdminLogs.aq_cursor r = None →
  AdminLogs.al_next_cursor (AdminLogs.audit_page r d) = Some c →
  AdminLogs.audit_page (audit_query_after r c) d = AdminLogs.audit_page r d.
Proof.
  intros Hid Hr. unfold AdminLogs.audit_page at 1. rewrite Hr.
  set (l := merge_sort _ _).
  destruct (page_split (clamp 500 (AdminLogs.aq_limit r)) l) as [[-> _]|(a & x & b & E & -> & _)];
    [unfold clamp; lia|done|].
  intros [= <-].
  assert (Hx : 0 ≤ AuditLog.id x < 2 ^ 63).
  { rewrite Forall_forall in Hid. apply Hid. assert (Hin : x ∈ l) by (rewrite E; set_solver).
    unfold l in Hin. rewrite (merge_sort_Permutation (newest_first AdminLogs.audit_key)) in Hin.
    by apply list_elem_of_filter in Hin as [_ ?]. }
  assert (Hc : ∀ k, after_cursor (Some (_encode_cursor (AuditLog.ts x) (str_int (AuditLog.id x)))) k = true).
  { intros k. unfold after_cursor.
    destruct (encode_nonempty (AuditLog.ts x) (str_int (AuditLog.id x))) as (c & s & Ec).
    unfold given. rewrite Ec, <- Ec. cbn [mbind option_bind]. unfold _decode_cursor, _encode_cursor.
    change (isoformat (AuditLog.ts x) ++ u "|" ++ str_int (AuditLog.id x)) with
      (isoformat (AuditLog.ts x) ++ 124 :: str_int (AuditLog.id x)).
    rewrite partition_on_app by apply iso_no_bar. rewrite iso_roundtrip.
    by rewrite uuid_parse_short by by apply str_int_length. }
  unfold AdminLogs.audit_page. rewrite Hr. cbn [AdminLogs.aq_cursor audit_query_after].
  rewrite (list_filter_iff _ (λ x, AdminLogs.audit_matches r x &&
    after_cursor None (AdminLogs.audit_key x) = true)); [done|]. intros y. by rewrite Hc.
Qed.

End listing.

(** ** Witness *)

Section listing_witness.
#[local] Instance demo_services : Services := Sim.calm.
#[local] Instance demo_services_ok : ServicesOk := Sim.calm_ok.

(** Three transfers made at the same instant, one row per page. *)
Definition pages_db : DB.t := Demo.db_transfers
  [Demo.transfer 1 Uploading None 0; Demo.transfer 2 Deleted None 0; Demo.transfer 3 Uploading None 0] [].

Definition pages_query : AdminTransfers.Query :=
  AdminTransfers.mkQuery (Some (u "uploading")) None None None None 1 None.

Lemma pages_keyed i t :
  DB.transfers pages_db !! i = Some t → Transfer.id t = i ∧ 0 ≤ i < 2 ^ 128.
Proof.
  intros Ht%elem_of_map_to_list.
  assert (H : forallb (λ p, (Transfer.id p.2 =? p.1) && (0 <=? p.1) && (p.1 <? 2 ^ 128))
                (map_to_list (DB.transfers pages_db)) = true) by (vm_compute; reflexivity).
  rewrite forallb_forall in H. apply list_elem_of_In in Ht. specialize (H _ Ht). zbool. done.
Qed.

Lemma pages_size : size (DB.transfers pages_db) = 3%nat.
Proof. vm_compute. reflexivity. Qed.

Lemma pages_shown :
  (λ ps, (AdminTransfers.tr_id <$> concat (AdminTransfers.tl_items <$> ps), length ps))
    <$> walk 4 pages_query pages_db = Some ([3; 1], 2%nat).
Proof. vm_compute. reflexivity. Qed.

Lemma transfer_pages_witness :
  ∃ ps, walk 4 pages_query pages_db = Some ps ∧
    (AdminTransfers.tr_id <$> concat (AdminTransfers.tl_items <$> ps), length ps) = ([3; 1], 2%nat).
Proof.
  destruct (transfer_pages pages_query pages_db) as (ps & ts & Hw & _).
  - intros i t Ht. by apply pages_keyed.
  - intros i t Ht. by apply (pages_keyed i t).
  - reflexivity.
  - rewrite pages_size in Hw. exists ps. split; [exact Hw|].
    pose proof pages_shown as Hv. rewrite Hw in Hv. exact (Some_inj _ _ Hv).
Defined.

(** Two audit rows, one per page. *)
Definition audit_db : DB.t := DB.set_audit_log
  ((λ i, AuditLog.mk i 0 (u "login") (u "info") None None None None None) <$> [1; 2]) empty_db.

Definition audit_query : AdminLogs.AuditQuery :=
  AdminLogs.mkAuditQuery None None None None None None 1 None.

Lemma audit_cursor_ignored_witness :
  ∃ c, AdminLogs.al_next_cursor (AdminLogs.audit_page audit_query audit_db) = Some c ∧
    AuditLog.id <$> AdminLogs.al_items (AdminLogs.audit_page (audit_query_after audit_query c) audit_db)
    = [2].
Proof.
  destruct (AdminLogs.al_next_cursor (AdminLogs.audit_page audit_query audit_db)) as [c|] eqn:Hc;
    [|vm_compute in Hc; discriminate].
  exists c. split; [reflexivity|].
  rewrite (audit_cursor_ignored audit_query audit_db c); [vm_compute; reflexivity| |reflexivity|exact Hc].
  repeat constructor; simpl; lia.
Defined.

End listing_witness.
