(* ===== verification/AdminUsers.v ===== *)
(** Admin accounts ([routers/admin.py], accounts section, and
    [scripts/create_admin.py]). *)
From stdpp Require Import sorting.
From S2P Require Import Prelude Text Services Model Effects Support Gates RateLimit Http.
From S2P Require Import Envelope Auth AdminAuth AdminApi.
#[local] Open Scope Z_scope.

Module AdminUsers.

(** [AdminCreateRequest], [AdminUpdateRequest], [AdminRow],
    [AdminCreateResponse] *)
Record AdminCreateRequest := mkAdminCreateRequest {
  cr_email : pystr; cr_password : pystr; cr_role : pystr
}.

Record AdminUpdateRequest := mkAdminUpdateRequest {
  ur_role : option pystr; ur_disabled : option bool
}.

Record AdminRow := mkAdminRow {
  ar_id : uuid; ar_email : pystr; ar_role : pystr; ar_disabled : bool; ar_totp_enrolled : bool;
  ar_last_login_at : option datetime; ar_created_at : datetime; ar_failed_attempts : Z;
  ar_locked_until : option datetime
}.

Section users.
Context {X : Services} {C : Config}.

Definition ADMIN : pystr := u "admin".
Definition VIEWER : pystr := u "viewer".

(** [^(admin|viewer)$] *)
Definition is_role (s : pystr) : bool := bool_decide (s = ADMIN) || bool_decide (s = VIEWER).

Definition validate_create (r : AdminCreateRequest) : res AdminCreateRequest :=
  if (12 <=? zlen (cr_password r)) && (zlen (cr_password r) <=? 256) && is_role (cr_role r)
  then Ok r else Err ValidationError.

Definition validate_update (r : AdminUpdateRequest) : res AdminUpdateRequest :=
  if Paging.when (ur_role r) is_role then Ok r else Err ValidationError.

Definition admin_row (a : Admin.t) : AdminRow :=
  mkAdminRow (Admin.id a) (Admin.email a) (Admin.role a) (Admin.disabled a)
    (Admin.totp_enrolled a) (Admin.last_login_at a) (Admin.created_at a)
    (Admin.failed_attempts a) (Admin.locked_until a).

(** [_active_admin_count_stmt] *)
Definition is_active_admin (a : Admin.t) : bool :=
  negb (Admin.disabled a) && bool_decide (Admin.role a = ADMIN).

Definition active_admins (d : DB.t) : Z := zlen (rows is_active_admin (DB.admins d)).

Definition oldest_first (a b : Admin.t) : Prop := Admin.created_at a ≤ Admin.created_at b.
#[global] Instance oldest_first_dec a b : Decision (oldest_first a b).
Proof. unfold oldest_first. apply _. Defined.

Definition admin_list_admins (request : Request) : M (list AdminRow) :=
  AdminAuth.require_session request;;
  query (λ d, admin_row <$> merge_sort oldest_first (map_to_list (DB.admins d)).*2).

(** [session.add] of an account: the e-mail is unique without case. *)
Definition add_admin (a : Admin.t) : M unit :=
  clash ← query (λ d, bool_decide (is_Some (DB.admins d !! Admin.id a)) ||
    existsb (λ b, BlocklistChecker.citext_eqb (Admin.email b) (Admin.email a))
      (map_to_list (DB.admins d)).*2);
  if clash : bool then raise IntegrityError
  else modify_db (λ d, DB.set_admins (<[Admin.id a := a]> (DB.admins d)) d).

Definition min_admins : exn := http_err 409 "min_admins".

Definition admin_action (ctx : Admin.t) (request : Request) (action : string) (admin_id : uuid)
    (details : option json) : M unit :=
  AdminActions.record (Admin.id ctx) (u action) (Some (u "admin")) (Some (uuid_str admin_id))
    (Some (HttpUtils.client_ip request)) details.

Definition admin_create_admin (payload : AdminCreateRequest) (request : Request)
  : M (AdminRow * pystr) :=
  ctx ← AdminAuth.require_admin_role request;
  existing ← query (AdminAuth.find_admin (cr_email payload));
  match existing with
  | Some _ => raise (http_err 409 "duplicate_email")
  | None =>
      master ← State.get_master_key;
      secret ← AuthService.generate_totp_secret;
      wrapped ← lift (Secrets.wrap_totp_secret master secret);
      password_hash ← AuthService.hash_password (cr_password payload);
      i ← uuid4;
      created ← now;
      let a := Admin.mk i (cr_email payload) password_hash (Some wrapped) true (cr_role payload)
                 false created None 0 None in
      add_admin a;;
      admin_action ctx request "create_admin" i
        (Some (JObj [(u "email", JStr (cr_email payload)); (u "role", JStr (cr_role payload))]));;
      commit;;
      uri ← lift (AuthService.build_totp_uri secret (Admin.email a) (u "Fylix"));
      mret (admin_row a, uri)
  end.

(** The fields an update changes, as the log records them. *)
Definition update_changes (payload : AdminUpdateRequest) (a : Admin.t) : list (pystr * json) :=
  match ur_role payload with
  | Some r => if decide (r = Admin.role a) then []
              else [(u "role", JObj [(u "old", JStr (Admin.role a)); (u "new", JStr r)])]
  | None => []
  end ++
  match ur_disabled payload with
  | Some b => if Bool.eqb b (Admin.disabled a) then []
              else [(u "disabled", JObj [(u "old", JBool (Admin.disabled a)); (u "new", JBool b)])]
  | None => []
  end.

Definition apply_update (payload : AdminUpdateRequest) (a : Admin.t) : Admin.t :=
  Admin.set_disabled (default (Admin.disabled a) (ur_disabled payload))
    (Admin.set_role (default (Admin.role a) (ur_role payload)) a).

(** Disabling or demoting. *)
Definition would_reduce_active (payload : AdminUpdateRequest) (a : Admin.t) : bool :=
  bool_decide (ur_disabled payload = Some true) ||
  (bool_decide (ur_role payload = Some VIEWER) && bool_decide (Admin.role a = ADMIN)).

Definition admin_update_admin (admin_id : uuid) (payload : AdminUpdateRequest) (request : Request)
  : M AdminRow :=
  ctx ← AdminAuth.require_admin_role request;
  a ← get_admin admin_id;
  match a with
  | None => raise AdminTransfers.not_found
  | Some a =>
      count ← (if would_reduce_active payload a && is_active_admin a
               then query active_admins else mret 2);
      if count <=? 1 then raise min_admins
      else
        let changes := update_changes payload a in
        update_admin admin_id (apply_update payload);;
        (if nonempty changes
         then admin_action ctx request "update_admin" admin_id (Some (JObj changes))
         else mret tt);;
        commit;;
        mret (admin_row (apply_update payload a))
  end.

Definition enrol (wrapped : bytes) (a : Admin.t) : Admin.t :=
  Admin.set_totp_enrolled true (Admin.set_totp_secret (Some wrapped) a).

Definition admin_reset_totp (admin_id : uuid) (request : Request) : M pystr :=
  ctx ← AdminAuth.require_admin_role request;
  a ← get_admin admin_id;
  match a with
  | None => raise AdminTransfers.not_found
  | Some a =>
      master ← State.get_master_key;
      secret ← AuthService.generate_totp_secret;
      wrapped ← lift (Secrets.wrap_totp_secret master secret);
      update_admin admin_id (enrol wrapped);;
      admin_action ctx request "reset_totp" admin_id None;;
      commit;;
      lift (AuthService.build_totp_uri secret (Admin.email a) (u "Fylix"))
  end.

(** [ON DELETE SET NULL] of the columns that name an admin. *)
Definition forget (i : uuid) (o : option uuid) : option uuid :=
  if decide (o = Some i) then None else o.

Definition forget_in (i : uuid) (m : gmap pystr Blocklist.t) : gmap pystr Blocklist.t :=
  (λ r, Blocklist.set_added_by (forget i (Blocklist.added_by r)) r) <$> m.

(** [DELETE] of an account: [settings.updated_by] has no delete rule, so a row
    that names the account refuses it. *)
Definition delete_admin_row (i : uuid) : M unit :=
  referenced ← query (λ d, existsb (λ r, bool_decide (Setting.updated_by r = Some i))
                             (map_to_list (DB.settings d)).*2);
  if referenced : bool then raise IntegrityError
  else modify_db (λ d,
    DB.mk (DB.transfers d) (DB.files d) (DB.recipients d) (DB.downloads d)
      ((λ r, AuditLog.set_admin_id (forget i (AuditLog.admin_id r)) r) <$> DB.audit_log d)
      ((λ r, AdminAction.set_admin_id (forget i (AdminAction.admin_id r)) r) <$> DB.admin_actions d)
      (delete i (DB.admins d))
      (forget_in i (DB.blocklist_ips d)) (forget_in i (DB.blocklist_domains d))
      (forget_in i (DB.blocklist_emails d)) (DB.settings d)).

Definition admin_delete_admin (admin_id : uuid) (request : Request) : M Response :=
  ctx ← AdminAuth.require_admin_role request;
  a ← get_admin admin_id;
  match a with
  | None => raise AdminTransfers.not_found
  | Some a =>
      count ← query active_admins;
      if is_active_admin a && (count <=? 1) then raise min_admins
      else
        admin_action ctx request "delete_admin" admin_id
          (Some (JObj [(u "email", JStr (Admin.email a))]));;
        delete_admin_row admin_id;;
        commit;;
        mret AdminTransfers.no_content
  end.

(** [scripts/create_admin.py]: [_main]; the exit code. *)
Definition create_admin_main (key_file : MasterKey.node) (email password role : pystr) : M Z :=
  with_session
    (existing ← query (AdminAuth.find_admin email);
     match existing with
     | Some _ => mret 2
     | None =>
         secret ← AuthService.generate_totp_secret;
         master ← lift (MasterKey.load_master_key key_file false);
         wrapped ← lift (Secrets.wrap_totp_secret master secret);
         password_hash ← AuthService.hash_password password;
         i ← uuid4;
         created ← now;
         add_admin (Admin.mk i email password_hash (Some wrapped) true role false created None 0 None);;
         commit;;
         lift (AuthService.build_totp_uri secret email (u "Fylix"));;
         mret 0
     end).

(** [main]: [argparse] ends the script with code 2 on a role that is not one of
    its choices. *)
Definition create_admin_cli (key_file : MasterKey.node) (email password role : pystr) : M Z :=
  if is_role role then create_admin_main key_file email password role else mret 2.

End users.
End AdminUsers.

(** * Counting active administrators *)

Section active_facts.
Context {X : Services}.
Import AdminUsers.

(** With more than one row of a kind, some other row has that kind. *)
Lemma another_row {V} (k : V → Z) p (m : gmap Z V) i :
  keyed k m → 1 < zlen (rows p m) → ∃ j v, j ≠ i ∧ m !! j = Some v ∧ p v = true.
Proof.
  intros Hk Hl. pose proof (rows_keys_NoDup k p m Hk) as Hn.
  destruct (rows p m) as [|x [|y l]] eqn:E; [done | done |].
  assert (x ∈ rows p m) as [Hx [jx Ex]]%elem_of_rows by (rewrite E; by left).
  assert (y ∈ rows p m) as [Hy [jy Ey]]%elem_of_rows by (rewrite E; right; by left).
  simpl in Hn. rewrite (Hk _ _ Ex), (Hk _ _ Ey) in Hn.
  apply NoDup_cons in Hn as [Hn _]. rewrite not_elem_of_cons in Hn.
  destruct (decide (jx = i)) as [->|]; [exists jy, y; naive_solver | eauto].
Qed.

Lemma one_row {V} p (m : gmap Z V) i v : m !! i = Some v → p v = true → 0 < zlen (rows p m).
Proof.
  intros Hi Hp. assert (v ∈ rows p m) as Hin by (apply elem_of_rows; eauto).
  destruct (rows p m); [by inversion Hin|]. unfold zlen. simpl. lia.
Qed.

(** Only a demotion or a suspension takes an active administrator away. *)
Lemma update_keeps_active payload a :
  validate_update payload = Ok payload → is_active_admin a = true →
  would_reduce_active payload a = false → is_active_admin (apply_update payload a) = true.
Proof.
  unfold validate_update, is_active_admin, would_reduce_active, apply_update, Paging.when, is_role.
  destruct payload as [role disabled]. simpl.
  rewrite !andb_true_iff, orb_false_iff, andb_false_iff, !negb_true_iff, !bool_decide_eq_true,
    !bool_decide_eq_false.
  intros Hv [Hd Hr] [Hn1 Hn2]. rewrite Hr in *. split.
  - destruct disabled as [[]|]; simpl; done.
  - destruct role as [r|]; simpl; [|done].
    destruct (bool_decide (r = ADMIN)) eqn:E1; [by apply bool_decide_eq_true in E1|].
    destruct (bool_decide (r = VIEWER)) eqn:E2; [|done].
    apply bool_decide_eq_true in E2. subst. destruct Hn2; done.
Qed.

End active_facts.
