(* ===== verification/Schema.v ===== *)
(** The database schema: [alembic/versions] as operations on a schema value and
    the tables [app/models] declares.  The rows the migrations insert are in
    [Seeds]; here are tables, columns, constraints, indexes and extensions. *)
From S2P Require Import Prelude Text Services Sim Model Scenario Effects Support.
From S2P Require Import Auth AdminAuth AdminUsers.
#[local] Open Scope string_scope.

Module Schema.

Inductive sqltype :=
  | UUID | TEXT | CITEXT | INET | VARCHAR (n : Z) | BYTEA | BIGINT | INTEGER | BOOLEAN
  | TIMESTAMPTZ | JSONB.

#[export] Instance sqltype_eq_dec : EqDecision sqltype.
Proof. solve_decision. Defined.

(** [sa.Column]; the default is the one of the server. *)
Record column := Col {
  col_name : string; col_type : sqltype; nullable : bool; server_default : option string
}.

#[export] Instance column_eq_dec : EqDecision column.
Proof. solve_decision. Defined.

Inductive on_delete := NO_ACTION | CASCADE | SET_NULL.

#[export] Instance on_delete_eq_dec : EqDecision on_delete.
Proof. solve_decision. Defined.

Inductive constraint :=
  | PrimaryKey (cols : list string)
  | Unique (cols : list string)
  | Check_ (sql : string)
  | ForeignKey (cols : list string) (ref_table : string) (ref_cols : list string) (rule : on_delete).

#[export] Instance constraint_eq_dec : EqDecision constraint.
Proof. solve_decision. Defined.

Record table := mkTable { t_columns : list column; t_constraints : gmap string constraint }.

#[export] Instance table_eq_dec : EqDecision table.
Proof. solve_decision. Defined.

Inductive order := ASC | DESC.
#[export] Instance order_eq_dec : EqDecision order.
Proof. solve_decision. Defined.

Inductive access := BTREE | GIN_TRGM.
#[export] Instance access_eq_dec : EqDecision access.
Proof. solve_decision. Defined.

Record index := mkIndex {
  ix_table : string; ix_columns : list (string * order); ix_using : access;
  ix_where : option string
}.

#[export] Instance index_eq_dec : EqDecision index.
Proof. solve_decision. Defined.

Record schema := mkSchema {
  tables : gmap string table; indexes : gmap string index; extensions : gset string
}.

#[export] Instance schema_eq_dec : EqDecision schema.
Proof. solve_decision. Defined.

Definition empty : schema := mkSchema ∅ ∅ ∅.

(** * Operations: [None] when PostgreSQL refuses the statement *)

Definition has_column (t : table) (c : string) : bool := existsb (λ k, bool_decide (col_name k = c)) (t_columns t).

(** The name PostgreSQL gives a constraint that has none. *)
Definition default_name (tbl : string) (c : constraint) : string :=
  match c with
  | PrimaryKey _ => tbl ++ "_pkey"
  | Unique cols => tbl ++ "_" ++ String.concat "_" cols ++ "_key"
  | ForeignKey cols _ _ _ => tbl ++ "_" ++ String.concat "_" cols ++ "_fkey"
  | Check_ _ => tbl ++ "_check"
  end.

(** What a constraint on table [tbl] with columns as in [t] needs. *)
Definition constraint_ok (s : schema) (t : table) (c : constraint) : bool :=
  match c with
  | PrimaryKey cols | Unique cols => forallb (has_column t) cols
  | Check_ _ => true
  | ForeignKey cols ref ref_cols _ =>
      forallb (has_column t) cols &&
      match tables s !! ref with Some t' => forallb (has_column t') ref_cols | None => false end
  end.

Definition type_known (s : schema) (c : column) : bool :=
  match col_type c with CITEXT => bool_decide ("citext" ∈ extensions s) | _ => true end.

Definition set_table (name : string) (t : table) (s : schema) : schema :=
  mkSchema (<[name := t]> (tables s)) (indexes s) (extensions s).

(** [op.create_table] *)
Definition create_table (name : string) (cols : list column)
    (cs : list (option string * constraint)) (s : schema) : option schema :=
  let named := (λ oc, (default (default_name name oc.2) oc.1, oc.2)) <$> cs in
  let t := mkTable cols (list_to_map named) in
  if bool_decide (tables s !! name = None) && bool_decide (NoDup (col_name <$> cols)) &&
     bool_decide (NoDup named.*1) && forallb (type_known s) cols &&
     forallb (constraint_ok s t) named.*2
  then Some (set_table name t s) else None.

(** Whether a table other than [name] itself has a foreign key to it. *)
Definition referenced (s : schema) (name : string) : bool :=
  existsb (λ nt, negb (bool_decide (nt.1 = name)) &&
    existsb (λ c, match c.2 with ForeignKey _ ref _ _ => bool_decide (ref = name) | _ => false end)
      (map_to_list (t_constraints nt.2))) (map_to_list (tables s)).

(** [op.drop_table]: without CASCADE, and with the table's indexes. *)
Definition drop_table (name : string) (s : schema) : option schema :=
  if bool_decide (is_Some (tables s !! name)) && negb (referenced s name)
  then Some (mkSchema (delete name (tables s))
               (filter (λ ni : string * index, ix_table ni.2 ≠ name) (indexes s)) (extensions s))
  else None.

Definition index_ok (s : schema) (ix : index) : bool :=
  match tables s !! ix_table ix with
  | Some t => forallb (has_column t) (ix_columns ix).*1
  | None => false
  end &&
  match ix_using ix with GIN_TRGM => bool_decide ("pg_trgm" ∈ extensions s) | BTREE => true end.

Definition add_index (name : string) (ix : index) (s : schema) : option schema :=
  if bool_decide (indexes s !! name = None) && index_ok s ix
  then Some (mkSchema (tables s) (<[name := ix]> (indexes s)) (extensions s)) else None.

Definition asc (cols : list string) : list (string * order) := (λ c, (c, ASC)) <$> cols.

(** [op.create_index(name, table, columns, postgresql_where=...)] *)
Definition create_index (name tbl : string) (cols : list string) (where_ : option string)
  : schema → option schema :=
  add_index name (mkIndex tbl (asc cols) BTREE where_).

(** [CREATE INDEX ... USING gin (col gin_trgm_ops)] *)
Definition create_gin_trgm (name tbl col : string) : schema → option schema :=
  add_index name (mkIndex tbl (asc [col]) GIN_TRGM None).

(** [CREATE INDEX IF NOT EXISTS] *)
Definition add_index_if_not_exists (name : string) (ix : index) (s : schema) : option schema :=
  match indexes s !! name with Some _ => Some s | None => add_index name ix s end.

Definition drop_index_if_exists (name : string) (s : schema) : option schema :=
  Some (mkSchema (tables s) (delete name (indexes s)) (extensions s)).

Definition drop_index (name : string) (s : schema) : option schema :=
  match indexes s !! name with Some _ => drop_index_if_exists name s | None => None end.

(** [ALTER TABLE] on an existing table. *)
Definition alter_table (name : string) (f : table → option table) (s : schema) : option schema :=
  t ← tables s !! name; t' ← f t; Some (set_table name t' s).

Definition add_column (tbl : string) (c : column) : schema → option schema := λ s,
  alter_table tbl (λ t,
    if has_column t (col_name c) || negb (type_known s c) then None
    else Some (mkTable (t_columns t ++ [c])%list (t_constraints t))) s.

(** What mentions a column goes with it. *)
Definition mentions (c : string) (k : constraint) : bool :=
  match k with
  | PrimaryKey cols | Unique cols | ForeignKey cols _ _ _ => bool_decide (c ∈ cols)
  | Check_ _ => false
  end.

Definition drop_column (tbl col : string) (s : schema) : option schema :=
  s' ← alter_table tbl (λ t,
         if has_column t col
         then Some (mkTable (filter (λ c, col_name c ≠ col) (t_columns t))
                      (filter (λ nc : string * constraint, mentions col nc.2 = false) (t_constraints t)))
         else None) s;
  Some (mkSchema (tables s')
    (filter (λ ni : string * index, ¬ (ix_table ni.2 = tbl ∧ col ∈ (ix_columns ni.2).*1)) (indexes s'))
    (extensions s')).

(** [ALTER COLUMN ... SET NOT NULL] and [DROP NOT NULL]. *)
Definition set_nullable (b : bool) (tbl col : string) : schema → option schema :=
  alter_table tbl (λ t,
    if has_column t col
    then Some (mkTable ((λ c, if bool_decide (col_name c = col)
                              then Col (col_name c) (col_type c) b (server_default c) else c)
                        <$> t_columns t) (t_constraints t))
    else None).

Definition create_foreign_key (name tbl ref : string) (cols ref_cols : list string)
    (rule : on_delete) : schema → option schema := λ s,
  alter_table tbl (λ t,
    let c := ForeignKey cols ref ref_cols rule in
    if bool_decide (t_constraints t !! name = None) && constraint_ok s t c
    then Some (mkTable (t_columns t) (<[name := c]> (t_constraints t))) else None) s.

Definition drop_constraint (name tbl : string) : schema → option schema :=
  alter_table tbl (λ t,
    match t_constraints t !! name with
    | Some _ => Some (mkTable (t_columns t) (delete name (t_constraints t)))
    | None => None
    end).

Definition create_extension_if_not_exists (e : string) (s : schema) : option schema :=
  Some (mkSchema (tables s) (indexes s) ({[e]} ∪ extensions s)).

(** Whether a column or an index needs the extension. *)
Definition needs_extension (e : string) (s : schema) : bool :=
  (bool_decide (e = "citext") &&
   existsb (λ nt, existsb (λ c, bool_decide (col_type c = CITEXT)) (t_columns nt.2))
     (map_to_list (tables s))) ||
  (bool_decide (e = "pg_trgm") &&
   existsb (λ ni, bool_decide (ix_using ni.2 = GIN_TRGM)) (map_to_list (indexes s))).

Definition drop_extension_if_exists (e : string) (s : schema) : option schema :=
  if bool_decide (e ∈ extensions s) && needs_extension e s then None
  else Some (mkSchema (tables s) (indexes s) (extensions s ∖ {[e]})).

(** The statements of a migration, one after the other. *)
Definition run (ops : list (schema → option schema)) (s : schema) : option schema :=
  foldl (λ o f, o ≫= f) (Some s) ops.

Record migration := mkMigration {
  revision : string; down_revision : option string;
  upgrade : list (schema → option schema); downgrade : list (schema → option schema)
}.

End Schema.

(** * The migrations *)
Module Migrations.
Import Schema.

(** Columns that recur in the files: [sa.Column(name, type, nullable=...)]. *)
Definition required (name : string) (ty : sqltype) : column := Col name ty false None.
Definition optional (name : string) (ty : sqltype) : column := Col name ty true None.
Definition uuid_id : column := Col "id" UUID false (Some "gen_random_uuid()").
Definition timestamp_now (name : string) : column := Col name TIMESTAMPTZ false (Some "now()").
Definition flag (name : string) : column := Col name BOOLEAN false (Some "false").
(** [BigInteger(), autoincrement=True] *)
Definition serial_id : column := Col "id" BIGINT false (Some "nextval").

Definition unnamed (c : constraint) : option string * constraint := (None, c).
Definition check_named (name sql : string) : option string * constraint := (Some name, Check_ sql).
Definition fk (col ref : string) (rule : on_delete) : option string * constraint :=
  unnamed (ForeignKey [col] ref ["id"] rule).

(** ** 0001_core_tables *)

Definition transfers_columns : list column :=
  [uuid_id; required "token" TEXT; required "manage_token" TEXT; required "sender_email" CITEXT;
   required "sender_ip" INET; optional "sender_country" (VARCHAR 2); optional "sender_city" TEXT;
   optional "sender_ua" TEXT; optional "message" TEXT; required "status" TEXT;
   optional "wrapped_key" BYTEA; required "total_size" BIGINT; required "file_count" INTEGER;
   timestamp_now "created_at"; required "expires_at" TIMESTAMPTZ; optional "deleted_at" TIMESTAMPTZ;
   optional "infected_at" TIMESTAMPTZ; optional "revoked_at" TIMESTAMPTZ].

Definition recipients_columns : list column :=
  [uuid_id; required "transfer_id" UUID; required "email" CITEXT;
   optional "email_sent_at" TIMESTAMPTZ; optional "email_status" TEXT].

Definition files_columns : list column :=
  [uuid_id; required "transfer_id" UUID; required "filename" TEXT; required "safe_filename" TEXT;
   required "mime_type" TEXT; optional "extension" TEXT; required "size_bytes" BIGINT;
   required "object_key" TEXT; required "iv" BYTEA; required "sha256_cipher" BYTEA].

Definition downloads_columns : list column :=
  [uuid_id; required "transfer_id" UUID; optional "file_id" UUID; required "ip" INET;
   optional "country" (VARCHAR 2); optional "city" TEXT; optional "ua" TEXT;
   timestamp_now "started_at"; optional "completed_at" TIMESTAMPTZ; optional "bytes_sent" BIGINT;
   flag "aborted"].

Definition upgrade_0001 : list (schema → option schema) :=
  [create_extension_if_not_exists "citext"; create_extension_if_not_exists "pg_trgm";
   create_table "transfers" transfers_columns
     [check_named "transfers_status_check"
        "status IN ('uploading','ready','expired','deleted','infected','revoked')";
      check_named "transfers_message_len" "char_length(message) <= 2000";
      unnamed (PrimaryKey ["id"]); unnamed (Unique ["token"]); unnamed (Unique ["manage_token"])];
   create_index "idx_transfers_expires_ready" "transfers" ["expires_at"] (Some "status = 'ready'");
   create_index "idx_transfers_sender_ip" "transfers" ["sender_ip"] None;
   create_index "idx_transfers_sender_email" "transfers" ["sender_email"] None;
   create_gin_trgm "idx_transfers_sender_email_trgm" "transfers" "sender_email";
   create_table "transfer_recipients" recipients_columns
     [fk "transfer_id" "transfers" CASCADE; unnamed (PrimaryKey ["id"])];
   create_index "idx_recipients_transfer" "transfer_recipients" ["transfer_id"] None;
   create_index "idx_recipients_email" "transfer_recipients" ["email"] None;
   create_table "transfer_files" files_columns
     [fk "transfer_id" "transfers" CASCADE; unnamed (PrimaryKey ["id"])];
   create_index "idx_files_transfer" "transfer_files" ["transfer_id"] None;
   create_table "downloads" downloads_columns
     [fk "transfer_id" "transfers" CASCADE; fk "file_id" "transfer_files" SET_NULL;
      unnamed (PrimaryKey ["id"])];
   create_index "idx_downloads_transfer" "downloads" ["transfer_id"] None;
   create_index "idx_downloads_ip_time" "downloads" ["ip"; "started_at"] None].

Definition downgrade_0001 : list (schema → option schema) :=
  [drop_index "idx_downloads_ip_time"; drop_index "idx_downloads_transfer"; drop_table "downloads";
   drop_index "idx_files_transfer"; drop_table "transfer_files";
   drop_index "idx_recipients_email"; drop_index "idx_recipients_transfer";
   drop_table "transfer_recipients";
   drop_index_if_exists "idx_transfers_sender_email_trgm"; drop_index "idx_transfers_sender_email";
   drop_index "idx_transfers_sender_ip"; drop_index "idx_transfers_expires_ready";
   drop_table "transfers";
   drop_extension_if_exists "pg_trgm"; drop_extension_if_exists "citext"].

(** ** 0002_admin_tables *)

Definition admins_columns : list column :=
  [uuid_id; required "email" CITEXT; required "password_hash" TEXT; optional "totp_secret" BYTEA;
   flag "totp_enrolled"; required "role" TEXT; flag "disabled"; timestamp_now "created_at";
   optional "last_login_at" TIMESTAMPTZ; Col "failed_attempts" INTEGER false (Some "0");
   optional "locked_until" TIMESTAMPTZ].

Definition admin_actions_columns : list column :=
  [serial_id; timestamp_now "ts"; required "admin_id" UUID; required "action" TEXT;
   optional "target_type" TEXT; optional "target_id" TEXT; optional "ip" INET;
   optional "details" JSONB].

Definition audit_log_columns : list column :=
  [serial_id; timestamp_now "ts"; required "event_type" TEXT; required "severity" TEXT;
   optional "ip" INET; optional "country" (VARCHAR 2); optional "transfer_id" UUID;
   optional "admin_id" UUID; optional "details" JSONB].

(** A blocklist with its key column. *)
Definition blocklist_columns (key : column) : list column :=
  [key; optional "reason" TEXT; optional "added_by" UUID; timestamp_now "added_at";
   optional "expires_at" TIMESTAMPTZ].

Definition create_blocklist (name : string) (key : column) : schema → option schema :=
  create_table name (blocklist_columns key)
    [fk "added_by" "admins" NO_ACTION; unnamed (PrimaryKey [col_name key])].

Definition settings_columns : list column :=
  [required "key" TEXT; required "value" JSONB; timestamp_now "updated_at"; optional "updated_by" UUID].

Definition upgrade_0002 : list (schema → option schema) :=
  [create_table "admins" admins_columns
     [check_named "admins_role_check" "role IN ('admin','viewer')";
      unnamed (PrimaryKey ["id"]); unnamed (Unique ["email"])];
   create_table "admin_actions" admin_actions_columns
     [fk "admin_id" "admins" NO_ACTION; unnamed (PrimaryKey ["id"])];
   create_index "idx_admin_actions_admin_time" "admin_actions" ["admin_id"; "ts"] None;
   create_table "audit_log" audit_log_columns
     [check_named "audit_severity_check" "severity IN ('info','warn','error','critical')";
      unnamed (PrimaryKey ["id"])];
   create_index "idx_audit_ts" "audit_log" ["ts"] None;
   create_index "idx_audit_event_ts" "audit_log" ["event_type"; "ts"] None;
   create_index "idx_audit_ip" "audit_log" ["ip"] None;
   create_blocklist "blocklist_ips" (required "cidr" INET);
   create_blocklist "blocklist_email_domains" (required "domain" CITEXT);
   create_blocklist "blocklist_emails" (required "email" CITEXT);
   create_table "settings" settings_columns
     [fk "updated_by" "admins" NO_ACTION; unnamed (PrimaryKey ["key"])]].

Definition downgrade_0002 : list (schema → option schema) :=
  [drop_table "settings"; drop_table "blocklist_emails"; drop_table "blocklist_email_domains";
   drop_table "blocklist_ips"; drop_index "idx_audit_ip"; drop_index "idx_audit_event_ts";
   drop_index "idx_audit_ts"; drop_table "audit_log"; drop_index "idx_admin_actions_admin_time";
   drop_table "admin_actions"; drop_table "admins"].

(** ** 0004, 0005, 0007 *)

Definition upgrade_0004 : list (schema → option schema) :=
  [add_column "transfer_recipients" (optional "locale" TEXT)].
Definition downgrade_0004 : list (schema → option schema) :=
  [drop_column "transfer_recipients" "locale"].

Definition upgrade_0005 : list (schema → option schema) :=
  [set_nullable true "admin_actions" "admin_id";
   drop_constraint "admin_actions_admin_id_fkey" "admin_actions";
   create_foreign_key "admin_actions_admin_id_fkey" "admin_actions" "admins" ["admin_id"] ["id"]
     SET_NULL].
Definition downgrade_0005 : list (schema → option schema) :=
  [drop_constraint "admin_actions_admin_id_fkey" "admin_actions";
   create_foreign_key "admin_actions_admin_id_fkey" "admin_actions" "admins" ["admin_id"] ["id"]
     NO_ACTION;
   set_nullable false "admin_actions" "admin_id"].

Definition upgrade_0007 : list (schema → option schema) :=
  [create_foreign_key "audit_log_transfer_id_fkey" "audit_log" "transfers" ["transfer_id"] ["id"]
     SET_NULL;
   create_foreign_key "audit_log_admin_id_fkey" "audit_log" "admins" ["admin_id"] ["id"] SET_NULL].
Definition downgrade_0007 : list (schema → option schema) :=
  [drop_constraint "audit_log_admin_id_fkey" "audit_log";
   drop_constraint "audit_log_transfer_id_fkey" "audit_log"].

(** ** 0008 *)

Definition _TABLES : list string := ["blocklist_ips"; "blocklist_email_domains"; "blocklist_emails"].

(** One turn of the loops of 0008. *)
Definition replace_added_by (rule : on_delete) (tbl : string) : list (schema → option schema) :=
  let fkey := tbl ++ "_added_by_fkey" in
  [drop_constraint fkey tbl; create_foreign_key fkey tbl "admins" ["added_by"] ["id"] rule].

Definition upgrade_0008 : list (schema → option schema) :=
  List.concat (replace_added_by SET_NULL <$> _TABLES).
Definition downgrade_0008 : list (schema → option schema) :=
  List.concat (replace_added_by NO_ACTION <$> _TABLES).

(** ** 0009 to 0011: indexes *)

Definition upgrade_0009 : list (schema → option schema) :=
  [create_index "idx_transfers_status_active" "transfers" ["status"]
     (Some "status IN ('ready', 'infected')")].
Definition downgrade_0009 : list (schema → option schema) := [drop_index "idx_transfers_status_active"].

Definition upgrade_0010 : list (schema → option schema) :=
  [create_gin_trgm "idx_transfer_files_filename_trgm" "transfer_files" "filename"].
Definition downgrade_0010 : list (schema → option schema) :=
  [drop_index_if_exists "idx_transfer_files_filename_trgm"].

Definition upgrade_0011 : list (schema → option schema) :=
  [add_index_if_not_exists "idx_transfers_created_at_id_desc"
     (mkIndex "transfers" [("created_at", DESC); ("id", DESC)] BTREE None)].
Definition downgrade_0011 : list (schema → option schema) :=
  [drop_index_if_exists "idx_transfers_created_at_id_desc"].

(** The chain of revisions.  0003 and 0006 change rows only ([Seeds]). *)
Definition versions : list migration :=
  [mkMigration "0001" None upgrade_0001 downgrade_0001;
   mkMigration "0002" (Some "0001") upgrade_0002 downgrade_0002;
   mkMigration "0003" (Some "0002") [] [];
   mkMigration "0004" (Some "0003") upgrade_0004 downgrade_0004;
   mkMigration "0005" (Some "0004") upgrade_0005 downgrade_0005;
   mkMigration "0006" (Some "0005") [] [];
   mkMigration "0007" (Some "0006") upgrade_0007 downgrade_0007;
   mkMigration "0008" (Some "0007") upgrade_0008 downgrade_0008;
   mkMigration "0009" (Some "0008") upgrade_0009 downgrade_0009;
   mkMigration "0010" (Some "0009") upgrade_0010 downgrade_0010;
   mkMigration "0011" (Some "0010") upgrade_0011 downgrade_0011].

(** The schema after the first [n] migrations, and after all. *)
Definition at_revision (n : nat) : option schema :=
  foldl (λ o m, o ≫= run (upgrade m)) (Some empty) (take n versions).

Definition migrated : schema := default empty (at_revision (length versions)).

End Migrations.

(** * The tables [app/models] declares *)
Module Metadata.
Import Schema.

(** [name: Mapped[T] = mapped_column(type)] and [Mapped[T | None]]. *)
Definition mapped (name : string) (ty : sqltype) : column := Col name ty false None.
Definition mapped_opt (name : string) (ty : sqltype) : column := Col name ty true None.
Definition mapped_with (name : string) (ty : sqltype) (default_ : string) : column :=
  Col name ty false (Some default_).

(** Constraints a column declares: [primary_key=True], [unique=True],
    [ForeignKey(...)]; and [CheckConstraint(sql, name=...)]. *)
Definition primary_key (col : string) : option string * constraint := (None, PrimaryKey [col]).
Definition unique (col : string) : option string * constraint := (None, Unique [col]).
Definition foreign_key (col ref : string) (rule : on_delete) : option string * constraint :=
  (None, ForeignKey [col] ref ["id"] rule).
Definition CheckConstraint (sql name : string) : option string * constraint := (Some name, Check_ sql).

(** [TRANSFER_STATUSES_SQL_IN], built from [TRANSFER_STATUSES]. *)
Definition TRANSFER_STATUSES : list string :=
  ["uploading"; "ready"; "expired"; "deleted"; "infected"; "revoked"].
Definition TRANSFER_STATUSES_SQL_IN : string :=
  "(" ++ String.concat "," ((λ s, "'" ++ s ++ "'") <$> TRANSFER_STATUSES) ++ ")".

Definition Transfer : list (schema → option schema) :=
  [create_table "transfers"
     [mapped_with "id" UUID "gen_random_uuid()"; mapped "token" TEXT; mapped "manage_token" TEXT;
      mapped "sender_email" CITEXT; mapped "sender_ip" INET; mapped_opt "sender_country" (VARCHAR 2);
      mapped_opt "sender_city" TEXT; mapped_opt "sender_ua" TEXT; mapped_opt "message" TEXT;
      mapped "status" TEXT; mapped_opt "wrapped_key" BYTEA; mapped "total_size" BIGINT;
      mapped "file_count" INTEGER; mapped_with "created_at" TIMESTAMPTZ "now()";
      mapped "expires_at" TIMESTAMPTZ; mapped_opt "deleted_at" TIMESTAMPTZ;
      mapped_opt "infected_at" TIMESTAMPTZ; mapped_opt "revoked_at" TIMESTAMPTZ]
     [primary_key "id"; unique "token"; unique "manage_token";
      CheckConstraint ("status IN " ++ TRANSFER_STATUSES_SQL_IN) "transfers_status_check";
      CheckConstraint "char_length(message) <= 2000" "transfers_message_len"];
   create_index "idx_transfers_expires_ready" "transfers" ["expires_at"] (Some "status='ready'");
   create_index "idx_transfers_sender_ip" "transfers" ["sender_ip"] None;
   create_index "idx_transfers_sender_email" "transfers" ["sender_email"] None;
   create_index "idx_transfers_status_active" "transfers" ["status"]
     (Some "status IN ('ready', 'infected')")].

Definition TransferRecipient : list (schema → option schema) :=
  [create_table "transfer_recipients"
     [mapped_with "id" UUID "gen_random_uuid()"; mapped "transfer_id" UUID; mapped "email" CITEXT;
      mapped_opt "email_sent_at" TIMESTAMPTZ; mapped_opt "email_status" TEXT; mapped_opt "locale" TEXT]
     [primary_key "id"; foreign_key "transfer_id" "transfers" CASCADE];
   create_index "idx_recipients_transfer" "transfer_recipients" ["transfer_id"] None;
   create_index "idx_recipients_email" "transfer_recipients" ["email"] None].

Definition TransferFile : list (schema → option schema) :=
  [create_table "transfer_files"
     [mapped_with "id" UUID "gen_random_uuid()"; mapped "transfer_id" UUID; mapped "filename" TEXT;
      mapped "safe_filename" TEXT; mapped "mime_type" TEXT; mapped_opt "extension" TEXT;
      mapped "size_bytes" BIGINT; mapped "object_key" TEXT; mapped "iv" BYTEA;
      mapped "sha256_cipher" BYTEA]
     [primary_key "id"; foreign_key "transfer_id" "transfers" CASCADE];
   create_index "idx_files_transfer" "transfer_files" ["transfer_id"] None;
   create_gin_trgm "idx_transfer_files_filename_trgm" "transfer_files" "filename"].

Definition Download : list (schema → option schema) :=
  [create_table "downloads"
     [mapped_with "id" UUID "gen_random_uuid()"; mapped "transfer_id" UUID; mapped_opt "file_id" UUID;
      mapped "ip" INET; mapped_opt "country" (VARCHAR 2); mapped_opt "city" TEXT; mapped_opt "ua" TEXT;
      mapped_with "started_at" TIMESTAMPTZ "now()"; mapped_opt "completed_at" TIMESTAMPTZ;
      mapped_opt "bytes_sent" BIGINT; mapped_with "aborted" BOOLEAN "false"]
     [primary_key "id"; foreign_key "transfer_id" "transfers" CASCADE;
      foreign_key "file_id" "transfer_files" SET_NULL];
   create_index "idx_downloads_transfer" "downloads" ["transfer_id"] None;
   create_index "idx_downloads_ip_time" "downloads" ["ip"; "started_at"] None].

Definition Admin : list (schema → option schema) :=
  [create_table "admins"
     [mapped_with "id" UUID "gen_random_uuid()"; mapped "email" CITEXT; mapped "password_hash" TEXT;
      mapped_opt "totp_secret" BYTEA; mapped "totp_enrolled" BOOLEAN; mapped "role" TEXT;
      mapped "disabled" BOOLEAN; mapped_with "created_at" TIMESTAMPTZ "now()";
      mapped_opt "last_login_at" TIMESTAMPTZ; mapped "failed_attempts" INTEGER;
      mapped_opt "locked_until" TIMESTAMPTZ]
     [primary_key "id"; unique "email"; CheckConstraint "role IN ('admin','viewer')" "admins_role_check"]].

Definition AdminAction : list (schema → option schema) :=
  [create_table "admin_actions"
     [mapped_with "id" BIGINT "nextval"; mapped_with "ts" TIMESTAMPTZ "now()"; mapped_opt "admin_id" UUID;
      mapped "action" TEXT; mapped_opt "target_type" TEXT; mapped_opt "target_id" TEXT;
      mapped_opt "ip" INET; mapped_opt "details" JSONB]
     [primary_key "id"; foreign_key "admin_id" "admins" SET_NULL];
   create_index "idx_admin_actions_admin_time" "admin_actions" ["admin_id"; "ts"] None].

Definition AuditLog : list (schema → option schema) :=
  [create_table "audit_log"
     [mapped_with "id" BIGINT "nextval"; mapped_with "ts" TIMESTAMPTZ "now()"; mapped "event_type" TEXT;
      mapped "severity" TEXT; mapped_opt "ip" INET; mapped_opt "country" (VARCHAR 2);
      mapped_opt "transfer_id" UUID; mapped_opt "admin_id" UUID; mapped_opt "details" JSONB]
     [primary_key "id"; foreign_key "transfer_id" "transfers" SET_NULL;
      foreign_key "admin_id" "admins" SET_NULL;
      CheckConstraint "severity IN ('info','warn','error','critical')" "audit_severity_check"];
   create_index "idx_audit_ts" "audit_log" ["ts"] None;
   create_index "idx_audit_event_ts" "audit_log" ["event_type"; "ts"] None;
   create_index "idx_audit_ip" "audit_log" ["ip"] None].

(** [BlocklistIP], [BlocklistEmailDomain] and [BlocklistEmail]. *)
Definition Blocklist (name key : string) (ty : sqltype) : list (schema → option schema) :=
  [create_table name
     [mapped key ty; mapped_opt "reason" TEXT; mapped_opt "added_by" UUID;
      mapped_with "added_at" TIMESTAMPTZ "now()"; mapped_opt "expires_at" TIMESTAMPTZ]
     [primary_key key; foreign_key "added_by" "admins" SET_NULL]].

Definition Setting : list (schema → option schema) :=
  [create_table "settings"
     [mapped "key" TEXT; mapped "value" JSONB; mapped_with "updated_at" TIMESTAMPTZ "now()";
      mapped_opt "updated_by" UUID]
     [primary_key "key"; foreign_key "updated_by" "admins" NO_ACTION]].

(** [Base.metadata.create_all] on a database with the extensions. *)
Definition declared : list (schema → option schema) :=
  List.concat
    [[create_extension_if_not_exists "citext"; create_extension_if_not_exists "pg_trgm"];
     Transfer; TransferRecipient; TransferFile; Download; Admin; AdminAction; AuditLog;
     Blocklist "blocklist_ips" "cidr" INET; Blocklist "blocklist_email_domains" "domain" CITEXT;
     Blocklist "blocklist_emails" "email" CITEXT; Setting].

Definition metadata : schema := default empty (run declared empty).

(** What alembic compares of a table: not the defaults of the server. *)
Definition no_defaults (t : table) : table :=
  mkTable ((λ c, Col (col_name c) (col_type c) (nullable c) None) <$> t_columns t) (t_constraints t).

End Metadata.

(** * What the schema says about the rows of [Model] *)
Module Rows.
Import Schema.

(** A foreign key on one column that refers to ids. *)
Record reference := mkReference {
  fk_table : string; fk_column : string; fk_target : string; fk_rule : on_delete
}.

#[export] Instance reference_eq_dec : EqDecision reference.
Proof. solve_decision. Defined.

Definition foreign_keys (s : schema) : list reference :=
  List.concat ((λ nt : string * table,
    omap (λ nc : string * constraint,
      match nc.2 with
      | ForeignKey [col] ref ["id"] rule => Some (mkReference nt.1 col ref rule)
      | _ => None
      end) (map_to_list (t_constraints nt.2))) <$> map_to_list (tables s)).

Definition present (os : list (option uuid)) : list uuid := omap id os.

Definition added_by (m : gmap pystr Blocklist.t) : list uuid :=
  present (Blocklist.added_by <$> (map_to_list m).*2).

(** The ids a column of a table holds. *)
Definition columns : list (string * string * (DB.t → list uuid)) :=
  [("transfer_recipients", "transfer_id",
      λ d, TransferRecipient.transfer_id <$> (map_to_list (DB.recipients d)).*2);
   ("transfer_files", "transfer_id", λ d, TransferFile.transfer_id <$> (map_to_list (DB.files d)).*2);
   ("downloads", "transfer_id", λ d, Download.transfer_id <$> DB.downloads d);
   ("downloads", "file_id", λ d, present (Download.file_id <$> DB.downloads d));
   ("admin_actions", "admin_id", λ d, present (AdminAction.admin_id <$> DB.admin_actions d));
   ("audit_log", "transfer_id", λ d, present (AuditLog.transfer_id <$> DB.audit_log d));
   ("audit_log", "admin_id", λ d, present (AuditLog.admin_id <$> DB.audit_log d));
   ("blocklist_ips", "added_by", λ d, added_by (DB.blocklist_ips d));
   ("blocklist_email_domains", "added_by", λ d, added_by (DB.blocklist_domains d));
   ("blocklist_emails", "added_by", λ d, added_by (DB.blocklist_emails d));
   ("settings", "updated_by", λ d, present (Setting.updated_by <$> (map_to_list (DB.settings d)).*2))].

Definition refs (r : reference) (d : DB.t) : list uuid :=
  match find (λ c, bool_decide (c.1 = (fk_table r, fk_column r))) columns with
  | Some c => c.2 d
  | None => []
  end.

(** The rows with an id, by table. *)
Definition has_row (tbl : string) (i : uuid) (d : DB.t) : Prop :=
  if decide (tbl = "transfers") then is_Some (DB.transfers d !! i)
  else if decide (tbl = "transfer_files") then is_Some (DB.files d !! i)
  else if decide (tbl = "admins") then is_Some (DB.admins d !! i)
  else False.

(** [ON DELETE SET NULL] on the columns that refer to accounts. *)
Definition forget_blocks (i : uuid) (m : gmap pystr Blocklist.t) : gmap pystr Blocklist.t :=
  (λ r, if decide (Blocklist.added_by r = Some i) then Blocklist.set_added_by None r else r) <$> m.

Definition nullable_columns : list (string * string * (uuid → DB.t → DB.t)) :=
  [("admin_actions", "admin_id", λ i d, DB.set_admin_actions
      ((λ r, if decide (AdminAction.admin_id r = Some i) then AdminAction.set_admin_id None r else r)
       <$> DB.admin_actions d) d);
   ("audit_log", "admin_id", λ i d, DB.set_audit_log
      ((λ r, if decide (AuditLog.admin_id r = Some i) then AuditLog.set_admin_id None r else r)
       <$> DB.audit_log d) d);
   ("blocklist_ips", "added_by", λ i d, DB.set_blocklist_ips (forget_blocks i (DB.blocklist_ips d)) d);
   ("blocklist_email_domains", "added_by",
      λ i d, DB.set_blocklist_domains (forget_blocks i (DB.blocklist_domains d)) d);
   ("blocklist_emails", "added_by",
      λ i d, DB.set_blocklist_emails (forget_blocks i (DB.blocklist_emails d)) d)].

Definition set_null (r : reference) (i : uuid) (d : DB.t) : DB.t :=
  match find (λ c, bool_decide (c.1 = (fk_table r, fk_column r))) nullable_columns with
  | Some c => c.2 i d
  | None => d
  end.

(** The references to a table, and what deleting an account does under them:
    refused when a column without a rule holds its id, else every column with
    SET NULL is cleared and the row removed. *)
Definition referring (s : schema) (tbl : string) : list reference :=
  filter (λ r, fk_target r = tbl) (foreign_keys s).

Definition delete_account (s : schema) (i : uuid) (d : DB.t) : option DB.t :=
  if existsb (λ r, bool_decide (fk_rule r = NO_ACTION) && bool_decide (i ∈ refs r d))
       (referring s "admins")
  then None
  else Some (let d' := foldl (λ d r, set_null r i d) d (referring s "admins") in
             DB.set_admins (delete i (DB.admins d')) d').

End Rows.

(** * The schema and the code *)

Section schema_theorems.
Context {X : Services} {C : Config}.
Import Schema Migrations Metadata Rows.

(** ** The migrations *)

(** The indexes only the migrations know. *)
Definition drift : list string := ["idx_transfers_sender_email_trgm"; "idx_transfers_created_at_id_desc"].

(** Up and down again, checked by running it. *)
Definition reversible (n : nat) (m : migration) : bool :=
  match at_revision n with
  | Some s =>
      match run (upgrade m) s with
      | Some s' => bool_decide (at_revision (S n) = Some s') && bool_decide (run (downgrade m) s' = Some s)
      | None => false
      end
  | None => false
  end.

Lemma all_reversible : forallb (λ nm, reversible nm.1 nm.2) (zip (seq 0 11) versions) = true.
Proof. vm_compute. reflexivity. Qed.

Lemma versions_linked :
  (λ m, down_revision m) <$> versions = None :: ((λ m, Some (revision m)) <$> take 10 versions).
Proof. vm_compute. reflexivity. Qed.

Definition shape (ix : index) : string * list (string * order) * access :=
  (ix_table ix, ix_columns ix, ix_using ix).

Lemma tables_agree : bool_decide (no_defaults <$> tables migrated = no_defaults <$> tables metadata).
Proof. vm_compute. exact I. Qed.

Lemma indexes_agree :
  bool_decide (shape <$> filter (λ ni : string * index, ni.1 ∉ drift) (indexes migrated)
               = shape <$> indexes metadata).
Proof. vm_compute. exact I. Qed.

Lemma drift_exists : bool_decide ((list_to_set drift : gset string) ⊆ dom (indexes migrated)).
Proof. vm_compute. exact I. Qed.

Lemma reversible_spec n m :
  reversible n m = true → ∃ s s', at_revision n = Some s ∧ run (upgrade m) s = Some s' ∧
    at_revision (S n) = Some s' ∧ run (downgrade m) s' = Some s.
Proof.
  unfold reversible. destruct (at_revision n) as [s|] eqn:E1; [|done].
  destruct (run (upgrade m) s) as [s'|] eqn:E2; [|done].
  intros [H1 H2]%andb_true_iff. exists s, s'.
  apply bool_decide_eq_true in H1, H2. done.
Qed.

(** No index of the transfers starts with their creation time. *)
Definition no_created_at (s : schema) : bool :=
  forallb (λ ni, negb (bool_decide (ix_table ni.2 = "transfers")) ||
      negb (bool_decide (head (ix_columns ni.2).*1 = Some "created_at")))
    (map_to_list (indexes s)).

Lemma before_0011 : from_option no_created_at false (at_revision 10) = true.
Proof. vm_compute. reflexivity. Qed.

Lemma from_option_true {A} (f : A → bool) o a :
  from_option f false o = true → o = Some a → f a = true.
Proof. by intros H ->. Qed.

Lemma head_runs : (at_revision 11 = Some migrated) ∧ run declared empty = Some metadata.
Proof. split; vm_compute; reflexivity. Qed.

(** C37: the migrations.  They form one chain; from an empty database every
    migration runs, and taking it back restores exactly the schema it started
    from, extensions and indexes included.  The schema at the head of the chain
    has the tables, columns, types, nullability, checks, uniqueness and foreign
    keys with their delete rules that the models declare (the models leave some
    defaults of the server out); the indexes are those of the models plus the
    trigram index on the sender and the index of the transfer list, which the
    models do not declare.  No migration before 0011 makes an index that starts
    with the creation time of a transfer. *)
Theorem migrations_spec :
  (down_revision <$> versions = None :: ((λ m, Some (revision m)) <$> take 10 versions)) ∧
  (∀ n m, versions !! n = Some m →
    ∃ s s', at_revision n = Some s ∧ run (upgrade m) s = Some s' ∧
      at_revision (S n) = Some s' ∧ run (downgrade m) s' = Some s) ∧
  at_revision 11 = Some migrated ∧ run declared empty = Some metadata ∧
  no_defaults <$> tables migrated = no_defaults <$> tables metadata ∧
  shape <$> filter (λ ni : string * index, ni.1 ∉ drift) (indexes migrated)
    = shape <$> indexes metadata ∧
  (list_to_set drift : gset string) ⊆ dom (indexes migrated) ∧
  (∀ s, at_revision 10 = Some s →
    ∀ name ix, indexes s !! name = Some ix → ix_table ix = "transfers" →
      head (ix_columns ix).*1 ≠ Some "created_at").
Proof.
  split; [exact versions_linked|]. split.
  { intros n m Hm. apply reversible_spec. pose proof all_reversible as H.
    rewrite forallb_forall in H. apply (H (n, m)), list_elem_of_In, list_elem_of_lookup.
    exists n. rewrite lookup_zip_with. apply lookup_lt_Some in Hm as Hl.
    rewrite lookup_seq_lt by exact Hl. by rewrite Hm. }
  split; [exact (proj1 head_runs)|]. split; [exact (proj2 head_runs)|].
  split; [exact (bool_decide_unpack _ tables_agree)|].
  split; [exact (bool_decide_unpack _ indexes_agree)|].
  split; [exact (bool_decide_unpack _ drift_exists)|].
  intros s Hs name ix Hix Ht Hh.
  pose proof (from_option_true _ _ _ before_0011 Hs) as Hb. unfold no_created_at in Hb.
  rewrite forallb_forall in Hb. apply elem_of_map_to_list, list_elem_of_In in Hix.
  specialize (Hb _ Hix). cbn [snd] in Hb. rewrite Ht, Hh in Hb. discriminate Hb.
Qed.

(** ** Deleting an account *)

Definition admin_references : list reference :=
  [mkReference "settings" "updated_by" "admins" NO_ACTION;
   mkReference "audit_log" "admin_id" "admins" SET_NULL;
   mkReference "admin_actions" "admin_id" "admins" SET_NULL;
   mkReference "blocklist_email_domains" "added_by" "admins" SET_NULL;
   mkReference "blocklist_emails" "added_by" "admins" SET_NULL;
   mkReference "blocklist_ips" "added_by" "admins" SET_NULL].

Definition other_references : list reference :=
  [mkReference "audit_log" "transfer_id" "transfers" SET_NULL;
   mkReference "transfer_files" "transfer_id" "transfers" CASCADE;
   mkReference "transfer_recipients" "transfer_id" "transfers" CASCADE;
   mkReference "downloads" "file_id" "transfer_files" SET_NULL;
   mkReference "downloads" "transfer_id" "transfers" CASCADE].

Lemma referring_admins : referring migrated "admins" = admin_references.
Proof. vm_compute. reflexivity. Qed.

Lemma foreign_keys_migrated : foreign_keys migrated ≡ₚ (admin_references ++ other_references)%list.
Proof.
  assert (H : bool_decide (foreign_keys migrated ⊆+ (admin_references ++ other_references)%list)
    && Nat.eqb (length (foreign_keys migrated)) 11 = true) by (vm_compute; reflexivity).
  apply andb_true_iff in H as [H1%bool_decide_eq_true H2%Nat.eqb_eq].
  apply submseteq_length_Permutation; [exact H1|]. rewrite H2. done.
Qed.

Lemma elem_of_present i os : i ∈ present os ↔ Some i ∈ os.
Proof.
  unfold present. rewrite list_elem_of_omap. split; [by intros (o & Ho & [= <-])|]. intros H. by exists (Some i).
Qed.

(** Clearing a column: what is left of the ids it held. *)
Lemma present_clear {A} (get : A → option uuid) (clear : A → A) i l :
  (∀ x, get (clear x) = None) →
  present (get <$> ((λ x, if decide (get x = Some i) then clear x else x) <$> l))
  = filter (λ j, j ≠ i) (present (get <$> l)).
Proof.
  intros Hc. unfold present. induction l as [|x l IH]; [done|]. rewrite !fmap_cons. cbn [omap list_omap].
  destruct (decide (get x = Some i)) as [He|Hne].
  - rewrite Hc, He. simpl. rewrite IH. rewrite filter_cons_False by auto. done.
  - destruct (get x) as [j|] eqn:Hj; simpl; rewrite ?IH, ?Hj; [|done].
    rewrite filter_cons_True by congruence. done.
Qed.

Lemma rows_fmap {K V W} `{Countable K} (f : V → W) (m : gmap K V) :
  (map_to_list (f <$> m)).*2 ≡ₚ f <$> (map_to_list m).*2.
Proof. rewrite map_to_list_fmap, <- !list_fmap_compose. done. Qed.

Lemma present_perm os os' : os ≡ₚ os' → present os ≡ₚ present os'.
Proof. intros H. unfold present. by rewrite H. Qed.

Lemma added_by_forget i m :
  added_by (forget_blocks i m) ≡ₚ filter (λ j, j ≠ i) (added_by m).
Proof.
  unfold added_by, forget_blocks. rewrite <- (present_clear _ (Blocklist.set_added_by None)) by done.
  apply present_perm. by rewrite rows_fmap.
Qed.

Lemma forget_blocks_in i m : forget_blocks i m = AdminUsers.forget_in i m.
Proof.
  unfold forget_blocks, AdminUsers.forget_in. apply map_fmap_ext. intros k r _.
  unfold AdminUsers.forget. case_decide; [done|by destruct r].
Qed.

Lemma forget_audit i (l : list AuditLog.t) :
  (λ r, if decide (AuditLog.admin_id r = Some i) then AuditLog.set_admin_id None r else r) <$> l
  = (λ r, AuditLog.set_admin_id (AdminUsers.forget i (AuditLog.admin_id r)) r) <$> l.
Proof.
  apply list_fmap_ext. intros n r _. unfold AdminUsers.forget. case_decide; [done|by destruct r].
Qed.

Lemma forget_actions i (l : list AdminAction.t) :
  (λ r, if decide (AdminAction.admin_id r = Some i) then AdminAction.set_admin_id None r else r) <$> l
  = (λ r, AdminAction.set_admin_id (AdminUsers.forget i (AdminAction.admin_id r)) r) <$> l.
Proof.
  apply list_fmap_ext. intros n r _. unfold AdminUsers.forget. case_decide; [done|by destruct r].
Qed.

Lemma settings_reference i d :
  existsb (λ r, bool_decide (fk_rule r = NO_ACTION) && bool_decide (i ∈ refs r d)) admin_references
  = existsb (λ r, bool_decide (Setting.updated_by r = Some i)) (map_to_list (DB.settings d)).*2.
Proof.
  cbn [existsb admin_references fk_rule]. rewrite bool_decide_eq_true_2 by done.
  rewrite !(bool_decide_eq_false_2 (SET_NULL = NO_ACTION)) by done. rewrite orb_false_r. simpl.
  change (refs _ d) with (present (Setting.updated_by <$> (map_to_list (DB.settings d)).*2)).
  apply eq_true_iff_eq. rewrite bool_decide_eq_true, elem_of_present, existsb_exists, list_elem_of_fmap.
  split.
  - intros (r & He & Hr). exists r. rewrite <- list_elem_of_In. split; [done|by apply bool_decide_eq_true].
  - intros (r & Hr & He%bool_decide_eq_true). exists r. by rewrite list_elem_of_In.
Qed.

(** The references cleared one after the other. *)
Lemma set_nulls i d :
  foldl (λ d r, set_null r i d) d admin_references =
  DB.mk (DB.transfers d) (DB.files d) (DB.recipients d) (DB.downloads d)
    ((λ r, if decide (AuditLog.admin_id r = Some i) then AuditLog.set_admin_id None r else r)
     <$> DB.audit_log d)
    ((λ r, if decide (AdminAction.admin_id r = Some i) then AdminAction.set_admin_id None r else r)
     <$> DB.admin_actions d)
    (DB.admins d) (forget_blocks i (DB.blocklist_ips d)) (forget_blocks i (DB.blocklist_domains d))
    (forget_blocks i (DB.blocklist_emails d)) (DB.settings d).
Proof. by destruct d. Qed.

Lemma references_after i d r :
  r ∈ (admin_references ++ other_references)%list →
  existsb (λ r, bool_decide (Setting.updated_by r = Some i)) (map_to_list (DB.settings d)).*2 = false →
  let d' := foldl (λ d r, set_null r i d) d admin_references in
  refs r (DB.set_admins (delete i (DB.admins d')) d') ≡ₚ
    if decide (fk_target r = "admins") then filter (λ j, j ≠ i) (refs r d) else refs r d.
Proof.
  intros Hr Hs. cbv zeta. rewrite set_nulls.
  unfold admin_references, other_references in Hr. rewrite !elem_of_app, !elem_of_cons, !elem_of_nil in Hr.
  destruct Hr as [[->|[->|[->|[->|[->|[->|[]]]]]]]|[->|[->|[->|[->|[->|[]]]]]]]; try reflexivity.
  - change (present (Setting.updated_by <$> (map_to_list (DB.settings d)).*2) ≡ₚ
      filter (λ j, j ≠ i) (present (Setting.updated_by <$> (map_to_list (DB.settings d)).*2))).
    rewrite filter_all; [done|]. apply Forall_forall. intros j Hj ->.
    apply elem_of_present, list_elem_of_fmap in Hj as (x & Hx & Hin%list_elem_of_In).
    assert (existsb (λ r, bool_decide (Setting.updated_by r = Some i)) (map_to_list (DB.settings d)).*2
      = true) as E; [|by rewrite E in Hs].
    apply existsb_exists. exists x. split; [done|by apply bool_decide_eq_true].
  - apply Permutation_refl', (present_clear AuditLog.admin_id (AuditLog.set_admin_id None)). done.
  - apply Permutation_refl', (present_clear AdminAction.admin_id (AdminAction.set_admin_id None)). done.
  - apply (added_by_forget i (DB.blocklist_domains d)).
  - apply (added_by_forget i (DB.blocklist_emails d)).
  - apply (added_by_forget i (DB.blocklist_ips d)).
  - change (present (AuditLog.transfer_id <$> ((λ r, if decide (AuditLog.admin_id r = Some i)
      then AuditLog.set_admin_id None r else r) <$> DB.audit_log d)) ≡ₚ
      present (AuditLog.transfer_id <$> DB.audit_log d)).
    rewrite <- list_fmap_compose. apply Permutation_refl'. f_equal. apply list_fmap_ext.
    intros n x _. unfold compose. by case_decide.
Qed.

(** C38: deleting an account does what the schema says.  The statement of
    [admin_delete_admin] has exactly the effect the foreign keys of the migrated
    database give it: it is refused while a setting names the account, because
    that reference has no delete rule, and otherwise clears every other
    reference to the account, removes the account and leaves all other
    references as they were; afterwards nothing refers to it. *)
Theorem account_deletion i w :
  AdminUsers.delete_admin_row i w =
    match delete_account migrated i (World.sess w) with
    | Some d => (Ok tt, World.set_sess d w)
    | None => (Err IntegrityError, w)
    end ∧
  (delete_account migrated i (World.sess w) = None ↔
     i ∈ refs (mkReference "settings" "updated_by" "admins" NO_ACTION) (World.sess w)) ∧
  ∀ d, delete_account migrated i (World.sess w) = Some d →
    DB.admins d = delete i (DB.admins (World.sess w)) ∧
    ∀ r, r ∈ foreign_keys migrated →
      refs r d ≡ₚ if decide (fk_target r = "admins") then filter (λ j, j ≠ i) (refs r (World.sess w))
                  else refs r (World.sess w).
Proof.
  unfold delete_account. rewrite referring_admins. generalize (settings_reference i (World.sess w)).
  intros Hs. split; [|split].
  - rewrite Hs. unfold AdminUsers.delete_admin_row, query, gets, mbind, M_bind.
    match goal with |- (if ?a then _ else _) w = match (if ?b then _ else _) with _ => _ end =>
      change b with a; destruct a; [done|] end. unfold modify_db, modify. f_equal. f_equal.
    rewrite set_nulls. unfold DB.set_admins. simpl. by rewrite !forget_blocks_in, forget_audit, forget_actions.
  - rewrite Hs. change (refs _ _) with (present (Setting.updated_by <$>
      (map_to_list (DB.settings (World.sess w))).*2)).
    rewrite elem_of_present, list_elem_of_fmap.
    match goal with |- context [existsb ?p ?l] => destruct (existsb p l) eqn:E end.
    + apply existsb_exists in E as (r & Hr & He%bool_decide_eq_true). split; [|done]. intros _.
      exists r. by rewrite list_elem_of_In.
    + split; [done|]. intros (r & He & Hr%list_elem_of_In). exfalso.
      assert (existsb (λ r, bool_decide (Setting.updated_by r = Some i))
        (map_to_list (DB.settings (World.sess w))).*2 = true) as E'; [|by rewrite E' in E].
      apply existsb_exists. exists r. split; [done|by apply bool_decide_eq_true].
  - intros d. rewrite Hs. match goal with |- context [existsb ?p ?l] => destruct (existsb p l) eqn:E end.
    { intros [=]. }
    intros [= <-].
    split; [done|]. intros r Hr. rewrite foreign_keys_migrated in Hr.
    by apply references_after.
Qed.

End schema_theorems.

(** ** Witnesses *)

Section schema_witnesses.
Import Schema Migrations Rows.

Lemma migrations_spec_witness :
  ∃ s s', at_revision 4 = Some s ∧ at_revision 5 = Some s' ∧ run downgrade_0005 s' = Some s.
Proof.
  destruct (proj1 (proj2 migrations_spec) 4%nat (mkMigration "0005" (Some "0004") upgrade_0005
    downgrade_0005) eq_refl) as (s & s' & H1 & _ & H2 & H3). exists s, s'. exact (conj H1 (conj H2 H3)).
Defined.

#[local] Instance demo_services : Services := Sim.calm.

(** An account that blocked an address: the entry stays, without its author. *)
Definition demo_tables : DB.t :=
  DB.set_blocklist_ips {[u "192.0.2.0/24" := Blocklist.mk (u "192.0.2.0/24") None (Some 5) 0 None]}
    (Demo.db_admins [Demo.admin 5 (u "root@example.org") (u "admin")]).

Lemma demo_deletion :
  (λ d, Blocklist.added_by <$> (map_to_list (DB.blocklist_ips d)).*2)
    <$> delete_account migrated 5 demo_tables = Some [None].
Proof. vm_compute. reflexivity. Qed.

Lemma account_deletion_witness :
  (AdminUsers.delete_admin_row 5 (Demo.world demo_tables)).1 = Ok tt ∧
  ∀ d, delete_account migrated 5 demo_tables = Some d → DB.admins d = ∅.
Proof.
  split; [vm_compute; reflexivity|]. intros d Hd.
  destruct (account_deletion 5 (Demo.world demo_tables)) as (_ & _ & H).
  destruct (H d Hd) as [-> _]. vm_compute. reflexivity.
Defined.
End schema_witnesses.
