(* ===== verification/Analytics.v ===== *)
(** Reporting for the admin panel: [services/analytics.py], its response schemas
    in [schemas/admin.py] and the endpoint of [routers/admin.py]. *)
From stdpp Require Import sorting.
From S2P Require Import Prelude Text Services Sim Format Model Scenario Effects Support RateLimit Http.
From S2P Require Import Session Auth AdminAuth.
#[local] Open Scope Z_scope.

Module Analytics.

Definition day : Z := 86400 * second.

(** [date_trunc('day', ts)] of a session in UTC, and
    [replace(hour=0, minute=0, second=0, microsecond=0)]. *)
Definition day_start (t : datetime) : datetime := t - t mod day.

Definition pad4 (n : Z) : pystr :=
  let s := str_int n in replicate (4 - length s) 48 ++ s.

(** [str(r.day.date())] *)
Definition date_str (t : datetime) : pystr :=
  let '(y, m, d) := Calendar.civil (t / day) in
  pad4 y ++ u "-" ++ Calendar.pad2 m ++ u "-" ++ Calendar.pad2 d.

(** The instants a [datetime] can hold: the years 1 to 9999. *)
Definition datetime_min : Z := -62135596800 * second.
Definition datetime_max : Z := 253402300800 * second - 1.

(** [t - timedelta(days=days)] *)
Definition minus_days (t : datetime) (days : Z) : res datetime :=
  if Z.abs days >? 999999999 then Err OverflowError
  else
    let r := t - days * day in
    if (datetime_min <=? r) && (r <=? datetime_max) then Ok r else Err OverflowError.

(** [round(n / 1024**3, 4)]: the quotient is exact below 2^53 bytes. *)
Definition gigabytes (n : Z) : json := JDec (round_div (n * 10000) (2 ^ 30)) 4.

(** How often a key occurs, and [SELECT k, count() ... GROUP BY k]. *)
Definition occurrences {K} `{EqDecision K} (k : K) (keys : list K) : Z :=
  zlen (filter (λ x, x = k) keys).

Definition count_by {K} `{EqDecision K} (keys : list K) : list (K * Z) :=
  (λ k, (k, occurrences k keys)) <$> remove_dups keys.

Definition by_day (a b : datetime * Z) : Prop := a.1 ≤ b.1.
#[export] Instance by_day_dec a b : Decision (by_day a b).
Proof. unfold by_day. apply _. Defined.

Definition most_first (a b : json * Z) : Prop := b.2 ≤ a.2.
#[export] Instance most_first_dec a b : Decision (most_first a b).
Proof. unfold most_first. apply _. Defined.

(** [GROUP BY day ORDER BY day] *)
Definition per_day (ts : list datetime) : list (datetime * Z) :=
  merge_sort by_day (count_by (day_start <$> ts)).

(** [str.split_part(s, "@", 2)] of PostgreSQL. *)
Definition email_domain (s : pystr) : pystr := nth 1 (split_on 64 s) [].

Section analytics.
Context {X : Services} {C : Config}.

(** [GROUP BY k ORDER BY count() DESC LIMIT 10], on the groups in whatever order
    the database forms them. *)
Definition top10 {K} `{EqDecision K} (to_json : K → json) (keys : list K) : list (json * Z) :=
  take 10 (merge_sort most_first (group_order ((λ kn, (to_json kn.1, kn.2)) <$> count_by keys))).

Definition recent (since : datetime) (d : DB.t) : list Transfer.t :=
  rows (λ t, since <=? Transfer.created_at t) (DB.transfers d).

Definition counted (name : string) (rs : list (json * Z)) : json :=
  JArr ((λ r, JObj [(u name, r.1); (u "count", JInt r.2)]) <$> rs).

Definition dated (rs : list (datetime * Z)) : json :=
  JArr ((λ r, JObj [(u "date", JStr (date_str r.1)); (u "count", JInt r.2)]) <$> rs).

Definition total_size_since (t : datetime) (d : DB.t) : Z :=
  foldr Z.add 0 (Transfer.total_size <$> recent t d).

Definition with_status (s : Status) (d : DB.t) : Z :=
  zlen (rows (λ t, bool_decide (Transfer.status t = s)) (DB.transfers d)).

(** The audit rows of one type from an instant on. *)
Definition audit_of (event_type : pystr) (since : datetime) (d : DB.t) : list AuditLog.t :=
  filter (λ r, AuditLog.event_type r = event_type ∧ since ≤ AuditLog.ts r) (DB.audit_log d).

Definition _kpi (today_start week_start : datetime) : M json :=
  '(active, infected, today, week) ← query (λ d,
     (with_status Ready d, with_status Infected d, total_size_since today_start d,
      total_size_since week_start d));
  rl_blocks ← query (λ d, zlen (audit_of (u "rate_limit_blocked") today_start d));
  mret (JObj [(u "active_transfers", JInt active); (u "traffic_today_gb", gigabytes today);
              (u "traffic_week_gb", gigabytes week); (u "infected_count", JInt infected);
              (u "rate_limit_blocks_today", JInt rl_blocks)]).

Definition _daily_transfers (since : datetime) : M json :=
  rs ← query (λ d, per_day (Transfer.created_at <$> recent since d));
  mret (dated rs).

Definition _top_countries (since : datetime) : M json :=
  rs ← query (λ d, top10 ojson (Transfer.sender_country <$> recent since d));
  mret (counted "country" rs).

(** [transfer_files JOIN transfers]: the files of the transfers since. *)
Definition recent_files (since : datetime) (d : DB.t) : list TransferFile.t :=
  rows (λ f, match DB.transfers d !! TransferFile.transfer_id f with
             | Some t => since <=? Transfer.created_at t
             | None => false
             end) (DB.files d).

Definition _top_mime (since : datetime) : M json :=
  rs ← query (λ d, top10 JStr (TransferFile.mime_type <$> recent_files since d));
  mret (counted "mime_type" rs).

Definition _top_ips (since : datetime) : M json :=
  rs ← query (λ d, top10 JStr ((λ t, inet_text (Transfer.sender_ip t)) <$> recent since d));
  mret (counted "ip" rs).

Definition _top_sender_domains (since : datetime) : M json :=
  rs ← query (λ d, top10 JStr ((λ t, email_domain (Transfer.sender_email t)) <$> recent since d));
  mret (counted "domain" rs).

Definition _infected_timeline (since : datetime) : M json :=
  rs ← query (λ d, per_day (AuditLog.ts <$> audit_of (u "infected") since d));
  mret (dated rs).

Definition _compute (days : Z) : M json :=
  t ← now;
  since ← lift (minus_days t days);
  t ← now;
  let today_start := day_start t in
  week_start ← lift (minus_days today_start 7);
  kpi ← _kpi today_start week_start;
  daily ← _daily_transfers since;
  countries ← _top_countries since;
  mime ← _top_mime since;
  ips ← _top_ips since;
  domains ← _top_sender_domains since;
  infected ← _infected_timeline since;
  mret (JObj [(u "kpi", kpi); (u "daily_transfers", daily); (u "top_countries", countries);
              (u "top_mime", mime); (u "top_ips", ips); (u "top_sender_domains", domains);
              (u "infected_timeline", infected)]).

Definition cache_key (days : Z) : pystr := u "analytics:" ++ str_int days.
Definition cache_ttl : Z := 60.

Definition get (days : Z) : M json :=
  cached ← redis_get (cache_key days);
  match cached with
  | Some payload => mret payload
  | None =>
      result ← _compute days;
      redis_set (cache_key days) result (Some cache_ttl);;
      mret result
  end.

Definition admin_analytics (request : Request) (days : Z) : M json :=
  AdminAuth.require_session request;;
  get days.

End analytics.
End Analytics.

(** ** Footprints *)

Section analytics_footprints.
Context {X : Services} {C : Config}.

Lemma touches_compute days : touches [PTick] (Analytics._compute days).
Proof.
  unfold Analytics._compute, Analytics._kpi, Analytics._daily_transfers, Analytics._top_countries,
    Analytics._top_mime, Analytics._top_ips, Analytics._top_sender_domains,
    Analytics._infected_timeline. foot.
Qed.
#[local] Hint Resolve touches_compute : foot.

Lemma touches_get days : touches [PTick; PRedis] (Analytics.get days).
Proof. unfold Analytics.get. foot. Qed.
#[local] Hint Resolve touches_get : foot.

Lemma touches_admin_analytics rq days : touches [PTick; PRedis] (Analytics.admin_analytics rq days).
Proof. unfold Analytics.admin_analytics. foot. Qed.

End analytics_footprints.

#[export] Hint Resolve touches_compute touches_get touches_admin_analytics : foot.

(** * What a report has to say *)

Module Report.
Import Analytics.

(** The ranking of the values of [keys] by how often they occur: at most ten,
    distinct, each with its count, the most frequent first, and none left out
    that occurs more often than one that is shown. *)
Record Ranking {K} `{EqDecision K} (to_json : K → json) (keys : list K) (l : list (json * Z)) : Prop := {
  rank_entries j n : (j, n) ∈ l → ∃ k, j = to_json k ∧ k ∈ keys ∧ n = occurrences k keys;
  rank_distinct : NoDup l.*1;
  rank_sorted : StronglySorted most_first l;
  rank_length : length l = Nat.min 10 (length (remove_dups keys));
  rank_rest k j n : k ∈ keys → to_json k ∉ l.*1 → (j, n) ∈ l → occurrences k keys ≤ n
}.

(** The instants counted per day: every day that occurs, once and in order. *)
Record Timeline (ts : list datetime) (l : list (datetime * Z)) : Prop := {
  line_entries d n :
    (d, n) ∈ l ↔ (∃ t, t ∈ ts ∧ d = day_start t) ∧ n = zlen (filter (λ t, day_start t = d) ts);
  line_sorted : StronglySorted (λ a b, a.1 < b.1) l;
  line_total : foldr Z.add 0 l.*2 = zlen ts
}.

(** Bytes in GiB to four digits. *)
Definition rounded_gib (n : Z) (j : json) : Prop :=
  ∃ m, j = JDec m 4 ∧ 2 * Z.abs (m * 2 ^ 30 - n * 10000) ≤ 2 ^ 30.

Definition transfers_where (p : Transfer.t → Prop) `{∀ t, Decision (p t)} (d : DB.t) : Z :=
  Z.of_nat (size (filter (λ kt : uuid * Transfer.t, p kt.2) (DB.transfers d))).

Definition bytes_since (t : datetime) (d : DB.t) : Z :=
  map_fold (λ _ x n, if decide (t ≤ Transfer.created_at x) then Transfer.total_size x + n else n) 0
    (DB.transfers d).

(** ** Counting *)

Section counting.
Context {K : Type} `{EqDecision K}.

Lemma zlen_map {A B} (f : A → B) (l : list A) : zlen (f <$> l) = zlen l.
Proof. unfold zlen. by rewrite length_fmap. Qed.

Lemma occurrences_cons (k x : K) keys :
  occurrences k (x :: keys) = (if decide (x = k) then 1 else 0) + occurrences k keys.
Proof. unfold occurrences. rewrite filter_cons. case_decide; [by rewrite zlen_cons|lia]. Qed.

Lemma occurrences_nonneg (k : K) keys : 0 ≤ occurrences k keys.
Proof. apply zlen_nonneg. Qed.

Lemma occurrences_pos (k : K) keys : k ∈ keys → 0 < occurrences k keys.
Proof.
  induction keys as [|x keys IH]; [by rewrite elem_of_nil|]. rewrite occurrences_cons.
  pose proof (occurrences_nonneg k keys) as Hn.
  intros [->|Hk]%elem_of_cons; [case_decide; [lia|done]|].
  specialize (IH Hk). case_decide; lia.
Qed.

Lemma sum_add {A} (f g : A → Z) l :
  foldr Z.add 0 ((λ k, f k + g k) <$> l) = foldr Z.add 0 (f <$> l) + foldr Z.add 0 (g <$> l).
Proof. induction l as [|x l IH]; [done|]. rewrite !fmap_cons. cbn [foldr]. lia. Qed.

Lemma sum_indicator (x : K) ks :
  NoDup ks → foldr Z.add 0 ((λ k, if decide (x = k) then 1 else 0) <$> ks)
             = if decide (x ∈ ks) then 1 else 0.
Proof.
  induction 1 as [|k ks Hk Hn IH]; [done|]. rewrite fmap_cons. cbn [foldr]. rewrite IH.
  destruct (decide (x = k)) as [->|Hne].
  - rewrite (decide_False (P := k ∈ ks)), (decide_True (P := k ∈ k :: ks)) by (done || by left). done.
  - destruct (decide (x ∈ ks)) as [Hin|Hin].
    + rewrite (decide_True (P := x ∈ k :: ks)) by by right. done.
    + rewrite (decide_False (P := x ∈ k :: ks)); [done|]. rewrite elem_of_cons. tauto.
Qed.

(** Counts by key add up to the number of rows. *)
Lemma sum_occurrences (ks keys : list K) :
  NoDup ks → keys ⊆ ks → foldr Z.add 0 ((λ k, occurrences k keys) <$> ks) = zlen keys.
Proof.
  intros Hn. induction keys as [|x keys IH]; intros Hs.
  - induction ks as [|k ks IH]; [done|]. apply NoDup_cons in Hn as [_ Hn].
    rewrite fmap_cons. cbn [foldr]. rewrite IH; [done|done|].
    intros y Hy. by apply elem_of_nil in Hy.
  - rewrite (list_fmap_ext _ (λ k, (if decide (x = k) then 1 else 0) + occurrences k keys)).
    2:{ intros i k _. apply occurrences_cons. }
    rewrite sum_add, sum_indicator by done. rewrite IH by (intros y Hy; apply Hs; by right).
    rewrite decide_True by (apply Hs; by left). by rewrite zlen_cons.
Qed.

Lemma elem_of_count_by (k : K) n keys :
  (k, n) ∈ count_by keys ↔ k ∈ keys ∧ n = occurrences k keys.
Proof.
  unfold count_by. rewrite list_elem_of_fmap. split.
  - intros (k' & [= -> ->] & Hk). by rewrite elem_of_remove_dups in Hk.
  - intros [Hk ->]. exists k. by rewrite elem_of_remove_dups.
Qed.

Lemma count_by_keys (keys : list K) : (count_by keys).*1 = remove_dups keys.
Proof.
  unfold count_by. rewrite <- list_fmap_compose. rewrite (list_fmap_ext _ id); [apply list_fmap_id|done].
Qed.

Lemma count_by_total (keys : list K) : foldr Z.add 0 (count_by keys).*2 = zlen keys.
Proof.
  unfold count_by. rewrite <- list_fmap_compose. apply (sum_occurrences (remove_dups keys)).
  - apply NoDup_remove_dups.
  - intros x Hx. by apply elem_of_remove_dups.
Qed.
End counting.

Lemma occurrences_map {A K} `{EqDecision K} (f : A → K) k (l : list A) :
  occurrences k (f <$> l) = zlen (filter (λ x, f x = k) l).
Proof.
  unfold occurrences. induction l as [|x l IH]; [done|].
  rewrite fmap_cons, !filter_cons. repeat case_decide; try done. by rewrite !zlen_cons, IH.
Qed.

#[export] Instance by_day_total : Total by_day.
Proof. intros a b. unfold by_day. lia. Qed.
#[export] Instance by_day_trans : Transitive by_day.
Proof. intros a b c. unfold by_day. lia. Qed.
#[export] Instance most_first_total : Total most_first.
Proof. intros a b. unfold most_first. lia. Qed.
#[export] Instance most_first_trans : Transitive most_first.
Proof. intros a b c. unfold most_first. lia. Qed.

Lemma sum_perm (l k : list Z) : l ≡ₚ k → foldr Z.add 0 l = foldr Z.add 0 k.
Proof. induction 1; simpl; lia. Qed.

(** Sorted by a key, the keys distinct: strictly sorted. *)
Lemma strictly_sorted (l : list (datetime * Z)) :
  StronglySorted by_day l → NoDup l.*1 → StronglySorted (λ a b, a.1 < b.1) l.
Proof.
  induction 1 as [|x l Hs IH Hx]; [constructor|]. rewrite fmap_cons, NoDup_cons. intros [Hn Hd].
  constructor; [by apply IH|]. rewrite Forall_forall in *. intros y Hy. specialize (Hx y Hy).
  unfold by_day in Hx. destruct (decide (x.1 = y.1)) as [He|]; [|lia].
  destruct Hn. rewrite He. by apply list_elem_of_fmap_2.
Qed.

Lemma per_day_timeline ts : Timeline ts (per_day ts).
Proof.
  unfold per_day. pose proof (merge_sort_Permutation by_day (count_by (day_start <$> ts))) as Hp.
  split.
  - intros d n. rewrite Hp, elem_of_count_by, list_elem_of_fmap, occurrences_map. naive_solver.
  - apply strictly_sorted; [apply StronglySorted_merge_sort; apply _|].
    rewrite Hp, count_by_keys. apply NoDup_remove_dups.
  - rewrite (sum_perm _ (count_by (day_start <$> ts)).*2) by by rewrite Hp.
    rewrite count_by_total. by rewrite zlen_map.
Qed.

Section ranking.
Context {X : Services} {XOk : SqlOk}.

Lemma sorted_take_drop {A} (R : A → A → Prop) n (l : list A) x y :
  StronglySorted R l → x ∈ take n l → y ∈ drop n l → R x y.
Proof.
  intros Hs Hx Hy. rewrite <- (take_drop n l) in Hs.
  apply StronglySorted_app in Hs as (H & _ & _). by apply H.
Qed.

Lemma top10_ranking {K} `{EqDecision K} (to_json : K → json) `{!Inj (=) (=) to_json} keys :
  Ranking to_json keys (top10 to_json keys).
Proof.
  unfold top10. set (groups := (λ kn, (to_json kn.1, kn.2)) <$> count_by keys).
  set (sorted := merge_sort most_first (group_order groups)).
  assert (Hp : sorted ≡ₚ groups).
  { unfold sorted. by rewrite merge_sort_Permutation, group_order_perm. }
  assert (Hs : StronglySorted most_first sorted) by (apply StronglySorted_merge_sort; apply _).
  assert (Hin : ∀ j n, (j, n) ∈ sorted ↔ ∃ k, j = to_json k ∧ k ∈ keys ∧ n = occurrences k keys).
  { intros j n. rewrite Hp. unfold groups. rewrite list_elem_of_fmap. split.
    - intros ([k m] & [= -> ->] & Hk%elem_of_count_by). naive_solver.
    - intros (k & -> & Hk & ->). exists (k, occurrences k keys). split; [done|].
      by apply elem_of_count_by. }
  assert (Hd : NoDup sorted.*1).
  { rewrite Hp. unfold groups. rewrite <- list_fmap_compose.
    rewrite (list_fmap_compose (λ kn : K * Z, kn.1) to_json), count_by_keys.
    apply NoDup_fmap_2; [done|]. apply NoDup_remove_dups. }
  split.
  - intros j n Hj. apply Hin. rewrite <- (take_drop 10 sorted), elem_of_app. by left.
  - rewrite fmap_take. rewrite <- (take_drop 10 sorted.*1) in Hd. by apply NoDup_app in Hd as [? _].
  - rewrite <- (take_drop 10 sorted) in Hs. by apply StronglySorted_app in Hs as (_ & ? & _).
  - rewrite length_take, Hp. unfold groups. rewrite length_fmap. unfold count_by.
    by rewrite length_fmap.
  - intros k j n Hk Hout Hj.
    assert (Hk' : (to_json k, occurrences k keys) ∈ sorted) by (apply Hin; eauto).
    rewrite <- (take_drop 10 sorted), elem_of_app in Hk'. destruct Hk' as [Ht|Ht].
    + destruct Hout. apply list_elem_of_fmap. by exists (to_json k, occurrences k keys).
    + by apply (sorted_take_drop _ _ _ _ _ Hs Hj Ht).
Qed.
End ranking.

Lemma rounded_gigabytes n : rounded_gib n (gigabytes n).
Proof.
  unfold gigabytes, rounded_gib, round_div. eexists. split; [done|].
  pose proof (Z.div_mod (n * 10000) (2 ^ 30) ltac:(done)) as Hd.
  pose proof (Z.mod_pos_bound (n * 10000) (2 ^ 30) ltac:(done)) as Hm.
  set (q := n * 10000 / 2 ^ 30) in *. set (r := n * 10000 mod 2 ^ 30) in *.
  repeat case_match; zbool; nia.
Qed.

(** Rows selected from a table, as a filtered map. *)
Lemma rows_filter_size {V} (p : V → bool) (P : V → Prop) `{∀ v, Decision (P v)} (m : gmap Z V) :
  (∀ v, p v = true ↔ P v) → zlen (rows p m) = Z.of_nat (size (filter (λ kv : Z * V, P kv.2) m)).
Proof.
  intros Hp. unfold zlen, rows. f_equal. rewrite <- length_map_to_list, map_filter_alt.
  rewrite map_to_list_to_map.
  2:{ apply (sublist_NoDup _ (map_to_list m).*1); [apply NoDup_fst_map_to_list|]. apply fmap_sublist, sublist_filter. }
  induction (map_to_list m) as [|[k v] l IH]; [done|].
  rewrite fmap_cons, !filter_cons. cbn [snd]. specialize (Hp v).
  repeat case_decide; simpl; rewrite ?IH; tauto.
Qed.

Lemma with_status_size s d : with_status s d = transfers_where (λ t, Transfer.status t = s) d.
Proof. apply rows_filter_size. intros t. apply bool_decide_eq_true. Qed.

Lemma total_size_fold t d : total_size_since t d = bytes_since t d.
Proof.
  unfold total_size_since, bytes_since, recent, rows. rewrite map_fold_foldr.
  induction (map_to_list (DB.transfers d)) as [|[k v] l IH]; [done|].
  rewrite fmap_cons, filter_cons. cbn [snd foldr uncurry]. rewrite <- IH.
  destruct (t <=? Transfer.created_at v) eqn:E; zbool; repeat case_decide; try done; lia.
Qed.

(** A report on the tables [d]: the key figures, the transfers per day since
    [since], four rankings and the days with infected uploads. *)
Definition report_of {X : Services} (d : DB.t) (since today : datetime) (payload : json) : Prop :=
  ∃ gb_today gb_week daily countries mime ips domains infected,
    payload = JObj
      [(u "kpi", JObj
          [(u "active_transfers", JInt (transfers_where (λ t, Transfer.status t = Ready) d));
           (u "traffic_today_gb", gb_today); (u "traffic_week_gb", gb_week);
           (u "infected_count", JInt (transfers_where (λ t, Transfer.status t = Infected) d));
           (u "rate_limit_blocks_today",
            JInt (zlen (audit_of (u "rate_limit_blocked") today d)))]);
       (u "daily_transfers", dated daily); (u "top_countries", counted "country" countries);
       (u "top_mime", counted "mime_type" mime); (u "top_ips", counted "ip" ips);
       (u "top_sender_domains", counted "domain" domains); (u "infected_timeline", dated infected)] ∧
    rounded_gib (bytes_since today d) gb_today ∧
    rounded_gib (bytes_since (today - 7 * day) d) gb_week ∧
    Timeline (Transfer.created_at <$> recent since d) daily ∧
    Ranking ojson (Transfer.sender_country <$> recent since d) countries ∧
    Ranking JStr (TransferFile.mime_type <$> recent_files since d) mime ∧
    Ranking JStr ((λ t, inet_text (Transfer.sender_ip t)) <$> recent since d) ips ∧
    Ranking JStr ((λ t, email_domain (Transfer.sender_email t)) <$> recent since d) domains ∧
    Timeline (AuditLog.ts <$> audit_of (u "infected") since d) infected.

(** What a [datetime] cannot hold. *)
Definition out_of_range (t : datetime) (days : Z) : Prop :=
  999999999 < Z.abs days ∨ t - days * day < datetime_min ∨ datetime_max < t - days * day.

Lemma minus_days_spec t days :
  minus_days t days = Ok (t - days * day) ∨
  minus_days t days = Err OverflowError ∧ out_of_range t days.
Proof.
  unfold minus_days, out_of_range. rewrite Z.gtb_ltb. repeat case_match; zbool; auto; right; split; try done; try lia.
Qed.

End Report.

Section analytics_theorems.
Context {X : Services} {XOk : ServicesOk} {C : Config}.
Import Analytics Report.

#[local] Instance jstr_inj : Inj (=) (=) JStr.
Proof. by intros ? ? [= ->]. Qed.
#[local] Instance ojson_inj : Inj (=) (=) ojson.
Proof. by intros [x|] [y|]; simpl; try done; intros [= ->]. Qed.

Lemma wp_compute days w (Q : res json → World → Prop) :
  let t := clock (World.tick w) in
  let t' := clock (S (World.tick w)) in
  let w' := next_tick (next_tick w) in
  (out_of_range t days → Q (Err OverflowError) (next_tick w)) →
  (out_of_range (day_start t') 7 → Q (Err OverflowError) w') →
  (∀ payload, report_of (World.sess w) (t - days * day) (day_start t') payload → Q (Ok payload) w') →
  wp (_compute days) w Q.
Proof.
  cbv zeta. intros H1 H2 HQ. unfold _compute. do 4 wp_step.
  destruct (minus_days_spec (clock (World.tick w)) days) as [->|[-> Ho]]; [|by apply H1].
  do 4 wp_step. change (World.tick (next_tick w)) with (S (World.tick w)).
  destruct (minus_days_spec (day_start (clock (S (World.tick w)))) 7) as [->|[-> Ho]]; [|by apply H2].
  unfold _kpi, _daily_transfers, _top_countries, _top_mime, _top_ips, _top_sender_domains,
    _infected_timeline.
  repeat wp_step. cbv beta iota. repeat wp_step. apply HQ. unfold report_of.
  do 8 eexists. split; [rewrite <- !with_status_size; reflexivity|]. rewrite !total_size_fold.
  pose proof ok_sql. auto 12 using rounded_gigabytes, per_day_timeline, top10_ranking, jstr_inj, ojson_inj.
Qed.

(** A cached report answers without looking at the tables. *)
Lemma get_cached days w v dl :
  r_view (World.redis w) (clock (S (World.tick w))) (cache_key days) = Some (RStr v, dl) →
  wp (get days) w (λ r w', r = Ok v ∨ r = Err ServiceError).
Proof.
  intros Hv. unfold get. wp_step. apply wp_of. intros r w' E. unfold redis_get in E. rewrite redis_read_run, Hv in E.
  destruct (fault _); injection E as <- <-; [by right|]. wp_step. by left.
Qed.

(** C36: the report of the admin panel.  A request either finds the report in the
    cache and returns it as it is, or computes it from the tables and stores it
    for sixty seconds.  A computed report has the number of ready and of
    infected transfers, the bytes announced today and in the last seven days
    rounded to four digits of a GiB, the transfers of every day since the
    window began (adding up to all of them), and for countries, MIME types,
    addresses and sender domains the at most ten most frequent values with their
    counts, in whatever order the database groups its rows.  For sixty seconds
    every request with the same window gets that same report, however the tables
    have changed.  The tables never change; a window that leaves the calendar is
    an error. *)
Theorem analytics_spec days w r w' :
  get days w = (r, w') →
  let key := cache_key days in
  let n := World.tick w in
  World.sess w' = World.sess w ∧ World.db w' = World.db w ∧
  match r with
  | Ok payload =>
      (∃ dl, r_view (World.redis w) (clock (S n)) key = Some (RStr payload, dl) ∧
             World.redis w' = World.redis w) ∨
      (r_view (World.redis w) (clock (S n)) key = None ∧
       report_of (World.sess w) (clock (2 + n) - days * day) (day_start (clock (3 + n))) payload ∧
       (∀ k, k ≠ key →
          r_view (World.redis w') (clock (5 + n)) k = r_view (World.redis w) (clock (5 + n)) k) ∧
       ∀ w2 r2 w2', World.redis w2 = World.redis w' →
         clock (5 + n) ≤ clock (S (World.tick w2)) < clock (5 + n) + cache_ttl * second →
         get days w2 = (r2, w2') → r2 = Ok payload ∨ r2 = Err ServiceError)
  | Err e => e = ServiceError ∨
             e = OverflowError ∧ (out_of_range (clock (2 + n)) days ∨
                                  out_of_range (day_start (clock (3 + n))) 7)
  end.
Proof.
  intros E key n. pose proof (touches_agree _ _ _ _ _ (touches_get days) E) as Ha.
  split; [by apply (agree_sess _ _ _ Ha); part_sub || part_notin|].
  split; [exact (Ha PDb ltac:(part_notin))|]. clear Ha. revert r w' E.
  refine (wp_of_run _ _ _ _). unfold get.
  wp_step. apply wp_of. intros r1 w1 E1. unfold redis_get in E1. rewrite redis_read_run in E1.
  destruct (fault _); [injection E1 as <- <-; by left|].
  destruct (r_view _ _ _) as [[[v| |] dl]|] eqn:Hv; injection E1 as <- <-; try by left.
  - wp_step. left. by exists dl.
  - wp_step. apply wp_compute; [intros; by right; split; [|left]|intros; by right; split; [|right]|].
    intros payload Hp. wp_step. unfold redis_set. apply wp_redis; [by left|]. cbv zeta. wp_step.
    right. split; [done|]. split; [exact Hp|]. simpl World.redis. split.
    + intros k Hk. rewrite r_set_view by done. by rewrite decide_False.
    + intros w2 r2 w2' Hr Ht. revert r2 w2'. apply wp_of_run, (get_cached _ _ _ (Some (clock (5 + n) + cache_ttl * second))).
      rewrite Hr, (r_view_later _ (clock (5 + n))), r_set_view by (done || lia).
      rewrite decide_True by done. unfold ttl_deadline, live. cbn [fmap option_fmap option_map].
      by rewrite (proj2 (Z.ltb_lt _ _)) by apply Ht.
Qed.

End analytics_theorems.

(** ** Witness *)

Module AnalyticsDemo.
Import Sim.

(** Three transfers on two days, one of them infected. *)
Definition transfer (i : uuid) (s : Status) (email : string) (created : datetime) : Transfer.t :=
  Transfer.mk i (u "t" ++ [i]) (u "m" ++ [i]) (u email) (u "192.0.2.1") None None None None s None
    (3 * 2 ^ 30) 1 created created None None None.

Definition tables : DB.t :=
  Demo.db_transfers
    [transfer 1 Ready "a@x.org" 0; transfer 2 Ready "b@x.org" (500 * second);
     transfer 3 Infected "c@y.org" (- Analytics.day)] [Demo.file 7 1 (u "k")].

Definition w : World.t := Demo.world tables.

Definition run : res json * World.t := Analytics.get (X := Sim.calm) 30 w.

(** What the report shows. *)
Definition expected : json :=
  JObj [(u "kpi", JObj
           [(u "active_transfers", JInt 2); (u "traffic_today_gb", JDec 60000 4);
            (u "traffic_week_gb", JDec 90000 4); (u "infected_count", JInt 1);
            (u "rate_limit_blocks_today", JInt 0)]);
        (u "daily_transfers", Analytics.dated [(- Analytics.day, 1); (0, 2)]);
        (u "top_countries", Analytics.counted "country" [(JNull, 3)]);
        (u "top_mime", Analytics.counted "mime_type" [(JStr (u "text/plain"), 1)]);
        (u "top_ips", Analytics.counted "ip" [(JStr (u "192.0.2.1"), 3)]);
        (u "top_sender_domains",
         Analytics.counted "domain" [(JStr (u "x.org"), 2); (JStr (u "y.org"), 1)]);
        (u "infected_timeline", Analytics.dated [])].

Lemma run_result : run.1 = Ok expected.
Proof. vm_compute. reflexivity. Qed.

Lemma run_again : (Analytics.get (X := Sim.calm) 30
    (World.set_sess empty_db run.2)).1 = Ok expected.
Proof. vm_compute. reflexivity. Qed.

Lemma dates : Analytics.date_str (- Analytics.day) = u "1969-12-31".
Proof. vm_compute. reflexivity. Qed.
End AnalyticsDemo.

Section analytics_witnesses.
Import AnalyticsDemo.
#[local] Instance demo_services : Services := Sim.calm.
#[local] Instance demo_services_ok : ServicesOk := Sim.calm_ok.

Lemma analytics_spec_witness :
  run.1 = Ok expected ∧ World.sess run.2 = World.sess w.
Proof.
  split; [exact run_result|].
  exact (proj1 (analytics_spec 30 w run.1 run.2 (surjective_pairing run))).
Defined.
End analytics_witnesses.
