(* ===== verification/Logging.v ===== *)
(** Structured logging ([app/logging_config.py]): one JSON object per record,
    and the configuration of the process's loggers. *)
From S2P Require Import Prelude Text Services Sim Format Analytics.
#[local] Open Scope Z_scope.

Module Logging.

Definition _RESERVED : list pystr :=
  u <$> ["args"; "asctime"; "created"; "exc_info"; "exc_text"; "filename"; "funcName"; "levelname";
         "levelno"; "lineno"; "message"; "module"; "msecs"; "msg"; "name"; "pathname"; "process";
         "processName"; "relativeCreated"; "stack_info"; "thread"; "threadName"; "taskName"]%string.

(** A [logging.LogRecord]: the attributes the formatter asks for by name, the
    formatted traceback when [exc_info] is set, and [__dict__], whose keys are
    distinct. *)
Record LogRecord := mkLogRecord {
  created : datetime;
  levelname : pystr;
  name : pystr;
  getMessage : pystr;
  exc_info : option pystr;
  dict : list (pystr * json)
}.

Definition pad (n : nat) (z : Z) : pystr :=
  let s := str_int z in replicate (n - length s) 48 ++ s.

(** [datetime.fromtimestamp(t, tz=UTC).isoformat(timespec="milliseconds")] *)
Definition isoformat_ms (t : datetime) : pystr :=
  let secs := t / second mod 86400 in
  Analytics.date_str t ++ u "T" ++ pad 2 (secs / 3600) ++ u ":" ++ pad 2 (secs mod 3600 / 60)
  ++ u ":" ++ pad 2 (secs mod 60) ++ u "." ++ pad 3 (t mod second / 1000) ++ u "+00:00".

(** The loop over [record.__dict__.items()]: reserved names, private names and
    names the payload has are skipped. *)
Definition merge_one (payload : list (pystr * json)) (kv : pystr * json) : list (pystr * json) :=
  if bool_decide (kv.1 ∈ _RESERVED) || startswith kv.1 (u "_") then payload
  else if bool_decide (kv.1 ∈ payload.*1) then payload
  else dict_set kv.1 kv.2 payload.

(** The payload before the loop. *)
Definition core (record : LogRecord) (rid : option pystr) : list (pystr * json) :=
  [(u "ts", JStr (isoformat_ms (created record))); (u "level", JStr (levelname record));
   (u "logger", JStr (name record)); (u "msg", JStr (getMessage record))]
  ++ match rid with Some r => [(u "request_id", JStr r)] | None => [] end
  ++ match exc_info record with Some e => [(u "exc", JStr e)] | None => [] end.

(** [JsonFormatter.format], before [json.dumps]; [rid] is the bound request id. *)
Definition format (record : LogRecord) (rid : option pystr) : list (pystr * json) :=
  foldl merge_one (core record rid) (dict record).

(** ** The loggers of a process *)

Inductive handler := JsonHandler | OtherHandler (n : nat).

Record logger := mkLogger { handlers : list handler; propagate : bool }.

Record loggers := mkLoggers { level : pystr; root : list handler; named : gmap pystr logger }.

Definition uvicorn_loggers : list pystr := u <$> ["uvicorn"; "uvicorn.access"; "uvicorn.error"]%string.

(** [logging.getLogger(name)] makes a logger that does not exist yet. *)
Definition reset (m : gmap pystr logger) (n : pystr) : gmap pystr logger :=
  <[n := mkLogger [] true]> m.

(** The names [setLevel] knows. *)
Definition level_names : list pystr :=
  u <$> ["CRITICAL"; "FATAL"; "ERROR"; "WARN"; "WARNING"; "INFO"; "DEBUG"; "NOTSET"]%string.

Definition configure_logging `{Services} (lvl : pystr) (s : loggers) : res loggers :=
  if bool_decide (upper lvl ∈ level_names)
  then Ok (mkLoggers (upper lvl) [JsonHandler] (foldl reset (named s) uvicorn_loggers))
  else Err ValueError.

(** [Logger.callHandlers]: the handlers a record reaches, from the logger it is
    logged to (the components of its dotted name, last first) up to the root,
    while the loggers on the way propagate. *)
Fixpoint call_handlers (s : loggers) (components : list pystr) : list handler :=
  match components with
  | [] => root s
  | _ :: parent =>
      match named s !! join (u ".") (rev components) with
      | Some l => handlers l ++ (if propagate l then call_handlers s parent else [])
      | None => call_handlers s parent
      end
  end.

Definition reached (s : loggers) (n : pystr) : list handler := call_handlers s (rev (split_on 46 n)).

(** A logger that adds nothing: no handlers of its own, and it propagates. *)
Definition plain (l : logger) : bool := negb (nonempty (handlers l)) && propagate l.

(** * Properties *)

Section payloads.

(** The keys every line may start with. *)
Definition core_keys : list pystr := u <$> ["ts"; "level"; "logger"; "msg"; "request_id"; "exc"]%string.

(** A field a caller may add. *)
Definition loggable (k : pystr) : Prop := k ∉ _RESERVED ∧ startswith k (u "_") = false.

(** One turn of the loop adds the field at the end or nothing. *)
Lemma merge_one_spec p kv :
  merge_one p kv = p ∧ (¬ loggable kv.1 ∨ kv.1 ∈ p.*1) ∨
  merge_one p kv = p ++ [kv] ∧ loggable kv.1 ∧ kv.1 ∉ p.*1.
Proof.
  unfold merge_one, loggable. destruct kv as [k v]. cbn [fst snd].
  destruct (bool_decide (k ∈ _RESERVED)) eqn:E1; simpl.
  { apply bool_decide_eq_true in E1. left. split; [done|]. left. tauto. }
  apply bool_decide_eq_false in E1. destruct (startswith k (u "_")) eqn:E2.
  { left. split; [done|]. left. intros [_ H]. discriminate H. }
  case_bool_decide as E3; [left; auto|]. right. by rewrite dict_set_fresh.
Qed.

(** The whole loop over a dict with distinct keys. *)
Lemma merge_spec xs p :
  NoDup p.*1 → NoDup xs.*1 →
  NoDup (foldl merge_one p xs).*1 ∧
  (∀ k, k ∈ p.*1 → assoc k (foldl merge_one p xs) = assoc k p) ∧
  (∀ k, k ∉ p.*1 → loggable k → assoc k (foldl merge_one p xs) = assoc k xs) ∧
  (∀ k, k ∉ p.*1 → ¬ loggable k → assoc k (foldl merge_one p xs) = None).
Proof.
  revert p. induction xs as [|[k v] xs IH]; intros p Hp Hx; cbn [foldl].
  { do 2 (split; [done|]). split; intros k Hk _; by apply assoc_none. }
  rewrite fmap_cons in Hx. apply NoDup_cons in Hx as [Hk Hx]. cbn [fst] in Hk.
  destruct (merge_one_spec p (k, v)) as [[-> Hc]|(-> & Hl & Hn)]; cbn [fst] in *.
  - destruct (IH p Hp Hx) as (H1 & H2 & H3 & H4). do 2 (split; [done|]). split; [|done].
    intros k' Hk' Hl'. rewrite H3 by done. simpl. rewrite decide_False; [done|].
    intros ->. tauto.
  - assert (Hp' : NoDup (p ++ [(k, v)]).*1).
    { rewrite fmap_app. apply NoDup_app. split; [done|]. split; [|apply NoDup_singleton].
      intros x Hx' Hin. apply list_elem_of_singleton in Hin. cbn [fst] in Hin. by subst. }
    destruct (IH (p ++ [(k, v)]) Hp' Hx) as (H1 & H2 & H3 & H4).
    assert (Hin : ∀ k', k' ∈ (p ++ [(k, v)]).*1 ↔ k' ∈ p.*1 ∨ k' = k).
    { intros k'. rewrite fmap_app, elem_of_app. cbn [fmap list_fmap fst].
      by rewrite list_elem_of_singleton. }
    split; [done|]. split; [|split].
    + intros k' Hk'. rewrite H2 by (apply Hin; by left). rewrite assoc_app.
      destruct (assoc k' p) eqn:E; [done|]. by apply assoc_none in E.
    + intros k' Hk' Hl'. simpl. case_decide as Hd; [subst k'|].
      * rewrite H2 by (apply Hin; by right). rewrite assoc_app.
        rewrite (proj2 (assoc_none k p) Hn). simpl. by rewrite decide_True.
      * apply H3; [|done]. rewrite Hin. tauto.
    + intros k' Hk' Hl'. apply H4; [|done]. rewrite Hin. intros [?| ->]; tauto.
Qed.

Lemma core_nodup r rid : NoDup (core r rid).*1.
Proof.
  unfold core. destruct rid, (exc_info r); apply (bool_decide_unpack _); vm_compute; exact I.
Qed.

(** The names looked up on the way to the root. *)
Fixpoint prefixes (components : list pystr) : list pystr :=
  match components with
  | [] => []
  | _ :: parent => join (u ".") (rev components) :: prefixes parent
  end.

Lemma plain_reached s cs :
  root s = [JsonHandler] →
  (∀ n l, named s !! n = Some l → n ∈ prefixes cs → plain l = true) →
  call_handlers s cs = [JsonHandler].
Proof.
  intros Hr. induction cs as [|c cs IH]; intros Hp; [done|]. cbn [call_handlers prefixes] in *.
  specialize (IH (λ n l Hn Hin, Hp n l Hn (list_elem_of_further _ _ _ Hin))).
  destruct (named s !! _) as [l|] eqn:E; [|done].
  specialize (Hp _ _ E (list_elem_of_here _ _)). unfold plain in Hp. destruct l as [[] []]; done.
Qed.

(** A server logger's parents are server loggers. *)
Lemma uvicorn_prefixes n m :
  n ∈ uvicorn_loggers → m ∈ prefixes (rev (split_on 46 n)) → m ∈ uvicorn_loggers.
Proof.
  assert (H : forallb (λ n, forallb (λ m, bool_decide (m ∈ uvicorn_loggers))
    (prefixes (rev (split_on 46 n)))) uvicorn_loggers = true) by (vm_compute; reflexivity).
  rewrite forallb_forall in H. intros Hn%list_elem_of_In Hm%list_elem_of_In.
  specialize (H n Hn). rewrite forallb_forall in H. by apply (bool_decide_eq_true_1 _), H.
Qed.

End payloads.

Section logging_theorems.
Context {X : Services}.

(** A log line.  Every record gives one JSON object with distinct keys.  Its
    time, level, logger and message are those of the record, its request id is
    the bound one and its traceback that of the record, whatever the caller
    passed as extra fields under those names; every other extra field appears
    with its value, unless its name is an attribute of the record or private,
    and nothing else does.  After the configuration, which may be repeated,
    every record of the application and of the three server loggers is emitted
    exactly once, as JSON. *)
Theorem log_line_spec r rid lvl s :
  NoDup (dict r).*1 →
  let line := format r rid in
  NoDup line.*1 ∧
  assoc (u "ts") line = Some (JStr (isoformat_ms (created r))) ∧
  assoc (u "level") line = Some (JStr (levelname r)) ∧
  assoc (u "logger") line = Some (JStr (name r)) ∧
  assoc (u "msg") line = Some (JStr (getMessage r)) ∧
  (∀ i, rid = Some i → assoc (u "request_id") line = Some (JStr i)) ∧
  (∀ e, exc_info r = Some e → assoc (u "exc") line = Some (JStr e)) ∧
  (∀ k, k ∉ core_keys → loggable k → assoc k line = assoc k (dict r)) ∧
  (∀ k, k ∉ core_keys → ¬ loggable k → assoc k line = None) ∧
  ∀ s', configure_logging lvl s = Ok s' →
  configure_logging lvl s' = Ok s' ∧
  (∀ n, n ∈ uvicorn_loggers → reached s' n = [JsonHandler]) ∧
  (∀ n, n ∉ uvicorn_loggers → named s' !! n = named s !! n) ∧
  ((∀ n l, named s !! n = Some l → n ∈ uvicorn_loggers ∨ plain l = true) →
   ∀ n, reached s' n = [JsonHandler]).
Proof.
  intros Hd. cbv zeta. unfold format.
  destruct (merge_spec (dict r) (core r rid) (core_nodup r rid) Hd) as (H1 & H2 & H3 & H4).
  assert (Hcore : ∀ k v, assoc k (core r rid) = Some v →
    assoc k (foldl merge_one (core r rid) (dict r)) = Some v).
  { intros k v Hv. rewrite H2; [done|]. destruct (decide (k ∈ (core r rid).*1)); [done|].
    apply assoc_none in n. congruence. }
  assert (Hout : ∀ k, k ∉ core_keys → k ∉ (core r rid).*1).
  { intros k Hk Hin. apply Hk. revert Hin. unfold core, core_keys.
    destruct rid, (exc_info r); simpl; rewrite !elem_of_cons; tauto. }
  split; [done|]. do 4 (split; [by apply Hcore|]).
  split; [intros i ->; by apply Hcore|]. split.
  { intros e He. apply Hcore. unfold core. rewrite He. by destruct rid. }
  split; [intros k Hk; apply H3; auto|]. split; [intros k Hk; apply H4; auto|].
  assert (Hl : ∀ n m, foldl reset m uvicorn_loggers !! n =
    if decide (n ∈ uvicorn_loggers) then Some (mkLogger [] true) else m !! n).
  { intros n m. unfold uvicorn_loggers, reset. cbn [fmap list_fmap foldl].
    rewrite !lookup_insert. repeat case_decide; subst; try done;
      exfalso; rewrite !elem_of_cons, elem_of_nil in *; naive_solver. }
  assert (Hplain : ∀ s1 cs, root s1 = [JsonHandler] →
    (∀ n l, named s1 !! n = Some l → n ∈ prefixes cs → plain l = true) →
    call_handlers s1 cs = [JsonHandler]) by apply plain_reached.
  intros s'. unfold configure_logging. destruct (bool_decide _) eqn:Hlvl; [|done]. intros Hs'.
  assert (s' = mkLoggers (upper lvl) [JsonHandler] (foldl reset (named s) uvicorn_loggers)) as ->
    by congruence. clear Hs'.
  split; [|split; [|split]].
  - cbn [named]. do 2 f_equal. apply map_eq. intros n. rewrite !Hl.
    repeat case_decide; done.
  - intros n Hn. apply Hplain; [done|]. intros m l. cbn [named]. rewrite Hl.
    intros Hm Hp. rewrite decide_True in Hm; [by injection Hm as <-|].
    revert Hp. apply uvicorn_prefixes; done.
  - intros n Hn. cbn [named]. by rewrite Hl, decide_False.
  - intros Hs n. apply Hplain; [done|]. intros m l. cbn [named]. rewrite Hl.
    destruct (decide (m ∈ uvicorn_loggers)) as [Hm|Hm]; intros Hml _; [by injection Hml as <-|].
    by destruct (Hs m l Hml).
Qed.
End logging_theorems.
End Logging.

(** ** Witness *)

Section logging_witnesses.
Import Logging.
#[local] Instance demo_services : Services := Sim.calm.

(** A caller that tries to overwrite the level and a reserved attribute. *)
Definition demo_record : LogRecord :=
  mkLogRecord (1500 * 1000) (u "INFO") (u "app.routers.admin") (u "done") None
    [(u "level", JStr (u "DEBUG")); (u "lineno", JInt 7); (u "transfer_id", JStr (u "42"))].

Lemma demo_line : format demo_record (Some (u "r1")) =
  [(u "ts", JStr (u "1970-01-01T00:00:01.500+00:00")); (u "level", JStr (u "INFO"));
   (u "logger", JStr (u "app.routers.admin")); (u "msg", JStr (u "done"));
   (u "request_id", JStr (u "r1")); (u "transfer_id", JStr (u "42"))].
Proof. vm_compute. reflexivity. Qed.

Lemma log_line_spec_witness : NoDup (format demo_record (Some (u "r1"))).*1.
Proof.
  refine (proj1 (log_line_spec demo_record (Some (u "r1")) (u "info") (mkLoggers [] [] ∅) _)).
  apply (bool_decide_unpack _). vm_compute. exact I.
Defined.
End logging_witnesses.
