(* ===== verification/Telegram.v ===== *)
(** The Telegram settings of the admin API ([routers/admin.py],
    [admin_get_telegram] and [admin_update_telegram]): the bot token is stored
    only wrapped under the master key and never reaches a response or the log
    of admin actions. *)
From S2P Require Import Prelude Text Encoding Services Sim Model Scenario Effects Support Gates.
From S2P Require Import RateLimit Http Envelope Session AdminAuth AdminApi.
#[local] Open Scope Z_scope.

Module AdminTelegram.

(** [schemas.admin.TelegramConfig] and [TelegramConfigUpdate] *)
Record TelegramConfig := mkTelegramConfig {
  tc_bot_token_is_set : bool; tc_chat_id : pystr; tc_alert_on_infected : bool;
  tc_alert_on_rate_limit_spike : bool; tc_alert_on_admin_login_fail_spike : bool;
  tc_alert_on_storage_high : bool; tc_alert_on_defender_event : bool;
  tc_rate_limit_spike_threshold : Z
}.

Record TelegramConfigUpdate := mkTelegramConfigUpdate {
  tu_bot_token : option pystr; tu_chat_id : option pystr; tu_alert_on_infected : option bool;
  tu_alert_on_rate_limit_spike : option bool; tu_alert_on_admin_login_fail_spike : option bool;
  tu_alert_on_storage_high : option bool; tu_alert_on_defender_event : option bool;
  tu_rate_limit_spike_threshold : option Z
}.

Section telegram.
Context {X : Services} {C : Config}.

Definition BOT_TOKEN : pystr := u "telegram_bot_token".
Definition CHAT_ID : pystr := u "telegram_chat_id".
Definition ON_INFECTED : pystr := u "telegram_alert_on_infected".
Definition ON_RATE_LIMIT : pystr := u "telegram_alert_on_rate_limit_spike".
Definition ON_LOGIN_FAIL : pystr := u "telegram_alert_on_admin_login_fail_spike".
Definition ON_STORAGE : pystr := u "telegram_alert_on_storage_high".
Definition ON_DEFENDER : pystr := u "telegram_alert_on_defender_event".
Definition THRESHOLD : pystr := u "telegram_rate_limit_spike_threshold".

Definition _TELEGRAM_KEYS : list pystr :=
  [BOT_TOKEN; CHAT_ID; ON_INFECTED; ON_RATE_LIMIT; ON_LOGIN_FAIL; ON_STORAGE; ON_DEFENDER; THRESHOLD].

Definition threshold_ok (n : Z) : bool := (1 <=? n) && (n <=? 1000).

Definition validate_update (p : TelegramConfigUpdate) : res TelegramConfigUpdate :=
  if Paging.when (tu_bot_token p) (λ s, zlen s <=? 256) &&
     Paging.when (tu_chat_id p) (λ s, zlen s <=? 64) &&
     Paging.when (tu_rate_limit_spike_threshold p) threshold_ok
  then Ok p else Err ValidationError.

Definition _as_bool (v : option json) (dflt : bool) : bool :=
  match v with
  | Some (JBool b) => b
  | Some (JStr s) => bool_decide (lower s ∈ Settings.truth_words)
  | _ => dflt
  end.

Definition _as_int (v : option json) (dflt : Z) : Z :=
  default dflt (v ≫= Settings.int_of).

(** [str(v or "")] *)
Definition str_or_empty (v : option json) : pystr :=
  match v with
  | Some v => if jtruthy v then py_str v else []
  | None => []
  end.

(** The response built from the stored values; its threshold is validated. *)
Definition config_of (values : list (pystr * json)) : res TelegramConfig :=
  let threshold := _as_int (assoc THRESHOLD values) 20 in
  if threshold_ok threshold then
    Ok (mkTelegramConfig
      (match assoc BOT_TOKEN values with Some v => jtruthy v | None => false end)
      (str_or_empty (assoc CHAT_ID values))
      (_as_bool (assoc ON_INFECTED values) true)
      (_as_bool (assoc ON_RATE_LIMIT values) true)
      (_as_bool (assoc ON_LOGIN_FAIL values) true)
      (_as_bool (assoc ON_STORAGE values) true)
      (_as_bool (assoc ON_DEFENDER values) true)
      threshold)
  else Err ValidationError.

(** The body of the GET handler, also run by the PATCH handler. *)
Definition read_config : M TelegramConfig :=
  values ← Settings.get_many _TELEGRAM_KEYS;
  lift (config_of values).

Definition admin_get_telegram (request : Request) : M TelegramConfig :=
  AdminAuth.require_session request;;
  read_config.

(** Empty disables and is stored as it is; any other token is stored wrapped. *)
Definition _wrap_for_storage (token : pystr) : M json :=
  if negb (nonempty token) then mret (JStr [])
  else
    master_key ← State.get_master_key;
    wrapped ← lift (Secrets.wrap_telegram_token master_key token);
    mret (JObj [(u "wrapped", JStr (b64encode wrapped))]).

Definition fields_of (p : TelegramConfigUpdate) (token : option json)
  : list (pystr * option json) :=
  [(BOT_TOKEN, token); (CHAT_ID, JStr <$> tu_chat_id p);
   (ON_INFECTED, JBool <$> tu_alert_on_infected p);
   (ON_RATE_LIMIT, JBool <$> tu_alert_on_rate_limit_spike p);
   (ON_LOGIN_FAIL, JBool <$> tu_alert_on_admin_login_fail_spike p);
   (ON_STORAGE, JBool <$> tu_alert_on_storage_high p);
   (ON_DEFENDER, JBool <$> tu_alert_on_defender_event p);
   (THRESHOLD, JInt <$> tu_rate_limit_spike_threshold p)].

(** What the log of admin actions keeps of one change. *)
Definition change_of (key : pystr) (old value : json) : json :=
  if decide (key = BOT_TOKEN) then
    JObj [(u "old", if jtruthy old then JStr (u "***") else JNull);
          (u "new", JStr (if jtruthy value then u "***" else []))]
  else JObj [(u "old", old); (u "new", value)].

(** One turn of the loop over the fields; the database stamps the row. *)
Definition update_one (admin_id : uuid) (changes : list (pystr * json))
    (field : pystr * option json) : M (list (pystr * json)) :=
  match field with
  | (_, None) => mret changes
  | (key, Some value) =>
      row ← get_setting key;
      let old := match row with Some r => Setting.value r | None => JNull end in
      if py_eqb old value then mret changes
      else
        t ← now;
        AdminSettings.put_setting key value t admin_id;;
        mret (changes ++ [(key, change_of key old value)])
  end.

Definition admin_update_telegram (payload : TelegramConfigUpdate) (request : Request)
  : M TelegramConfig :=
  ctx ← AdminAuth.require_admin_role request;
  token ← (match tu_bot_token payload with
           | Some t => v ← _wrap_for_storage t; mret (Some v)
           | None => mret None
           end);
  changes ← fold_m (update_one (Admin.id ctx)) [] (fields_of payload token);
  (if nonempty changes then
     AdminActions.record (Admin.id ctx) (u "update_telegram_config") (Some (u "settings")) None
       (Some (HttpUtils.client_ip request)) (Some (JObj changes))
   else mret tt);;
  commit;;
  read_config.

End telegram.
End AdminTelegram.

(** * Footprints *)

Section telegram_footprints.
Context {X : Services} {C : Config}.
Import AdminTelegram.

Lemma touches_put_setting k v t b : touches [PSettings] (AdminSettings.put_setting k v t b).
Proof. unfold AdminSettings.put_setting. foot. Qed.
#[local] Hint Resolve touches_put_setting : foot.
Lemma touches_read_config : touches [] read_config.
Proof. unfold read_config. foot. Qed.
#[local] Hint Resolve touches_read_config : foot.
Lemma touches_wrap_for_storage t : touches [] (_wrap_for_storage t).
Proof. unfold _wrap_for_storage. foot. Qed.
#[local] Hint Resolve touches_wrap_for_storage : foot.
Lemma touches_update_one i c f : touches [PTick; PSettings] (update_one i c f).
Proof. unfold update_one. foot. Qed.
#[local] Hint Resolve touches_update_one : foot.
Lemma touches_update_telegram p rq :
  touches [PTick; PRedis; PSettings; PActions; PDb] (admin_update_telegram p rq).
Proof. unfold admin_update_telegram. foot. Qed.

End telegram_footprints.

#[export] Hint Resolve touches_put_setting touches_read_config touches_wrap_for_storage
  touches_update_one touches_update_telegram : foot.

(** * What a PATCH leaves *)

Section telegram_facts.
Context {X : Services} {XOk : ServicesOk} {C : Config}.
Import AdminTelegram.

(** The value a settings key holds, and the table keyed by its key column. *)
Definition stored (m : gmap pystr Setting.t) (k : pystr) : option json := Setting.value <$> m !! k.
Definition keyed_settings (m : gmap pystr Setting.t) : Prop :=
  ∀ k r, m !! k = Some r → Setting.key r = k.

Lemma assoc_elem {A} (k : pystr) (v : A) l : NoDup l.*1 → (k, v) ∈ l → assoc k l = Some v.
Proof.
  induction l as [|[a b] l IH]; [by intros _ ?%not_elem_of_nil|].
  rewrite fmap_cons. intros [Hn Hd]%NoDup_cons [[= -> ->]|Hl]%elem_of_cons; simpl.
  - by rewrite decide_True.
  - rewrite decide_False; [by apply IH|]. intros ->. apply Hn, list_elem_of_fmap. by exists (a, v).
Qed.

Lemma assoc_not_elem {A} (k : pystr) (l : list (pystr * A)) : k ∉ l.*1 → assoc k l = None.
Proof.
  induction l as [|[a b] l IH]; [done|]. rewrite fmap_cons. intros [H1 H2]%not_elem_of_cons.
  simpl in *. rewrite decide_False by done. by apply IH.
Qed.

Definition read_many (keys : list pystr) (m : gmap pystr Setting.t) : list (pystr * json) :=
  (λ r, (Setting.key r, Setting.value r)) <$>
    filter (λ r, Setting.key r ∈ keys) (map_to_list m).*2.

Lemma elem_of_read_many keys m k v :
  keyed_settings m → (k, v) ∈ read_many keys m ↔ k ∈ keys ∧ stored m k = Some v.
Proof.
  intros Hk. unfold read_many, stored. rewrite list_elem_of_fmap. setoid_rewrite list_elem_of_filter.
  setoid_rewrite list_elem_of_fmap. split.
  - intros (r & [= -> ->] & Hr & [k' r'] & -> & Hm%elem_of_map_to_list). simpl in *.
    rewrite (Hk _ _ Hm) in *. by rewrite Hm.
  - intros [Hin Hs]. apply fmap_Some in Hs as (r & Hm & ->). exists r.
    rewrite (Hk _ _ Hm). split; [done|]. split; [done|]. exists (k, r).
    by rewrite elem_of_map_to_list.
Qed.

Lemma read_many_NoDup keys m : keyed_settings m → NoDup (read_many keys m).*1.
Proof.
  intros Hk. unfold read_many. rewrite <- list_fmap_compose. cbn [compose fst].
  apply NoDup_fmap_2_strong.
  - intros x y [_ Hx]%list_elem_of_filter [_ Hy]%list_elem_of_filter He. simpl in He.
    apply list_elem_of_fmap in Hx as ([kx x'] & -> & Hx%elem_of_map_to_list).
    apply list_elem_of_fmap in Hy as ([ky y'] & -> & Hy%elem_of_map_to_list). simpl in *.
    rewrite (Hk _ _ Hx), (Hk _ _ Hy) in He. subst. congruence.
  - apply NoDup_filter, NoDup_fmap_2_strong; [|apply NoDup_map_to_list].
    intros [i x] [j y] Hx%elem_of_map_to_list Hy%elem_of_map_to_list. simpl. intros ->.
    by rewrite <- (Hk _ _ Hx), <- (Hk _ _ Hy).
Qed.

Lemma assoc_read_many keys m k :
  keyed_settings m → k ∈ keys → assoc k (read_many keys m) = stored m k.
Proof.
  intros Hk Hin. destruct (stored m k) as [v|] eqn:E.
  - apply assoc_elem; [by apply read_many_NoDup|]. by apply elem_of_read_many.
  - apply assoc_not_elem. intros ([k' v] & -> & H)%list_elem_of_fmap.
    apply elem_of_read_many in H as [_ H]; [|done]. simpl in E. congruence.
Qed.

(** A response says what is stored, and only whether there is a token. *)
Definition reads (m : gmap pystr Setting.t) (c : TelegramConfig) : Prop :=
  let flag k := _as_bool (stored m k) true in
  c = mkTelegramConfig (match stored m BOT_TOKEN with Some v => jtruthy v | None => false end)
        (str_or_empty (stored m CHAT_ID)) (flag ON_INFECTED) (flag ON_RATE_LIMIT)
        (flag ON_LOGIN_FAIL) (flag ON_STORAGE) (flag ON_DEFENDER)
        (_as_int (stored m THRESHOLD) 20).

Lemma wp_read_config w :
  keyed_settings (DB.settings (World.sess w)) →
  wp read_config w (λ r w', w' = w ∧
    match r with Ok c => reads (DB.settings (World.sess w)) c | Err e => e = ValidationError end).
Proof.
  intros Hk. unfold read_config, Settings.get_many. cbn [_TELEGRAM_KEYS nonempty negb]. do 3 wp_step.
  split; [done|]. fold (read_many _TELEGRAM_KEYS (DB.settings (World.sess w))).
  unfold config_of, reads. rewrite !assoc_read_many by (done || part_notin).
  by destruct (threshold_ok _).
Qed.

(** ** The loop over the fields *)

Definition old_value (m : gmap pystr Setting.t) (k : pystr) : json := default JNull (stored m k).

(** The settings after the fields [fs] were handled: a given value is stored,
    everything else is as it was in [m]; the changes record what differed. *)
Record handled (m m' : gmap pystr Setting.t) (fs : list (pystr * option json))
    (changes : list (pystr * json)) : Prop := {
  h_keyed : keyed_settings m → keyed_settings m';
  h_other k : k ∉ fs.*1 → m' !! k = m !! k;
  h_absent k : (k, None) ∈ fs → m' !! k = m !! k;
  h_given k v : (k, Some v) ∈ fs → v ≠ JNull → ∃ v', stored m' k = Some v' ∧ py_eqb v' v = true;
  h_changes k c : (k, c) ∈ changes → ∃ v, (k, Some v) ∈ fs ∧ c = change_of k (old_value m k) v
}.

Lemma py_eqb_refl_scalar v :
  match v with JArr _ | JObj _ => False | _ => True end → py_eqb v v = true.
Proof.
  destruct v; simpl; intros; try done.
  - by destruct b.
  - apply Z.eqb_refl.
  - apply Z.eqb_refl.
  - by apply bool_decide_eq_true_2.
Qed.

(** The values the endpoint stores equal themselves. *)
Definition storable (v : json) : Prop := v ≠ JNull ∧ py_eqb v v = true.

Lemma handled_step m m1 fs changes k v t by_ :
  handled m m1 fs changes → k ∉ fs.*1 → storable v →
  handled m (if py_eqb (old_value m1 k) v then m1 else <[k := Setting.mk k v t by_]> m1)
    (fs ++ [(k, Some v)])
    (changes ++ if py_eqb (old_value m1 k) v then [] else [(k, change_of k (old_value m1 k) v)]).
Proof.
  intros [H1 H2 H3 H4 H5] Hk [Hv Hr].
  assert (Hold : old_value m1 k = old_value m k) by (unfold old_value, stored; by rewrite H2).
  assert (Hne : ∀ k' (o : option json), (k', o) ∈ fs → k' ≠ k).
  { intros k' o Hin ->. apply Hk, list_elem_of_fmap. by exists (k, o). }
  destruct (py_eqb (old_value m1 k) v) eqn:E; split.
  - done.
  - intros k' Hn. apply H2. rewrite fmap_app, not_elem_of_app in Hn. tauto.
  - intros k' [Hin|H%list_elem_of_singleton]%elem_of_app; [by apply H3|done].
  - intros k' v' [Hin|H%list_elem_of_singleton]%elem_of_app; [by apply H4|].
    injection H as -> ->. intros _. unfold old_value in E.
    destruct (stored m1 k) as [o|]; [by exists o|]. by destruct v.
  - rewrite app_nil_r. intros k' c (v' & Hin & ->)%H5. exists v'. by rewrite elem_of_app; auto.
  - intros HK k' r. rewrite lookup_insert_Some. intros [[<- <-]|[_ Hr']]; [done|]. by apply (H1 HK).
  - intros k' Hn. rewrite fmap_app, not_elem_of_app in Hn. destruct Hn as [Hn1 Hn2].
    rewrite lookup_insert_ne; [by apply H2|]. intros <-. apply Hn2. by left.
  - intros k' [Hin|H%list_elem_of_singleton]%elem_of_app; [|done].
    rewrite lookup_insert_ne by (symmetry; by eapply Hne). by apply H3.
  - intros k' v' [Hin|H%list_elem_of_singleton]%elem_of_app Hv'.
    + destruct (H4 _ _ Hin Hv') as (o & Ho & He). exists o. split; [|done]. unfold stored.
      rewrite lookup_insert_ne by (symmetry; by eapply Hne). done.
    + injection H as -> ->. exists v. unfold stored. by rewrite lookup_insert_eq.
  - intros k' c [(v' & Hin & ->)%H5|H%list_elem_of_singleton]%elem_of_app.
    + exists v'. by rewrite elem_of_app; auto.
    + injection H as -> ->. exists v. rewrite elem_of_app, list_elem_of_singleton, Hold. auto.
Qed.

Lemma handled_absent m m1 fs changes k :
  handled m m1 fs changes → k ∉ fs.*1 → handled m m1 (fs ++ [(k, None)]) changes.
Proof.
  intros [H1 H2 H3 H4 H5] Hk. split.
  - done.
  - intros k' Hn. apply H2. rewrite fmap_app, not_elem_of_app in Hn. tauto.
  - intros k' [Hin|H%list_elem_of_singleton]%elem_of_app; [by apply H3|].
    injection H as ->. by apply H2.
  - intros k' v' [Hin|H%list_elem_of_singleton]%elem_of_app; [by apply H4|done].
  - intros k' c (v' & Hin & ->)%H5. exists v'. by rewrite elem_of_app; auto.
Qed.

Lemma wp_update_fields i fs w (Q : res (list (pystr * json)) → World → Prop) :
  NoDup fs.*1 → Forall (λ f, ∀ v, f.2 = Some v → storable v) fs →
  (∀ changes w', agree [PTick; PSettings] w w' →
     handled (DB.settings (World.sess w)) (DB.settings (World.sess w')) fs changes →
     Q (Ok changes) w') →
  wp (fold_m (update_one i) [] fs) w Q.
Proof.
  intros Hnd Hst HQ.
  apply (wp_fold _ _ _ _ (λ pre changes w', agree [PTick; PSettings] w w' ∧
    handled (DB.settings (World.sess w)) (DB.settings (World.sess w')) pre changes)).
  - split; [done|]. split; try done; by intros ? ?%not_elem_of_nil || intros ? ? ?%not_elem_of_nil.
  - intros pre [k [v|]] post changes w1 -> [Ha H]; unfold update_one.
    + assert (Hk : k ∉ pre.*1).
      { rewrite fmap_app in Hnd. apply NoDup_app in Hnd as (_ & Hd & _). intros Hin.
        apply (Hd _ Hin). by left. }
      apply Forall_app in Hst as [_ Hst]. apply Forall_cons in Hst as [Hv _].
      specialize (Hv v eq_refl). do 2 wp_step.
      set (m1 := DB.settings (World.sess w1)) in *.
      assert (Hold : match m1 !! k with Some r => Setting.value r | None => JNull end = old_value m1 k).
      { unfold old_value, stored. by destruct (m1 !! k). }
      rewrite Hold. pose proof (λ t, handled_step _ _ _ _ k v t (Some i) H Hk Hv) as Hs.
      destruct (py_eqb _ v).
      * wp_step. split; [done|]. specialize (Hs 0). by rewrite app_nil_r in Hs.
      * wp_step. wp_step. wp_step. unfold AdminSettings.put_setting. wp_step. wp_step.
        split; [|exact (Hs _)]. etrans; [exact Ha|].
        intros q Hq. destruct q; try done; exfalso; apply Hq; part_in.
    + wp_step. split; [done|]. apply handled_absent; [done|].
      rewrite fmap_app in Hnd. apply NoDup_app in Hnd as (_ & Hd & _). intros Hin.
      apply (Hd _ Hin). by left.
  - intros changes w1 [Ha H]. by apply HQ.
Qed.

(** ** The endpoint *)

Lemma fields_keys p tok : (fields_of p tok).*1 = _TELEGRAM_KEYS.
Proof. done. Qed.

Lemma keys_NoDup : NoDup _TELEGRAM_KEYS.
Proof. apply (bool_decide_unpack _). vm_compute. exact I. Qed.

Lemma storable_scalar {A} (mk : A → json) (o : option A) (k : pystr) :
  (∀ a, match mk a with JNull | JArr _ | JObj _ => False | _ => True end) →
  ∀ v, (k, mk <$> o).2 = Some v → storable v.
Proof.
  intros Hs v (a & _ & ->)%fmap_Some. specialize (Hs a).
  split; [by destruct (mk a)|]. apply py_eqb_refl_scalar. by destruct (mk a).
Qed.

Lemma storable_fields p tok :
  (∀ v, tok = Some v → storable v) →
  Forall (λ f, ∀ v, f.2 = Some v → storable v) (fields_of p tok).
Proof.
  intros Ht. unfold fields_of. apply Forall_cons. split; [exact Ht|].
  repeat (apply Forall_cons; split; [by apply storable_scalar|]). by apply Forall_nil.
Qed.

(** How a token is kept: empty as it is, any other wrapped under [mk]. *)
Definition kept_token (mk : bytes) (token : pystr) (v : json) : Prop :=
  match token with
  | [] => v = JStr []
  | _ => ∃ wrapped, v = JObj [(u "wrapped", JStr (b64encode wrapped))] ∧
           Secrets.unwrap_telegram_token mk wrapped None = Ok token
  end.

Lemma py_eqb_obj1 k s v : py_eqb v (JObj [(k, JStr s)]) = true → v = JObj [(k, JStr s)].
Proof.
  destruct v as [| | | | | |[|[k' []] [|[? ?] ?]]]; simpl; rewrite ?andb_false_r; try done.
  rewrite andb_true_r, andb_true_iff. by intros [->%bool_decide_eq_true_1 ->%bool_decide_eq_true_1].
Qed.

Lemma kept_token_eq mk token v v' : kept_token mk token v → py_eqb v' v = true → kept_token mk token v'.
Proof.
  unfold kept_token. destruct token as [|c token].
  - intros ->. destruct v'; try done. simpl. by intros ->%bool_decide_eq_true_1.
  - intros (wr & -> & Hu) ->%py_eqb_obj1. eauto.
Qed.

Lemma kept_token_storable mk token v : kept_token mk token v → storable v.
Proof.
  unfold kept_token, storable. destruct token as [|c token].
  - intros ->. done.
  - intros (wr & -> & _). split; [done|]. simpl. rewrite andb_true_r.
    by apply bool_decide_eq_true_2.
Qed.

Lemma wp_wrap_for_storage mk token w (Q : res json → World → Prop) :
  World.master_key w = Some mk → zlen mk = 32 → wf_str token →
  (∀ e, Q (Err e) w) → (∀ v, kept_token mk token v → Q (Ok v) w) →
  wp (_wrap_for_storage token) w Q.
Proof.
  intros Hm Hl Hw HE HQ. unfold _wrap_for_storage. destruct token as [|c token].
  - cbn [nonempty negb]. wp_step. by apply HQ.
  - cbn [nonempty negb]. set (tok := c :: token) in *. wp_step. unfold State.get_master_key.
    do 2 wp_step. rewrite Hm. do 3 wp_step.
    pose proof (wrap_telegram_opens mk tok Hl Hw) as H.
    destruct (Secrets.wrap_telegram_token mk tok) as [wr|e]; [|apply HE].
    wp_step. apply HQ. by exists wr.
Qed.

(** What the change log shows of a token. *)
Definition masked (c : json) : Prop :=
  ∃ o n, c = JObj [(u "old", o); (u "new", n)] ∧ (o = JNull ∨ o = JStr (u "***")) ∧
         (n = JStr [] ∨ n = JStr (u "***")).

Lemma change_masked old v : masked (change_of BOT_TOKEN old v).
Proof.
  unfold change_of. rewrite decide_True by done. eexists _, _. split; [done|].
  split; case_match; auto.
Qed.

Definition token_spec (mk : bytes) (p : TelegramConfigUpdate) (m m' : gmap pystr Setting.t) : Prop :=
  match tu_bot_token p with
  | None => m' !! BOT_TOKEN = m !! BOT_TOKEN
  | Some token => ∃ v, stored m' BOT_TOKEN = Some v ∧ kept_token mk token v
  end.

(** The settings and the log of admin actions after a successful PATCH. *)
Record updated (mk : bytes) (p : TelegramConfigUpdate) (d d' : DB.t) : Prop := {
  up_token : token_spec mk p (DB.settings d) (DB.settings d');
  up_given k v : (k, Some v) ∈ tail (fields_of p None) →
    ∃ v', stored (DB.settings d') k = Some v' ∧ py_eqb v' v = true;
  up_absent k : (k, None) ∈ tail (fields_of p None) →
    DB.settings d' !! k = DB.settings d !! k;
  up_other k : k ∉ _TELEGRAM_KEYS → DB.settings d' !! k = DB.settings d !! k;
  up_actions : ∃ new, DB.admin_actions d' = DB.admin_actions d ++ new ∧
    Forall (λ x, ∃ changes, AdminAction.details x = Some (JObj changes) ∧
      ∀ c, (BOT_TOKEN, c) ∈ changes → masked c) new
}.

Lemma handled_updated mk p tok d d' changes :
  match tu_bot_token p, tok with
  | Some token, Some v => kept_token mk token v
  | None, None => True
  | _, _ => False
  end →
  handled (DB.settings d) (DB.settings d') (fields_of p tok) changes →
  (∃ new, DB.admin_actions d' = DB.admin_actions d ++ new ∧
     Forall (λ x, AdminAction.details x = Some (JObj changes)) new) →
  updated mk p d d'.
Proof.
  intros Ht [H1 H2 H3 H4 H5] (new & Hn & Hd). split.
  - unfold token_spec. destruct (tu_bot_token p) as [token|], tok as [v|]; try done.
    + destruct (kept_token_storable _ _ _ Ht) as [Hv _].
      destruct (H4 BOT_TOKEN v) as (v' & Hs & He); [by left|done|].
      exists v'. split; [done|]. by eapply kept_token_eq.
    + apply H3. by left.
  - intros k v Hin. apply H4; [by right|].
    assert (Hst : Forall (λ f, ∀ v, f.2 = Some v → storable v) (fields_of p None)) by by apply storable_fields.
    rewrite Forall_forall in Hst. by destruct (Hst (k, Some v) ltac:(by right) v eq_refl).
  - intros k Hin. apply H3. by right.
  - intros k Hin. by apply H2.
  - exists new. split; [done|]. eapply Forall_impl; [exact Hd|]. intros x Hx. exists changes.
    split; [done|]. intros c (v & _ & ->)%H5. apply change_masked.
Qed.


End telegram_facts.

Section telegram_witness.
Import AdminTelegram.
#[local] Instance demo_services : Services := Sim.calm.
#[local] Instance demo_services_ok : ServicesOk := Sim.calm_ok.
#[local] Instance demo_config : Config := Demo.config.

(** An administrator sets a token and a chat. *)
Definition telegram_world : World :=
  World.set_redis
    ({[SessionStore._session_key (u "s1") := (RStr (SessionStore.payload 2 0 0), None)]} : Sim.redis)
    (Demo.world (Demo.db_admins [Demo.admin 2 (u "root@example.org") (u "admin")])).
Definition telegram_rq : Request := mkRequest [] None [(AdminAuth.SESSION_COOKIE, u "s1")].
Definition telegram_update : TelegramConfigUpdate :=
  mkTelegramConfigUpdate (Some (u "42:secret")) (Some (u "chat")) None None None None None None.


End telegram_witness.
