(* ===== verification/Rotation.v ===== *)
(** Master-key rotation: [admin_crypto_rewrap] of [routers/admin.py], the
    scripts [rotate_master_key.py] and [wrap_totp_secrets.py]. *)
From stdpp Require Import sorting.
From S2P Require Import Prelude Text Services Sim Model Scenario Effects Support RateLimit Http.
From S2P Require Import Envelope AdminAuth.
#[local] Open Scope Z_scope.

Module Rotation.
Section rotation.
Context {X : Services} {C : Config}.

Definition _REWRAP_CHUNK : Z := 1000.

Definition by_id (a b : Transfer.t) : Prop := Transfer.id a ≤ Transfer.id b.
#[global] Instance by_id_dec a b : Decision (by_id a b).
Proof. unfold by_id. apply _. Defined.

(** The next page: rows with a key, past the last id, in id order. *)
Definition next_rows (last_id : option uuid) (d : DB.t) : list Transfer.t :=
  take (Z.to_nat _REWRAP_CHUNK)
    (merge_sort by_id
       (rows (λ t, bool_decide (is_Some (Transfer.wrapped_key t)) &&
                   match last_id with Some i => i <? Transfer.id t | None => true end)
          (DB.transfers d))).

(** One row; a row without a key is skipped. *)
Definition rewrap_one (current previous : bytes) (acc : Z * option uuid) (t : Transfer.t)
  : M (Z * option uuid) :=
  match Transfer.wrapped_key t with
  | None => mret acc
  | Some w =>
      file_key ← lift (Envelope.unwrap_key current w (Some previous));
      w' ← lift (Envelope.wrap_key current file_key);
      update_transfer (Transfer.id t) (Transfer.set_wrapped_key (Some w'));;
      mret (acc.1 + 1, Some (Transfer.id t))
  end.

(** The [while True] loop, a commit per chunk. *)
Fixpoint rewrap_transfers (fuel : nat) (current previous : bytes) (acc : Z * option uuid) : M Z :=
  match fuel with
  | O => raise RuntimeError
  | S fuel' =>
      rs ← query (next_rows acc.2);
      if negb (nonempty rs) then mret acc.1
      else
        acc' ← fold_m (rewrap_one current previous) acc rs;
        commit;;
        rewrap_transfers fuel' current previous acc'
  end.

(** One page per turn and a final empty one: as many turns as rows, plus one. *)
Definition rewrap_all (current previous : bytes) : M Z :=
  n ← query (λ d, size (DB.transfers d));
  rewrap_transfers (S n) current previous (0, None).

Definition has_secret (d : DB.t) : list Admin.t :=
  rows (λ a, bool_decide (is_Some (Admin.totp_secret a))) (DB.admins d).

Definition rewrap_admin (current previous : bytes) (n : Z) (a : Admin.t) : M Z :=
  match Admin.totp_secret a with
  | Some secret =>
      if negb (Secrets.is_wrapped_totp secret) then mret n
      else
        plain ← lift (Secrets.unwrap_totp_secret current secret (Some previous));
        w ← lift (Secrets.wrap_totp_secret current plain);
        update_admin (Admin.id a) (Admin.set_totp_secret (Some w));;
        mret (n + 1)
  | None => mret n
  end.

Definition admin_crypto_rewrap (request : Request) : M json :=
  ctx ← AdminAuth.require_admin_role request;
  current ← State.get_master_key;
  previous ← State.get_previous_master_key;
  match previous with
  | None => raise (HTTPException 409 (JObj
      [(u "error", JStr (u "no_rotation_in_progress"));
       (u "hint", JStr (u "Set MASTER_KEY_PREVIOUS_PATH alongside MASTER_KEY_PATH and restart api+worker to begin a rotation window."))]))
  | Some previous =>
      if decide (current = previous) then raise (http_err 409 "keys_identical")
      else
        transfers_rewrapped ← rewrap_all current previous;
        admin_rows ← query has_secret;
        admins_rewrapped ← fold_m (rewrap_admin current previous) 0 admin_rows;
        (if negb (admins_rewrapped =? 0) then commit else mret tt);;
        AdminActions.record (Admin.id ctx) (u "crypto_rewrap") (Some (u "system"))
          (Some (u "master_key")) (Some (HttpUtils.client_ip request))
          (Some (JObj [(u "transfers_rewrapped", JInt transfers_rewrapped);
                       (u "admins_rewrapped", JInt admins_rewrapped)]));;
        commit;;
        mret (JObj [(u "ok", JBool true); (u "transfers_rewrapped", JInt transfers_rewrapped);
                    (u "admins_rewrapped", JInt admins_rewrapped)])
  end.

(** ** scripts/rotate_master_key.py *)

Definition _rotate_transfers (old new : bytes) : M Z := with_session (rewrap_all new old).

Definition _rotate_admins (old new : bytes) : M Z :=
  with_session
    (rs ← query has_secret;
     n ← fold_m (rewrap_admin new old) 0 rs;
     commit;;
     mret n).

(** The exit code of the script. *)
Definition rotate_main (old_file new_file : MasterKey.node) : M Z :=
  old_key ← lift (MasterKey.load_master_key old_file false);
  new_key ← lift (MasterKey.load_master_key new_file false);
  if decide (old_key = new_key) then mret 2
  else
    _rotate_transfers old_key new_key;;
    _rotate_admins old_key new_key;;
    mret 0.

(** ** scripts/wrap_totp_secrets.py *)

Definition wrap_admin (master : bytes) (counts : Z * Z) (a : Admin.t) : M (Z * Z) :=
  let '(wrapped_count, skipped_count) := counts in
  match Admin.totp_secret a with
  | None => mret (wrapped_count, skipped_count + 1)
  | Some s =>
      if Secrets.is_wrapped_totp s then mret (wrapped_count, skipped_count + 1)
      else
        plain ← lift (utf8_decode s);
        w ← lift (Secrets.wrap_totp_secret master plain);
        update_admin (Admin.id a) (Admin.set_totp_secret (Some w));;
        mret (wrapped_count + 1, skipped_count)
  end.

Definition wrap_totp_main (key_file : MasterKey.node) : M (Z * Z) :=
  master ← lift (MasterKey.load_master_key key_file false);
  with_session
    (rs ← query (λ d, (map_to_list (DB.admins d)).*2);
     counts ← fold_m (wrap_admin master) (0, 0) rs;
     commit;;
     mret counts).

End rotation.
End Rotation.

(** * What a rewrap does *)

Section rewrap_facts.
Context {X : Services} {C : Config}.
Import Rotation.

(** A row as the loop leaves it. *)
Definition rewrapped (current previous : bytes) (t : Transfer.t) : Transfer.t :=
  match Transfer.wrapped_key t with
  | Some w =>
      match Envelope.unwrap_key current w (Some previous) with
      | Ok fk => match Envelope.wrap_key current fk with
                 | Ok w' => Transfer.set_wrapped_key (Some w') t
                 | Err _ => t
                 end
      | Err _ => t
      end
  | None => t
  end.

Definition has_key (t : Transfer.t) : bool := bool_decide (is_Some (Transfer.wrapped_key t)).

(** Not yet reached by a loop that stands at [last]. *)
Definition past (last : option uuid) (t : Transfer.t) : bool :=
  match last with Some i => i <? Transfer.id t | None => true end.

Lemma rewrapped_id c p t : Transfer.id (rewrapped c p t) = Transfer.id t.
Proof. unfold rewrapped. by repeat case_match. Qed.

Lemma rewrapped_no_key c p t : has_key t = false → rewrapped c p t = t.
Proof.
  unfold has_key, rewrapped. intros H%bool_decide_eq_false_1.
  destruct (Transfer.wrapped_key t); [|done]. by destruct H.
Qed.

#[local] Instance by_id_total : Total by_id.
Proof. intros a b. unfold by_id. lia. Qed.
#[local] Instance by_id_trans : Transitive by_id.
Proof. intros a b c. unfold by_id. lia. Qed.

Lemma next_rows_elem last d t :
  t ∈ next_rows last d → has_key t = true ∧ past last t = true ∧
  ∃ i, DB.transfers d !! i = Some t.
Proof.
  unfold next_rows. intros Hin.
  assert (t ∈ rows (λ t, has_key t && past last t) (DB.transfers d)) as Ht.
  { rewrite <- (merge_sort_Permutation by_id). eapply elem_of_take in Hin as (j & Hj & _).
    by eapply list_elem_of_lookup_2. }
  apply elem_of_rows in Ht as [[? ?]%andb_true_iff ?]. done.
Qed.

Lemma next_rows_NoDup last d :
  keyed Transfer.id (DB.transfers d) → NoDup (Transfer.id <$> next_rows last d).
Proof.
  intros Hk. set (l := rows (λ t, has_key t && past last t) (DB.transfers d)).
  assert (Hn : NoDup (Transfer.id <$> merge_sort by_id l)).
  { rewrite (merge_sort_Permutation by_id). by apply rows_keys_NoDup. }
  rewrite <- (take_drop (Z.to_nat _REWRAP_CHUNK) (merge_sort by_id l)), fmap_app in Hn.
  by apply NoDup_app in Hn as [Hn _].
Qed.

(** A page ends at [z]: it holds every unreached row up to [z]. *)
Lemma next_rows_upto lst d pre z :
  keyed Transfer.id (DB.transfers d) → next_rows lst d = pre ++ [z] →
  ∀ i t, DB.transfers d !! i = Some t → has_key t = true → past lst t = true →
    (t ∈ next_rows lst d ↔ Transfer.id t ≤ Transfer.id z).
Proof.
  intros Hk Hr i t Hi Hh Hp.
  set (l := rows (λ t, has_key t && past lst t) (DB.transfers d)).
  assert (Hin : t ∈ merge_sort by_id l).
  { rewrite (merge_sort_Permutation by_id). apply elem_of_rows. rewrite Hh, Hp. eauto. }
  assert (Hn : NoDup (Transfer.id <$> merge_sort by_id l)).
  { rewrite (merge_sort_Permutation by_id). by apply rows_keys_NoDup. }
  pose proof (StronglySorted_merge_sort by_id l) as Hs.
  pose proof (take_drop (Z.to_nat _REWRAP_CHUNK) (merge_sort by_id l)) as Htd.
  change (take _ _) with (next_rows lst d) in Htd. rewrite <- Htd in Hin, Hn, Hs. split.
  - rewrite Hr, elem_of_app, list_elem_of_singleton. intros [Hpre| ->]; [|lia].
    rewrite Hr, <- app_assoc in Hs.
    apply (StronglySorted_app_1_elem_of _ _ _ t z Hs Hpre). by left.
  - intros Hle. apply elem_of_app in Hin as [|Hd]; [done|]. exfalso.
    assert (Hz : z ∈ next_rows lst d) by (rewrite Hr, elem_of_app; right; by left).
    pose proof (StronglySorted_app_1_elem_of _ _ _ z t Hs Hz Hd) as Hzt. unfold by_id in Hzt.
    rewrite fmap_app in Hn. apply NoDup_app in Hn as (_ & Hn & _).
    apply (Hn (Transfer.id z)); [by apply list_elem_of_fmap_2|].
    replace (Transfer.id z) with (Transfer.id t) by lia. by apply list_elem_of_fmap_2.
Qed.

(** The row's key, if any, opens during the rotation. *)
Definition opens (c p : bytes) (t : Transfer.t) : Prop :=
  ∀ wk, Transfer.wrapped_key t = Some wk → ∃ fk, Envelope.unwrap_key c wk (Some p) = Ok fk.

(** One row. *)
Lemma wp_rewrap_one c p acc t w (Q : res (Z * option uuid) → World → Prop) :
  has_key t = true → DB.transfers (World.sess w) !! Transfer.id t = Some t →
  Q (Err EnvelopeError) w →
  (∀ w', agree [PTransfers] w w' →
     DB.transfers (World.sess w')
       = alter (rewrapped c p) (Transfer.id t) (DB.transfers (World.sess w)) →
     opens c p t → Q (Ok (acc.1 + 1, Some (Transfer.id t))) w') →
  wp (rewrap_one c p acc t) w Q.
Proof.
  unfold has_key, rewrap_one. intros [wk Hw]%bool_decide_eq_true_1 Ht HE HQ. rewrite Hw.
  assert (HU : ∀ e, Envelope.unwrap_key c wk (Some p) = Err e → e = EnvelopeError).
  { intros e. unfold Envelope.unwrap_key, Envelope._assert_key_len. cbn [mbind res_bind].
    repeat case_match; simplify_eq/=; repeat case_match; naive_solver. }
  assert (HW : ∀ fk e, Envelope.wrap_key c fk = Err e → e = EnvelopeError).
  { intros fk e. unfold Envelope.wrap_key, Envelope._assert_key_len.
    repeat case_match; simpl; naive_solver. }
  do 2 wp_step. destruct (Envelope.unwrap_key c wk (Some p)) as [fk|e] eqn:Hu.
  2:{ by rewrite (HU e). }
  do 2 wp_step. destruct (Envelope.wrap_key c fk) as [w'|e] eqn:Hwk; [|by rewrite (HW fk e)].
  wp_step. unfold update_transfer. do 2 wp_step. apply HQ.
  - intros q Hq. destruct q; try done. exfalso. apply Hq. part_in.
  - simpl. apply map_eq. intros j. rewrite !lookup_alter. case_decide; [subst|done].
    rewrite Ht. simpl. f_equal. unfold rewrapped. by rewrite Hw, Hu, Hwk.
  - intros wk' E. exists fk. congruence.
Qed.

(** One page. *)
Lemma wp_rewrap_page c p n lst w (Q : res (Z * option uuid) → World → Prop) :
  keyed Transfer.id (DB.transfers (World.sess w)) →
  let rs := next_rows lst (World.sess w) in
  (∀ w', agree [PTransfers] w w' → Q (Err EnvelopeError) w') →
  (∀ w', agree [PTransfers] w w' →
     DB.transfers (World.sess w')
       = alter_all Transfer.id (rewrapped c p) rs (DB.transfers (World.sess w)) →
     Forall (opens c p) rs → Q (Ok (n + zlen rs, match last rs with Some z => Some (Transfer.id z) | None => lst end)) w') →
  wp (fold_m (rewrap_one c p) (n, lst) rs) w Q.
Proof.
  intros Hk rs HE HQ.
  apply (wp_fold rs _ _ _ (λ pre acc w1, agree [PTransfers] w w1 ∧
    DB.transfers (World.sess w1)
      = alter_all Transfer.id (rewrapped c p) pre (DB.transfers (World.sess w)) ∧
    Forall (opens c p) pre ∧
    acc = (n + zlen pre, match last pre with Some z => Some (Transfer.id z) | None => lst end))).
  - repeat split; try done. f_equal. unfold zlen. simpl. lia.
  - intros pre t post acc w1 Hr (Ha & Ht & Ho & ->).
    assert (Hin : t ∈ rs) by (rewrite Hr, elem_of_app; right; by left).
    destruct (next_rows_elem _ _ _ Hin) as (Hh & _ & i & Hi).
    assert (Hrow : DB.transfers (World.sess w1) !! Transfer.id t = Some t).
    { rewrite Ht. apply (alter_all_next _ _ _ _ _ post); [|by rewrite (Hk _ _ Hi)].
      rewrite <- Hr. by apply next_rows_NoDup. }
    apply wp_rewrap_one; [done|done|by apply HE|]. intros w2 Ha2 Ht2 Hot.
    split; [by etrans|]. split; [by rewrite Ht2, alter_all_snoc, Ht|].
    split; [apply Forall_app; by repeat constructor|].
    rewrite last_snoc, zlen_app. simpl. f_equal. unfold zlen. simpl. lia.
  - intros acc w1 (Ha & Ht & Ho & ->). by apply HQ.
Qed.

(** The table when the loop stands at [lst]. *)
Definition reached (lst : option uuid) (t : Transfer.t) : bool := has_key t && negb (past lst t).

Definition partial (c p : bytes) (lst : option uuid) (m : gmap uuid Transfer.t) : gmap uuid Transfer.t :=
  (λ t, if reached lst t then rewrapped c p t else t) <$> m.

Definition waiting (lst : option uuid) (m : gmap uuid Transfer.t) : nat :=
  length (rows (λ t, has_key t && past lst t) m).

Lemma partial_keyed c p lst m : keyed Transfer.id m → keyed Transfer.id (partial c p lst m).
Proof.
  intros Hk i t. unfold partial. rewrite lookup_fmap. intros (t0 & Ht0 & ->)%fmap_Some.
  rewrite <- (Hk _ _ Ht0). case_match; [apply rewrapped_id|done].
Qed.

(** Rows not reached yet are those of the original table. *)
Lemma partial_unreached c p lst m i t :
  past lst t = true → partial c p lst m !! i = Some t ↔ m !! i = Some t.
Proof.
  unfold partial. rewrite lookup_fmap. unfold reached. intros Hp. split.
  - intros (t0 & Ht0 & ->)%fmap_Some. revert Hp. case_match eqn:E; [|done].
    apply andb_true_iff in E as [_ E]. unfold past in *. rewrite rewrapped_id.
    by destruct lst; [apply negb_true_iff in E; intros; congruence|].
  - intros ->. simpl. by rewrite Hp, andb_false_r.
Qed.

(** One page moves [lst] to its last row, and the table with it. *)
Lemma page_done c p lst d m pre z :
  keyed Transfer.id m → DB.transfers d = partial c p lst m → next_rows lst d = pre ++ [z] →
  alter_all Transfer.id (rewrapped c p) (next_rows lst d) (DB.transfers d)
    = partial c p (Some (Transfer.id z)) m ∧
  waiting lst m = (length (next_rows lst d) + waiting (Some (Transfer.id z)) m)%nat ∧
  ∀ i t, m !! i = Some t → reached (Some (Transfer.id z)) t = true →
    reached lst t = true ∨ t ∈ next_rows lst d.
Proof.
  intros Hk Hd Hr. pose proof (partial_keyed c p lst m Hk) as Hkd. rewrite <- Hd in Hkd.
  assert (Hz : past lst z = true).
  { apply (next_rows_elem lst d). rewrite Hr, elem_of_app. right. by left. }
  assert (Hup : ∀ i t, m !! i = Some t → has_key t = true → past lst t = true →
    (t ∈ next_rows lst d ↔ Transfer.id t ≤ Transfer.id z)).
  { intros i t Hi Hh Hp. apply (next_rows_upto lst d pre z Hkd Hr i); [|done|done].
    rewrite Hd. by apply partial_unreached. }
  assert (Hpast : ∀ t, past (Some (Transfer.id z)) t = true → past lst t = true).
  { intros t. unfold past in *. destruct lst; [|done]. lia. }
  split; [|split].
  - apply map_eq. intros i. rewrite lookup_alter_all by by apply next_rows_NoDup.
    rewrite Hd. unfold partial. rewrite !lookup_fmap.
    destruct (m !! i) as [t|] eqn:Hi; simpl; [|by case_decide].
    assert (Hin : i ∈ Transfer.id <$> next_rows lst d ↔
                  has_key t = true ∧ past lst t = true ∧ Transfer.id t ≤ Transfer.id z).
    { rewrite list_elem_of_fmap. split.
      - intros (y & -> & Hy). pose proof (next_rows_elem _ _ _ Hy) as (Hh & Hp & j & Hj).
        rewrite Hd in Hj. apply partial_unreached in Hj; [|done].
        assert (j = Transfer.id y) by by rewrite (Hk _ _ Hj). subst j. simplify_eq.
        repeat split; try done. by apply (Hup _ _ Hi Hh Hp).
      - intros (Hh & Hp & Hle). exists t. split; [by rewrite (Hk _ _ Hi)|].
        by apply (Hup _ _ Hi Hh Hp). }
    unfold reached. destruct (has_key t) eqn:Hh; simpl.
    2:{ case_decide; [naive_solver|done]. }
    destruct (past lst t) eqn:Hp; simpl.
    + case_decide as Hc; rewrite Hin in Hc;
        destruct (Transfer.id z <? Transfer.id t) eqn:E; zbool; simpl; try done; exfalso; naive_solver lia.
    + rewrite decide_False by naive_solver.
      destruct (Transfer.id z <? Transfer.id t) eqn:E; [|done]. specialize (Hpast t E). congruence.
  - assert (Hperm : next_rows lst d ≡ₚ
      rows (λ t, has_key t && past lst t && (Transfer.id t <=? Transfer.id z)) m).
    { apply NoDup_Permutation.
      - eapply NoDup_fmap_1, next_rows_NoDup, Hkd.
      - eapply NoDup_fmap_1, rows_keys_NoDup, Hk.
      - intros t. rewrite elem_of_rows. split.
        + intros Hy. pose proof (next_rows_elem _ _ _ Hy) as (Hh & Hp & j & Hj).
          rewrite Hd in Hj. apply partial_unreached in Hj; [|done].
          split; [|by eexists]. rewrite Hh, Hp. simpl. apply Z.leb_le. by apply (Hup _ _ Hj Hh Hp).
        + intros [Hb [j Hj]]. rewrite !andb_true_iff in Hb. destruct Hb as [[Hh Hp] Hle%Z.leb_le].
          by apply (Hup _ _ Hj Hh Hp). }
    rewrite Hperm. unfold waiting, rows. apply filter_split_length.
    + intros t. specialize (Hpast t). change (past (Some _) t) with (Transfer.id z <? Transfer.id t) in *.
      rewrite Z.leb_antisym. destruct (has_key t), (past lst t), (_ <? _); naive_solver.
    + intros t. change (past (Some _) t) with (Transfer.id z <? Transfer.id t).
      rewrite Z.leb_antisym. by destruct (has_key t), (past lst t), (_ <? _).
  - intros i t Hi [Hh Hnp]%andb_true_iff. unfold reached. rewrite Hh.
    destruct (past lst t) eqn:Hp; [right|by left]. apply (Hup i t Hi Hh Hp).
    apply negb_true_iff in Hnp. unfold past in Hnp. lia.
Qed.

(** An empty page: every row with a key has been reached. *)
Lemma no_more_rows c p lst d m :
  keyed Transfer.id m → DB.transfers d = partial c p lst m → next_rows lst d = [] →
  waiting lst m = O ∧ DB.transfers d = rewrapped c p <$> m ∧
  ∀ i t, m !! i = Some t → has_key t = true → reached lst t = true.
Proof.
  intros Hk Hd Hr.
  assert (Hnone : ∀ i t, m !! i = Some t → has_key t = true → past lst t = false).
  { intros i t Hi Hh. destruct (past lst t) eqn:Hp; [|done]. exfalso.
    assert (Hin : t ∈ rows (λ t, has_key t && past lst t) (DB.transfers d)).
    { apply elem_of_rows. rewrite Hh, Hp. split; [done|]. exists i. rewrite Hd.
      by apply partial_unreached. }
    rewrite <- (merge_sort_Permutation by_id) in Hin. unfold next_rows in Hr.
    change (λ t, bool_decide _ && _) with (λ t, has_key t && past lst t) in Hr.
    destruct (merge_sort by_id _) as [|y l]; [by apply elem_of_nil in Hin|].
    assert (Z.to_nat _REWRAP_CHUNK = S 999) as E by reflexivity. by rewrite E in Hr. }
  split; [|split].
  - unfold waiting. destruct (rows _ m) as [|t l] eqn:E; [done|].
    assert (t ∈ rows (λ t, has_key t && past lst t) m) as Hin by (rewrite E; by left).
    apply elem_of_rows in Hin as [[Hh Hp]%andb_true_iff [i Hi]]. by rewrite (Hnone i t) in Hp.
  - rewrite Hd. unfold partial. apply map_fmap_ext. intros i t Hi. unfold reached.
    destruct (has_key t) eqn:Hh; [by rewrite (Hnone i t)|]. by rewrite rewrapped_no_key.
  - intros i t Hi Hh. unfold reached. by rewrite Hh, (Hnone i t).
Qed.

Lemma no_key_opens c p t : has_key t = false → opens c p t.
Proof. intros H%bool_decide_eq_false_1 wk E. destruct H. by eexists. Qed.

(** The loop: with more fuel than pages to read it reaches the end. *)
Lemma wp_rewrap_transfers c p m fuel n lst w (Q : res Z → World → Prop) :
  keyed Transfer.id m → (waiting lst m < fuel)%nat →
  World.db w = World.sess w → DB.transfers (World.sess w) = partial c p lst m →
  (∀ i t, m !! i = Some t → reached lst t = true → opens c p t) →
  (∀ w' e lst', agree [PTransfers; PDb; PTick] w w' → e ∈ [EnvelopeError; ServiceError] →
     World.db w' = DB.set_transfers (partial c p lst' m) (World.db w) → Q (Err e) w') →
  (∀ w', agree [PTransfers; PDb; PTick] w w' → World.db w' = World.sess w' →
     DB.transfers (World.sess w') = rewrapped c p <$> m →
     (∀ i t, m !! i = Some t → opens c p t) → Q (Ok (n + Z.of_nat (waiting lst m))) w') →
  wp (rewrap_transfers fuel c p (n, lst)) w Q.
Proof.
  intros Hk. revert n lst w. induction fuel as [|fuel IH]; [lia|].
  intros n lst w Hf Hdb Ht Hop HE HQ. cbn [rewrap_transfers]. do 2 wp_step. cbn [snd fst].
  assert (Hkd : keyed Transfer.id (DB.transfers (World.sess w))).
  { rewrite Ht. by apply partial_keyed. }
  destruct (nonempty (next_rows lst (World.sess w))) eqn:Hne; cbn [negb].
  2:{ wp_step. destruct (next_rows _ _) eqn:Hr; [|done].
      destruct (no_more_rows c p lst _ m Hk Ht Hr) as (H0 & Hm & Hall).
      rewrite H0 in HQ. replace (n + Z.of_nat 0) with n in HQ by lia. apply HQ; [done..|].
      intros i t Hi. destruct (has_key t) eqn:Hh; [by eauto|by apply no_key_opens]. }
  assert (∃ pre z, next_rows lst (World.sess w) = pre ++ [z]) as (pre & z & Hr).
  { destruct (next_rows _ _) as [|y l] using rev_ind; [done|eauto]. }
  destruct (page_done c p lst _ m pre z Hk Ht Hr) as (Hall & Hwait & Hreach).
  wp_step. apply wp_rewrap_page; [done| |].
  - intros w1 Ha. apply (HE w1 EnvelopeError lst); [|by left|].
    + intros q Hq. apply Ha. intros Hin. apply Hq. rewrite !elem_of_cons in *. naive_solver.
    + rewrite (Ha PDb ltac:(part_notin) : World.db _ = _), Hdb. by rewrite set_transfers_same.
  - intros w1 Ha Ht1 Ho. rewrite Forall_forall in Ho. rewrite Hr, last_snoc, <- Hr. rewrite Hall in Ht1.
    assert (Ha' : agree [PTransfers; PDb; PTick] w w1).
    { intros q Hq. apply Ha. intros Hin. apply Hq. rewrite !elem_of_cons in *. naive_solver. }
    wp_step. apply wp_commit.
    + apply IH; try done.
      * rewrite Hwait, Hr, length_app in Hf. simpl in Hf. lia.
      * intros i t Hi Hre. destruct (Hreach i t Hi Hre); eauto.
      * intros w2 e lst' Ha2 He2 Hd2. apply (HE w2 e lst'); [|done|].
        { etrans; [exact Ha'|]. etrans; [|exact Ha2].
          intros q Hq. destruct q; try done; exfalso; apply Hq; part_in. }
        rewrite Hd2, Hdb. simpl.
        rewrite (agree_sess_transfers w w1 _) by (done || (eapply agree_weaken; [exact Ha'|part_sub])).
        done.
      * intros w2 Ha2 Hd2 Ht2 Ho2.
        replace (n + zlen _ + Z.of_nat _) with (n + Z.of_nat (waiting lst m))
          by (rewrite Hwait; unfold zlen; lia).
        apply HQ; try done. etrans; [exact Ha'|]. etrans; [|exact Ha2].
        intros q Hq. destruct q; try done; exfalso; apply Hq; part_in.
    + apply (HE _ ServiceError lst); [|by right; left|].
      * etrans; [exact Ha'|]. apply agree_tick. part_in.
      * simpl. rewrite (Ha PDb ltac:(part_notin) : World.db _ = _), Hdb. by rewrite set_transfers_same.
Qed.

Lemma wp_rewrap_all c p w (Q : res Z → World → Prop) :
  keyed Transfer.id (DB.transfers (World.db w)) → World.db w = World.sess w →
  (∀ w' e lst, agree [PTransfers; PDb; PTick] w w' → e ∈ [EnvelopeError; ServiceError] →
     World.db w' = DB.set_transfers (partial c p lst (DB.transfers (World.db w))) (World.db w) →
     Q (Err e) w') →
  (∀ w', agree [PTransfers; PDb; PTick] w w' →
     World.db w' = World.sess w' →
     World.db w' = DB.set_transfers (rewrapped c p <$> DB.transfers (World.db w)) (World.db w) →
     (∀ i t, DB.transfers (World.db w) !! i = Some t → opens c p t) →
     Q (Ok (zlen (rows has_key (DB.transfers (World.db w))))) w') →
  wp (rewrap_all c p) w Q.
Proof.
  intros Hk Hdb HE HQ. unfold rewrap_all. do 2 wp_step.
  assert (Hw : waiting None (DB.transfers (World.db w)) = length (rows has_key (DB.transfers (World.db w)))).
  { unfold waiting, rows. f_equal. apply list_filter_iff. intros t. simpl. by rewrite andb_true_r. }
  apply (wp_rewrap_transfers c p (DB.transfers (World.db w))); [done| |done| | |done|].
  - rewrite Hw, <- Hdb. pose proof (rows_size has_key (DB.transfers (World.db w))). lia.
  - rewrite <- Hdb. unfold partial. symmetry. apply map_fmap_id_eq. intros i t _.
    unfold reached. by rewrite andb_false_r.
  - intros i t _. unfold reached. by rewrite andb_false_r.
  - intros w1 Ha Hd Ht Ho. rewrite Hw. apply HQ; [done|done| |done]. rewrite Hd, Hdb.
    rewrite Hdb in Ht. apply (agree_sess_transfers w w1); [|done].
    eapply agree_weaken; [exact Ha|part_sub].
Qed.

(** Rewrapping a row again changes nothing, and its key then opens under the
    current master key alone. *)
Lemma rewrapped_opens `{!ServicesOk} c p t w fk :
  Transfer.wrapped_key t = Some w → Envelope.unwrap_key c w (Some p) = Ok fk → zlen fk = 32 →
  ∃ w', Transfer.wrapped_key (rewrapped c p t) = Some w' ∧ Envelope.unwrap_key c w' None = Ok fk ∧
        rewrapped c p (rewrapped c p t) = rewrapped c p t.
Proof.
  intros Hw Hu Hf. pose proof Hu as (Hc & Hp & _)%unwrap_key_ok.
  assert (Hwk : Envelope.wrap_key c fk = Ok (aes_key_wrap c fk)) by by apply wrap_key_ok.
  assert (E : rewrapped c p t = Transfer.set_wrapped_key (Some (aes_key_wrap c fk)) t).
  { unfold rewrapped. by rewrite Hw, Hu, Hwk. }
  exists (aes_key_wrap c fk). rewrite E. split; [done|]. split.
  - by apply (wrap_key_opens c fk).
  - unfold rewrapped. cbn [Transfer.wrapped_key Transfer.set_wrapped_key].
    by rewrite (wrap_key_opens c fk _ (Some p)), Hwk.
Qed.

(** ** The whole rewrap *)

(** A row and its key after the loop: same columns, and the same file key. *)
Definition opens_to (c : bytes) (prev : option bytes) (t : Transfer.t) (fk : bytes) : Prop :=
  ∃ wk, Transfer.wrapped_key t = Some wk ∧ Envelope.unwrap_key c wk prev = Ok fk.

Lemma unwrapped_length `{!ServicesOk} c w prev fk : Envelope.unwrap_key c w prev = Ok fk → zlen fk = 32.
Proof.
  intros (Hc & Hp & Hl & [Hu|[_ (p & Hpp & Hu)]])%unwrap_key_ok.
  - apply kw_wrap_unwrap in Hu as [_ E]; unfold zlen in *; lia.
  - specialize (Hp p Hpp). apply kw_wrap_unwrap in Hu as [_ E]; unfold zlen in *; lia.
Qed.

Lemma rewrapped_opens_to `{!ServicesOk} c p t fk :
  opens_to c (Some p) t fk →
  opens_to c None (rewrapped c p t) fk ∧ opens_to c (Some p) (rewrapped c p t) fk.
Proof.
  intros (wk & Hw & Hu). pose proof (unwrapped_length _ _ _ _ Hu) as Hf.
  destruct (rewrapped_opens c p t wk fk Hw Hu Hf) as (w' & Hw' & Hn & _).
  split; exists w'; (split; [done|]); [done|].
  apply unwrap_key_ok in Hn as (Hc & _ & Hl & [Hn|[_ (q & ? & _)]]); [|done].
  apply unwrap_key_ok in Hu as (_ & Hp & _). apply unwrap_key_ok. auto.
Qed.

Lemma rewrapped_columns c p t :
  Transfer.set_wrapped_key None (rewrapped c p t) = Transfer.set_wrapped_key None t.
Proof. unfold rewrapped. by repeat case_match. Qed.

(** What a run leaves in one row. *)
Definition row_after (c p : bytes) (done : bool) (t t' : Transfer.t) : Prop :=
  Transfer.set_wrapped_key None t' = Transfer.set_wrapped_key None t ∧
  (Transfer.wrapped_key t = None → t' = t) ∧
  (∀ fk, opens_to c (Some p) t fk → opens_to c (Some p) t' fk) ∧
  (done = true → is_Some (Transfer.wrapped_key t) →
   ∃ fk, opens_to c (Some p) t fk ∧ opens_to c None t' fk).

Lemma row_after_same c p t : row_after c p false t t.
Proof. by repeat split. Qed.

Lemma row_after_rewrapped `{!ServicesOk} c p b t :
  (b = true → opens c p t) → row_after c p b t (rewrapped c p t).
Proof.
  intros Ho. split; [apply rewrapped_columns|]. split; [|split].
  - intros Hn. apply rewrapped_no_key. apply bool_decide_eq_false_2. rewrite Hn. by intros [? ?].
  - intros fk Hfk. by apply rewrapped_opens_to.
  - intros Hb [wk Hw]. destruct (Ho Hb wk Hw) as [fk Hu].
    assert (Hot : opens_to c (Some p) t fk) by by exists wk.
    exists fk. split; [done|]. by apply rewrapped_opens_to.
Qed.

Definition table_after (c p : bytes) (b : bool) (m m' : gmap uuid Transfer.t) : Prop :=
  dom m' = dom m ∧ ∀ i t, m !! i = Some t → ∃ t', m' !! i = Some t' ∧ row_after c p b t t'.

Lemma wp_rewrap_all_after `{!ServicesOk} c p w :
  keyed Transfer.id (DB.transfers (World.db w)) → World.db w = World.sess w →
  wp (rewrap_all c p) w (λ r w',
    table_after c p (is_ok r) (DB.transfers (World.db w)) (DB.transfers (World.db w')) ∧
    DB.set_transfers ∅ (World.db w') = DB.set_transfers ∅ (World.db w) ∧
    match r with
    | Ok n => n = zlen (rows has_key (DB.transfers (World.db w)))
    | Err e => e ∈ [EnvelopeError; ServiceError]
    end).
Proof.
  intros Hk Hdb. apply wp_rewrap_all; [done|done| |].
  - intros w1 e lst _ He ->. split; [|done]. split.
    { unfold partial. cbn [DB.transfers DB.set_transfers]. apply dom_fmap_L. }
    intros i t Ht. unfold partial. cbn [DB.transfers DB.set_transfers]. rewrite lookup_fmap, Ht. eexists. split; [done|].
    case_match; [by apply row_after_rewrapped|by apply row_after_same].
  - intros w1 _ _ -> Ho. split; [|done]. split; [cbn [DB.transfers DB.set_transfers]; apply dom_fmap_L|].
    intros i t Ht. cbn [DB.transfers DB.set_transfers]. rewrite lookup_fmap, Ht. eexists. split; [done|].
    apply row_after_rewrapped. eauto.
Qed.

(** C11: rewrapping every file key.  The paged loop always terminates (never by
    running out of turns).  On success it reports the number of transfers that
    hold a key, and each of them ends with its file key, unchanged, wrapped
    under the current master key alone, so the previous one can be retired.  If
    a blob opens under neither key or a commit fails, it stops with that error,
    and the committed table is a mix of old and new blobs every one of which
    still opens to the same file key with the pair of keys, so the run can be
    repeated.  No other column, row or table changes. *)
Theorem rewrap_all_spec `{!ServicesOk} c p w r w' :
  keyed Transfer.id (DB.transfers (World.db w)) → World.db w = World.sess w →
  rewrap_all c p w = (r, w') →
  table_after c p (is_ok r) (DB.transfers (World.db w)) (DB.transfers (World.db w')) ∧
  DB.set_transfers ∅ (World.db w') = DB.set_transfers ∅ (World.db w) ∧
  match r with
  | Ok n => n = zlen (rows has_key (DB.transfers (World.db w)))
  | Err e => e ∈ [EnvelopeError; ServiceError]
  end.
Proof. intros Hk Hdb. by apply (wp_run _ _ _ _ _ (wp_rewrap_all_after c p w Hk Hdb)). Qed.

End rewrap_facts.

Section rewrap_witness.
#[local] Instance demo_services : Services := Sim.calm.
#[local] Instance demo_services_ok : ServicesOk := Sim.calm_ok.

(** One transfer still under the old key, one without a key. *)
Definition rewrap_demo : World := Demo.world (Demo.db_transfers
  [Demo.transfer 1 Ready (Some (Sim.kw_wrap Demo.old_master Demo.file_key)) Demo.now;
   Demo.transfer 2 Uploading None Demo.now] []).

Lemma rewrap_all_spec_witness :
  (Rotation.rewrap_all Demo.master Demo.old_master rewrap_demo).1 = Ok 1 ∧
  table_after Demo.master Demo.old_master true (DB.transfers (World.db rewrap_demo))
    (DB.transfers (World.db (Rotation.rewrap_all Demo.master Demo.old_master rewrap_demo).2)).
Proof.
  assert (H1 : (Rotation.rewrap_all Demo.master Demo.old_master rewrap_demo).1 = Ok 1)
    by (vm_compute; reflexivity).
  split; [exact H1|].
  destruct (Rotation.rewrap_all Demo.master Demo.old_master rewrap_demo) as [r w'] eqn:E.
  simpl in H1. subst r.
  refine (proj1 (rewrap_all_spec Demo.master Demo.old_master rewrap_demo (Ok 1) w' _ eq_refl E)).
  intros i t Ht. apply elem_of_map_to_list in Ht. revert Ht.
  vm_compute (map_to_list _). rewrite !elem_of_cons, elem_of_nil. naive_solver.
Defined.

End rewrap_witness.
