(* ===== verification/Middleware.v ===== *)
(** The CSRF and request-id middlewares ([middleware/csrf.py],
    [middleware/request_id.py]); the rate limiter is in [RateLimit]. *)
From S2P Require Import Prelude Text Services Model Effects RateLimit Http.

(** * middleware/csrf.py *)
Module CsrfMiddleware.
Section csrf.
Context {X : Services} {C : Config}.

Definition _MUTATING : list pystr := [u "POST"; u "PATCH"; u "PUT"; u "DELETE"].
Definition protect_prefix : pystr := u "/api/admin".
Definition cookie_name : pystr := u "csrf".
Definition exempt_paths : list pystr := [u "/api/admin/login"].

(** One item of a [Cookie] header joins the jar. *)
Definition add_cookie (jar : list (pystr * pystr)) (raw_item : pystr) : list (pystr * pystr) :=
  let item := strip raw_item in
  if negb (nonempty item) || negb (has_char 61 item) then jar
  else match partition_on 61 item with
       | (name, value) => dict_set (strip name) (strip (default [] value)) jar
       end.

Definition _parse_cookies (sc : Scope) : list (pystr * pystr) :=
  match get_header (sc_headers sc) (u "cookie") with
  | Some ((_ :: _) as raw) => foldl add_cookie [] (split_on 59 raw)
  | _ => []
  end.

Definition under (path prefix : pystr) : bool :=
  bool_decide (path = prefix) || startswith path (prefix ++ u "/").

Definition _is_protected (path : pystr) : bool := under path protect_prefix.
Definition _is_exempt (path : pystr) : bool := existsb (under path) exempt_paths.

Definition _build_csrf_cookie (name value : pystr) (secure : bool) : pystr :=
  join (u "; ") ([name ++ u "=" ++ value; u "Max-Age=86400"; u "Path=/"]
                 ++ (if secure then [u "Secure"] else []) ++ [u "SameSite=Strict"]).

(** [secrets.compare_digest] of two strings: both must be ASCII. *)
Definition compare_digest (a b : pystr) : res bool :=
  if isascii a && isascii b then Ok (bool_decide (a = b)) else Err TypeError.

(** [not cookie_val or not header_val or not compare_digest(...)] *)
Definition token_mismatch (cookie_val header_val : option pystr) : res bool :=
  match cookie_val, header_val with
  | Some ((_ :: _) as c), Some ((_ :: _) as h) => b ← compare_digest c h; Ok (negb b)
  | _, _ => Ok true
  end.

Definition refused : Response :=
  mkResponse 403 [] (JObj [(u "detail", JObj [(u "error", JStr (u "csrf"))])]).

Definition add_header (k v : pystr) (r : Response) : Response :=
  mkResponse (rs_status r) (rs_headers r ++ [(k, v)]) (rs_body r).

(** The application behind the gate, with a fresh cookie when there is none. *)
Definition forward (app : Scope → M Response) (sc : Scope) (cookies : list (pystr * pystr))
  : M Response :=
  match assoc cookie_name cookies with
  | Some _ => app sc
  | None =>
      token ← token_urlsafe;
      r ← app sc;
      mret (add_header (u "set-cookie")
              (_build_csrf_cookie cookie_name token (negb dev_insecure_cookies)) r)
  end.

Definition call (app : Scope → M Response) (sc : Scope) : M Response :=
  if negb (sc_http sc) then app sc
  else if negb (_is_protected (sc_path sc)) then app sc
  else
    let cookies := _parse_cookies sc in
    if bool_decide (upper (sc_method sc) ∈ _MUTATING) && negb (_is_exempt (sc_path sc)) then
      bad ← lift (token_mismatch (assoc cookie_name cookies)
                    (get_header (sc_headers sc) (u "x-csrf-token")));
      if bad : bool then mret refused else forward app sc cookies
    else forward app sc cookies.

End csrf.
End CsrfMiddleware.

(** * middleware/request_id.py *)
Module RequestIdMiddleware.
Section request_id.
Context {X : Services}.

Definition _MAX_ID_LEN : Z := 128.

Definition safe_id_char (ch : Z) : bool :=
  negb ((ch =? 13) || (ch =? 10) || (ch <? 32) || (ch =? 127)).

Definition _is_safe_id (raw : pystr) : bool :=
  if negb (nonempty raw) || (zlen raw >? _MAX_ID_LEN) then false
  else forallb safe_id_char raw.

Definition set_header (rid : pystr) (r : Response) : Response :=
  mkResponse (rs_status r)
    (filter (λ kv, lower_ascii kv.1 ≠ u "x-request-id") (rs_headers r)
     ++ [(u "X-Request-Id", rid)]) (rs_body r).

(** The id of a request: the caller's when it is safe, else a fresh UUID. *)
Definition choose_id (incoming : option pystr) : M pystr :=
  match incoming with
  | Some raw => if _is_safe_id raw then mret raw else (i ← uuid4; mret (uuid_str i))
  | None => i ← uuid4; mret (uuid_str i)
  end.

Definition call (app : Scope → M Response) (sc : Scope) : M Response :=
  if negb (sc_http sc) then app sc
  else
    rid ← choose_id (get_header (sc_headers sc) (u "x-request-id"));
    old ← gets World.request_id;
    modify (World.set_request_id (Some rid));;
    try_finally (r ← app sc; mret (set_header rid r)) (modify (World.set_request_id old)).

End request_id.
End RequestIdMiddleware.
