(* ===== verification/Invariants.v ===== *)
(** What every operation of the system preserves: the rows of the tables are
    well formed, transfers move only along the edges of their life cycle, logs
    only grow and an active administrator remains.  [Inv] is the invariant of a
    request in progress; one lemma per primitive update re-establishes it. *)
From S2P Require Import Prelude Text Services Model Effects Storage Support.
From S2P Require Import Gates RateLimit Http Envelope Session Auth AdminAuth.

(** * The life cycle of a transfer *)

Inductive edge : Status → Status → Prop :=
  | edge_ready : edge Uploading Ready
  | edge_infected : edge Uploading Infected
  | edge_revoke_upload : edge Uploading Revoked
  | edge_delete_upload : edge Uploading Deleted
  | edge_expire : edge Ready Expired
  | edge_revoke : edge Ready Revoked
  | edge_delete_ready : edge Ready Deleted
  | edge_delete_expired : edge Expired Deleted
  | edge_delete_infected : edge Infected Deleted
  | edge_delete_revoked : edge Revoked Deleted.

Lemma deleted_final s : rtc edge Deleted s → s = Deleted.
Proof. inversion 1 as [|? s' ? He]; [done | inversion He]. Qed.

Lemma closed_stays s s' : rtc edge s s' → s ∈ [Expired; Infected; Revoked; Deleted] →
  s' = s ∨ s' = Deleted.
Proof.
  intros H. inversion H as [|? s1 ? He Hr]; subst; [by left|]. intros Hs. right.
  apply (deleted_final s'). destruct He; try done; exfalso; revert Hs;
    rewrite !elem_of_cons, elem_of_nil; naive_solver.
Qed.

(** The columns each status requires. *)
Definition row_ok (t : Transfer.t) : Prop :=
  match Transfer.status t with
  | Uploading => Transfer.wrapped_key t = None
  | Ready => ∃ w, Transfer.wrapped_key t = Some w ∧ zlen w = 40
  | Expired | Deleted => Transfer.wrapped_key t = None ∧ is_Some (Transfer.deleted_at t)
  | Infected => Transfer.wrapped_key t = None ∧ is_Some (Transfer.infected_at t)
  | Revoked => is_Some (Transfer.revoked_at t) ∧
               (∀ w, Transfer.wrapped_key t = Some w → zlen w = 40)
  end.

(** The columns nothing changes after the upload request. *)
Definition fixed_columns (t : Transfer.t) :=
  (Transfer.id t, Transfer.token t, Transfer.manage_token t, Transfer.sender_email t,
   Transfer.message t, Transfer.total_size t, Transfer.file_count t,
   Transfer.created_at t, Transfer.expires_at t).

Definition moves (t t' : Transfer.t) : Prop :=
  fixed_columns t' = fixed_columns t ∧ rtc edge (Transfer.status t) (Transfer.status t').

#[export] Instance moves_pre : PreOrder moves.
Proof.
  split; [done|]. intros t t1 t2 [H1 H2] [H3 H4]. split; [congruence|by etrans].
Qed.

Definition file_columns (f : TransferFile.t) :=
  (TransferFile.id f, TransferFile.transfer_id f, TransferFile.filename f,
   TransferFile.safe_filename f, TransferFile.size_bytes f, TransferFile.object_key f).

Definition is_active_admin (a : Admin.t) : Prop :=
  Admin.disabled a = false ∧ Admin.role a = u "admin".

(** * Evolution of the database *)

Definition strip_audit := AuditLog.set_admin_id None.
Definition strip_action := AdminAction.set_admin_id None.

Record Evolves (d d' : DB.t) : Prop := mkEvolves {
  ev_transfers i t : DB.transfers d !! i = Some t →
    ∃ t', DB.transfers d' !! i = Some t' ∧ moves t t';
  ev_files i f : DB.files d !! i = Some f →
    ∃ f', DB.files d' !! i = Some f' ∧ file_columns f' = file_columns f;
  ev_audit : (strip_audit <$> DB.audit_log d) `prefix_of` (strip_audit <$> DB.audit_log d');
  ev_actions : (strip_action <$> DB.admin_actions d) `prefix_of` (strip_action <$> DB.admin_actions d');
  ev_admins : (∃ i a, DB.admins d !! i = Some a ∧ is_active_admin a) →
              ∃ i a, DB.admins d' !! i = Some a ∧ is_active_admin a
}.

#[export] Instance evolves_pre : PreOrder Evolves.
Proof.
  split.
  - intros d. split; [naive_solver | naive_solver | done | done | done].
  - intros d d1 d2 [T1 F1 A1 C1 M1] [T2 F2 A2 C2 M2]. split.
    + intros i t Ht. destruct (T1 i t Ht) as (t1 & Ht1 & Hm1).
      destruct (T2 i t1 Ht1) as (t2 & Ht2 & Hm2). exists t2. split; [done|by etrans].
    + intros i f Hf. destruct (F1 i f Hf) as (f1 & Hf1 & Hm1).
      destruct (F2 i f1 Hf1) as (f2 & Hf2 & Hm2). exists f2. split; [done|congruence].
    + by etrans.
    + by etrans.
    + auto.
Qed.

(** * Well-formed tables *)

Definition uuid_ok (i : uuid) : Prop := 0 ≤ i < 2 ^ 128.

Record Good (d : DB.t) : Prop := mkGood {
  good_transfers i t : DB.transfers d !! i = Some t → (Transfer.id t = i ∧ uuid_ok i) ∧ row_ok t;
  good_files i f : DB.files d !! i = Some f →
    (TransferFile.id f = i ∧ uuid_ok i) ∧
    TransferFile.object_key f = Storage.object_key (TransferFile.transfer_id f) i ∧
    TransferFile.safe_filename f = Staging.safe_filename (TransferFile.filename f) ∧
    is_Some (DB.transfers d !! TransferFile.transfer_id f);
  good_admins i a : DB.admins d !! i = Some a → Admin.id a = i
}.

Lemma good_empty : Good empty_db.
Proof. split; intros i t; simpl; rewrite lookup_empty; done. Qed.

(** A step of one session: well formed before and after, and an evolution. *)
Definition steps (d d' : DB.t) : Prop := Good d → Good d' ∧ Evolves d d'.

#[export] Instance steps_pre : PreOrder steps.
Proof.
  split; [by intros d|]. intros d d1 d2 H1 H2 G. destruct (H1 G) as [G1 E1].
  destruct (H2 G1) as [G2 E2]. split; [done|by etrans].
Qed.

(** A step that keeps transfers, files and admins. *)
Lemma steps_logs d d' :
  DB.transfers d' = DB.transfers d → DB.files d' = DB.files d → DB.admins d' = DB.admins d →
  (strip_audit <$> DB.audit_log d) `prefix_of` (strip_audit <$> DB.audit_log d') →
  (strip_action <$> DB.admin_actions d) `prefix_of` (strip_action <$> DB.admin_actions d') →
  steps d d'.
Proof.
  intros HT HF HA Ha Hc [G1 G2 G3]. split.
  - split; rewrite ?HT, ?HF, ?HA; done.
  - split; rewrite ?HT, ?HF, ?HA; try done; intros ? x Hx; by exists x.
Qed.

Lemma steps_add_audit d r : steps d (DB.set_audit_log (DB.audit_log d ++ [r]) d).
Proof. apply steps_logs; try done. simpl. rewrite fmap_app. by apply prefix_app_r. Qed.

Lemma steps_add_action d r : steps d (DB.set_admin_actions (DB.admin_actions d ++ [r]) d).
Proof. apply steps_logs; try done. simpl. rewrite fmap_app. by apply prefix_app_r. Qed.

(** An update of one transfer row. *)
Lemma steps_transfer d i f :
  (∀ t, DB.transfers d !! i = Some t → row_ok t → moves t (f t) ∧ row_ok (f t)) →
  steps d (DB.set_transfers (alter f i (DB.transfers d)) d).
Proof.
  intros Hf [G1 G2 G3].
  assert (Hl : ∀ j t', alter f i (DB.transfers d) !! j = Some t' →
    ∃ t, DB.transfers d !! j = Some t ∧ (t' = t ∨ i = j ∧ t' = f t)).
  { intros j t'. rewrite lookup_alter. case_decide; [|naive_solver].
    subst. intros (t & -> & ->)%fmap_Some. eauto. }
  assert (Hk : ∀ j t, DB.transfers d !! j = Some t →
    ∃ t', alter f i (DB.transfers d) !! j = Some t' ∧ moves t t').
  { intros j t Ht. rewrite lookup_alter. case_decide; [subst|by exists t].
    rewrite Ht. simpl. exists (f t). split; [done|]. apply Hf; [done|]. by eapply G1. }
  split.
  - split; simpl.
    + intros j t' Ht'. destruct (Hl j t' Ht') as (t & Ht & Hc). destruct (G1 j t Ht) as [Hi Ho].
      destruct Hc as [->|[-> ->]]; [done|]. destruct (Hf t Ht Ho) as [[Hm _] Ho'].
      split; [|done]. unfold fixed_columns in Hm. destruct Hi as [<- ?]. split; [congruence|done].
    + intros j g Hg. destruct (G2 j g Hg) as (? & ? & ? & [t Ht]). do 3 (split; [done|]).
      destruct (Hk _ t Ht) as (t' & -> & _). eauto.
    + done.
  - split; simpl; eauto.
Qed.

Lemma steps_add_transfer d t :
  DB.transfers d !! Transfer.id t = None → uuid_ok (Transfer.id t) → row_ok t →
  steps d (DB.set_transfers (<[Transfer.id t := t]> (DB.transfers d)) d).
Proof.
  intros Hn Hu Ho [G1 G2 G3].
  assert (Hk : ∀ j t', DB.transfers d !! j = Some t' →
    <[Transfer.id t := t]> (DB.transfers d) !! j = Some t').
  { intros j t' Ht'. rewrite lookup_insert_ne; [done|]. intros <-. congruence. }
  split.
  - split; simpl; [| |done].
    + intros j t'. rewrite lookup_insert. case_decide; [intros [= <-]; by subst|apply G1].
    + intros j g Hg. destruct (G2 j g Hg) as (? & ? & ? & [t' Ht']). eauto 6.
  - split; simpl; try done; eauto. intros j t' Ht'. exists t'. split; [by apply Hk|done].
Qed.

Lemma steps_file d i f :
  (∀ x, file_columns (f x) = file_columns x) →
  steps d (DB.set_files (alter f i (DB.files d)) d).
Proof.
  intros Hf [G1 G2 G3]. split.
  - split; simpl; [done| |done]. intros j g. rewrite lookup_alter. case_decide; [|apply G2].
    intros (x & Hx & ->)%fmap_Some. subst. specialize (Hf x). specialize (G2 _ x Hx).
    unfold file_columns in Hf. simplify_eq. destruct G2 as ([??] & ? & ? & ?).
    split; [split; congruence|]. split_and!; congruence.
  - split; simpl; try done.
    + intros j t Ht. by exists t.
    + intros j x Hx. rewrite lookup_alter. case_decide; [subst|by exists x].
      rewrite Hx. simpl. eauto.
Qed.

Lemma steps_add_file d f :
  DB.files d !! TransferFile.id f = None → uuid_ok (TransferFile.id f) →
  TransferFile.object_key f = Storage.object_key (TransferFile.transfer_id f) (TransferFile.id f) →
  TransferFile.safe_filename f = Staging.safe_filename (TransferFile.filename f) →
  is_Some (DB.transfers d !! TransferFile.transfer_id f) →
  steps d (DB.set_files (<[TransferFile.id f := f]> (DB.files d)) d).
Proof.
  intros Hn Hu Hk Hs Ht [G1 G2 G3]. split.
  - split; simpl; [done| |done]. intros j g. rewrite lookup_insert. case_decide; [intros [= <-]; by subst|apply G2].
  - split; simpl; try done; eauto.
    + intros j t Htt. by exists t.
    + intros j x Hx. exists x. split; [|done]. rewrite lookup_insert_ne; [done|]. intros <-. congruence.
Qed.

(** An update of one account. *)
Lemma steps_admin d i f :
  (∀ a, Admin.id (f a) = Admin.id a) →
  ((∃ a, DB.admins d !! i = Some a ∧ is_active_admin a ∧ ¬ is_active_admin (f a)) →
   ∃ j b, j ≠ i ∧ DB.admins d !! j = Some b ∧ is_active_admin b) →
  steps d (DB.set_admins (alter f i (DB.admins d)) d).
Proof.
  intros Hid Hact [G1 G2 G3]. split.
  - split; simpl; [done|done|]. intros j a. rewrite lookup_alter. case_decide; [|apply G3].
    intros (b & Hb & ->)%fmap_Some. rewrite Hid. subst. by apply G3.
  - split; simpl; try done.
    + intros j t Ht. by exists t.
    + intros j x Hx. by exists x.
    + intros (j & a & Ha & Hc). destruct (decide (i = j)) as [->|Hne].
      * destruct (decide (is_active_admin (f a))) as [Hy|Hn].
        { exists j, (f a). by rewrite lookup_alter_eq, Ha. }
        destruct Hact as (k & b & Hk & Hb & Hbc); [eauto|].
        exists k, b. by rewrite lookup_alter_ne.
      * exists j, a. by rewrite lookup_alter_ne.
Qed.

Lemma steps_add_admin d a :
  DB.admins d !! Admin.id a = None →
  steps d (DB.set_admins (<[Admin.id a := a]> (DB.admins d)) d).
Proof.
  intros Hn [G1 G2 G3]. split.
  - split; simpl; [done|done|]. intros j b. rewrite lookup_insert. case_decide; [intros [= <-]; by subst|apply G3].
  - split; simpl; try done.
    + intros j t Ht. by exists t.
    + intros j x Hx. by exists x.
    + intros (j & b & Hb & Hc). exists j, b. split; [|done].
      rewrite lookup_insert_ne; [done|]. intros <-. congruence.
Qed.

Lemma good_keyed d : Good d → keyed Transfer.id (DB.transfers d).
Proof. intros G i t Ht. by apply (good_transfers _ G). Qed.

(** A bulk update of transfers, and new log rows. *)
Lemma steps_bulk d d' g :
  DB.transfers d' = g <$> DB.transfers d →
  (∀ i t, DB.transfers d !! i = Some t → row_ok t → moves t (g t) ∧ row_ok (g t)) →
  DB.files d' = DB.files d → DB.admins d' = DB.admins d →
  (strip_audit <$> DB.audit_log d) `prefix_of` (strip_audit <$> DB.audit_log d') →
  DB.admin_actions d' = DB.admin_actions d →
  steps d d'.
Proof.
  intros HT Hg HF HA Ha Hc [G1 G2 G3]. split.
  - split; rewrite ?HT, ?HF, ?HA; [| |done].
    + intros i t'. rewrite lookup_fmap. intros (t & Ht & ->)%fmap_Some.
      destruct (G1 i t Ht) as [Hi Ho]. destruct (Hg i t Ht Ho) as [[Hm _] Ho']. split; [|done].
      unfold fixed_columns in Hm. destruct Hi as [<- ?]. split; [congruence|done].
    + intros j f Hf. destruct (G2 j f Hf) as (? & ? & ?). rewrite lookup_fmap, fmap_is_Some. done.
  - split; rewrite ?HT, ?HF, ?HA, ?Hc; try done; [|intros i f Hf; by exists f].
    intros i t Ht. exists (g t). rewrite lookup_fmap, Ht. split; [done|].
    apply (Hg i); [done|by eapply G1].
Qed.

Lemma prefix_audit l new l' : l' = l ++ new → (strip_audit <$> l) `prefix_of` (strip_audit <$> l').
Proof. intros ->. rewrite fmap_app. by apply prefix_app_r. Qed.

(** * The invariant of a request in progress *)

(** Committed and pending state are well formed, and each evolved from what was
    there before: [d0], then the committed state, then the session. *)
Record Inv `{Services} (d0 : DB.t) (w : World) : Prop := mkInv {
  inv_db : Good (World.db w);
  inv_ev : Evolves d0 (World.db w);
  inv_sess : Good (World.sess w);
  inv_pending : Evolves (World.db w) (World.sess w)
}.

Section keeps.
Context {X : Services}.

Definition keeps {A} (m : M A) : Prop := ∀ d0, preserves (Inv d0) m.

(** The parts [Inv] looks at. *)
Definition critical : list part := [PTransfers; PFiles; PAudit; PActions; PAdmins; PDb].

Definition harmless (l : list part) : bool := forallb (λ p, bool_decide (p ∉ l)) critical.

Lemma good_same d d' :
  DB.transfers d' = DB.transfers d → DB.files d' = DB.files d → DB.admins d' = DB.admins d →
  Good d → Good d'.
Proof. intros HT HF HA [G1 G2 G3]. split; rewrite ?HT, ?HF, ?HA; done. Qed.

Lemma harmless_out l p : harmless l = true → p ∈ critical → p ∉ l.
Proof.
  unfold harmless. rewrite forallb_forall. intros H Hp.
  apply list_elem_of_In in Hp. specialize (H p Hp). by apply bool_decide_eq_true in H.
Qed.

Lemma inv_agree d0 l w w' : agree l w w' → harmless l = true → Inv d0 w → Inv d0 w'.
Proof.
  intros Ha Hl [G1 E1 G2 E2].
  assert (Hs : ∀ p, p ∈ critical → same_part p w w').
  { intros p Hp. apply Ha. by apply harmless_out. }
  pose proof (Hs PTransfers ltac:(part_in)) as HT. pose proof (Hs PFiles ltac:(part_in)) as HF.
  pose proof (Hs PAudit ltac:(part_in)) as HU. pose proof (Hs PActions ltac:(part_in)) as HC.
  pose proof (Hs PAdmins ltac:(part_in)) as HM. pose proof (Hs PDb ltac:(part_in)) as HD.
  simpl in *. split; rewrite ?HD; try done.
  - by eapply good_same.
  - destruct E2 as [T F U C M]. split; rewrite ?HT, ?HF, ?HU, ?HC, ?HM; done.
Qed.

Lemma inv_steps d0 w d : Inv d0 w → steps (World.sess w) d → Inv d0 (World.set_sess d w).
Proof.
  intros [G1 E1 G2 E2] H. destruct (H G2) as [G3 E3]. split; simpl; try done. by etrans.
Qed.

Lemma inv_tick d0 w : Inv d0 w → Inv d0 (next_tick w).
Proof. intros [G1 E1 G2 E2]. by split. Qed.

Lemma inv_committed d0 w : Inv d0 w → Inv d0 (World.set_db (World.sess w) w).
Proof. intros [G1 E1 G2 E2]. split; simpl; try done. by etrans. Qed.

Lemma inv_rolled_back d0 w : Inv d0 w → Inv d0 (World.set_sess (World.db w) w).
Proof. intros [G1 E1 G2 E2]. by split. Qed.

Lemma keeps_foot {A} l (m : M A) : touches l m → harmless l = true → keeps m.
Proof. intros Ht Hl d0 w HI. apply (inv_agree d0 l w); [apply Ht|done|done]. Qed.

(** Every part but the critical ones. *)
Definition harmless_parts : list part :=
  [PTick; PRedis; PBucket; PFs; PSmtp; PTelegram; PRid; PCache; PRecipients; PDownloads; PBlock;
   PSettings; PKeys].

Lemma keeps_harmless {A} (m : M A) : touches harmless_parts m → keeps m.
Proof. intros. by apply (keeps_foot harmless_parts). Qed.

Lemma keeps_bind {A B} (m : M A) (f : A → M B) :
  keeps m → (∀ a, keeps (f a)) → keeps (m ≫= f).
Proof. intros Hm Hf d0. apply preserves_bind; [done|]. intros a. by apply Hf. Qed.

Lemma keeps_ret {A} (a : A) : keeps (mret a).
Proof. intros d0. apply preserves_ret. Qed.

Lemma keeps_try_except {A} (m : M A) h : keeps m → (∀ e, keeps (h e)) → keeps (try_except m h).
Proof. intros Hm Hh d0. apply preserves_try_except; [done|]. intros e. by apply Hh. Qed.

Lemma keeps_try_finally {A} (m : M A) f : keeps m → keeps f → keeps (try_finally m f).
Proof. intros Hm Hf d0. by apply preserves_try_finally. Qed.

Lemma keeps_suppress m : keeps m → keeps (suppress m).
Proof. intros Hm d0. by apply preserves_suppress. Qed.

Lemma keeps_for {A} (xs : list A) f : (∀ x, keeps (f x)) → keeps (for_ xs f).
Proof. intros Hf d0. apply preserves_for. intros x _. by apply Hf. Qed.

Lemma keeps_fold {A B} (xs : list A) (f : B → A → M B) b :
  (∀ b x, keeps (f b x)) → keeps (fold_m f b xs).
Proof. intros Hf d0. apply preserves_fold. intros c x _. by apply Hf. Qed.

Lemma keeps_commit : keeps commit.
Proof.
  intros d0 w HI. apply wp_commit; [|by apply inv_tick].
  apply (inv_committed d0 (next_tick w)). by apply inv_tick.
Qed.

Lemma keeps_rollback : keeps rollback.
Proof. intros d0 w HI. by apply inv_rolled_back. Qed.

Lemma keeps_modify_db f : (∀ d, steps d (f d)) → keeps (modify_db f).
Proof. intros Hf d0 w HI. apply wp_modify_db. by apply inv_steps. Qed.

Lemma keeps_add_audit f : keeps (add_audit f).
Proof. apply keeps_modify_db. intros. apply steps_add_audit. Qed.

Lemma keeps_add_action f : keeps (add_action f).
Proof. apply keeps_modify_db. intros. apply steps_add_action. Qed.

Lemma keeps_update_file i f : (∀ x, file_columns (f x) = file_columns x) → keeps (update_file i f).
Proof. intros Hf. apply keeps_modify_db. intros. by apply steps_file. Qed.

Lemma keeps_update_admin i f :
  (∀ a, Admin.id (f a) = Admin.id a ∧ Admin.role (f a) = Admin.role a ∧
        Admin.disabled (f a) = Admin.disabled a) →
  keeps (update_admin i f).
Proof.
  intros Hf. apply keeps_modify_db. intros d. apply steps_admin; [by apply Hf|].
  intros (a & _ & [H1 H2] & Hn). destruct Hn. destruct (Hf a) as (_ & HR & HD).
  split; congruence.
Qed.

(** An update of a transfer whose current row is known. *)
Lemma wp_update_transfer d0 w i t f (Q : res unit → World → Prop) :
  Inv d0 w → DB.transfers (World.sess w) !! i = Some t →
  (row_ok t → moves t (f t) ∧ row_ok (f t)) →
  (∀ w', Inv d0 w' → World.db w' = World.db w → Q (Ok tt) w') →
  wp (update_transfer i f) w Q.
Proof.
  intros HI Ht Hf HQ. apply wp_modify_db. apply HQ; [|done].
  apply inv_steps; [done|]. apply steps_transfer. intros t' Ht'. by simplify_eq.
Qed.

(** The row survives an operation of harmless footprint. *)
Lemma agree_transfers l w w' :
  agree l w w' → harmless l = true → DB.transfers (World.sess w') = DB.transfers (World.sess w).
Proof. intros Ha Hl. apply (Ha PTransfers). apply harmless_out; [done|part_in]. Qed.

(** Inv from the tables alone. *)
Lemma inv_to d0 w w' :
  World.db w' = World.db w → steps (World.sess w) (World.sess w') → Inv d0 w → Inv d0 w'.
Proof.
  intros Hd Hs HI. destruct (inv_steps d0 w _ HI Hs) as [G1 E1 G2 E2].
  simpl in *. split; rewrite ?Hd; done.
Qed.

Lemma keeps_with_session {A} (m : M A) d0 w :
  keeps m → Good (World.db w) → Evolves d0 (World.db w) →
  wp (with_session m) w (λ _ w', Inv d0 w' ∧ World.sess w' = World.db w').
Proof.
  intros Hm HG HE. apply wp_with_session. eapply wp_mono.
  - apply (Hm d0). by split.
  - intros r w1 HI. split; [|done]. by apply inv_rolled_back.
Qed.

End keeps.

Create HintDb keeps discriminated.
#[export] Hint Resolve keeps_commit keeps_rollback keeps_add_audit keeps_add_action : keeps.

(** [keeps] of an operation, by its structure. *)
Ltac keep_step :=
  match goal with
  | |- keeps (match ?x with _ => _ end) => destruct x
  | |- keeps (let '_ := ?x in _) => destruct x
  | |- keeps (update_admin _ _) => apply keeps_update_admin; by intros
  | |- keeps _ => solve [auto with keeps]
  | |- keeps _ => solve [apply keeps_harmless; unfold harmless_parts; foot]
  | |- keeps (mbind _ _) => apply keeps_bind; [|intros ?]
  | |- keeps (mret _) => apply keeps_ret
  | |- keeps (try_except _ _) => apply keeps_try_except; [|intros ?]
  | |- keeps (try_finally _ _) => apply keeps_try_finally
  | |- keeps (suppress _) => apply keeps_suppress
  | |- keeps (for_ _ _) => apply keeps_for; intros ?
  | |- keeps (fold_m _ _ _) => apply keeps_fold; intros ? ?
  end.
Ltac keep := intros; repeat keep_step.
