(* ===== verification/Lifecycle.v ===== *)
(** Every endpoint, job and scheduler tick preserves [Inv]. *)
From S2P Require Import Prelude Text Services Model Effects Storage Support Gates RateLimit Http.
From S2P Require Import Envelope Session Auth Tus Transfers Public Worker.
From S2P Require Import AdminAuth AdminApi AdminUsers Telegram Rotation Invariants.

Section public_keeps.
Context {X : Services} {XOk : ServicesOk} {C : Config}.

Lemma keeps_write_event a b c d e f g : keeps (Audit.write_event a b c d e f g).
Proof. unfold Audit.write_event. keep. Qed.
#[local] Hint Resolve keeps_write_event : keeps.

Lemma keeps_record a b c d e f : keeps (AdminActions.record a b c d e f).
Proof. unfold AdminActions.record. keep. Qed.

Lemma keeps_alert a b c d e f : keeps (Alerts.alert a b c d e f).
Proof. unfold Alerts.alert. keep. Qed.
#[local] Hint Resolve keeps_alert : keeps.

Lemma keeps_captcha_gate a b : keeps (Public.captcha_gate a b).
Proof. unfold Public.captcha_gate. keep. Qed.

Lemma keeps_block_alert a b c d : keeps (Public.block_alert a b c d).
Proof. unfold Public.block_alert. keep. Qed.
#[local] Hint Resolve keeps_block_alert : keeps.

Lemma keeps_blocklist_gate a b : keeps (Public.blocklist_gate a b).
Proof. unfold Public.blocklist_gate. keep. Qed.

Lemma keeps_geoip_gate a : keeps (Public.geoip_gate a).
Proof. unfold Public.geoip_gate. keep. Qed.

Lemma keeps_policy_gate a b : keeps (Public.policy_gate a b).
Proof. unfold Public.policy_gate. keep. Qed.
#[local] Hint Resolve keeps_captcha_gate keeps_blocklist_gate keeps_geoip_gate keeps_policy_gate : keeps.

(** A row of the session with the id a new file refers to. *)
Definition has_transfer (i : uuid) (w : World) : Prop :=
  is_Some (DB.transfers (World.sess w) !! i).

Lemma agree_has_transfer l i w w' :
  PTransfers ∉ l → agree l w w' → has_transfer i w → has_transfer i w'.
Proof. intros Hl Ha. unfold has_transfer. by rewrite (Ha PTransfers Hl : DB.transfers _ = _). Qed.

Lemma wp_add_file d0 w f :
  Inv d0 w → has_transfer (TransferFile.transfer_id f) w → uuid_ok (TransferFile.id f) →
  TransferFile.object_key f = Storage.object_key (TransferFile.transfer_id f) (TransferFile.id f) →
  TransferFile.safe_filename f = Staging.safe_filename (TransferFile.filename f) →
  wp (add_file f) w (λ _ w', Inv d0 w').
Proof.
  intros HI Ht Hu Hk Hn. unfold add_file. wp_step. wp_step. case_bool_decide as Hc; [by wp_step|].
  wp_step. apply inv_steps; [done|]. apply steps_add_file; [|done..].
  by apply eq_None_not_Some.
Qed.

Lemma wp_add_one_file d0 w i url urls f :
  Inv d0 w → has_transfer i w →
  wp (TransferService.add_one_file i url urls f) w (λ _ w', Inv d0 w' ∧ has_transfer i w').
Proof.
  intros HI Ht. apply wp_and.
  - unfold TransferService.add_one_file. do 3 wp_step.
    eapply wp_mono; [apply (wp_add_file d0); simpl; auto using inv_tick; apply rand_uuid_range|].
    intros [[]|e] w1 H1; [by wp_step|done].
  - eapply wp_mono; [apply (touches_wp [PTick; PFiles]); foot|]. intros r w' Ha.
    eapply agree_has_transfer, Ht; [|exact Ha]. part_notin.
Qed.

Lemma wp_add_transfer d0 w t :
  Inv d0 w → uuid_ok (Transfer.id t) → row_ok t →
  wp (add_transfer t) w (λ r w', Inv d0 w' ∧ (r = Ok tt → has_transfer (Transfer.id t) w')).
Proof.
  intros HI Hu Ho. unfold add_transfer. wp_step. wp_step.
  destruct (_ || _) eqn:E; wp_step; [done|]. apply orb_false_iff in E as [E _].
  apply bool_decide_eq_false_1 in E. split.
  - apply inv_steps; [done|]. apply steps_add_transfer; [by apply eq_None_not_Some|done|done].
  - intros _. unfold has_transfer. simpl. rewrite lookup_insert_eq. eauto.
Qed.

Lemma keeps_add_recipient r : keeps (add_recipient r).
Proof. unfold add_recipient. keep. Qed.

Lemma keeps_transfer_create req ip ua c city url :
  keeps (TransferService.create req ip ua c city url).
Proof.
  intros d0 w HI. unfold TransferService.create. do 11 wp_step.
  eapply wp_mono; [apply (wp_add_transfer d0); [by repeat apply inv_tick|apply rand_uuid_range|done]|].
  intros [[]|e] w1 [H1 Hh]; [|done]. specialize (Hh eq_refl). simpl in Hh.
  set (i := rand_uuid _) in *. wp_step.
  eapply wp_mono.
  { apply wp_and; [|apply (touches_wp [PTick; PRecipients]); foot].
    apply (keeps_foot [PTick; PRecipients]); [foot|done|done]. }
  intros [[]|e] w2 [H2 Ha]; [|done]. wp_step.
  assert (has_transfer i w2) by (eapply agree_has_transfer, Hh; [|exact Ha]; part_notin).
  apply (wp_fold _ _ _ _ (λ _ _ w, Inv d0 w ∧ has_transfer i w)); [done| |].
  - intros _ f _ urls w3 _ [H3 Hh3]. eapply wp_mono; [by apply (wp_add_one_file d0)|].
      by intros [a|e] w4 [H4 Hh4].
  - by intros urls w3 [H3 _]; wp_step.
Qed.
#[local] Hint Resolve keeps_transfer_create : keeps.

Lemma keeps_create_transfer p rq : keeps (Public.create_transfer p rq).
Proof. unfold Public.create_transfer. keep. Qed.

Lemma keeps_tus_head i j : keeps (Public.tus_head i j).
Proof. keep. Qed.

Lemma keeps_tus_patch i j rq b : keeps (Public.tus_patch i j rq b).
Proof. unfold Public.tus_patch, Public.tus_errors. keep. Qed.

Lemma keeps_download_file a b c : keeps (Public.download_file a b c).
Proof. unfold Public.download_file. keep. Qed.

Lemma keeps_download_zip a b : keeps (Public.download_zip a b).
Proof. unfold Public.download_zip. keep. Qed.

Lemma keeps_sender_panel a : keeps (Public.sender_panel a).
Proof. keep. Qed.

(** ** The transitions *)

Lemma deletable t cur : Transfer.status t ≠ Deleted →
  moves t (Public.mark_deleted cur t) ∧ row_ok (Public.mark_deleted cur t).
Proof.
  intros Hn. split; [split; [done|]|]; simpl.
  - apply rtc_once. destruct (Transfer.status t); done || constructor.
  - split; [done|by eexists].
Qed.

Lemma revocable t cur : Public.closed_status (Transfer.status t) = false → row_ok t →
  moves t (Public.mark_revoked cur t) ∧ row_ok (Public.mark_revoked cur t).
Proof.
  unfold row_ok. intros Hn Ho. split; [split; [done|]|]; simpl.
  - apply rtc_once. destruct (Transfer.status t); try done; constructor.
  - split; [by eexists|]. intros w Hw. destruct (Transfer.status t); naive_solver.
Qed.

Lemma wp_load_by_manage_token d0 w tok Q :
  Inv d0 w → Q (Err Public.not_found) w →
  (∀ t, DB.transfers (World.sess w) !! Transfer.id t = Some t → Transfer.manage_token t = tok →
        Q (Ok t) w) →
  wp (Public._load_by_manage_token tok) w Q.
Proof.
  intros HI HE HQ. unfold Public._load_by_manage_token, TransferService.get_by_manage_token.
  do 2 wp_step. destruct (TransferService.find_transfer _ _) as [t|] eqn:E; wp_step; [|done].
  apply head_rows in E as [Hp (i & Hi)]. apply bool_decide_eq_true_1 in Hp. apply HQ; [|done].
  destruct (good_transfers _ (inv_sess _ _ HI) i t Hi) as [[-> _] _]. done.
Qed.

(** What follows the update in [sender_delete] and [sender_revoke]. *)
Lemma keeps_then {A B} (m : M A) (f : A → M B) d0 w :
  keeps m → (∀ a, keeps (f a)) → Inv d0 w → wp (m ≫= f) w (λ _ w', Inv d0 w').
Proof. intros Hm Hf. by apply keeps_bind. Qed.

Lemma keeps_sender_delete tok rq : keeps (Public.sender_delete tok rq).
Proof.
  intros d0 w HI. unfold Public.sender_delete. wp_step.
  apply (wp_load_by_manage_token d0); [done|done|]. intros t Ht _.
  case_decide; [by wp_step|]. wp_step.
  eapply wp_mono; [apply (touches_wp [PTick; PBucket]); foot|]. intros [[]|e] w1 Ha.
  2:{ exact (inv_agree d0 _ _ _ Ha eq_refl HI). }
  pose proof (inv_agree d0 _ _ _ Ha eq_refl HI) as H1. do 3 wp_step.
  apply (wp_update_transfer d0 _ _ t); [by apply inv_tick| | |].
  - simpl. by rewrite (agree_transfers _ _ _ Ha eq_refl).
  - intros _. by apply deletable.
  - intros w2 H2 _. apply keeps_then; [keep|keep|done].
Qed.

Lemma keeps_sender_revoke tok rq : keeps (Public.sender_revoke tok rq).
Proof.
  intros d0 w HI. unfold Public.sender_revoke. wp_step.
  apply (wp_load_by_manage_token d0); [done|done|]. intros t Ht _.
  destruct (Public.closed_status _) eqn:E; [by wp_step|]. do 3 wp_step.
  apply (wp_update_transfer d0 _ _ t); [by apply inv_tick|done| |].
  - by apply revocable.
  - intros w2 H2 _. apply keeps_then; [keep|keep|done].
Qed.

End public_keeps.

#[export] Hint Resolve keeps_write_event keeps_record keeps_alert : keeps.

Section worker_keeps.
Context {X : Services} {XOk : ServicesOk} {C : Config}.

Lemma keeps_email_job job : keeps (Email.process_email_job job).
Proof.
  unfold Email.process_email_job, Email.send_job, Email.text_of, Email.smtp_send, Email.update_status. keep.
Qed.

Lemma keeps_encrypt_one i k f : keeps (Encrypt.encrypt_one i k f).
Proof.
  unfold Encrypt.encrypt_one. keep. by apply keeps_update_file.
Qed.

Lemma readyable t w : Transfer.status t = Uploading → zlen w = 40 →
  moves t (Encrypt.mark_ready w t) ∧ row_ok (Encrypt.mark_ready w t).
Proof.
  intros Hs Hw. split; [split; [done|]|]; simpl; [|by exists w].
  apply rtc_once. rewrite Hs. constructor.
Qed.

Lemma infectable t cur : Transfer.status t = Uploading → row_ok t →
  moves t (Encrypt.mark_infected cur t) ∧ row_ok (Encrypt.mark_infected cur t).
Proof.
  unfold row_ok. intros Hs Ho. rewrite Hs in Ho. split; [split; [done|]|]; simpl.
  - apply rtc_once. rewrite Hs. constructor.
  - by split; [|eexists].
Qed.

Lemma expirable t now cur : Cleanup.expired_ready now t = true →
  moves t (Cleanup.mark_expired cur t) ∧ row_ok (Cleanup.mark_expired cur t).
Proof.
  unfold Cleanup.expired_ready. intros [Hs _]%andb_true_iff. apply bool_decide_eq_true_1 in Hs.
  split; [split; [done|]|]; simpl; [|by split; [|eexists]].
  apply rtc_once. rewrite Hs. constructor.
Qed.

Lemma wrapped_length mk fk w : Envelope.wrap_key mk fk = Ok w → zlen w = 40.
Proof.
  intros (Hm & Hf & ->)%wrap_key_ok. pose proof (key_wrappable mk fk Hm Hf) as Hw.
  unfold zlen in *. rewrite kw_length by done. lia.
Qed.

Lemma touches_encrypt_one i k f : touches [PTick; PBucket; PFiles] (Encrypt.encrypt_one i k f).
Proof. unfold Encrypt.encrypt_one. foot. Qed.
#[local] Hint Resolve touches_encrypt_one : foot.
#[local] Hint Resolve keeps_encrypt_one : keeps.

Lemma touches_enqueue_transfer_emails t i fs :
  touches [PTick; PRedis] (Encrypt._enqueue_transfer_emails t i fs).
Proof. unfold Encrypt._enqueue_transfer_emails. foot. Qed.
#[local] Hint Resolve touches_enqueue_transfer_emails : foot.

(** The [try] block either commits the whole change or leaves the committed
    state as it was. *)
Lemma wp_encrypt_all d0 w mk t files :
  Inv d0 w → DB.transfers (World.sess w) !! Transfer.id t = Some t →
  Transfer.status t = Uploading →
  wp (Encrypt.encrypt_all mk t files) w
    (λ r w', Inv d0 w' ∧ ∀ e, r = Err e → World.db w' = World.db w).
Proof.
  intros HI Ht Hs. unfold Encrypt.encrypt_all. do 3 wp_step.
  eapply wp_mono.
  { apply wp_and; [|apply (touches_wp [PTick; PBucket; PFiles]); foot].
    apply keeps_for; [|by apply (inv_tick d0)]. intros. apply keeps_encrypt_one. }
  intros r w1 [H1 Ha]. pose proof (Ha PDb ltac:(part_notin)) as Hdb. simpl in Hdb.
  destruct r as [[]|e]; [|done]. do 2 wp_step.
  destruct (Envelope.wrap_key mk _) as [wrapped|e] eqn:Hw; [|done].
  wp_step. apply (wp_update_transfer d0 _ _ t); [done| | |].
  { by rewrite (Ha PTransfers ltac:(part_notin) : DB.transfers _ = _). }
  { intros _. apply readyable; [done|]. by eapply wrapped_length. }
  intros w2 H2 Hd2. do 4 wp_step. wp_step. apply wp_commit.
  - eapply wp_mono; [apply (wp_and _ _ (λ _ w', Inv d0 w') (λ r _, r = Ok tt)); [|]|].
    + eapply keeps_foot; [foot|done|]. apply (inv_committed d0 (next_tick _)), inv_tick, inv_steps, steps_add_audit.
      by apply inv_tick.
    + unfold Encrypt._enqueue_transfer_emails. wp_step. by apply wp_of.
    + intros r w3 [H4 ->]. by split.
  - split; [|intros e _; simpl; congruence].
    by apply inv_tick, inv_steps, steps_add_audit; apply inv_tick.
Qed.

(** The [except] block runs with the transfer still in its uploading row. *)
Lemma keeps_encrypt_failed d0 w i t e :
  Inv d0 w → DB.transfers (World.db w) !! i = Some t → Transfer.status t = Uploading →
  wp (Encrypt.encrypt_failed i e) w (λ _ w', Inv d0 w').
Proof.
  intros HI Ht Hs. unfold Encrypt.encrypt_failed. wp_step. wp_step. do 3 wp_step.
  simpl. rewrite Ht. do 4 wp_step. wp_step.
  apply (wp_update_transfer d0 _ _ t); [by apply inv_tick, inv_rolled_back|done| |].
  { by apply infectable. }
  intros w2 H2 _. eapply wp_mono; [apply (keeps_then _ _ d0); [keep|keep|done]|].
  intros [[]|e'] w3 H3; [|done]. eapply keeps_foot; [foot|done|done].
Qed.

Lemma wp_encrypt_locked d0 w mk i :
  Inv d0 w → World.sess w = World.db w →
  wp (Encrypt.encrypt_locked mk i) w (λ _ w', Inv d0 w').
Proof.
  intros HI Hsd. unfold Encrypt.encrypt_locked. do 2 wp_step.
  destruct (DB.transfers (World.sess w) !! i) as [t|] eqn:Ht; [|by wp_step].
  case_bool_decide as Hs; cbn [negb]; [|by wp_step]. do 4 wp_step.
  destruct (good_transfers _ (inv_sess _ _ HI) i t Ht) as [[Hi _] _].
  eapply wp_mono; [apply (wp_encrypt_all d0); [done|by rewrite Hi|done]|].
  intros r w1 [H1 Hd]. destruct r as [[]|e].
  - eapply wp_mono; [eapply keeps_foot; [foot|done|done]|]. done.
  - eapply wp_mono.
    { apply (keeps_encrypt_failed d0 _ _ t); [done| |done]. by rewrite (Hd e), <- Hsd. }
    intros r w2 H2. simpl in H2. eapply wp_mono; [eapply keeps_foot; [foot|done|exact H2]|]. done.
Qed.

Lemma wp_run_cleanup_inv d0 w :
  Inv d0 w → wp Cleanup.run_cleanup_once w (λ _ w', Good (World.db w') ∧ Evolves d0 (World.db w')).
Proof.
  intros HI. apply wp_run_cleanup.
  { intros w1 _ _ _ Ha. rewrite (Ha PDb ltac:(part_notin) : World.db _ = _). split; apply HI. }
  set (cur := clock _). intros w1 [Ha Ht (new & Hn & _) _ _ _].
  assert (H1 : Inv d0 w1).
  { apply (inv_to d0 (next_tick w)); [apply (Ha PDb); part_notin| |by apply inv_tick].
    eapply steps_bulk.
    - rewrite Ht. apply alter_all_rows, good_keyed, HI.
    - intros i t _ Ho. simpl. destruct (Cleanup.expired_ready cur t) eqn:E; [|done].
      by eapply expirable.
    - apply (Ha PFiles). part_notin.
    - apply (Ha PAdmins). part_notin.
    - by eapply prefix_audit.
    - apply (Ha PActions). part_notin. }
  split; [intros _; split; apply H1|]. intros _. split; [|split; apply H1].
  pose proof (inv_committed d0 (next_tick w1) (inv_tick d0 w1 H1)) as H2. split; apply H2.
Qed.

Lemma keeps_alert_infected t : keeps (Defender.alert_infected t).
Proof. unfold Defender.alert_infected. keep. Qed.
#[local] Hint Resolve keeps_alert_infected : keeps.

Lemma wp_run_defender_inv d0 w :
  Inv d0 w → World.sess w = World.db w →
  wp Defender.run_defender_poll_once w (λ _ w', Good (World.db w') ∧ Evolves d0 (World.db w')).
Proof.
  intros HI Hsd. apply wp_run_defender.
  { intros w1 e -> _. split; apply HI. }
  set (cur := clock _). intros w1 [Ha Ht _ _ (new & Hn & _)].
  assert (H1 : Inv d0 w1).
  { apply (inv_to d0 (next_tick w)); [apply (Ha PDb); part_notin| |by apply inv_tick].
    eapply (steps_bulk _ _ (λ t, if Defender.candidate (cur - 10 * second) t &&
                                   flagged (next_tick w) t
                                then Encrypt.mark_infected cur t else t)).
    - rewrite Ht. simpl. rewrite <- (alter_all_rows Transfer.id); [|apply good_keyed, HI].
      f_equal. unfold rows. rewrite list_filter_filter. apply list_filter_iff.
      intros t. rewrite andb_true_iff. tauto.
    - intros i t _ Ho. destruct (_ && _) eqn:E; [|done].
      apply andb_true_iff in E as [E _]. unfold Defender.candidate in E.
      apply andb_true_iff in E as [E _]. apply bool_decide_eq_true_1 in E. by apply infectable.
    - apply (Ha PFiles). part_notin.
    - apply (Ha PAdmins). part_notin.
    - by eapply prefix_audit.
    - apply (Ha PActions). part_notin. }
  split.
  - intros _. split; apply H1.
  - intros _. eapply wp_mono; [apply (keeps_for _ _ keeps_alert_infected d0)|].
    + apply (inv_committed d0 (next_tick w1)). by apply inv_tick.
    + intros r w2 H2. split; apply H2.
Qed.

End worker_keeps.

Section admin_keeps.
Context {X : Services} {XOk : ServicesOk} {C : Config}.

Lemma keeps_login p : keeps (AdminAuth.login p).
Proof.
  unfold AdminAuth.login, AdminAuth.refuse, AuthService.register_failure. keep.
  all: apply keeps_update_admin; intros ?; simpl; repeat case_match; done.
Qed.

Lemma keeps_list_transfers rq r : keeps (AdminTransfers.admin_list_transfers rq r).
Proof. unfold AdminTransfers.admin_list_transfers. keep. Qed.

Lemma wp_admin_transfer d0 w i t f {A} (k : M A) :
  Inv d0 w → DB.transfers (World.sess w) !! i = Some t →
  (row_ok t → moves t (f t) ∧ row_ok (f t)) → keeps k →
  wp (update_transfer i f;; k) w (λ _ w', Inv d0 w').
Proof.
  intros HI Ht Hf Hk. wp_step. apply (wp_update_transfer d0 _ _ t); [done..|].
  intros w1 H1 _. by apply Hk.
Qed.

Lemma keeps_admin_delete_transfer i rq : keeps (AdminTransfers.admin_delete_transfer i rq).
Proof.
  intros d0 w HI. unfold AdminTransfers.admin_delete_transfer. wp_step.
  eapply wp_mono; [apply (keeps_foot [PTick; PRedis]); [foot|done|done]|].
  intros [ctx|e] w1 H1; [|done]. do 2 wp_step. simpl in H1.
  destruct (_ !! i) as [t|] eqn:Ht; [|by wp_step]. case_decide; [by wp_step|]. wp_step.
  eapply wp_mono; [apply (touches_wp [PTick; PBucket]); foot|]. intros [[]|e] w2 Ha.
  2:{ exact (inv_agree d0 _ _ _ Ha eq_refl H1). }
  pose proof (inv_agree d0 _ _ _ Ha eq_refl H1) as H2. do 2 wp_step.
  apply (wp_admin_transfer d0 _ _ t); [by apply inv_tick| | |unfold AdminActions.record; keep].
  - simpl. by rewrite (agree_transfers _ _ _ Ha eq_refl).
  - intros _. by apply deletable.
Qed.

Lemma keeps_admin_revoke_transfer i rq : keeps (AdminTransfers.admin_revoke_transfer i rq).
Proof.
  intros d0 w HI. unfold AdminTransfers.admin_revoke_transfer. wp_step.
  eapply wp_mono; [apply (keeps_foot [PTick; PRedis]); [foot|done|done]|].
  intros [ctx|e] w1 H1; [|done]. do 2 wp_step. simpl in H1.
  destruct (_ !! i) as [t|] eqn:Ht; [|by wp_step].
  destruct (Public.closed_status _) eqn:E; [by wp_step|]. do 2 wp_step.
  apply (wp_admin_transfer d0 _ _ t); [by apply inv_tick|done| |unfold AdminActions.record; keep].
  by apply revocable.
Qed.

Lemma touches_table l k m : PBlock ∈ l → touches l (modify_db (λ d, AdminBlocklist.set_table k (m d) d)).
Proof.
  intros Hl. apply touches_modify_db. intros d p Hp. destruct k, p; simpl; done.
Qed.

Lemma keeps_table k m : keeps (modify_db (λ d, AdminBlocklist.set_table k (m d) d)).
Proof. apply (keeps_foot [PBlock]); [apply touches_table; part_in|done]. Qed.
#[local] Hint Resolve keeps_table : keeps.

Lemma keeps_blocklist_list k rq : keeps (AdminBlocklist.admin_blocklist_list k rq).
Proof. unfold AdminBlocklist.admin_blocklist_list. keep. Qed.

Lemma keeps_blocklist_add k p rq : keeps (AdminBlocklist.admin_blocklist_add k p rq).
Proof. unfold AdminBlocklist.admin_blocklist_add, AdminBlocklist._validate_blocklist_value. keep. Qed.

Lemma keeps_blocklist_delete k v rq : keeps (AdminBlocklist.admin_blocklist_delete k v rq).
Proof. unfold AdminBlocklist.admin_blocklist_delete. keep. Qed.

Lemma keeps_put_setting k v t b : keeps (AdminSettings.put_setting k v t b).
Proof. unfold AdminSettings.put_setting. keep. Qed.
#[local] Hint Resolve keeps_put_setting : keeps.

Lemma keeps_patch_settings b rq : keeps (AdminSettings.admin_patch_settings b rq).
Proof. unfold AdminSettings.admin_patch_settings, AdminSettings.patch_one. keep. Qed.

Lemma keeps_add_extension p rq : keeps (AdminSettings.admin_add_extension p rq).
Proof. unfold AdminSettings.admin_add_extension, AdminSettings.ext_action. keep. Qed.

Lemma keeps_remove_extension p rq : keeps (AdminSettings.admin_remove_extension p rq).
Proof. unfold AdminSettings.admin_remove_extension, AdminSettings.ext_action. keep. Qed.

Lemma keeps_update_telegram p rq : keeps (AdminTelegram.admin_update_telegram p rq).
Proof.
  unfold AdminTelegram.admin_update_telegram, AdminTelegram.update_one, AdminTelegram._wrap_for_storage,
    AdminTelegram.read_config.
  keep.
Qed.

Lemma keeps_audit_csv rq a b c d : keeps (AdminLogs.admin_audit_csv rq a b c d).
Proof. unfold AdminLogs.admin_audit_csv. keep. Qed.

Lemma active_iff a : AdminUsers.is_active_admin a = true ↔ is_active_admin a.
Proof.
  unfold AdminUsers.is_active_admin, is_active_admin.
  rewrite andb_true_iff, negb_true_iff, bool_decide_eq_true. done.
Qed.

Lemma good_admins_keyed d : Good d → keyed Admin.id (DB.admins d).
Proof. intros G i a Ha. by apply (good_admins _ G). Qed.

(** More than one active administrator: one remains without [i]. *)
Lemma other_active d i :
  Good d → 1 < AdminUsers.active_admins d →
  ∃ j b, j ≠ i ∧ DB.admins d !! j = Some b ∧ is_active_admin b.
Proof.
  intros G Hl. destruct (another_row Admin.id _ _ i (good_admins_keyed d G) Hl) as (j & b & ? & ? & ?).
  exists j, b. by rewrite <- active_iff.
Qed.

Lemma keeps_add_admin a : keeps (AdminUsers.add_admin a).
Proof.
  intros d0 w HI. unfold AdminUsers.add_admin. do 2 wp_step.
  destruct (_ || _) eqn:E; wp_step; [done|]. apply orb_false_iff in E as [E _].
  apply bool_decide_eq_false_1 in E.
  apply inv_steps; [done|]. by apply steps_add_admin, eq_None_not_Some.
Qed.
#[local] Hint Resolve keeps_add_admin : keeps.

Lemma keeps_create_admin p rq : keeps (AdminUsers.admin_create_admin p rq).
Proof. unfold AdminUsers.admin_create_admin, AdminUsers.admin_action. keep. Qed.

Lemma keeps_create_admin_main k e p r : keeps
  (existing ← query (AdminAuth.find_admin e);
   match existing with
   | Some _ => mret 2
   | None =>
       secret ← AuthService.generate_totp_secret;
       master ← lift (MasterKey.load_master_key k false);
       wrapped ← lift (Secrets.wrap_totp_secret master secret);
       password_hash ← AuthService.hash_password p;
       i ← uuid4;
       created ← now;
       AdminUsers.add_admin (Admin.mk i e password_hash (Some wrapped) true r false created None 0 None);;
       commit;;
       lift (AuthService.build_totp_uri secret e (u "Fylix"));;
       mret 0
   end).
Proof. keep. Qed.

Lemma keeps_reset_totp i rq : keeps (AdminUsers.admin_reset_totp i rq).
Proof. unfold AdminUsers.admin_reset_totp, AdminUsers.admin_action. keep. Qed.

Lemma keeps_update_users i p rq :
  AdminUsers.validate_update p = Ok p → keeps (AdminUsers.admin_update_admin i p rq).
Proof.
  intros Hv d0 w HI. unfold AdminUsers.admin_update_admin. wp_step.
  eapply wp_mono; [apply (keeps_foot [PTick; PRedis]); [foot|done|done]|].
  intros [ctx|e] w1 H1; [|done]. do 2 wp_step. simpl in H1.
  destruct (_ !! i) as [a|] eqn:Ha; [|by wp_step]. wp_step.
  assert (Hcount : ∀ n, (AdminUsers.would_reduce_active p a && AdminUsers.is_active_admin a = true →
      n = AdminUsers.active_admins (World.sess w1)) → ∀ (k : M AdminUsers.AdminRow), keeps k →
    wp (if n <=? 1 then raise AdminUsers.min_admins
        else update_admin i (AdminUsers.apply_update p);; k) w1 (λ _ w', Inv d0 w')).
  { intros n Hn k Hk. destruct (n <=? 1) eqn:En; [by wp_step|]. apply Z.leb_gt in En. wp_step.
    apply wp_modify_db. apply Hk, inv_steps; [done|]. apply steps_admin; [done|].
    intros (a' & Ha' & Hact & Hnot). assert (a' = a) as -> by congruence.
    rewrite <- active_iff in Hact, Hnot.
    destruct (AdminUsers.would_reduce_active p a) eqn:Ew.
    - apply other_active; [apply H1|]. rewrite <- Hn by by rewrite Hact. done.
    - destruct Hnot. by apply update_keeps_active. }
  unfold AdminUsers.admin_action. destruct (_ && _) eqn:E; wp_step; apply Hcount; try done; keep.
Qed.

Lemma steps_delete_admin d i d' :
  DB.transfers d' = DB.transfers d → DB.files d' = DB.files d →
  strip_audit <$> DB.audit_log d' = strip_audit <$> DB.audit_log d →
  strip_action <$> DB.admin_actions d' = strip_action <$> DB.admin_actions d →
  DB.admins d' = delete i (DB.admins d) →
  (∀ a, DB.admins d !! i = Some a → is_active_admin a →
     ∃ j b, j ≠ i ∧ DB.admins d !! j = Some b ∧ is_active_admin b) →
  steps d d'.
Proof.
  intros HT HF Ha Hc HA Hact [G1 G2 G3]. split.
  - split; rewrite ?HT, ?HF, ?HA; [done|done|]. intros j b. rewrite lookup_delete_Some. naive_solver.
  - split; rewrite ?HT, ?HF, ?HA, ?Ha, ?Hc; try done; try (intros j x Hx; by exists x).
    intros (j & b & Hb & Hba). destruct (decide (i = j)) as [->|Hne].
    + destruct (Hact b Hb Hba) as (j' & b' & ? & ? & ?). exists j', b'.
      by rewrite lookup_delete_ne.
    + exists j, b. by rewrite lookup_delete_ne.
Qed.

Lemma keeps_delete_admin i rq : keeps (AdminUsers.admin_delete_admin i rq).
Proof.
  intros d0 w HI. unfold AdminUsers.admin_delete_admin. wp_step.
  eapply wp_mono; [apply (keeps_foot [PTick; PRedis]); [foot|done|done]|].
  intros [ctx|e] w1 H1; [|done]. do 2 wp_step. simpl in H1.
  destruct (_ !! i) as [a|] eqn:Ha; [|by wp_step]. do 2 wp_step.
  destruct (_ && _) eqn:E; [by wp_step|]. wp_step.
  unfold AdminUsers.admin_action, AdminActions.record. do 3 wp_step.
  match goal with |- wp _ ?w' _ => assert (H2 : Inv d0 w') end.
  { apply inv_steps, steps_add_action. by apply inv_tick. }
  revert H2. set (w2 := World.set_sess _ _). intros H2.
  wp_step. unfold AdminUsers.delete_admin_row. do 2 wp_step.
  destruct (existsb _ _); [by wp_step|]. wp_step.
  apply (keeps_then _ _ d0); [keep|keep|].
  apply inv_steps; [done|]. eapply (steps_delete_admin _ i); try done.
  - simpl. rewrite <- list_fmap_compose. by apply list_fmap_ext.
  - simpl. rewrite <- list_fmap_compose. by apply list_fmap_ext.
  - simpl. intros a' Ha' Hact. assert (a' = a) as -> by congruence.
    apply active_iff in Hact. rewrite Hact in E. apply Z.leb_gt in E.
    by apply other_active; [apply H1|].
Qed.

(** ** Rotation *)

Lemma rewrapped_row c p t : row_ok t → moves t (rewrapped c p t) ∧ row_ok (rewrapped c p t).
Proof.
  unfold rewrapped. destruct (Transfer.wrapped_key t) as [w|] eqn:Hw; [|done].
  destruct (Envelope.unwrap_key c w (Some p)) as [fk|]; [|done].
  destruct (Envelope.wrap_key c fk) as [w'|] eqn:Hw'; [|done].
  pose proof (wrapped_length _ _ _ Hw') as Hl. intros Ho. split; [done|].
  unfold row_ok in *. simpl. rewrite Hw in Ho.
  destruct (Transfer.status t); naive_solver.
Qed.

Lemma rewrap_steps d g c p :
  (∀ t, g t = t ∨ g t = rewrapped c p t) → steps d (DB.set_transfers (g <$> DB.transfers d) d).
Proof.
  intros Hg. eapply (steps_bulk _ _ g); try done. intros i t _ Ho.
  destruct (Hg t) as [->| ->]; [done|by apply rewrapped_row].
Qed.

Lemma wp_rewrap_all_inv d0 c p w :
  Inv d0 w → World.sess w = World.db w →
  wp (Rotation.rewrap_all c p) w (λ r w', Good (World.db w') ∧ Evolves d0 (World.db w') ∧
    match r with Ok _ => World.sess w' = World.db w' | Err _ => True end).
Proof.
  intros HI Hsd. apply wp_rewrap_all; [apply good_keyed, HI|done| |].
  - intros w1 e lst _ _ ->. destruct (rewrap_steps (World.db w)
      (λ t, if reached lst t then rewrapped c p t else t) c p) as [G E]; [|apply HI|].
    { intros t. destruct (reached lst t); auto. }
    split; [done|]. split; [|done]. etrans; [apply HI|done].
  - intros w1 _ Hd Hd2. destruct (rewrap_steps (World.db w) (rewrapped c p) c p) as [G E];
      [auto|apply HI|]. rewrite <- Hd, Hd2. split; [done|]. split; [|done]. etrans; [apply HI|done].
Qed.

Lemma keeps_rewrap_admin c p n a : keeps (Rotation.rewrap_admin c p n a).
Proof. unfold Rotation.rewrap_admin. keep. Qed.
#[local] Hint Resolve keeps_rewrap_admin : keeps.

Lemma wp_crypto_rewrap d0 rq w :
  Inv d0 w → World.sess w = World.db w →
  wp (Rotation.admin_crypto_rewrap rq) w (λ _ w', Good (World.db w') ∧ Evolves d0 (World.db w')).
Proof.
  intros HI Hsd. unfold Rotation.admin_crypto_rewrap. wp_step.
  eapply wp_mono.
  { apply wp_and; [apply (touches_wp [PTick; PRedis]); foot|].
    apply (keeps_foot [PTick; PRedis]); [foot|done|exact HI]. }
  intros [ctx|e] w1 [Ha H1]; [|split; apply H1].
  assert (Hsd1 : World.sess w1 = World.db w1).
  { rewrite (agree_sess _ _ _ Ha) by part_sub. by rewrite (Ha PDb ltac:(part_notin) : World.db _ = _). }
  wp_step. eapply wp_mono; [apply (touches_wp []); foot|]. intros [cur|e] w2 Ha2.
  2:{ pose proof (inv_agree d0 _ _ _ Ha2 eq_refl H1) as H2. split; apply H2. }
  pose proof (inv_agree d0 _ _ _ Ha2 eq_refl H1) as H2.
  assert (Hsd2 : World.sess w2 = World.db w2).
  { rewrite (agree_sess _ _ _ Ha2) by part_sub. by rewrite (Ha2 PDb ltac:(part_notin) : World.db _ = _). }
  wp_step. unfold State.get_previous_master_key. wp_step.
  assert (Hout : Good (World.db w2) ∧ Evolves d0 (World.db w2)) by (split; apply H2).
  destruct (World.previous_master_key w2) as [prev|]; [|by wp_step].
  case_decide; [by wp_step|]. wp_step.
  eapply wp_mono; [by apply (wp_rewrap_all_inv d0)|]. intros [n|e] w3 (G3 & E3 & Hsd3); [|done].
  apply (wp_mono _ _ (λ _ w', Inv d0 w')); [|intros r w4 H4; split; apply H4].
  match goal with |- wp ?m _ _ => assert (Hk : keeps m); [|apply (Hk d0)] end.
  - unfold AdminActions.record. keep.
  - by split; rewrite ?Hsd3.
Qed.

End admin_keeps.

