(* ===== verification/System.v ===== *)
(** The whole system as a transition relation: one event per request, job,
    scheduler tick or script run, each executed against the committed state;
    what holds in every reachable state. *)
From S2P Require Import Prelude Text Services Sim Model Scenario Effects Storage Support Gates RateLimit Http.
From S2P Require Import Envelope Session Auth Tus Transfers Public Page Worker.
From S2P Require Import AdminAuth AdminApi AdminUsers Analytics Telegram Rotation Invariants Lifecycle.

Module System.

(** The read-only requests of the admin API. *)
Inductive admin_query :=
  | Me
  | ListTransfers (r : AdminTransfers.Query)
  | GetTransfer (transfer_id : uuid)
  | ListBlocklist (kind : pystr)
  | GetSettings
  | GetExtensions
  | ListAudit (r : AdminLogs.AuditQuery)
  | ListActions (r : AdminLogs.ActionQuery)
  | ListAdmins
  | GetTelegram
  | GetAnalytics (days : Z).

Inductive event :=
  (* routers/public.py *)
  | CreateTransfer (payload : CreateTransferRequest.t) (request : Request)
  | TusHead (transfer_id file_id : uuid)
  | TusPatch (transfer_id file_id : uuid) (request : Request) (body : bytes)
  | DownloadPage (token : pystr)
  | DownloadFile (token : pystr) (file_id : uuid) (request : Request)
  | DownloadZip (token : pystr) (request : Request)
  | SenderPanel (manage_token : pystr)
  | SenderDelete (manage_token : pystr) (request : Request)
  | SenderRevoke (manage_token : pystr) (request : Request)
  (* routers/admin.py *)
  | Login (payload : LoginRequest.t)
  | Logout (request : Request)
  | AdminGet (q : admin_query) (request : Request)
  | AdminDeleteTransfer (transfer_id : uuid) (request : Request)
  | AdminRevokeTransfer (transfer_id : uuid) (request : Request)
  | BlocklistAdd (kind : pystr) (payload : AdminBlocklist.BlocklistAddRequest) (request : Request)
  | BlocklistDelete (kind value : pystr) (request : Request)
  | PatchSettings (body : list (pystr * json)) (request : Request)
  | AddExtension (payload : option json) (request : Request)
  | RemoveExtension (ext : pystr) (request : Request)
  | AuditCsv (request : Request) (event_type severity : option pystr) (since until : option datetime)
  | CreateAdmin (payload : AdminUsers.AdminCreateRequest) (request : Request)
  | UpdateAdmin (admin_id : uuid) (payload : AdminUsers.AdminUpdateRequest) (request : Request)
  | ResetTotp (admin_id : uuid) (request : Request)
  | DeleteAdmin (admin_id : uuid) (request : Request)
  | UpdateTelegram (payload : AdminTelegram.TelegramConfigUpdate) (request : Request)
  | CryptoRewrap (request : Request)
  (* worker/main.py *)
  | UploadTurn
  | EmailTurn
  | CleanupTick
  | DefenderTick
  (* scripts *)
  | RotateMasterKey (old_file new_file : MasterKey.node)
  | WrapTotpSecrets (key_file : MasterKey.node)
  | CreateAdminScript (key_file : MasterKey.node) (email password role : pystr).

Section system.
Context {X : Services} {C : Config}.

Definition ignore {A} (m : M A) : M unit := m;; mret tt.

Definition request {A} (m : M A) : M unit := ignore (with_session m).

Definition admin_get (q : admin_query) (rq : Request) : M unit :=
  match q with
  | Me => ignore (AdminAuth.me rq)
  | ListTransfers r => ignore (AdminTransfers.admin_list_transfers rq r)
  | GetTransfer i => ignore (AdminTransfers.admin_get_transfer i rq)
  | ListBlocklist k => ignore (AdminBlocklist.admin_blocklist_list k rq)
  | GetSettings => ignore (AdminSettings.admin_get_settings rq)
  | GetExtensions => ignore (AdminSettings.admin_get_extensions rq)
  | ListAudit r => ignore (AdminLogs.admin_list_audit rq r)
  | ListActions r => ignore (AdminLogs.admin_list_actions rq r)
  | ListAdmins => ignore (AdminUsers.admin_list_admins rq)
  | GetTelegram => ignore (AdminTelegram.admin_get_telegram rq)
  | GetAnalytics days => ignore (Analytics.admin_analytics rq days)
  end.

Definition handle (e : event) : M unit :=
  match e with
  | CreateTransfer p rq =>
      request (p ← lift (CreateTransferRequest.validate p); Public.create_transfer p rq)
  | TusHead i j => request (Public.tus_head i j)
  | TusPatch i j rq b => request (Public.tus_patch i j rq b)
  | DownloadPage t => request (DownloadPage.download_page t)
  | DownloadFile t f rq => request (Public.download_file t f rq)
  | DownloadZip t rq => request (Public.download_zip t rq)
  | SenderPanel t => request (Public.sender_panel t)
  | SenderDelete t rq => request (Public.sender_delete t rq)
  | SenderRevoke t rq => request (Public.sender_revoke t rq)
  | Login p => request (p ← lift (LoginRequest.validate p); AdminAuth.login p)
  | Logout rq => ignore (AdminAuth.logout rq)
  | AdminGet q rq => request (admin_get q rq)
  | AdminDeleteTransfer i rq => request (AdminTransfers.admin_delete_transfer i rq)
  | AdminRevokeTransfer i rq => request (AdminTransfers.admin_revoke_transfer i rq)
  | BlocklistAdd k p rq => request (AdminBlocklist.admin_blocklist_add k p rq)
  | BlocklistDelete k v rq => request (AdminBlocklist.admin_blocklist_delete k v rq)
  | PatchSettings b rq => request (AdminSettings.admin_patch_settings b rq)
  | AddExtension p rq => request (AdminSettings.admin_add_extension p rq)
  | RemoveExtension e rq => request (AdminSettings.admin_remove_extension e rq)
  | AuditCsv rq e s a b => request (AdminLogs.admin_audit_csv rq e s a b)
  | CreateAdmin p rq =>
      request (p ← lift (AdminUsers.validate_create p); AdminUsers.admin_create_admin p rq)
  | UpdateAdmin i p rq =>
      request (p ← lift (AdminUsers.validate_update p); AdminUsers.admin_update_admin i p rq)
  | ResetTotp i rq => request (AdminUsers.admin_reset_totp i rq)
  | DeleteAdmin i rq => request (AdminUsers.admin_delete_admin i rq)
  | UpdateTelegram p rq =>
      request (p ← lift (AdminTelegram.validate_update p); AdminTelegram.admin_update_telegram p rq)
  | CryptoRewrap rq => request (Rotation.admin_crypto_rewrap rq)
  | UploadTurn => k ← State.get_master_key; WorkerMain.upload_consumer_turn k
  | EmailTurn => WorkerMain.email_consumer_turn
  | CleanupTick => WorkerMain._cleanup_tick
  | DefenderTick => WorkerMain._defender_tick
  | RotateMasterKey a b => ignore (Rotation.rotate_main a b)
  | WrapTotpSecrets k => ignore (Rotation.wrap_totp_main k)
  | CreateAdminScript k e p r => ignore (AdminUsers.create_admin_cli k e p r)
  end.

Definition step (w w' : World) : Prop := ∃ e, w' = (handle e w).2.

End system.
End System.

(** * Invariants of the committed state *)

Section committed.
Context {X : Services} {C : Config} (P : DB.t → Prop).

Definition committed (w : World) : Prop := P (World.db w).

Lemma committed_foot {A} l (m : M A) : touches l m → PDb ∉ l → preserves committed m.
Proof.
  intros Ht Hl. apply (preserves_foot _ l); [|done]. intros w w' Ha. unfold committed.
  by rewrite (Ha PDb Hl : World.db _ = _).
Qed.

(** A session that starts from the committed state. *)
Lemma committed_session {A} (m : M A) :
  (∀ w, P (World.db w) → World.sess w = World.db w → wp m w (λ _, committed)) →
  preserves committed (with_session m).
Proof.
  intros Hm w HP. apply wp_with_session. eapply wp_mono; [by apply Hm|]. by intros r w' H'.
Qed.

Lemma committed_consumer_turn q h :
  (∀ job, preserves committed (h job)) → preserves committed (WorkerMain.consumer_turn q h).
Proof.
  intros Hh. unfold WorkerMain.consumer_turn, Queues.pop_job.
  apply preserves_bind; [apply (committed_foot [PTick; PRedis]); [foot|part_notin]|].
  intros [job|]; [|apply preserves_ret]. unfold Dlq.run_consumer_iteration.
  destruct job; try apply preserves_raise.
  apply preserves_bind; [apply (committed_foot []); [foot|part_notin]|]. intros old.
  assert (Hbody : preserves committed (try_except (h (JObj l)) (λ e, suppress
     (text ← exception_text e; t ← now;
      redis_lpush (Dlq._dlq_name q) (Dlq.dlq_record q (JObj l) e text t))))).
  { apply preserves_try_except; [apply Hh|]. intros e.
    apply (committed_foot [PTick; PRedis]); [foot|part_notin]. }
  case_match; [|done]. apply preserves_bind; [apply (committed_foot [PRid]); [foot|part_notin]|]. intros _.
  apply preserves_try_finally; [done|]. apply (committed_foot [PRid]); [foot|part_notin].
Qed.

End committed.

(** * Every event preserves the committed state's invariant *)

Section safe.
Context {X : Services} {XOk : ServicesOk} {C : Config}.

Definition good_world (d0 : DB.t) : World → Prop := committed (λ d, Good d ∧ Evolves d0 d).

Definition safe {A} (m : M A) : Prop := ∀ d0, preserves (good_world d0) m.

Lemma safe_foot {A} l (m : M A) : touches l m → PDb ∉ l → safe m.
Proof. intros Ht Hl d0. by apply (committed_foot _ l). Qed.

Lemma safe_bind {A B} (m : M A) (f : A → M B) : safe m → (∀ a, safe (f a)) → safe (m ≫= f).
Proof. intros Hm Hf d0. apply preserves_bind; [done|]. intros a. by apply Hf. Qed.

Lemma safe_ret {A} (a : A) : safe (mret a).
Proof. intros d0. apply preserves_ret. Qed.

Lemma safe_try_except {A} (m : M A) h : safe m → (∀ e, safe (h e)) → safe (try_except m h).
Proof. intros Hm Hh d0. apply preserves_try_except; [done|]. intros e. by apply Hh. Qed.

Lemma safe_suppress m : safe m → safe (suppress m).
Proof. intros Hm d0. by apply preserves_suppress. Qed.

Lemma safe_try_finally {A} (m : M A) f : safe m → safe f → safe (try_finally m f).
Proof. intros Hm Hf d0. by apply preserves_try_finally. Qed.

Lemma safe_session {A} (m : M A) :
  (∀ d0 w, Inv d0 w → World.sess w = World.db w → wp m w (λ _ w', good_world d0 w')) →
  safe (with_session m).
Proof. intros Hm d0. apply committed_session. intros w [G E] Hs. apply Hm; [|done]. split; by rewrite ?Hs. Qed.

Lemma safe_keeps {A} (m : M A) : keeps m → safe (with_session m).
Proof.
  intros Hm. apply safe_session. intros d0 w HI _. eapply wp_mono; [by apply Hm|].
  intros r w' H'. split; apply H'.
Qed.

Lemma safe_ignore {A} (m : M A) : safe m → safe (System.ignore m).
Proof. intros. apply safe_bind; [done|]. intros. apply safe_ret. Qed.

Lemma safe_request {A} (m : M A) : keeps m → safe (System.request m).
Proof. intros. by apply safe_ignore, safe_keeps. Qed.

(** The worker's turns. *)
Lemma safe_encrypt_job mk tid : safe (with_session (Encrypt.process_encrypt_job mk tid)).
Proof.
  apply safe_session. intros d0 w HI Hsd. unfold Encrypt.process_encrypt_job. wp_step.
  eapply wp_mono.
  { apply wp_and; [apply (touches_wp [PTick; PRedis]); foot|].
    apply (keeps_foot [PTick; PRedis]); [foot|done|exact HI]. }
  intros [b|e] w1 [Ha HI1]; [|split; apply HI1].
  destruct b; cbn [negb]; [|wp_step; split; apply HI1]. wp_step.
  eapply wp_mono.
  { apply (wp_encrypt_locked d0); [done|].
    rewrite (agree_sess _ _ _ Ha) by part_sub. by rewrite (Ha PDb ltac:(part_notin) : World.db _ = _). }
  intros r w2 HI2. simpl in HI2. eapply wp_mono.
  { apply (keeps_foot [PTick; PRedis]); [foot|done|exact HI2]. }
  intros r3 w3 HI3. split; apply HI3.
Qed.

(** The job leaves well-formed tables. *)
Lemma encrypt_job_good mk tid w r w' :
  Good (World.db w) → with_session (Encrypt.process_encrypt_job mk tid) w = (r, w') →
  Good (World.db w').
Proof. intros G E. by destruct (wp_run _ _ _ _ _ (safe_encrypt_job mk tid _ w (conj G (reflexivity _))) E). Qed.

Lemma safe_upload_job k job : safe (WorkerMain._handle_upload k job).
Proof.
  unfold WorkerMain._handle_upload.
  repeat case_match; try by intros d0 w HG. apply safe_encrypt_job.
Qed.

Lemma safe_consumer_turn q h : (∀ job, safe (h job)) → safe (WorkerMain.consumer_turn q h).
Proof. intros Hh d0. apply committed_consumer_turn. intros job. apply Hh. Qed.

Lemma keeps_wrap_totp m rs c : keeps (fold_m (Rotation.wrap_admin m) c rs).
Proof. unfold Rotation.wrap_admin. keep. Qed.

Lemma touches_admin_get q rq : touches [PTick; PRedis] (System.admin_get q rq).
Proof.
  destruct q; simpl; unfold System.ignore, AdminAuth.me, AdminTransfers.admin_list_transfers,
    AdminTransfers.admin_get_transfer, AdminBlocklist.admin_blocklist_list,
    AdminSettings.admin_get_settings, AdminSettings.admin_get_extensions, AdminLogs.admin_list_audit,
    AdminLogs.admin_list_actions, AdminUsers.admin_list_admins, AdminTelegram.admin_get_telegram; foot.
Qed.

Lemma keeps_create_transfer_event p rq :
  keeps (p ← lift (CreateTransferRequest.validate p); Public.create_transfer p rq).
Proof. apply keeps_bind; [keep|]. intros. apply keeps_create_transfer. Qed.

Lemma keeps_update_admin_event i p rq :
  keeps (p ← lift (AdminUsers.validate_update p); AdminUsers.admin_update_admin i p rq).
Proof.
  intros d0 w HI. do 2 wp_step. destruct (AdminUsers.validate_update p) as [p'|e] eqn:E; [|done].
  apply keeps_update_users; [|done]. revert E. unfold AdminUsers.validate_update.
  case_match eqn:Hw; [|done]. intros [= <-]. by rewrite Hw.
Qed.

Lemma safe_handle e : safe (System.handle e).
Proof.
  destruct e; simpl.
  - apply safe_request, keeps_create_transfer_event.
  - apply safe_request, keeps_tus_head.
  - apply safe_request, keeps_tus_patch.
  - apply safe_request, (keeps_foot [PTick]); [unfold DownloadPage.download_page; foot|done].
  - apply safe_request, keeps_download_file.
  - apply safe_request, keeps_download_zip.
  - apply safe_request, keeps_sender_panel.
  - apply safe_request, keeps_sender_delete.
  - apply safe_request, keeps_sender_revoke.
  - apply safe_request, keeps_bind; [keep|]. intros. apply keeps_login.
  - apply safe_ignore, (safe_foot [PTick; PRedis]); [foot|part_notin].
  - apply safe_request, (keeps_foot [PTick; PRedis]); [apply touches_admin_get|done].
  - apply safe_request, keeps_admin_delete_transfer.
  - apply safe_request, keeps_admin_revoke_transfer.
  - apply safe_request, keeps_blocklist_add.
  - apply safe_request, keeps_blocklist_delete.
  - apply safe_request, keeps_patch_settings.
  - apply safe_request, keeps_add_extension.
  - apply safe_request, keeps_remove_extension.
  - apply safe_request, keeps_audit_csv.
  - apply safe_request, keeps_bind; [keep|]. intros. apply keeps_create_admin.
  - apply safe_request, keeps_update_admin_event.
  - apply safe_request, keeps_reset_totp.
  - apply safe_request, keeps_delete_admin.
  - apply safe_request, keeps_bind; [keep|]. intros. apply keeps_update_telegram.
  - apply safe_ignore, safe_session. intros d0 w HI Hsd. by apply wp_crypto_rewrap.
  - apply safe_bind; [apply (safe_foot []); [foot|part_notin]|]. intros k.
    apply safe_consumer_turn, safe_upload_job.
  - apply safe_consumer_turn. intros job. apply safe_keeps, keeps_email_job.
  - unfold WorkerMain._cleanup_tick. apply safe_bind.
    + apply safe_try_except; [|intros; apply safe_ret].
      apply safe_bind; [|intros; apply safe_ret].
      apply safe_session. intros d0 w HI _. by apply wp_run_cleanup_inv.
    + intros [|]; [|apply safe_ret]. apply (safe_foot [PTick; PRedis]); [foot|part_notin].
  - apply safe_suppress, safe_ignore, safe_session. intros d0 w HI Hsd. by apply wp_run_defender_inv.
  - apply safe_ignore. unfold Rotation.rotate_main.
    do 2 (apply safe_bind; [apply (safe_foot []); [foot|part_notin]|intros ?]).
    case_decide; [apply safe_ret|]. apply safe_bind.
    + apply safe_session. intros d0 w HI Hsd. eapply wp_mono; [by apply wp_rewrap_all_inv|].
      intros r w' (? & ? & _). done.
    + intros _. apply safe_bind; [|intros; apply safe_ret].
      apply safe_keeps. unfold Rotation.rewrap_admin. keep.
  - apply safe_ignore, safe_bind; [apply (safe_foot []); [foot|part_notin]|].
    intros k. apply safe_keeps, keeps_bind; [keep|]. intros rs. apply keeps_bind; [|keep].
    apply keeps_wrap_totp.
  - unfold AdminUsers.create_admin_cli. apply safe_ignore.
    destruct (AdminUsers.is_role role); [apply safe_keeps, keeps_create_admin_main|apply safe_ret].
Qed.

Lemma good_world_step d0 w w' : good_world d0 w → System.step w w' → good_world d0 w'.
Proof. intros HG [e ->]. by apply safe_handle. Qed.

Lemma good_world_reachable w0 w :
  Good (World.db w0) → rtc System.step w0 w → good_world (World.db w0) w.
Proof.
  intros HG Hr. assert (H0 : good_world (World.db w0) w0) by done.
  clear HG. revert H0. generalize (World.db w0). intros d0 H0.
  induction Hr as [|w w1 w2 Hs Hr IH]; [done|]. apply IH. by eapply good_world_step.
Qed.

End safe.

(** * What holds in every reachable state *)

Section system_theorems.
Context {X : Services} {XOk : ServicesOk} {C : Config}.

(** A fresh deployment: no transfers, no accounts. *)
Definition initial (w : World) : Prop :=
  DB.transfers (World.db w) = ∅ ∧ DB.files (World.db w) = ∅ ∧ DB.admins (World.db w) = ∅.

Definition reachable (w : World) : Prop := ∃ w0, initial w0 ∧ rtc System.step w0 w.

Lemma reachable_good w : reachable w → Good (World.db w).
Proof.
  intros (w0 & (H1 & H2 & H3) & Hr). apply (good_world_reachable w0 w); [|done].
  split; rewrite ?H1, ?H2, ?H3; intros i x; by rewrite lookup_empty.
Qed.

Lemma reachable_evolves w w' :
  reachable w → rtc System.step w w' → Evolves (World.db w) (World.db w').
Proof. intros Hw Hr. apply (good_world_reachable w w'); [by apply reachable_good|done]. Qed.

(** C2: the life cycle of a transfer.  Whatever requests, jobs, scheduler ticks
    and scripts run, and whichever calls to Redis, the object store, SMTP,
    Telegram or the database fail, a committed transfer is never removed, its
    identity, tokens, sender, message, sizes and dates never change, and its
    status moves only along the edges of the life cycle; in particular a
    deleted transfer stays deleted, and an expired, infected or revoked one can
    only become deleted. *)
Theorem transfer_lifecycle w w' i t :
  reachable w → rtc System.step w w' → DB.transfers (World.db w) !! i = Some t →
  ∃ t', DB.transfers (World.db w') !! i = Some t' ∧
    fixed_columns t' = fixed_columns t ∧
    rtc edge (Transfer.status t) (Transfer.status t') ∧
    (Transfer.status t = Deleted → Transfer.status t' = Deleted) ∧
    (Transfer.status t ∈ [Expired; Infected; Revoked] →
     Transfer.status t' = Transfer.status t ∨ Transfer.status t' = Deleted).
Proof.
  intros Hw Hr Ht. destruct (ev_transfers _ _ (reachable_evolves w w' Hw Hr) i t Ht)
    as (t' & Ht' & Hf & He).
  exists t'. do 3 (split; [done|]). split.
  - intros Hd. rewrite Hd in He. by apply deleted_final.
  - intros Hin. apply (closed_stays _ _ He). rewrite !elem_of_cons in *. naive_solver.
Qed.

(** C3: crypto-shredding.  In every reachable state a transfer that is deleted,
    expired or infected has no wrapped file key left (and carries the time it
    was closed), so its ciphertext cannot be opened even if objects remain in
    the bucket; an uploading transfer has no key yet; a ready transfer has one
    of 40 bytes; a revoked one carries its revocation time. *)
Theorem closed_transfers_have_no_key w i t :
  reachable w → DB.transfers (World.db w) !! i = Some t →
  match Transfer.status t with
  | Uploading => Transfer.wrapped_key t = None
  | Ready => ∃ k, Transfer.wrapped_key t = Some k ∧ zlen k = 40
  | Expired | Deleted => Transfer.wrapped_key t = None ∧ is_Some (Transfer.deleted_at t)
  | Infected => Transfer.wrapped_key t = None ∧ is_Some (Transfer.infected_at t)
  | Revoked => is_Some (Transfer.revoked_at t) ∧
               ∀ k, Transfer.wrapped_key t = Some k → zlen k = 40
  end.
Proof. intros Hw Ht. apply (good_transfers _ (reachable_good w Hw) i t Ht). Qed.

(** File rows.  In every reachable state a file row belongs to a transfer
    that exists and its object key is the one of its transfer and id; no later
    event removes the row or changes its owner, names, declared size or object
    key. *)
Theorem file_rows_are_stable w w' i f :
  reachable w → rtc System.step w w' → DB.files (World.db w) !! i = Some f →
  TransferFile.object_key f = Storage.object_key (TransferFile.transfer_id f) i ∧
  is_Some (DB.transfers (World.db w) !! TransferFile.transfer_id f) ∧
  ∃ f', DB.files (World.db w') !! i = Some f' ∧ file_columns f' = file_columns f.
Proof.
  intros Hw Hr Hf. destruct (good_files _ (reachable_good w Hw) i f Hf) as (_ & Hk & _ & Ht).
  do 2 (split; [done|]). by apply (ev_files _ _ (reachable_evolves w w' Hw Hr)).
Qed.

(** C21: the logs are append-only.  No event removes, reorders or rewrites a row
    of the audit log or of the admin-action log; the only column that may
    change is the acting admin, cleared when that account is deleted. *)
Theorem logs_are_append_only w w' :
  reachable w → rtc System.step w w' →
  (strip_audit <$> DB.audit_log (World.db w))
    `prefix_of` (strip_audit <$> DB.audit_log (World.db w')) ∧
  (strip_action <$> DB.admin_actions (World.db w))
    `prefix_of` (strip_action <$> DB.admin_actions (World.db w')).
Proof. intros Hw Hr. by destruct (reachable_evolves w w' Hw Hr). Qed.

(** C19: nobody is locked out.  Once an enabled account with the admin role
    exists, every later state has one: no sequence of demotions, suspensions
    and deletions, by whichever admins, removes the last. *)
Theorem an_active_admin_remains w w' i a :
  reachable w → rtc System.step w w' →
  DB.admins (World.db w) !! i = Some a → Admin.disabled a = false → Admin.role a = u "admin" →
  ∃ j b, DB.admins (World.db w') !! j = Some b ∧ Admin.disabled b = false ∧ Admin.role b = u "admin".
Proof.
  intros Hw Hr Ha Hd Hrole.
  destruct (ev_admins _ _ (reachable_evolves w w' Hw Hr)) as (j & b & Hb & ? & ?); [|by exists j, b].
  exists i, a. done.
Qed.

End system_theorems.

(** ** Witnesses *)

Module SystemDemo.
Import Sim.

Definition request : Request := mkRequest [] (Some (u "192.0.2.1")) [].

Definition payload : CreateTransferRequest.t :=
  CreateTransferRequest.mk (u "bob@example.org") [u "eve@example.org"] None 7
    [FileDescriptor.mk (u "a.txt") 3] None.

(** An account is made, a transfer announced, and its sender deletes it. *)
Definition e1 : System.event :=
  System.CreateAdminScript (MasterKey.File 256 Demo.master) (u "root@example.org")
    (u "correct horse") (u "admin").
Definition e2 : System.event := System.CreateTransfer payload request.
Definition e3 : System.event := System.SenderDelete (u "tok" ++ [11]) request.

Definition after (e : System.event) (w : World.t) : World.t :=
  (System.handle (C := Demo.config) e w).2.

Definition w0 : World.t := Demo.world empty_db.
Definition w1 : World.t := after e1 w0.
Definition w2 : World.t := after e2 w1.
Definition w3 : World.t := after e3 w2.

Lemma after_step e w : System.step (C := Demo.config) w (after e w).
Proof. by exists e. Qed.

Lemma reachable_2 : reachable (C := Demo.config) w2.
Proof.
  exists w0. split; [done|].
  eapply rtc_l; [apply (after_step e1)|]. eapply rtc_l; [apply (after_step e2)|]. apply rtc_refl.
Qed.

Lemma steps_2_3 : rtc (System.step (C := Demo.config)) w2 w3.
Proof. apply rtc_once, (after_step e3). Qed.

(** The rows the events made. *)
Lemma transfer_row : is_Some (DB.transfers (World.db w2) !! 9).
Proof. vm_compute. by eexists. Qed.

Lemma file_row : is_Some (DB.files (World.db w2) !! 14).
Proof. vm_compute. by eexists. Qed.
End SystemDemo.

Section system_witnesses.
Import SystemDemo.
#[local] Instance demo_services : Services := Sim.calm.
#[local] Instance demo_services_ok : ServicesOk := Sim.calm_ok.
#[local] Instance demo_config : Config := Demo.config.

Lemma transfer_lifecycle_witness :
  ∃ t t', DB.transfers (World.db w2) !! 9 = Some t ∧ DB.transfers (World.db w3) !! 9 = Some t' ∧
    fixed_columns t' = fixed_columns t ∧ rtc edge (Transfer.status t) (Transfer.status t').
Proof.
  destruct transfer_row as [t Ht].
  destruct (transfer_lifecycle w2 w3 9 t reachable_2 steps_2_3 Ht) as (t' & Ht' & Hf & He & _).
  exists t, t'. done.
Defined.

Lemma closed_transfers_have_no_key_witness :
  ∃ t, DB.transfers (World.db w3) !! 9 = Some t ∧ Transfer.status t = Deleted ∧
    Transfer.wrapped_key t = None.
Proof.
  destruct (DB.transfers (World.db w3) !! 9) as [t|] eqn:Ht; [|vm_compute in Ht; discriminate].
  assert (Hs : Transfer.status <$> DB.transfers (World.db w3) !! 9 = Some Deleted)
    by (vm_compute; reflexivity).
  rewrite Ht in Hs. injection Hs as Hs.
  assert (Hr : reachable w3).
  { destruct reachable_2 as (w & Hw & Hr). exists w. split; [done|].
    etrans; [exact Hr|exact steps_2_3]. }
  pose proof (closed_transfers_have_no_key w3 9 t Hr Ht) as H. rewrite Hs in H.
  exists t. destruct H. done.
Defined.

Lemma file_rows_are_stable_witness :
  ∃ f f', DB.files (World.db w2) !! 14 = Some f ∧ DB.files (World.db w3) !! 14 = Some f' ∧
    file_columns f' = file_columns f.
Proof.
  destruct file_row as [f Hf].
  destruct (file_rows_are_stable w2 w3 14 f reachable_2 steps_2_3 Hf) as (_ & _ & f' & Hf' & Hc).
  exists f, f'. done.
Defined.

Lemma logs_are_append_only_witness :
  (strip_audit <$> DB.audit_log (World.db w2)) `prefix_of` (strip_audit <$> DB.audit_log (World.db w3))
  ∧ length (DB.audit_log (World.db w3)) = 1%nat.
Proof.
  split; [exact (proj1 (logs_are_append_only w2 w3 reachable_2 steps_2_3))|vm_compute; reflexivity].
Defined.

Lemma an_active_admin_remains_witness :
  ∃ j b, DB.admins (World.db w3) !! j = Some b ∧ Admin.disabled b = false ∧ Admin.role b = u "admin".
Proof.
  destruct (DB.admins (World.db w2) !! 2) as [a|] eqn:Ha; [|vm_compute in Ha; discriminate].
  assert (Hs : (λ a, (Admin.disabled a, Admin.role a)) <$> DB.admins (World.db w2) !! 2
               = Some (false, u "admin")) by (vm_compute; reflexivity).
  rewrite Ha in Hs. cbn [fmap option_fmap option_map] in Hs.
  assert (Hd : Admin.disabled a = false) by congruence.
  assert (Hrole : Admin.role a = u "admin") by congruence.
  exact (an_active_admin_remains w2 w3 2 a reachable_2 steps_2_3 Ha Hd Hrole).
Defined.

End system_witnesses.
