(* ===== verification/Delivery.v ===== *)
(** From upload to download: what a successful encryption job leaves in the
    database and the bucket, and what a later download streams. *)
From S2P Require Import Prelude Text Services Sim Model Scenario Effects Storage Support Gates RateLimit Http.
From S2P Require Import Envelope Stream Tus Transfers Public Worker.
From S2P Require Import Invariants Lifecycle.

Section encrypt_facts.
Context {X : Services} {XOk : ServicesOk} {C : Config}.

(** The bucket holds an object that opens to [content]. *)
Definition stored (fk iv : bytes) (key : pystr) (b : bucketT) (content : bytes) : Prop :=
  ∃ obj, o_get b key = Some obj ∧ Stream.open fk iv obj = (content, Ok tt).

Lemma wp_encrypt_one tid fk tf w (Q : res unit → World → Prop) :
  zlen fk = 32 →
  (∀ e w', agree [PTick; PBucket; PFiles] w w' → Q (Err e) w') →
  (∀ w' path content iv digest mime, agree [PTick; PBucket; PFiles] w w' →
     Tus.file_path_of tid tf = Ok path → FS.files (World.fs w) !! path = Some content →
     zlen content = TransferFile.size_bytes tf → zlen iv = 12 →
     DB.files (World.sess w')
       = alter (Encrypt.set_crypto iv digest mime) (TransferFile.id tf) (DB.files (World.sess w)) →
     stored fk iv (TransferFile.object_key tf) (World.bucket w') content →
     (∀ k, k ≠ TransferFile.object_key tf →
        o_get (World.bucket w') k = o_get (World.bucket w) k) →
     Q (Ok tt) w') →
  wp (Encrypt.encrypt_one tid fk tf) w Q.
Proof.
  intros Hfk HE HQ. unfold Encrypt.encrypt_one. do 2 wp_step.
  destruct (Tus.file_path_of tid tf) as [path|e] eqn:Hp; [|by apply HE]. wp_step.
  unfold Staging.exists_, Staging.size_or_zero, Staging.read_bytes, Staging.syscall. wp_step.
  destruct (name_max <? zlen path.2); [wp_step; by apply HE|]. do 2 wp_step.
  destruct (FS.files (World.fs w) !! path) as [content|] eqn:Hc; cbn; [|wp_step; by apply HE].
  do 4 wp_step. rewrite Hc. destruct (_ =? _) eqn:Hs; cbn [negb]; [|wp_step; by apply HE].
  apply Z.eqb_eq in Hs. do 5 wp_step. rewrite Hc. do 3 wp_step.
  set (iv := rand_bytes _ _).
  assert (Hiv : zlen iv = 12) by (unfold zlen, iv; by rewrite rand_bytes_length).
  assert (Hch : (0 < Stream._DEFAULT_CHUNK)%nat) by (unfold Stream._DEFAULT_CHUNK; lia).
  pose proof (encrypt_stream_spec fk iv content Stream._DEFAULT_CHUNK Hfk Hiv Hch) as Henc.
  destruct (Stream.seal fk iv (rd_content content)) as [ct tag]. destruct Henc as [Henc _].
  rewrite Henc. apply encrypt_stream_opens in Henc; [|done..].
  wp_step. unfold Storage.put_file. wp_step. apply wp_call.
  2:{ apply HE. intros q Hq. destruct q; try done; exfalso; apply Hq; part_in. }
  rewrite Z.ltb_irrefl. wp_step. unfold update_file. wp_step.
  apply (HQ _ path content iv (sha256 ct)
    (if nonempty (magic_mime (take 2048 content)) then magic_mime (take 2048 content)
     else u "application/octet-stream")); try done.
  - intros q Hq. destruct q; try done; exfalso; apply Hq; part_in.
  - exists (ct ++ tag). simpl. rewrite o_put_get, decide_True by done. split; [|done].
    f_equal. apply take_ge. unfold zlen. lia.
  - intros k Hk. simpl. rewrite o_put_get. by rewrite decide_False.
Qed.

(** A file of the job, once encrypted: its staged bytes are what the object
    opens to under the row's IV. *)
Definition delivered (tid : uuid) (fk : bytes) (w0 : World) (d : DB.t) (b : bucketT)
    (f : TransferFile.t) : Prop :=
  ∃ path content iv digest mime, Tus.file_path_of tid f = Ok path ∧
    FS.files (World.fs w0) !! path = Some content ∧ zlen content = TransferFile.size_bytes f ∧
    DB.files d !! TransferFile.id f = Some (Encrypt.set_crypto iv digest mime f) ∧
    zlen iv = 12 ∧ stored fk iv (TransferFile.object_key f) b content.

(** The job adds no file to the transfer. *)
Definition no_new_file (tid : uuid) (d d' : DB.t) : Prop :=
  ∀ g, g ∈ Tus.files_of tid d' → ∃ f, f ∈ Tus.files_of tid d ∧
    DB.files d' !! TransferFile.id f = Some g.

Lemma files_of_row d tid f :
  Good d → f ∈ Tus.files_of tid d →
  DB.files d !! TransferFile.id f = Some f ∧ uuid_ok (TransferFile.id f) ∧
  TransferFile.object_key f = Storage.object_key tid (TransferFile.id f).
Proof.
  intros G [Ht%Z.eqb_eq [i Hi]]%elem_of_rows.
  destruct (good_files _ G i f Hi) as ([<- ?] & Hk & _). by rewrite <- Ht, Hk.
Qed.

Lemma object_key_inj tid i j :
  uuid_ok i → uuid_ok j → Storage.object_key tid i = Storage.object_key tid j → i = j.
Proof.
  intros Hi Hj E. unfold Storage.object_key in E.
  apply app_inv_head in E. apply app_inv_head in E. apply app_inv_tail in E. by apply uuid_str_inj.
Qed.

Lemma wp_encrypt_files tid fk w (Q : res unit → World → Prop) :
  let fs := Tus.files_of tid (World.sess w) in
  zlen fk = 32 → Good (World.sess w) →
  (∀ e w', agree [PTick; PBucket; PFiles] w w' → Q (Err e) w') →
  (∀ w', agree [PTick; PBucket; PFiles] w w' →
     (∀ f, f ∈ fs → delivered tid fk w (World.sess w') (World.bucket w') f) →
     no_new_file tid (World.sess w) (World.sess w') → Q (Ok tt) w') →
  wp (for_ fs (Encrypt.encrypt_one tid fk)) w Q.
Proof.
  intros fs Hfk G HE HQ.
  assert (Hnd : NoDup (TransferFile.id <$> fs)).
  { apply rows_keys_NoDup. intros i f Hf. by apply (good_files _ G). }
  apply (wp_for fs _ _ (λ pre w1, agree [PTick; PBucket; PFiles] w w1 ∧
    (∀ f, f ∈ pre → delivered tid fk w (World.sess w1) (World.bucket w1) f) ∧
    (∀ i, i ∉ TransferFile.id <$> pre → DB.files (World.sess w1) !! i = DB.files (World.sess w) !! i))).
  - split; [done|]. split; [by intros f ?%elem_of_nil|done].
  - intros pre f post w1 Hfs (Ha & Hd & Hf).
    assert (Hin : f ∈ fs) by (rewrite Hfs, elem_of_app; right; by left).
    destruct (files_of_row _ _ _ G Hin) as (Hrow & Hu & Hk).
    assert (Hnin : TransferFile.id f ∉ TransferFile.id <$> pre).
    { rewrite Hfs, fmap_app in Hnd. apply NoDup_app in Hnd as (_ & Hnd & _).
      intros Hi. apply (Hnd _ Hi). simpl. by left. }
    apply wp_encrypt_one; [done|intros e w2 Ha2; apply HE; by etrans|].
    intros w2 path content iv digest mime Ha2 Hp Hc Hz Hiv Hfiles Hst Hother.
    rewrite (Ha PFs ltac:(part_notin) : World.fs _ = _) in Hc.
    split; [by etrans|]. split.
    + intros g. rewrite elem_of_app, list_elem_of_singleton. intros [Hg| ->].
      * destruct (Hd g Hg) as (p' & c' & iv' & dg' & m' & Hp' & Hc' & Hz' & Hg' & Hi' & (obj & Ho & Hopen)).
        assert (Hne : TransferFile.id g ≠ TransferFile.id f).
        { intros E. apply Hnin. rewrite <- E. by apply list_elem_of_fmap_2. }
        exists p', c', iv', dg', m'. repeat split; try done.
        { rewrite Hfiles, lookup_alter_ne; done. }
        exists obj. split; [|done]. rewrite Hother; [done|].
        assert (Hgin : g ∈ fs) by (rewrite Hfs, elem_of_app; by left).
        destruct (files_of_row _ _ _ G Hgin) as (_ & Hug & Hkg). rewrite Hk, Hkg.
        intros E. by apply object_key_inj in E.
      * exists path, content, iv, digest, mime. repeat split; try done.
        by rewrite Hfiles, lookup_alter_eq, Hf, Hrow.
    + intros i. rewrite fmap_app. simpl. rewrite elem_of_app, list_elem_of_singleton. intros Hi.
      rewrite Hfiles, lookup_alter_ne by naive_solver. apply Hf. naive_solver.
  - intros w1 (Ha & Hd & Hf). apply HQ; [done..|].
    intros g [Hg%Z.eqb_eq [i Hi]]%elem_of_rows.
    destruct (decide (i ∈ TransferFile.id <$> fs)) as [(f & -> & Hin)%list_elem_of_fmap|Hn]; [by eauto|].
    rewrite Hf in Hi by done. exists g.
    assert (Hin : g ∈ Tus.files_of tid (World.sess w)) by (apply elem_of_rows; split; [lia|eauto]).
    split; [done|]. destruct (files_of_row _ _ _ G Hin) as (Hrow & _).
    destruct (good_files _ G i g Hi) as ([Hid _] & _). rewrite Hid. by rewrite Hf.
Qed.

(** ** The whole job *)

Lemma wp_encrypt_all_ready mk t w (Q : res unit → World → Prop) :
  let tid := Transfer.id t in
  let fs := Tus.files_of tid (World.sess w) in
  Good (World.sess w) →
  (∀ e w', World.db w' = World.db w → World.fs w' = World.fs w → Q (Err e) w') →
  (∀ w' fk wk, World.fs w' = World.fs w → Envelope.wrap_key mk fk = Ok wk →
     DB.transfers (World.db w')
       = alter (Encrypt.mark_ready wk) tid (DB.transfers (World.sess w)) →
     (∀ f, f ∈ fs → delivered tid fk w (World.db w') (World.bucket w') f) →
     no_new_file tid (World.sess w) (World.db w') → Q (Ok tt) w') →
  wp (Encrypt.encrypt_all mk t fs) w Q.
Proof.
  intros tid fs G HE HQ. unfold Encrypt.encrypt_all. do 3 wp_step. fold tid.
  set (fk := rand_bytes _ _).
  assert (Hfk : zlen fk = 32) by (unfold zlen, fk; by rewrite rand_bytes_length).
  apply (wp_encrypt_files tid fk (next_tick w)); [done|done| |].
  { intros e w1 Ha. by apply HE; [apply (Ha PDb); part_notin|apply (Ha PFs); part_notin]. }
  intros w1 Ha Hd Hnew.
  pose proof (Ha PDb ltac:(part_notin)) as E1. pose proof (Ha PFs ltac:(part_notin)) as E2.
  pose proof (Ha PTransfers ltac:(part_notin)) as E3. simpl in E1, E2, E3.
  do 2 wp_step. destruct (Envelope.wrap_key mk fk) as [wk|e] eqn:Hw; [|by apply HE].
  wp_step. unfold update_transfer. do 6 wp_step. apply wp_commit.
  2:{ by apply HE. }
  unfold Encrypt._enqueue_transfer_emails. wp_step.
  match goal with |- wp ?m ?w2 _ => assert (Hm : touches [PTick; PRedis] m) by foot end.
  eapply wp_mono; [by apply touches_wp|]. intros r w3 H3.
  pose proof (H3 PDb ltac:(part_notin)) as F1. pose proof (H3 PFs ltac:(part_notin)) as F2.
  pose proof (H3 PBucket ltac:(part_notin)) as F3. simpl in F1, F2, F3.
  apply (HQ _ fk wk); [by rewrite F2, E2|done| | |].
  - rewrite F1. simpl. by rewrite E3.
  - intros f Hf. destruct (Hd f Hf) as (p & c & iv & dg & m & ? & ? & ? & ? & ? & ?).
    exists p, c, iv, dg, m. rewrite F3, F1. done.
  - by rewrite F1.
Qed.

(** What a run of the job on an uploading transfer may leave. *)
Inductive outcome (mk : bytes) (tid : uuid) (w w' : World) : Prop :=
  | not_committed : World.db w' = World.db w → outcome mk tid w w'
  | failed cur :
      DB.transfers (World.db w')
        = alter (Encrypt.mark_infected cur) tid (DB.transfers (World.db w)) →
      outcome mk tid w w'
  | succeeded fk wk :
      Envelope.wrap_key mk fk = Ok wk →
      DB.transfers (World.db w')
        = alter (Encrypt.mark_ready wk) tid (DB.transfers (World.db w)) →
      (∀ f, f ∈ Tus.files_of tid (World.db w) →
         delivered tid fk w (World.db w') (World.bucket w') f) →
      no_new_file tid (World.db w) (World.db w') →
      outcome mk tid w w'.

(** What the job leaves of the staging directory it worked on: no file, unless
    the disk failed and the job raised; no directory either when the disk never
    fails; nothing new, and other transfers' directories and files as they were. *)
Record shredded (tid : uuid) (w : World) (r : res unit) (w' : World) : Prop := {
  sd_emptied : emptied tid w' ∨ r = Err ServiceError ∧ disk_fails;
  sd_disk : ¬ disk_fails → tid ∉ FS.dirs (World.fs w');
  sd_shreds : shreds [tid] w w'
}.

(** Only the two staging trees matter to it. *)
Lemma shredded_fs tid w w1 r w2 w3 :
  World.fs w1 = World.fs w → World.fs w3 = World.fs w2 → shredded tid w1 r w2 → shredded tid w r w3.
Proof.
  intros E1 E2 [[He|He] Hd [D K O N]]; split; unfold emptied in *; rewrite ?E2; auto;
    split; rewrite ?E2, <- E1; done.
Qed.

Lemma wp_encrypt_failed tid e w (Q : res unit → World → Prop) :
  (∀ r w', World.db w' = World.db w → World.fs w' = World.fs w → Q r w') →
  (∀ r w' cur, DB.transfers (World.db w')
     = alter (Encrypt.mark_infected cur) tid (DB.transfers (World.db w)) →
     World.fs w' = World.fs w → Q r w') →
  wp (Encrypt.encrypt_failed tid e) w Q.
Proof.
  intros HN HF. unfold Encrypt.encrypt_failed. wp_step. wp_step. do 3 wp_step.
  assert (Hdel : ∀ w1, (∀ r w2, World.db w2 = World.db w1 → World.fs w2 = World.fs w1 → Q r w2) →
    wp (suppress (Storage.delete_transfer tid)) w1 Q).
  { intros w1 Hw1. eapply wp_mono; [apply (touches_wp [PTick; PBucket]); foot|].
    intros r w2 Ha. apply Hw1; [apply (Ha PDb); part_notin|apply (Ha PFs); part_notin]. }
  simpl. destruct (DB.transfers (World.db w) !! tid); [|wp_step; by apply Hdel].
  do 4 wp_step. unfold update_transfer. do 4 wp_step. apply wp_commit; [|by apply HN].
  apply Hdel. intros r w2 E1 E2. eapply HF; [|by rewrite E2]. by rewrite E1.
Qed.

Lemma wp_encrypt_locked_outcome mk tid w (Q : res unit → World → Prop) :
  Good (World.db w) → World.sess w = World.db w →
  (∀ w', agree [] w w' → Q (Ok tt) w') →
  (∀ r w' t, DB.transfers (World.db w) !! tid = Some t → Transfer.status t = Uploading →
     outcome mk tid w w' → shredded tid w r w' → Q r w') →
  wp (Encrypt.encrypt_locked mk tid) w Q.
Proof.
  intros G Hsd HN HQ. unfold Encrypt.encrypt_locked. do 2 wp_step.
  destruct (DB.transfers (World.sess w) !! tid) as [t|] eqn:Ht; [|wp_step; by apply HN].
  case_bool_decide as Hs; cbn [negb]; [|wp_step; by apply HN].
  rewrite Hsd in Ht. destruct (good_transfers _ G tid t Ht) as [[Hid _] _]. do 4 wp_step. subst tid.
  assert (Hshred : ∀ w1 (r : res unit), outcome mk (Transfer.id t) w w1 → World.fs w1 = World.fs w →
    wp (Staging.secure_delete (Transfer.id t)) w1 (λ rf w2, Q (match rf with Ok _ => r | Err e => Err e end) w2)).
  { intros w1 r Ho Hfs. eapply wp_mono; [apply wp_secure_delete|]. intros rf w2 Hsh.
    pose proof (sh_agree _ _ _ _ Hsh) as Ha.
    pose proof (Ha PDb ltac:(part_notin)) as E1. pose proof (Ha PBucket ltac:(part_notin)) as E2.
    simpl in E1, E2. apply (HQ _ _ t Ht Hs).
    - destruct Ho as [H|cur H|fk wk H1 H2 H3 H4];
        [apply not_committed|apply (failed _ _ _ _ cur)|apply (succeeded _ _ _ _ fk wk)];
        rewrite ?E1, ?E2; done.
    - apply (shredded_fs _ _ w1 _ w2); [done..|]. split.
      + destruct (sh_result _ _ _ _ Hsh) as [[-> ?]|[-> ?]]; [by left|by right].
      + apply (sh_disk _ _ _ _ Hsh).
      + by eapply shredding_shreds. }
  apply wp_encrypt_all_ready; [by rewrite Hsd| |].
  - intros e w1 E1 E2. apply wp_encrypt_failed.
    + intros r w2 F1 F2. apply Hshred; [apply not_committed|]; congruence.
    + intros r w2 cur F1 F2. apply Hshred; [apply (failed _ _ _ _ cur); by rewrite F1, E1|congruence].
  - intros w1 fk wk E1 Hw Hm Hd Hnew. apply Hshred; [|done]. apply (succeeded _ _ _ _ fk wk); [done| | |].
    + by rewrite Hm, Hsd.
    + rewrite <- Hsd. done.
    + by rewrite <- Hsd.
Qed.

(** A job that does not get the lock, or finds no uploading transfer, leaves
    database, staging and bucket as they are. *)
Definition untouched (w w' : World) : Prop :=
  World.db w' = World.db w ∧ World.fs w' = World.fs w ∧ World.bucket w' = World.bucket w.

Lemma agree_untouched l w w' :
  agree l w w' → PDb ∉ l → PFs ∉ l → PBucket ∉ l → untouched w w'.
Proof. intros Ha H1 H2 H3. split; [by apply (Ha PDb)|]. split; [by apply (Ha PFs)|by apply (Ha PBucket)]. Qed.

Lemma wp_encrypt_job mk tid w :
  Good (World.db w) →
  wp (with_session (Encrypt.process_encrypt_job mk tid)) w (λ r w',
    untouched w w' ∨
    ∃ t, DB.transfers (World.db w) !! tid = Some t ∧ Transfer.status t = Uploading ∧
         outcome mk tid w w' ∧ shredded tid w r w').
Proof.
  intros G. wp_step. unfold Encrypt.process_encrypt_job. wp_step.
  eapply wp_mono; [apply (touches_wp [PTick; PRedis]); foot|]. intros r w1 Ha.
  destruct (agree_untouched _ _ _ Ha) as (E1 & E2 & E3); [part_notin..|]. simpl in E1, E2, E3.
  destruct r as [b|e]; [|left; by split].
  destruct b; cbn [negb]; [|wp_step; left; by split]. wp_step.
  assert (Hrel : ∀ w2, wp (suppress (redis_delete [Encrypt._encrypt_lock_key tid])) w2
    (λ r w3, r = Ok tt ∧ World.db w3 = World.db w2 ∧ World.fs w3 = World.fs w2 ∧
             World.bucket w3 = World.bucket w2)).
  { intros w2. wp_step. eapply wp_mono; [apply (touches_wp [PTick; PRedis]); foot|]. intros r w3 Ha3.
    pose proof (agree_untouched _ _ _ Ha3) as Hu. by destruct r as [[]|]; (split; [|apply Hu; part_notin]). }
  apply wp_encrypt_locked_outcome.
  - by rewrite E1.
  - rewrite (agree_sess _ _ _ Ha) by part_sub. by rewrite E1.
  - intros w2 Ha2. eapply wp_mono; [apply Hrel|]. intros r w3 (_ & F1 & F2 & F3). left.
    destruct (agree_untouched _ _ _ Ha2) as (D1 & D2 & D3); [part_notin..|].
    unfold untouched. simpl. by rewrite F1, F2, F3, D1, D2, D3.
  - intros r w2 t Ht Hs Ho Hsh. eapply wp_mono; [apply Hrel|]. intros r3 w3 (-> & F1 & F2 & F3). right.
    rewrite E1 in Ht. exists t. split; [done|]. split; [done|].
    split; [|by apply (shredded_fs _ _ w1 _ w2)].
    destruct Ho as [H|cur H|fk wk H1 H2 H3 H4];
      [apply not_committed|apply (failed _ _ _ _ cur)|apply (succeeded _ _ _ _ fk wk)];
      simpl; rewrite ?F1, ?F3; try congruence.
    { intros f Hf. unfold delivered in *. rewrite <- E2. apply H3. by rewrite E1. }
    by rewrite <- E1.
Qed.

(** The body of a download, when its object opens. *)
Lemma wp_stream_file fk iv key name content w :
  zlen fk = 32 → zlen iv = 12 → stored fk iv key (World.bucket w) content →
  wp (Public._stream_decrypted_file fk (Public.mkSource key iv name)) w
    (λ r _, r = Err ServiceError ∨ ∃ ys, r = Ok (ys, Ok tt) ∧ concat ys = content).
Proof.
  intros Hf Hi (obj & Ho & Hopen). unfold Public._stream_decrypted_file, Storage.get_stream.
  do 2 wp_step. apply wp_call; [|by left]. do 2 wp_step. simpl. rewrite Ho. wp_step.
  assert (Hch : (0 < Stream._DEFAULT_CHUNK)%nat) by (unfold Stream._DEFAULT_CHUNK; lia).
  destruct (decrypt_stream_iter_spec fk iv (IteratorIO.init (o_chunks obj))
    Stream._DEFAULT_CHUNK Hf Hi Hch) as (ys & -> & Hc).
  change (rd_content _) with (IteratorIO.content (IteratorIO.init (o_chunks obj))) in *.
  unfold IteratorIO.content, IteratorIO.init in *. simpl in *.
  rewrite o_chunks_concat, Hopen in *. wp_step. right. eauto.
Qed.

(** C5: a run of the encryption job either leaves database, staging and bucket
    alone (another worker holds the lock, or the transfer is not uploading), or
    it worked on an uploading transfer.  The committed outcome is then one of
    three: nothing changed, the transfer became infected, or it became ready
    with a key wrapped under the master key and every file stored encrypted
    under it.  In all three no plaintext of the transfer stays in staging,
    unless the disk failed and the job raised; the directory is gone too when
    the disk never fails; and other transfers' staging is as it was. *)
Theorem encrypt_job_outcome mk tid w r w' :
  Good (World.db w) →
  with_session (Encrypt.process_encrypt_job mk tid) w = (r, w') →
  untouched w w' ∨
  ∃ t, DB.transfers (World.db w) !! tid = Some t ∧ Transfer.status t = Uploading ∧
       outcome mk tid w w' ∧ shredded tid w r w'.
Proof. intros G E. by apply (wp_run _ _ _ _ _ (wp_encrypt_job mk tid w G) E). Qed.

(** C1: end to end: when the encryption job takes an uploading transfer to
    ready, then every file of the transfer had been staged with its declared
    size, the wrapped key in the row opens under the master key, and from then
    on, as long as the stored object is there, streaming that file with the
    opened key and the row's IV yields chunk by chunk exactly the staged bytes
    and ends without error (or the object store itself fails). *)
Theorem uploaded_bytes_are_downloaded mk tid w r w' t t' f :
  Good (World.db w) →
  with_session (Encrypt.process_encrypt_job mk tid) w = (r, w') →
  DB.transfers (World.db w) !! tid = Some t → Transfer.status t = Uploading →
  DB.transfers (World.db w') !! tid = Some t' → Transfer.status t' = Ready →
  f ∈ Tus.files_of tid (World.db w) →
  ∃ path content wk fk f',
    Tus.file_path_of tid f = Ok path ∧ FS.files (World.fs w) !! path = Some content ∧
    zlen content = TransferFile.size_bytes f ∧
    DB.files (World.db w') !! TransferFile.id f = Some f' ∧
    Transfer.wrapped_key t' = Some wk ∧
    (∀ prev, (∀ p, prev = Some p → zlen p = 32) → Envelope.unwrap_key mk wk prev = Ok fk) ∧
    ∀ w2 r2 w3, o_get (World.bucket w2) (TransferFile.object_key f')
                = o_get (World.bucket w') (TransferFile.object_key f') →
      Public._stream_decrypted_file fk (Public.source_of f') w2 = (r2, w3) →
      r2 = Err ServiceError ∨ ∃ chunks, r2 = Ok (chunks, Ok tt) ∧ concat chunks = content.
Proof.
  intros G E Ht Hs Ht' Hs' Hf.
  destruct (wp_run _ _ _ _ _ (wp_encrypt_job mk tid w G) E) as [(Hd & _)|(t0 & Ht0 & _ & Ho & _)].
  { rewrite Hd in Ht'. simplify_eq. congruence. }
  destruct Ho as [Hd|cur Hm|fk wk Hw Hm Hdel _].
  { rewrite Hd in Ht'. simplify_eq. congruence. }
  { rewrite Hm, lookup_alter_eq, Ht in Ht'. by simplify_eq/=. }
  destruct (Hdel f Hf) as (path & content & iv & dg & m & Hp & Hc & Hz & Hf' & Hi & Hst).
  set (f' := Encrypt.set_crypto iv dg m f) in *.
  rewrite Hm, lookup_alter_eq, Ht in Ht'. simplify_eq/=.
  exists path, content, wk, fk, f'. do 5 (split; [done|]).
  pose proof Hw as (_ & Hfk & _)%wrap_key_ok. split.
  - intros prev. by apply wrap_key_opens.
  - intros w2 r2 w3 Hb E2. destruct Hst as (obj & Hobj & Hopen).
    change (TransferFile.object_key f') with (TransferFile.object_key f) in *. rewrite Hobj in Hb.
    assert (Hst2 : stored fk (TransferFile.iv f') (TransferFile.object_key f') (World.bucket w2) content).
    { by exists obj. }
    pose proof (wp_stream_file _ _ _ (TransferFile.safe_filename f') _ w2 Hfk Hi Hst2) as Hw2.
    apply (wp_run _ _ _ _ _ Hw2 E2).
Qed.

End encrypt_facts.

(** * Witnesses *)

Section delivery_witnesses.
#[local] Instance demo_services : Services := Sim.calm.
#[local] Instance demo_services_ok : ServicesOk := Sim.calm_ok.
#[local] Instance demo_config : Config := Demo.config.

(** One transfer whose only file is staged in full. *)
Definition job_transfer : Transfer.t := Demo.transfer 1 Uploading None Demo.now.
Definition job_file : TransferFile.t := Demo.file 2 1 (Storage.object_key 1 2).
Definition job_path : uuid * pystr := (1, uuid_str 2 ++ u "__a.txt").
Definition job_world : World :=
  World.set_fs (FS.mk {[1]} {[job_path := [10; 20; 30]]})
    (Demo.world (Demo.db_transfers [job_transfer] [job_file])).

Lemma job_good : Good (World.db job_world).
Proof.
  assert (HT : DB.transfers (World.db job_world) = {[1 := job_transfer]}) by reflexivity.
  assert (HF : DB.files (World.db job_world) = {[2 := job_file]}) by reflexivity.
  split; rewrite ?HT, ?HF.
  - intros i t [<- <-]%lookup_singleton_Some. split; [split; [done|unfold uuid_ok; lia]|done].
  - intros i f [<- <-]%lookup_singleton_Some. split; [split; [done|unfold uuid_ok; lia]|].
    do 2 (split; [done|]). cbn [TransferFile.transfer_id job_file Demo.file].
    rewrite lookup_singleton_eq. by eexists.
  - intros i a. cbn. by rewrite lookup_empty.
Qed.

Definition job_run := with_session (Encrypt.process_encrypt_job Demo.master 1) job_world.

Lemma encrypt_job_outcome_witness :
  untouched job_world job_run.2 ∨
  ∃ t, DB.transfers (World.db job_world) !! 1 = Some t ∧ Transfer.status t = Uploading ∧
       outcome Demo.master 1 job_world job_run.2 ∧ shredded 1 job_world job_run.1 job_run.2.
Proof.
  exact (encrypt_job_outcome Demo.master 1 job_world job_run.1 job_run.2 job_good
    (surjective_pairing job_run)).
Defined.

(** The staged bytes come back. *)
Lemma uploaded_bytes_are_downloaded_witness :
  ∃ t' wk fk f', DB.transfers (World.db job_run.2) !! 1 = Some t' ∧ Transfer.status t' = Ready ∧
    Transfer.wrapped_key t' = Some wk ∧ Envelope.unwrap_key Demo.master wk None = Ok fk ∧
    DB.files (World.db job_run.2) !! 2 = Some f' ∧
    ∀ r w, Public._stream_decrypted_file fk (Public.source_of f') job_run.2 = (r, w) →
      r = Err ServiceError ∨ ∃ chunks, r = Ok (chunks, Ok tt) ∧ concat chunks = [10; 20; 30].
Proof.
  destruct (DB.transfers (World.db job_run.2) !! 1) as [t'|] eqn:Ht'; [|vm_compute in Ht'; discriminate].
  assert (Hs : Transfer.status <$> DB.transfers (World.db job_run.2) !! 1 = Some Ready)
    by (vm_compute; reflexivity).
  rewrite Ht' in Hs. injection Hs as Hs.
  destruct (uploaded_bytes_are_downloaded Demo.master 1 job_world job_run.1 job_run.2 job_transfer t'
    job_file job_good (surjective_pairing job_run) eq_refl eq_refl Ht' Hs)
    as (path & content & wk & fk & f' & Hp & Hc & _ & Hf & Hw & Hu & Hd).
  { vm_compute. left. }
  assert (path = job_path) as -> by (vm_compute in Hp; injection Hp as <-; vm_compute; reflexivity).
  assert (content = [10; 20; 30]) as -> by (vm_compute in Hc; congruence).
  exists t', wk, fk, f'. do 3 (split; [done|]). split; [apply Hu; done|]. split; [exact Hf|].
  intros r w. by apply Hd.
Defined.

End delivery_witnesses.
