(* ===== verification/Archive.v ===== *)
(** The bodies that [download_file] and [download_zip] of routers/public.py
    stream after their handlers returned, over connections to the object store
    that may break.  The ZIP container is written by the library stream_zip, an
    interface here; the theorem takes a transfer from the encryption job to the
    bytes its recipient receives and unpacks. *)
From S2P Require Import Prelude Text Services Sim Model Scenario Effects Storage Support Gates RateLimit Http.
From S2P Require Import Envelope Stream Tus Transfers Public Page Worker.
From S2P Require Import Invariants Lifecycle System Delivery.

(** * The container library *)

Module Zip.

(** One member as the library is handed it: name, time, permissions, and the
    generator of its content, given by the chunks it yields and how it ends. *)
Record member := mkMember {
  arcname : pystr;
  modified_at : datetime;
  perms : Z;
  chunks : list bytes;
  ending : res unit
}.

Definition content (m : member) : bytes := concat (chunks m).

(** How a sequence of generators run one after the other ends. *)
Definition endings (ms : list member) : res unit :=
  foldr (λ m r, match ending m with Ok _ => r | Err e => Err e end) (Ok tt) ms.

(** The fields of a ZIP64 entry: an ASCII name of 16 bits of length and a time in
    the range of the DOS date, from 1980 to the end of 2107. *)
Definition entry_ok (m : member) : Prop :=
  Forall (λ c, 0 ≤ c < 128) (arcname m) ∧ zlen (arcname m) < 2 ^ 16 ∧
  315532800 * second ≤ modified_at m < 4354819200 * second.

(** Sizes and offsets fit 64 bits. *)
Definition fits (ms : list member) : Prop :=
  zlen ms ≤ 2 ^ 32 ∧ foldr Z.add 0 (zlen ∘ content <$> ms) ≤ 2 ^ 63.

(** [stream_zip] over its members: the chunks of the archive and how the
    generator ends; [unzip] is a reader of the container, which lists the
    members in their order. *)
Class Container := {
  stream_zip : list member → list bytes * res unit;
  unzip : bytes → option (list (pystr * bytes))
}.

(** A member whose generator raises [e] after yielding [ys]. *)
Definition cut (m : member) (ys : list bytes) (e : exn) : member :=
  mkMember (arcname m) (modified_at m) (perms m) ys (Err e).

(** What the library documents: an archive written to its end unpacks to what was
    put in; and it is a generator, which pulls its members as it goes: an
    exception of a member's generator ends it there, and what it has yielded by
    then is what it yields first when that generator goes on. *)
Class ContainerOk `{Container} : Prop := {
  stream_zip_unzips ms : Forall entry_ok ms → fits ms → endings ms = Ok tt →
    (stream_zip ms).2 = Ok tt ∧
    unzip (concat (stream_zip ms).1) = Some ((λ m, (arcname m, content m)) <$> ms);
  stream_zip_cut pre m post ys e :
    Forall entry_ok (pre ++ m :: post) → fits (pre ++ m :: post) →
    endings (pre ++ m :: post) = Ok tt → ys `prefix_of` chunks m →
    (stream_zip (pre ++ [cut m ys e])).2 = Err e ∧
    (stream_zip (pre ++ [cut m ys e])).1 `prefix_of` (stream_zip (pre ++ m :: post)).1
}.

End Zip.

(** * The bodies of the responses *)

Module Archive.
Section archive.
Context {X : Services} {ZC : Zip.Container} {C : Config}.

(** Connections to the object store can break: [breaks i = Some k] when the one
    opened as the [i]-th call delivers [k] chunks of the body and is then lost. *)
Context (breaks : nat → option nat).

(** The generator over a stored object: [get_stream] and [decrypt_stream_iter],
    run to their end; an exception before the first chunk ends it too. *)
Definition _file_plaintext_iter (file_key : bytes) (object_key : pystr) (iv : bytes)
  : M (list bytes * res unit) :=
  try_except
    (connection ← gets World.tick;
     ciphertext_stream ← Storage.get_stream object_key;
     let plaintext :=
       match breaks connection with
       | None =>
           Stream.decrypt_stream_iter file_key iv (IteratorIO.init ciphertext_stream)
             Stream._DEFAULT_CHUNK
       | Some k =>
           Stream.decrypt_stream_iter_broken file_key iv (IteratorIO.init (take k ciphertext_stream))
             Stream._DEFAULT_CHUNK ProtocolError
       end in
     match plaintext with
     | Some r => mret r
     | None => raise RuntimeError
     end)
    (λ e, mret ([], Err e)).

(** What counts as the client having gone away. *)
Definition _CLIENT_DISCONNECT_EXC (e : exn) : bool :=
  match e with ProtocolError => true | _ => false end.

(** The adapter around every body: such an exception just ends it. *)
Definition _aiter_from_sync (it : list bytes * res unit) : list bytes * res unit :=
  match it.2 with
  | Err e => if _CLIENT_DISCONNECT_EXC e then (it.1, Ok tt) else it
  | Ok _ => it
  end.

(** 0o600 *)
Definition perms : Z := 384.

(** [_entries]: the archive pulls one file after the other; the first generator
    that raises is the last one run. *)
Fixpoint _entries (file_key : bytes) (now : datetime) (files : list Public.Source)
  : M (list Zip.member) :=
  match files with
  | [] => mret []
  | f :: files =>
      '(chunks, ending) ← _file_plaintext_iter file_key (Public.src_object_key f) (Public.src_iv f);
      let m := Zip.mkMember (Public.src_name f) now perms chunks ending in
      match ending with
      | Err _ => mret [m]
      | Ok _ => ms ← _entries file_key now files; mret (m :: ms)
      end
  end.

(** The body of [download_zip]'s response. *)
Definition zip_body (resp : Public.StreamingResponse) : M (list bytes * res unit) :=
  cur ← now;
  members ← _entries (Public.st_key resp) cur (Public.st_entries resp);
  mret (_aiter_from_sync (Zip.stream_zip members)).

(** The body of [download_file]'s, whose entry is the file. *)
Definition file_body (resp : Public.StreamingResponse) : M (list bytes * res unit) :=
  match Public.st_entries resp with
  | f :: _ =>
      body ← _file_plaintext_iter (Public.st_key resp) (Public.src_object_key f) (Public.src_iv f);
      mret (_aiter_from_sync body)
  | [] => mret ([], Ok tt)
  end.

(** The downloads as the client sees them: the handler in its session, then the body. *)
Definition get_zip (token : pystr) (request : Request) : M (list bytes * res unit) :=
  resp ← with_session (Public.download_zip token request);
  zip_body resp.

Definition get_file (token : pystr) (file_id : uuid) (request : Request)
  : M (list (pystr * pystr) * (list bytes * res unit)) :=
  resp ← with_session (Public.download_file token file_id request);
  body ← file_body resp;
  mret (Public.st_headers resp, body).

End archive.
End Archive.

(** * Theorems *)

Section archive_facts.
Context {X : Services} {XOk : ServicesOk} {ZC : Zip.Container} {ZOk : Zip.ContainerOk} {C : Config}.

Context (breaks : nat → option nat).

(** Some connection broke. *)
Definition broke : Prop := ∃ i k, breaks i = Some k.

Lemma touches_file_plaintext_iter fk key iv :
  touches [PTick] (Archive._file_plaintext_iter breaks fk key iv).
Proof. unfold Archive._file_plaintext_iter. foot. Qed.

(** A source whose object opens to [content] under its IV. *)
Definition opens_to (fk : bytes) (b : bucketT) (s : Public.Source) (content : bytes) : Prop :=
  zlen (Public.src_iv s) = 12 ∧ stored fk (Public.src_iv s) (Public.src_object_key s) b content.

(** How the stream of an object that opens to [content] may go: the whole of it,
    or the first of its chunks and an exception. *)
Definition streams (content : bytes) (ys : list bytes) (ending : res unit) : Prop :=
  ∃ full, concat full = content ∧
    match ending with
    | Ok _ => ys = full
    | Err e => ys `prefix_of` full ∧ (e = ServiceError ∧ ys = [] ∨ e = ProtocolError ∧ broke)
    end.

Lemma concat_prefix (a b : list bytes) : a `prefix_of` b → concat a `prefix_of` concat b.
Proof. intros [r ->]. exists (concat r). apply concat_app. Qed.

Lemma wp_file_plaintext_iter fk s content w :
  zlen fk = 32 → opens_to fk (World.bucket w) s content →
  wp (Archive._file_plaintext_iter breaks fk (Public.src_object_key s) (Public.src_iv s)) w
    (λ r w', World.bucket w' = World.bucket w ∧ ∃ ys ending, r = Ok (ys, ending) ∧ streams content ys ending).
Proof.
  intros Hf [Hi (obj & Ho & Hopen)]. apply wp_and.
  { eapply wp_mono; [apply (touches_wp [PTick]), touches_file_plaintext_iter|].
    intros r w' Ha. apply (Ha PBucket). part_notin. }
  unfold Archive._file_plaintext_iter, Storage.get_stream. do 5 wp_step.
  apply wp_call.
  2:{ wp_step. do 2 eexists. split; [done|]. exists [content]. split; [apply app_nil_r|].
      split; [apply prefix_nil|by left]. }
  do 2 wp_step. simpl. rewrite Ho. wp_step.
  assert (Hch : (0 < Stream._DEFAULT_CHUNK)%nat) by (unfold Stream._DEFAULT_CHUNK; lia).
  destruct (breaks _) as [k|] eqn:Hbr.
  - destruct (decrypt_stream_iter_broken_take fk (Public.src_iv s) (o_chunks obj) k
      Stream._DEFAULT_CHUNK ProtocolError content) as (ys & full & -> & _ & Hc & Hp); try done.
    { by rewrite o_chunks_concat. }
    wp_step. do 2 eexists. split; [done|]. exists full. split; [done|]. split; [done|].
    right. split; [done|]. by exists (World.tick w), k.
  - destruct (decrypt_stream_iter_spec fk (Public.src_iv s) (IteratorIO.init (o_chunks obj))
      Stream._DEFAULT_CHUNK Hf Hi Hch) as (ys & -> & Hc).
    change (rd_content _) with (IteratorIO.content (IteratorIO.init (o_chunks obj))) in *.
    unfold IteratorIO.content, IteratorIO.init in *. simpl in *.
    rewrite o_chunks_concat, Hopen in *. wp_step. do 2 eexists. split; [done|]. by exists ys.
Qed.

(** What the archive is handed for sources that open to [contents]: all of them,
    or those before one that is cut short, and that one. *)
Definition members_of (cur : datetime) (srcs : list Public.Source) (contents : list bytes)
    (ms : list Zip.member) : Prop :=
  ∃ whole, Forall (λ m, Zip.modified_at m = cur ∧ Zip.ending m = Ok tt) whole ∧
    (λ m, (Zip.arcname m, Zip.content m)) <$> whole = zip (Public.src_name <$> srcs) contents ∧
    (ms = whole ∨
     ∃ pre m post ys e, whole = pre ++ m :: post ∧ ms = pre ++ [Zip.cut m ys e] ∧
       ys `prefix_of` Zip.chunks m ∧ (e = ServiceError ∨ e = ProtocolError ∧ broke)).

(** Members that hold the contents whole. *)
Lemma whole_members cur srcs contents :
  ∃ whole, Forall (λ m, Zip.modified_at m = cur ∧ Zip.ending m = Ok tt) whole ∧
    (λ m, (Zip.arcname m, Zip.content m)) <$> whole = zip (Public.src_name <$> srcs) contents.
Proof.
  revert contents. induction srcs as [|s srcs IH]; intros [|c contents]; try by exists [].
  destruct (IH contents) as (whole & Hw & He).
  exists (Zip.mkMember (Public.src_name s) cur Archive.perms [c] (Ok tt) :: whole). split; [by constructor|].
  cbn. rewrite He. unfold Zip.content. cbn. by rewrite app_nil_r.
Qed.

Lemma wp_entries fk cur srcs contents b w :
  zlen fk = 32 → World.bucket w = b → Forall2 (opens_to fk b) srcs contents →
  wp (Archive._entries breaks fk cur srcs) w (λ r _, ∃ ms, r = Ok ms ∧ members_of cur srcs contents ms).
Proof.
  intros Hf Hb H. revert w Hb. induction H as [|s c srcs contents Hs _ IH]; intros w Hb; cbn [Archive._entries].
  { wp_step. exists []. split; [done|]. exists []. split; [constructor|]. split; [done|by left]. }
  subst b. wp_step. eapply wp_mono; [by apply wp_file_plaintext_iter|].
  intros r w1 [Hb1 (ys & ending & -> & full & Hfull & Hstr)].
  set (m0 := Zip.mkMember (Public.src_name s) cur Archive.perms full (Ok tt)).
  assert (Hm0 : (Zip.arcname m0, Zip.content m0) = (Public.src_name s, c))
    by (unfold Zip.content; cbn; by rewrite Hfull).
  destruct ending as [[]|e].
  - subst ys. wp_step. eapply wp_mono; [by apply IH|].
    intros r w2 (ms & -> & whole & Hw & He & Hms). wp_step. eexists. split; [done|].
    exists (m0 :: whole). split; [by constructor|]. split; [cbn; by rewrite <- Hm0, <- He|].
    destruct Hms as [->|(pre & m & post & zs & e & -> & -> & Hms)]; [by left|right].
    by exists (m0 :: pre), m, post, zs, e.
  - wp_step. eexists. split; [done|]. destruct (whole_members cur srcs contents) as (whole & Hw & He).
    exists (m0 :: whole). split; [by constructor|]. split; [cbn; by rewrite <- Hm0, <- He|]. right.
    destruct Hstr as [Hp He']. exists [], m0, whole, ys, e. split_and!; try done. naive_solver.
Qed.

(** Names that went through [safe_filename] fit an entry. *)
Lemma safe_name_ok name :
  Forall (λ c, 0 ≤ c < 128) (Staging.safe_filename name) ∧ zlen (Staging.safe_filename name) < 2 ^ 16.
Proof.
  destruct (safe_filename_stem name) as (s & (Hs & _) & ->). split.
  - apply Forall_take. eapply Forall_impl; [exact Hs|]. intros c Hc. unfold Staging.is_safe_char, is_alnum, is_digit in Hc.
    lia.
  - unfold zlen. rewrite length_take. lia.
Qed.

(** ** The handler *)

Lemma utf8_encode_ascii s : Forall (λ c, 0 ≤ c < 128) s → utf8_encode s = Ok s.
Proof.
  induction 1 as [|c s Hc _ IH]; [done|]. simpl. unfold utf8_char.
  destruct (Z.ltb_spec c 128); [|lia]. cbn. by rewrite IH.
Qed.

(** The name of the archive makes a header. *)
Lemma zip_disposition i :
  ∃ v, HttpUtils.content_disposition_attachment (uuid_str i ++ u ".zip") None = Ok v.
Proof.
  unfold HttpUtils.content_disposition_attachment, quote. rewrite utf8_encode_ascii; [by eexists|].
  apply Forall_app. split; [|by repeat constructor].
  eapply Forall_impl; [apply uuid_str_chars|]. unfold is_hex_char. lia.
Qed.

Definition gone (e : exn) : Prop := ∃ c d, e = HTTPException c d ∧ (c = 404 ∨ c = 410).

(** The ZIP of a token is that of an open transfer, with the key its row opens
    to and its files in the order of the table. *)
Lemma wp_download_zip token request w :
  wp (Public.download_zip token request) w (λ r w',
    World.bucket w' = World.bucket w ∧
    match r with
    | Ok resp => ∃ t wk mk, open_transfer (World.sess w) (clock (World.tick w)) token t ∧
        Transfer.wrapped_key t = Some wk ∧ World.master_key w = Some mk ∧
        Envelope.unwrap_key mk wk (World.previous_master_key w) = Ok (Public.st_key resp) ∧
        Public.st_entries resp
          = Public.source_of <$> Tus.files_of (Transfer.id t) (World.sess w)
    | Err e => e = ServiceError ∨ gone e ∨ World.master_key w = None ∨
        ∃ t wk mk, open_transfer (World.sess w) (clock (World.tick w)) token t ∧
          Transfer.wrapped_key t = Some wk ∧ World.master_key w = Some mk ∧
          Envelope.unwrap_key mk wk (World.previous_master_key w) = Err e
    end).
Proof.
  apply wp_and.
  { wp_foot [PTick; PDownloads; PRedis; PDb; PTelegram]. intros r w' Ha. apply (Ha PBucket). part_notin. }
  unfold Public.download_zip. wp_step. apply wp_load_ready.
  { intros c d w' _ Hc. right. left. by exists c, d. }
  intros t Ht. pose proof Ht as (_ & _ & _ & _ & [wk Hwk]).
  wp_step. unfold Public.open_file_key, State.get_master_key, State.get_previous_master_key.
  do 3 wp_step. simpl. destruct (World.master_key w) as [mk|] eqn:Hmk; [|wp_step; by do 2 right; left].
  do 3 wp_step. simpl. rewrite Hwk. wp_step.
  destruct (Envelope.unwrap_key _ _ _) as [fk|e] eqn:Hu.
  2:{ do 3 right. by exists t, wk, mk. }
  wp_step. apply (wp_for _ _ _ (λ _ _, True)); [done| |].
  { intros pre f post w1 _ _. unfold Public.record_download, add_download. by do 3 wp_step. }
  intros w1 _. wp_step. unfold Public.enqueue_notice. wp_step.
  wp_foot [PTick; PRedis]. intros _ w2 _. wp_step. wp_step.
  wp_foot [PTick; PTelegram]. intros _ w3 _. wp_step. apply wp_commit; [|by left].
  do 2 wp_step. destruct (zip_disposition (Transfer.id t)) as [v ->]. wp_step.
  exists t, wk, mk. done.
Qed.

(** The download of one file, likewise; its name may be one that no header holds. *)
Lemma wp_download_file token i request w :
  wp (Public.download_file token i request) w (λ r w',
    World.bucket w' = World.bucket w ∧
    match r with
    | Ok resp => ∃ t wk mk f, open_transfer (World.sess w) (clock (World.tick w)) token t ∧
        Transfer.wrapped_key t = Some wk ∧ World.master_key w = Some mk ∧
        Envelope.unwrap_key mk wk (World.previous_master_key w) = Ok (Public.st_key resp) ∧
        f ∈ Tus.files_of (Transfer.id t) (World.sess w) ∧ TransferFile.id f = i ∧
        Public.st_entries resp = [Public.source_of f] ∧
        (u "Content-Length", str_int (TransferFile.size_bytes f)) ∈ Public.st_headers resp
    | Err e => e = ServiceError ∨ gone e ∨ World.master_key w = None ∨
        (∃ t wk mk f, open_transfer (World.sess w) (clock (World.tick w)) token t ∧
           Transfer.wrapped_key t = Some wk ∧ World.master_key w = Some mk ∧
           f ∈ Tus.files_of (Transfer.id t) (World.sess w) ∧ TransferFile.id f = i ∧
           utf8_encode (TransferFile.filename f) = Err e) ∨
        ∃ t wk mk, open_transfer (World.sess w) (clock (World.tick w)) token t ∧
          Transfer.wrapped_key t = Some wk ∧ World.master_key w = Some mk ∧
          Envelope.unwrap_key mk wk (World.previous_master_key w) = Err e
    end).
Proof.
  apply wp_and.
  { wp_foot [PTick; PDownloads; PRedis; PDb]. intros r w' Ha. apply (Ha PBucket). part_notin. }
  unfold Public.download_file. wp_step. apply wp_load_ready.
  { intros c d w' _ Hc. right. left. by exists c, d. }
  intros t Ht. pose proof Ht as (_ & _ & _ & _ & [wk Hwk]).
  destruct (find _ _) as [f|] eqn:Hfind.
  2:{ wp_step. right; left. eexists _, _. split; [reflexivity|by left]. }
  apply find_some in Hfind as [Hin Hid%Z.eqb_eq]. apply list_elem_of_In in Hin.
  wp_step. unfold Public.open_file_key, State.get_master_key, State.get_previous_master_key.
  do 3 wp_step. simpl. destruct (World.master_key w) as [mk|] eqn:Hmk; [|wp_step; by do 2 right; left].
  do 3 wp_step. simpl. rewrite Hwk. wp_step.
  destruct (Envelope.unwrap_key _ _ _) as [fk|e] eqn:Hu.
  2:{ do 4 right. by exists t, wk, mk. }
  unfold Public.record_download, add_download. do 4 wp_step. unfold Public.enqueue_notice. do 2 wp_step.
  wp_foot [PTick; PRedis]. intros _ w2 _. wp_step. apply wp_commit; [|by left].
  do 2 wp_step. unfold HttpUtils.content_disposition_attachment, quote.
  destruct (utf8_encode (TransferFile.filename f)) as [b|e] eqn:Eq.
  2:{ do 3 right; left. by exists t, wk, mk, f. }
  simpl. wp_step. exists t, wk, mk, f. split_and!; try done.
  do 4 apply list_elem_of_further. by left.
Qed.

(** ** From the encryption job to the archive *)

(** The bytes that were staged for a row. *)
Definition staged_as (tid : uuid) (w : World) (f : TransferFile.t) (content : bytes) : Prop :=
  ∃ path, Tus.file_path_of tid f = Ok path ∧ FS.files (World.fs w) !! path = Some content ∧
          zlen content = TransferFile.size_bytes f.

(** After a job that made the transfer ready, its rows open to what was staged. *)
Lemma delivered_opens tid fk w w' b f :
  (∀ f, f ∈ Tus.files_of tid (World.db w) →
     delivered tid fk w (World.db w') (World.bucket w') f) →
  no_new_file tid (World.db w) (World.db w') →
  f ∈ Tus.files_of tid (World.db w') →
  o_get b (TransferFile.object_key f) = o_get (World.bucket w') (TransferFile.object_key f) →
  ∃ content, opens_to fk b (Public.source_of f) content ∧ staged_as tid w f content.
Proof.
  intros Hdel Hnew Hf Hb. destruct (Hnew f Hf) as (f0 & Hf0 & Hrow).
  destruct (Hdel f0 Hf0) as (path & content & iv & dg & m & Hp & Hc & Hz & Hf' & Hi & Hst).
  simplify_eq. exists content. split; [split; [done|]|by exists path].
  destruct Hst as (obj & Ho & Hop). exists obj. by rewrite <- Ho.
Qed.

(** What the encryption job left, as a whole. *)
Lemma ready_opens mk tid w r w' t t' b :
  Good (World.db w) →
  with_session (Encrypt.process_encrypt_job mk tid) w = (r, w') →
  DB.transfers (World.db w) !! tid = Some t → Transfer.status t = Uploading →
  DB.transfers (World.db w') !! tid = Some t' → Transfer.status t' = Ready →
  (∀ f, f ∈ Tus.files_of tid (World.db w') →
     o_get b (TransferFile.object_key f) = o_get (World.bucket w') (TransferFile.object_key f)) →
  ∃ fk wk contents, Transfer.wrapped_key t' = Some wk ∧ Envelope.wrap_key mk fk = Ok wk ∧
    Forall2 (opens_to fk b) (Public.source_of <$> Tus.files_of tid (World.db w')) contents ∧
    Forall2 (staged_as tid w) (Tus.files_of tid (World.db w')) contents.
Proof.
  intros G E Ht Hs Ht' Hs' Hb.
  destruct (wp_run _ _ _ _ _ (wp_encrypt_job mk tid w G) E) as [(Hd & _)|(t0 & Ht0 & _ & Ho & _)].
  { rewrite Hd in Ht'. simplify_eq. congruence. }
  destruct Ho as [Hd|cur Hm|fk wk Hw Hm Hdel Hnew].
  { rewrite Hd in Ht'. simplify_eq. congruence. }
  { rewrite Hm, lookup_alter_eq, Ht in Ht'. by simplify_eq/=. }
  rewrite Hm, lookup_alter_eq, Ht in Ht'. simplify_eq/=. exists fk, wk.
  assert (H : Forall (λ f, ∃ c, opens_to fk b (Public.source_of f) c ∧ staged_as tid w f c)
                (Tus.files_of tid (World.db w'))).
  { apply Forall_forall. intros f Hf. eapply delivered_opens; eauto. }
  apply Forall_exists_Forall2_l in H as [contents H]. exists contents.
  split; [done|]. split; [done|]. split.
  - apply Forall2_fmap_l. eapply Forall2_impl; [exact H|]. by intros f c [? ?].
  - eapply Forall2_impl; [exact H|]. by intros f c [? ?].
Qed.

Lemma staged_total tid w fs contents :
  Forall2 (staged_as tid w) fs contents →
  foldr Z.add 0 (zlen <$> contents) = foldr Z.add 0 (TransferFile.size_bytes <$> fs).
Proof. induction 1 as [|f c fs cs (p & _ & _ & Hz) _ IH]; [done|]. cbn. by rewrite Hz, <- IH. Qed.

Definition zip_time (t : datetime) : Prop := 315532800 * second ≤ t < 4354819200 * second.

(** The archive of [fs]: a chunk list that unpacks to all of them; what is sent is
    all of it, or the first of its chunks. *)
Definition archive_of (fs : list TransferFile.t) (contents archive : list bytes) (ending : res unit) : Prop :=
  ∃ whole, Zip.unzip (concat whole) = Some (zip (TransferFile.safe_filename <$> fs) contents) ∧
    match ending with
    | Ok _ => archive = whole
    | Err e => archive `prefix_of` whole ∧ (e = ServiceError ∨ e = ProtocolError ∧ broke)
    end.

Lemma entries_complete fk cur fs contents b ms :
  (∀ f, f ∈ fs → TransferFile.safe_filename f = Staging.safe_filename (TransferFile.filename f)) →
  zip_time cur → zlen fs ≤ 2 ^ 32 → foldr Z.add 0 (zlen <$> contents) ≤ 2 ^ 63 →
  Forall2 (opens_to fk b) (Public.source_of <$> fs) contents →
  members_of cur (Public.source_of <$> fs) contents ms →
  archive_of fs contents (Zip.stream_zip ms).1 (Zip.stream_zip ms).2.
Proof.
  intros Hsafe Hcur Hn Hz Hop (whole & Hw & Hm & Hms). rewrite <- list_fmap_compose in Hm.
  change (Public.src_name ∘ Public.source_of) with TransferFile.safe_filename in Hm.
  assert (Hlen : length fs = length contents) by (apply Forall2_length in Hop; by rewrite length_fmap in Hop).
  assert (Hnames : Zip.arcname <$> whole = TransferFile.safe_filename <$> fs).
  { transitivity (((λ m, (Zip.arcname m, Zip.content m)) <$> whole).*1); [by rewrite <- list_fmap_compose|].
    rewrite Hm, fst_zip; [done|]. rewrite length_fmap. lia. }
  assert (Hconts : Zip.content <$> whole = contents).
  { transitivity (((λ m, (Zip.arcname m, Zip.content m)) <$> whole).*2); [by rewrite <- list_fmap_compose|].
    rewrite Hm, snd_zip; [done|]. rewrite length_fmap. lia. }
  assert (Hok : Forall Zip.entry_ok whole).
  { apply Forall_forall. intros m Hin. rewrite Forall_forall in Hw. destruct (Hw m Hin) as [Ht _].
    apply (list_elem_of_fmap_2 Zip.arcname) in Hin. rewrite Hnames in Hin.
    apply list_elem_of_fmap in Hin as (f & Hf & Hin).
    unfold Zip.entry_ok. rewrite Ht, Hf, Hsafe by done.
    destruct (safe_name_ok (TransferFile.filename f)). by repeat split; try apply Hcur. }
  assert (Hfit : Zip.fits whole).
  { apply (f_equal length) in Hnames. rewrite !length_fmap in Hnames.
    split; [unfold zlen in *; lia|]. by rewrite list_fmap_compose, Hconts. }
  assert (Hends : Zip.endings whole = Ok tt).
  { clear -Hw. induction Hw as [|m l [_ Hm] _ IH]; [done|]. cbn. by rewrite Hm. }
  destruct (Zip.stream_zip_unzips whole Hok Hfit Hends) as [He Hu]. rewrite Hm in Hu.
  exists (Zip.stream_zip whole).1. split; [done|].
  destruct Hms as [->|(pre & m & post & ys & e & -> & -> & Hp & Hor)]; [by rewrite He|].
  by destruct (Zip.stream_zip_cut pre m post ys e Hok Hfit Hends Hp) as [-> ?].
Qed.

(** A later state in which the transfer is still served as the job left it: its
    row and files are as they were and its objects are in the bucket, no other
    transfer has its token, and the process holds the master key of the job. *)
Record served (mk : bytes) (tid : uuid) (w' : World) (t' : Transfer.t) (w2 : World) : Prop := {
  sv_row : DB.transfers (World.db w2) !! tid = Some t';
  sv_files : Tus.files_of tid (World.db w2) = Tus.files_of tid (World.db w');
  sv_token i t1 : DB.transfers (World.db w2) !! i = Some t1 →
    Transfer.token t1 = Transfer.token t' → i = tid;
  sv_key : World.master_key w2 = Some mk;
  sv_previous p : World.previous_master_key w2 = Some p → zlen p = 32;
  sv_objects f : f ∈ Tus.files_of tid (World.db w') →
    o_get (World.bucket w2) (TransferFile.object_key f)
    = o_get (World.bucket w') (TransferFile.object_key f)
}.

Lemma served_key mk tid w' t' w2 fk wk cur t1 wk1 mk1 :
  served mk tid w' t' w2 → Envelope.wrap_key mk fk = Ok wk → Transfer.wrapped_key t' = Some wk →
  open_transfer (World.db w2) cur (Transfer.token t') t1 →
  Transfer.wrapped_key t1 = Some wk1 → World.master_key w2 = Some mk1 →
  t1 = t' ∧ Envelope.unwrap_key mk1 wk1 (World.previous_master_key w2) = Ok fk.
Proof.
  intros [Hrow _ Htok Hmk Hprev _] Hwrap Hwk ([i Hi] & Ht & _) Hwk1 Hmk1.
  assert (t1 = t') as -> by (rewrite (Htok i t1 Hi Ht) in Hi; congruence).
  split; [done|]. simplify_eq. by apply wrap_key_opens.
Qed.

(** What arrives of the archive: all of it, or, when a connection to the store is
    lost or the store fails, the first of its chunks; in the former case the
    body ends normally nevertheless. *)
Definition zip_received (fs : list TransferFile.t) (contents archive : list bytes) (ending : res unit) : Prop :=
  ∃ whole, Zip.unzip (concat whole) = Some (zip (TransferFile.safe_filename <$> fs) contents) ∧
    match ending with
    | Ok _ => archive = whole ∨ broke ∧ archive `prefix_of` whole
    | Err e => e = ServiceError ∧ archive `prefix_of` whole
    end.

(** And of a single file. *)
Definition file_received (content : bytes) (body : list bytes) (ending : res unit) : Prop :=
  match ending with
  | Ok _ => concat body = content ∨ broke ∧ concat body `prefix_of` content
  | Err e => e = ServiceError ∧ body = []
  end.

Section served_facts.
Context (mk : bytes) (tid : uuid) (w' w2 : World) (t' : Transfer.t) (fk wk : bytes).
Context (G' : Good (World.db w')) (Hid : Transfer.id t' = tid) (Hsv : served mk tid w' t' w2).
Context (Hwrap : Envelope.wrap_key mk fk = Ok wk) (Hwk : Transfer.wrapped_key t' = Some wk).

Lemma wp_zip_served request contents :
  let fs := Tus.files_of tid (World.db w') in
  Forall2 (opens_to fk (World.bucket w2)) (Public.source_of <$> fs) contents →
  (∀ n, zip_time (clock n)) → zlen fs ≤ 2 ^ 32 → foldr Z.add 0 (zlen <$> contents) ≤ 2 ^ 63 →
  wp (Archive.get_zip breaks (Transfer.token t') request) w2 (λ r _,
    match r with
    | Ok (archive, ending) => zip_received fs contents archive ending
    | Err e => e = ServiceError ∨ gone e
    end).
Proof.
  intros fs Hop Hclock Hn Hz. pose proof Hwrap as (_ & Hfk & _)%wrap_key_ok.
  unfold Archive.get_zip. do 2 wp_step.
  eapply wp_mono; [apply wp_download_zip|]. intros r3 w3 [Hb3 H]. simpl in Hb3, H. destruct r3 as [resp|e].
  2:{ destruct H as [->|[Hg|[Hk|(t1 & wk1 & mk1 & Ho & Hwk1 & Hmk1 & Hu)]]]; [by left|by right| |].
      - by rewrite (sv_key _ _ _ _ _ Hsv) in Hk.
      - eapply served_key in Ho as [_ Hu']; eauto. congruence. }
  destruct H as (t1 & wk1 & mk1 & Ho & Hwk1 & Hmk1 & Hu & Hent).
  eapply served_key in Ho as [-> Hu']; eauto. rewrite Hu' in Hu. injection Hu as Hu.
  rewrite Hid, (sv_files _ _ _ _ _ Hsv) in Hent. fold fs in Hent. unfold Archive.zip_body. do 3 wp_step.
  rewrite Hent, <- Hu. eapply wp_mono; [by apply (wp_entries fk _ _ contents (World.bucket w2))|].
  intros r4 w4 (ms & -> & Hms). wp_step.
  eapply entries_complete in Hms; eauto.
  2:{ intros f [Hf%Z.eqb_eq [i Hi]]%elem_of_rows. by apply (good_files _ G' i f Hi). }
  unfold Archive._aiter_from_sync. destruct (Zip.stream_zip ms) as [archive ending]. simpl in Hms |- *.
  destruct Hms as (whole & Hunz & Hend).
  destruct ending as [[]|e]; [subst archive|destruct Hend as [Hp [->|[-> Hbr]]]]; exists whole; simpl; auto.
Qed.

Lemma wp_file_served request f content :
  f ∈ Tus.files_of tid (World.db w') → opens_to fk (World.bucket w2) (Public.source_of f) content →
  wp (Archive.get_file breaks (Transfer.token t') (TransferFile.id f) request) w2 (λ r _,
    match r with
    | Ok (headers, (body, ending)) =>
        (u "Content-Length", str_int (TransferFile.size_bytes f)) ∈ headers ∧
        file_received content body ending
    | Err e => e = ServiceError ∨ gone e ∨ utf8_encode (TransferFile.filename f) = Err e
    end).
Proof.
  intros Hin Hop. pose proof Hwrap as (_ & Hfk & _)%wrap_key_ok.
  assert (Hsame : ∀ f1, f1 ∈ Tus.files_of tid (World.db w') → TransferFile.id f1 = TransferFile.id f → f1 = f).
  { intros f1 Hf1 Hid1. apply files_of_row in Hf1 as (H1 & _); [|done].
    apply files_of_row in Hin as (H2 & _); [|done]. rewrite Hid1 in H1. congruence. }
  unfold Archive.get_file. do 2 wp_step.
  eapply wp_mono; [apply wp_download_file|]. intros r3 w3 [Hb3 H]. simpl in Hb3, H. destruct r3 as [resp|e].
  2:{ destruct H as [->|[Hg|[Hk|[(t1 & wk1 & mk1 & f1 & Ho & Hwk1 & Hmk1 & Hf1 & Hid1 & Hu)
                               |(t1 & wk1 & mk1 & Ho & Hwk1 & Hmk1 & Hu)]]]]; [by auto..| | |].
      - by rewrite (sv_key _ _ _ _ _ Hsv) in Hk.
      - eapply served_key in Ho as [-> _]; eauto. rewrite Hid, (sv_files _ _ _ _ _ Hsv) in Hf1.
        rewrite <- (Hsame f1 Hf1 Hid1). auto.
      - eapply served_key in Ho as [_ Hu']; eauto. congruence. }
  destruct H as (t1 & wk1 & mk1 & f1 & Ho & Hwk1 & Hmk1 & Hu & Hf1 & Hid1 & Hent & Hlen).
  eapply served_key in Ho as [-> Hu']; eauto. rewrite Hu' in Hu. injection Hu as Hu.
  rewrite Hid, (sv_files _ _ _ _ _ Hsv) in Hf1.
  rewrite (Hsame f1 Hf1 Hid1) in Hent, Hlen.
  unfold Archive.file_body. rewrite Hent, <- Hu. do 2 wp_step.
  eapply wp_mono; [apply (wp_file_plaintext_iter fk (Public.source_of f) content); simpl; by rewrite ?Hb3|].
  intros r4 w4 [_ (ys & ending & -> & Hstr)]. do 2 wp_step. unfold Archive._aiter_from_sync.
  destruct Hstr as (full & Hc & Hend).
  destruct ending as [[]|e]; [subst ys|destruct Hend as [Hp [[-> ->]|[-> Hbr]]]]; simpl;
    (split; [exact Hlen|]); [by left|done|]. right. split; [done|]. rewrite <- Hc. by apply concat_prefix.
Qed.

End served_facts.

(** C16: end to end with the responses.  After the encryption job made a transfer
    ready, and as long as it is still served as the job left it, a download is
    refused with 404 or 410 (it has expired meanwhile), fails with the object
    store or the database - that of a single file also when its name has no
    UTF-8 encoding - or gives the files.  The ZIP is then an archive whose
    members are, in order, exactly the files of the transfer under their safe
    names, each with the bytes that were staged for it; a single file is
    announced with its size and its body is exactly the staged bytes.  When the
    store fails in mid-body the response ends with that failure, and when a
    connection to it is lost the body ends normally: what arrived is then a
    prefix of the complete archive, respectively of the staged bytes.  For the
    archive the clock is between 1980 and the end of 2107, the range of the time
    of an entry, there are at most 2^32 files and at most 2^63 bytes. *)
Theorem downloads_of_uploaded_files mk tid w r w' t t' w2 request :
  let files := Tus.files_of tid (World.db w') in
  Good (World.db w) →
  with_session (Encrypt.process_encrypt_job mk tid) w = (r, w') →
  DB.transfers (World.db w) !! tid = Some t → Transfer.status t = Uploading →
  DB.transfers (World.db w') !! tid = Some t' → Transfer.status t' = Ready →
  served mk tid w' t' w2 →
  (∀ n, zip_time (clock n)) → zlen files ≤ 2 ^ 32 →
  foldr Z.add 0 (TransferFile.size_bytes <$> files) ≤ 2 ^ 63 →
  ∃ contents, Forall2 (staged_as tid w) files contents ∧
  (∀ r3 w3, Archive.get_zip breaks (Transfer.token t') request w2 = (r3, w3) →
     match r3 with
     | Ok (archive, ending) => zip_received files contents archive ending
     | Err e => e = ServiceError ∨ gone e
     end) ∧
  (∀ n f content r3 w3, files !! n = Some f → contents !! n = Some content →
     Archive.get_file breaks (Transfer.token t') (TransferFile.id f) request w2 = (r3, w3) →
     match r3 with
     | Ok (headers, (body, ending)) =>
         (u "Content-Length", str_int (zlen content)) ∈ headers ∧ file_received content body ending
     | Err e => e = ServiceError ∨ gone e ∨ utf8_encode (TransferFile.filename f) = Err e
     end).
Proof.
  intros files G E Ht Hs Ht' Hs' Hsv Hclock Hn Hz.
  pose proof (encrypt_job_good _ _ _ _ _ G E) as G'.
  destruct (ready_opens _ _ _ _ _ _ _ _ G E Ht Hs Ht' Hs' (sv_objects _ _ _ _ _ Hsv))
    as (fk & wk & contents & Hwk & Hwrap & Hop & Hst). fold files in Hop, Hst.
  destruct (good_transfers _ G' tid t' Ht') as [[Hid _] _].
  exists contents. split; [done|]. split.
  - apply wp_of_run. eapply wp_zip_served; eauto. by rewrite (staged_total _ _ _ _ Hst).
  - intros n f content r3 w3 Hf Hc. revert r3 w3. apply wp_of_run.
    destruct (Forall2_lookup_lr _ _ _ n _ _ Hst Hf Hc) as (p & _ & _ & Hz').
    rewrite Hz'. apply (wp_file_served mk tid w' w2 t' fk wk); [done..| |].
    + by apply list_elem_of_lookup_2 in Hf.
    + apply (Forall2_lookup_lr _ _ _ n _ _ Hop); [|done]. by rewrite list_lookup_fmap, Hf.
Qed.

End archive_facts.

(** * Witness *)

(** A container for the demonstration: each field is written with a mark before
    every byte and another one at its end, names and contents in turn. *)
Module DemoZip.

Definition marked (b : bytes) : bytes := b ≫= (λ x, [1; x]).

Fixpoint write (ms : list Zip.member) : list bytes * res unit :=
  match ms with
  | [] => ([], Ok tt)
  | m :: ms =>
      let head := (marked (Zip.arcname m) ++ [0]) :: (marked <$> Zip.chunks m) in
      match Zip.ending m with
      | Err e => (head, Err e)
      | Ok _ => let '(rest, r) := write ms in (head ++ [0] :: rest, r)
      end
  end.

Fixpoint fields (acc b : bytes) : list bytes :=
  match b with
  | 0 :: b => reverse acc :: fields [] b
  | _ :: x :: b => fields (x :: acc) b
  | _ => []
  end.

Fixpoint pairs (fs : list bytes) : option (list (pystr * bytes)) :=
  match fs with
  | [] => Some []
  | name :: content :: fs => cons (name, content) <$> pairs fs
  | _ => None
  end.

#[export] Instance container : Zip.Container := {|
  Zip.stream_zip := write;
  Zip.unzip := λ b, pairs (fields [] b)
|}.

Lemma marked_app a b : marked (a ++ b) = marked a ++ marked b.
Proof. apply bind_app. Qed.

Lemma marked_concat cs : concat (marked <$> cs) = marked (concat cs).
Proof. induction cs as [|c cs IH]; [done|]. cbn. by rewrite marked_app, <- IH. Qed.

Lemma fields_marked b acc r : fields acc (marked b ++ 0 :: r) = (reverse acc ++ b) :: fields [] r.
Proof.
  revert acc. induction b as [|x b IH]; intros acc; cbn.
  - by rewrite app_nil_r.
  - rewrite IH, reverse_cons, <- app_assoc. done.
Qed.

Lemma write_unzips ms :
  Zip.endings ms = Ok tt → (write ms).2 = Ok tt ∧
  pairs (fields [] (concat (write ms).1)) = Some ((λ m, (Zip.arcname m, Zip.content m)) <$> ms).
Proof.
  induction ms as [|m ms IH]; [done|]. cbn. destruct (Zip.ending m) as [[]|e]; [|done].
  intros [IHe IHu]%IH. destruct (write ms) as [rest r]. cbn in *. split; [done|].
  rewrite concat_app. cbn. rewrite marked_concat, <- !app_assoc. cbn.
  rewrite !fields_marked. cbn. unfold Zip.content at 1. by rewrite IHu.
Qed.

Lemma write_cut pre m post ys e :
  Zip.endings (pre ++ m :: post) = Ok tt → ys `prefix_of` Zip.chunks m →
  (write (pre ++ [Zip.cut m ys e])).2 = Err e ∧
  (write (pre ++ [Zip.cut m ys e])).1 `prefix_of` (write (pre ++ m :: post)).1.
Proof.
  intros He [r Hr]. induction pre as [|m' pre IH]; cbn in *.
  - split; [done|]. destruct (Zip.ending m) as [[]|e']; [|done]. destruct (write post) as [rest r'].
    cbn. rewrite Hr, fmap_app, <- app_assoc. apply prefix_cons. by eexists.
  - destruct (Zip.ending m') as [[]|e']; [|done]. specialize (IH He).
    destruct (write (pre ++ _)) as [l1 r1]. destruct (write (pre ++ m :: post)) as [l2 r2]. cbn in *.
    destruct IH as [-> IH]. split; [done|]. apply prefix_cons, prefix_app, prefix_cons, IH.
Qed.

#[export] Instance container_ok : Zip.ContainerOk.
Proof. split; intros; [by apply write_unzips|by apply write_cut]. Qed.

End DemoZip.

Section archive_witness.
Import DemoZip.
(** A day of 2023, on which nothing fails. *)
#[local] Instance demo_services : Services := Sim.services (λ _, 1700000000 * second) (λ _, false).
#[local] Instance demo_services_ok : ServicesOk.
Proof. by apply Sim.services_ok. Qed.
#[local] Instance demo_config : Config := Demo.config.

(** A transfer with two files staged in full. *)
Definition zip_transfer : Transfer.t := Demo.transfer 1 Uploading None (1700000001 * second).
Definition zip_file (i : uuid) : TransferFile.t := Demo.file i 1 (Storage.object_key 1 i).
Definition zip_path (i : uuid) : uuid * pystr := (1, uuid_str i ++ u "__a.txt").
Definition zip_db : DB.t := Demo.db_transfers [zip_transfer] [zip_file 2; zip_file 3].
Definition zip_world : World :=
  World.mk zip_db zip_db (∅ : Sim.redis) (∅ : Sim.bucket)
    (FS.mk {[1]} {[zip_path 2 := [10; 20; 30]; zip_path 3 := [7; 8; 9]]})
    0 [] [] None (Some Demo.master) None ∅.
Definition zip_request : Request := mkRequest [] (Some (u "192.0.2.1")) [].

Lemma zip_good : Good (World.db zip_world).
Proof.
  assert (HT : DB.transfers (World.db zip_world) = {[1 := zip_transfer]}) by reflexivity.
  assert (HF : DB.files (World.db zip_world) = {[2 := zip_file 2; 3 := zip_file 3]}) by reflexivity.
  split; rewrite ?HT, ?HF.
  - intros i t [<- <-]%lookup_singleton_Some. split; [split; [done|unfold uuid_ok; lia]|done].
  - intros i f [[<- <-]|[_ [<- <-]%lookup_singleton_Some]]%lookup_insert_Some;
      (split; [split; [done|unfold uuid_ok; lia]|]; do 2 (split; [done|]);
       cbn [TransferFile.transfer_id zip_file Demo.file]; rewrite lookup_singleton_eq; by eexists).
  - intros i a. cbn. by rewrite lookup_empty.
Qed.

Definition zip_job := with_session (Encrypt.process_encrypt_job Demo.master 1) zip_world.
Definition steady (i : nat) : option nat := None.
Definition zip_download (breaks : nat → option nat) :=
  (Archive.get_zip breaks (u "download") zip_request zip_job.2).1.
Definition file_download (breaks : nat → option nat) (i : uuid) :=
  (Archive.get_file breaks (u "download") i zip_request zip_job.2).1.

(** Both kinds of download answer. *)
Lemma zip_answered : ∃ archive, zip_download steady = Ok (archive, Ok tt).
Proof.
  assert (H : (match zip_download steady with Ok (_, Ok _) => true | _ => false end) = true)
    by (vm_compute; reflexivity).
  destruct (zip_download steady) as [[a [[]|]]|]; try done. by eexists.
Qed.

(** The files of the archive, once it is unpacked. *)
Definition unpacked (r : res (list bytes * res unit)) : option (list (pystr * bytes)) :=
  match r with Ok (archive, Ok _) => Zip.unzip (concat archive) | _ => None end.

Definition every_body (i : nat) : option nat := Some 0%nat.

(** When the connection to the store is lost in mid-body, the response of the ZIP
    still ends as a complete one does; what arrived is no archive. *)
Example broken_zip_ends_normally :
  unpacked (zip_download steady) = Some [(u "a.txt", [7; 8; 9]); (u "a.txt", [10; 20; 30])] ∧
  is_ok (x ← zip_download every_body; x.2) = true ∧ unpacked (zip_download every_body) = None.
Proof. vm_compute. done. Qed.

Lemma zip_row : ∃ t, DB.transfers (World.db zip_job.2) !! 1 = Some t ∧ Transfer.status t = Ready ∧
  Transfer.token t = u "download".
Proof.
  assert (H : (λ t, (Transfer.status t, Transfer.token t)) <$> DB.transfers (World.db zip_job.2) !! 1
              = Some (Ready, u "download")) by (vm_compute; reflexivity).
  apply fmap_Some in H as (t & Ht & [= Hs Hk]).
  exists t. split; [exact Ht|]. split; [exact (eq_sym Hs)|exact (eq_sym Hk)].
Qed.

Lemma zip_only i t : DB.transfers (World.db zip_job.2) !! i = Some t → i = 1.
Proof.
  intros H. assert (Hk : (map_to_list (DB.transfers (World.db zip_job.2))).*1 = [1]) by (vm_compute; reflexivity).
  apply elem_of_map_to_list, (list_elem_of_fmap_2 fst) in H. rewrite Hk in H. simpl in H.
  by apply list_elem_of_singleton in H.
Qed.

Lemma zip_keys : World.master_key zip_job.2 = Some Demo.master ∧ World.previous_master_key zip_job.2 = None.
Proof. vm_compute. done. Qed.

Lemma zip_served t : DB.transfers (World.db zip_job.2) !! 1 = Some t → served Demo.master 1 zip_job.2 t zip_job.2.
Proof.
  intros Ht. destruct zip_keys as [H1 H2]. constructor.
  - exact Ht.
  - reflexivity.
  - intros i t1 Hi _. exact (zip_only i t1 Hi).
  - exact H1.
  - rewrite H2. intros p Hp. discriminate Hp.
  - reflexivity.
Qed.

Lemma downloads_of_uploaded_files_witness :
  ∃ archive contents, zip_download steady = Ok (archive, Ok tt) ∧
    Forall2 (staged_as 1 zip_world) (Tus.files_of 1 (World.db zip_job.2)) contents ∧
    Zip.unzip (concat archive) = Some (zip [u "a.txt"; u "a.txt"] contents).
Proof.
  destruct zip_row as (t & Ht & Hs & Hk). destruct zip_answered as [archive Ha].
  destruct (downloads_of_uploaded_files steady Demo.master 1 zip_world zip_job.1 zip_job.2 zip_transfer t
    zip_job.2 zip_request zip_good (surjective_pairing zip_job) eq_refl eq_refl Ht Hs (zip_served t Ht))
    as (contents & Hst & Hzip & _).
  - intros n. unfold zip_time, clock. simpl. unfold second. lia.
  - vm_compute. discriminate.
  - vm_compute. discriminate.
  - exists archive, contents. split; [done|]. split; [exact Hst|]. rewrite Hk in Hzip.
    pose proof (Hzip _ _ (surjective_pairing (Archive.get_zip steady (u "download") zip_request zip_job.2))) as H.
    change (Archive.get_zip steady (u "download") zip_request zip_job.2).1 with (zip_download steady) in H.
    rewrite Ha in H. destruct H as (whole & H & [->|[(i & k & [=]) _]]).
    assert (Hn : TransferFile.safe_filename <$> Tus.files_of 1 (World.db zip_job.2) = [u "a.txt"; u "a.txt"])
      by (vm_compute; reflexivity).
    by rewrite <- Hn.
Defined.

End archive_witness.
