(* ===== verification/Access.v ===== *)
(** Who may do what: sessions, roles, the login and its lockout. *)
From S2P Require Import Prelude Text Services Sim Model Scenario Effects Storage Support Gates.
From S2P Require Import RateLimit Http Envelope Session Auth Tus Transfers Public Worker.
From S2P Require Import AdminAuth AdminApi AdminUsers Telegram Rotation Invariants Lifecycle System.

(** * Roles *)

Section roles.
Context {X : Services} {C : Config}.
Import AdminAuth.

(** The request's cookie names a live session, of the enabled account [a]. *)
Definition session_of (rq : Request) (d : DB.t) (w : World) (a : Admin.t) : Prop :=
  session_id rq ≠ [] ∧ ∃ data deadline s,
    r_view (World.redis w) (clock (S (World.tick w))) (SessionStore._session_key (session_id rq))
      = Some (RStr data, deadline) ∧
    SessionStore.parse data = Ok s ∧
    DB.admins d !! SessionStore.admin_id s = Some a ∧ Admin.disabled a = false.

(** Failures of the session store are never HTTP answers. *)
Definition internal (e : exn) : Prop := match e with HTTPException _ _ => False | _ => True end.

Lemma uuid_parse_err s e : uuid_parse s = Err e → internal e.
Proof. unfold uuid_parse. repeat case_match; intros; by simplify_eq. Qed.

Lemma parse_err data e : SessionStore.parse data = Err e → internal e.
Proof.
  unfold SessionStore.parse. destruct (SessionStore.jstr _) as [a|?] eqn:E1; simpl.
  2:{ intros; simplify_eq. revert E1. unfold SessionStore.jstr. repeat case_match; intros; by simplify_eq. }
  destruct (uuid_parse a) as [i|?] eqn:E2; simpl; [|intros; simplify_eq; by eapply uuid_parse_err].
  assert (Ht : ∀ j e, SessionStore.jtime j = Err e → internal e).
  { intros j e'. unfold SessionStore.jtime, SessionStore.jstr. destruct j as [[]|]; simpl;
      intros; repeat case_match; by simplify_eq. }
  destruct (SessionStore.jtime (jget (u "issued_at") data)) as [t1|?] eqn:E3; simpl; [|intros; simplify_eq; by eapply Ht].
  destruct (SessionStore.jtime (jget (u "last_active") data)) as [t2|?] eqn:E4; simpl; [done|].
  intros; simplify_eq. by eapply Ht.
Qed.

Definition fails_inside {A} (r : res A) : Prop := match r with Ok _ => True | Err e => internal e end.

Lemma wp_touch_fails n sid w : wp (SessionStore.touch n sid) w (λ r _, fails_inside r).
Proof.
  unfold SessionStore.touch. wp_step. unfold redis_get. apply wp_redis; [done|]. cbv zeta.
  destruct (r_view _ _ _) as [[[d| |] dl]|]; [|done|done|by wp_step].
  destruct d as [| | | | | |fields]; try by wp_step. do 3 wp_step.
  assert (Hfin : ∀ A (m : M A) w1, wp m w1 (λ r _, fails_inside r) →
     wp (m;; mret true) w1 (λ r _, fails_inside r)).
  { intros A m w1 Hm. wp_step. eapply wp_mono; [exact Hm|]. intros [x|e] w2 H2; [by wp_step|done]. }
  apply (wp_mono _ _ (λ r _, fails_inside r)).
  - repeat case_match; repeat wp_step; try done.
    destruct (uuid_parse _) as [i|e] eqn:Hu; [by wp_step|by eapply uuid_parse_err].
  - intros [o|e] w1 H1; [|done]. apply Hfin. by apply wp_redis.
Qed.

Lemma wp_require_session rq w :
  wp (require_session rq) w (λ r w', agree [PTick; PRedis] w w' ∧
    match r with
    | Ok a => session_of rq (World.sess w) w a
    | Err e => e ≠ http_err 403 "admin_role_required"
    end ∧ (session_id rq = [] → r = Err (http_err 401 "no_session"))).
Proof.
  apply wp_and; [apply touches_wp; foot|]. unfold require_session.
  destruct (session_id rq) as [|c sid] eqn:Hsid; cbn [nonempty negb].
  { wp_step. split; [done|done]. }
  apply (wp_mono _ _ (λ r w', match r with
    | Ok a => session_of rq (World.sess w) w a
    | Err e => e ≠ http_err 403 "admin_role_required" end)); [|by intros r w' H].
  assert (Hint : ∀ e, internal e → e ≠ http_err 403 "admin_role_required") by by intros e He ->.
  wp_step. unfold SessionStore.load. wp_step. unfold redis_get. apply wp_redis; [done|].
  cbv zeta. set (w1 := next_tick (next_tick w)).
  destruct (r_view (World.redis w) (clock (S (World.tick w))) _) as [[[data| |] dl]|] eqn:Hv;
    [|done|done|by do 2 wp_step].
  do 2 wp_step. destruct (SessionStore.parse data) as [s|e] eqn:Hp; [|by eapply Hint, parse_err].
  do 2 wp_step. eapply wp_mono.
  { apply wp_and; [eapply (touches_wp [PTick; PRedis]); foot|apply wp_touch_fails]. }
  intros [b|e] w2 [Ha He]; [|by apply Hint]. do 2 wp_step.
  rewrite (Ha PAdmins ltac:(part_notin) : DB.admins _ = _).
  change (World.sess (World.set_redis (World.redis w) w1)) with (World.sess w).
  destruct (DB.admins (World.sess w) !! _) as [a|] eqn:Hadm; [|by wp_step].
  destruct (Admin.disabled a) eqn:Hd; wp_step; [done|].
  split; [by rewrite Hsid|]. rewrite Hsid. by exists data, dl, s.
Qed.

Lemma wp_require_admin_role rq w :
  wp (require_admin_role rq) w (λ r w', agree [PTick; PRedis] w w' ∧
    match r with
    | Ok a => session_of rq (World.sess w) w a ∧ Admin.role a = u "admin"
    | Err e => e = http_err 403 "admin_role_required" →
        ∃ a, session_of rq (World.sess w) w a ∧ Admin.role a ≠ u "admin"
    end ∧ (session_id rq = [] → r = Err (http_err 401 "no_session"))).
Proof.
  unfold require_admin_role. wp_step. eapply wp_mono; [apply wp_require_session|].
  intros [a|e] w1 (Ha & Hs & Hn); [|done]. case_bool_decide as Hr; wp_step.
  - split; [done|]. split; [done|]. intros E. by specialize (Hn E).
  - split; [done|]. split; [by exists a|]. intros E. by specialize (Hn E).
Qed.

(** The admin gate.  [require_admin_role] lets a request through only when
    its session cookie names a session that Redis still holds at that moment,
    whose account exists, is not disabled and has the role [admin]; an account
    of another role is refused with 403, a request without the cookie with 401.
    The check itself changes nothing but Redis (the session's expiry). *)
Theorem require_admin_role_spec rq w r w' :
  require_admin_role rq w = (r, w') →
  agree [PTick; PRedis] w w' ∧
  match r with
  | Ok a => session_of rq (World.sess w) w a ∧ Admin.role a = u "admin"
  | Err e => e = http_err 403 "admin_role_required" →
      ∃ a, session_of rq (World.sess w) w a ∧ Admin.role a ≠ u "admin"
  end ∧ (session_id rq = [] → r = Err (http_err 401 "no_session")).
Proof. intros E. by_wp (wp_require_admin_role rq w) E. Qed.

(** ** Every admin request is behind the gate *)

(** The request of an event of the admin API that changes state. *)
Definition admin_request (e : System.event) : option Request :=
  match e with
  | System.AdminDeleteTransfer _ rq | System.AdminRevokeTransfer _ rq
  | System.BlocklistAdd _ _ rq | System.BlocklistDelete _ _ rq | System.PatchSettings _ rq
  | System.AddExtension _ rq | System.RemoveExtension _ rq | System.CreateAdmin _ rq
  | System.UpdateAdmin _ _ rq | System.ResetTotp _ rq | System.DeleteAdmin _ rq
  | System.UpdateTelegram _ rq | System.CryptoRewrap rq => Some rq
  | _ => None
  end.

Definition kept (w w' : World) : Prop :=
  World.db w' = World.db w ∧ World.bucket w' = World.bucket w ∧ World.fs w' = World.fs w.

(** Nobody behind the request is an administrator. *)
Definition no_admin (rq : Request) (w : World) : Prop :=
  ∀ a, session_of rq (World.db w) w a → Admin.role a ≠ u "admin".

Lemma wp_gated {A} rq (k : Admin.t → M A) w :
  no_admin rq w →
  wp (System.request (a ← require_admin_role rq; k a)) w (λ _ w', kept w w').
Proof.
  intros Hno. unfold System.request, System.ignore. do 3 wp_step.
  eapply wp_mono; [apply wp_require_admin_role|]. intros [a|e] w1 (Ha & H & _).
  - destruct H as [Hs Hr]. by destruct (Hno a Hs).
  - split; [apply (Ha PDb); part_notin|]. split; [apply (Ha PBucket); part_notin|].
    apply (Ha PFs); part_notin.
Qed.

Lemma wp_admin_event e rq w :
  admin_request e = Some rq → no_admin rq w → wp (System.handle e) w (λ _ w', kept w w').
Proof.
  intros He Hno. destruct e; simplify_eq/=; try by apply wp_gated.
  - unfold AdminUsers.validate_create. case_match; [by apply wp_gated|done].
  - unfold AdminUsers.validate_update. case_match; [by apply wp_gated|done].
  - unfold AdminTelegram.validate_update. case_match; [by apply wp_gated|done].
Qed.

(** C25: no administrator, no change.  Each of the thirteen state-changing requests
    of the admin API leaves the database, the bucket and the staging area as
    they are, whatever its arguments, unless its cookie names a live session of
    an enabled account with the role [admin]. *)
Theorem admin_events_need_an_admin e rq w :
  admin_request e = Some rq → no_admin rq w → kept w (System.handle e w).2.
Proof. intros He Hno. exact (wp_admin_event e rq w He Hno). Qed.

End roles.

Section access_witnesses.
Import AdminAuth.
#[local] Instance demo_services : Services := Sim.calm.
#[local] Instance demo_config : Config := Demo.config.

(** An administrator with a session, and a request that carries its cookie. *)
Definition signed_in_redis : redisT :=
  ({[SessionStore._session_key (u "s1") := (RStr (SessionStore.payload 2 0 0), None)]} : Sim.redis).
Definition signed_in (role : pystr) : World :=
  World.set_redis signed_in_redis
    (Demo.world (Demo.db_admins [Demo.admin 2 (u "root@example.org") role])).
Definition with_cookie : Request := mkRequest [] None [(SESSION_COOKIE, u "s1")].

Lemma require_admin_role_spec_witness :
  session_of with_cookie (World.db (signed_in (u "admin"))) (signed_in (u "admin"))
    (Demo.admin 2 (u "root@example.org") (u "admin")).
Proof.
  destruct (require_admin_role with_cookie (signed_in (u "admin"))) as [r w'] eqn:E.
  assert (H1 : (require_admin_role with_cookie (signed_in (u "admin"))).1
    = Ok (Demo.admin 2 (u "root@example.org") (u "admin"))) by (vm_compute; reflexivity).
  rewrite E in H1. simpl in H1. subst r.
  exact (proj1 (proj1 (proj2 (require_admin_role_spec _ _ _ _ E)))).
Defined.

(** A viewer cannot delete an account. *)
Lemma viewer_is_no_admin : no_admin with_cookie (signed_in (u "viewer")).
Proof.
  intros a (_ & data & dl & s & Hv & Hp & Ha & _) Hr.
  assert (Hs : s = SessionStore.mkSessionData 2 0 0).
  { vm_compute in Hv. injection Hv as <- <-. vm_compute in Hp. by injection Hp as <-. }
  subst s. vm_compute in Ha. injection Ha as <-. vm_compute in Hr. discriminate.
Qed.

Lemma admin_events_need_an_admin_witness :
  kept (signed_in (u "viewer"))
    (System.handle (System.DeleteAdmin 2 with_cookie) (signed_in (u "viewer"))).2.
Proof.
  exact (admin_events_need_an_admin (System.DeleteAdmin 2 with_cookie) with_cookie
    (signed_in (u "viewer")) eq_refl viewer_is_no_admin).
Defined.

End access_witnesses.

(** * Login *)

Section login_facts.
Context {X : Services} {XOk : ServicesOk} {C : Config}.
Import AdminAuth AuthService.

Definition has_email (email : pystr) (a : Admin.t) : bool :=
  BlocklistChecker.citext_eqb (Admin.email a) email.

(** [a] is the one account with this e-mail address. *)
Definition account (email : pystr) (d : DB.t) (a : Admin.t) : Prop :=
  DB.admins d !! Admin.id a = Some a ∧ has_email email a = true ∧
  ∀ j b, DB.admins d !! j = Some b → has_email email b = true → j = Admin.id a.

Lemma account_found email d a : account email d a → find_admin email d = Some a.
Proof.
  intros (Ha & He & Hu). unfold find_admin. change (λ a, _) with (has_email email).
  destruct (head (rows (has_email email) (DB.admins d))) as [b|] eqn:Eh.
  - apply head_rows in Eh as (Hb & j & Hj). rewrite (Hu j b Hj Hb) in Hj. congruence.
  - assert (a ∈ rows (has_email email) (DB.admins d)) as Hin by (apply elem_of_rows; eauto).
    destruct (rows _ _); [by apply elem_of_nil in Hin|done].
Qed.

Lemma account_update email d a f :
  (∀ b, Admin.id (f b) = Admin.id b) → (∀ b, Admin.email (f b) = Admin.email b) →
  account email d a →
  account email (DB.set_admins (alter f (Admin.id a) (DB.admins d)) d) (f a).
Proof.
  intros Hi He (Ha & Hm & Hu). unfold account, has_email. simpl. rewrite Hi, He. split; [|split; [done|]].
  - by rewrite lookup_alter_eq, Ha.
  - intros j b. rewrite lookup_alter. case_decide as Hj; [by subst|]. apply Hu.
Qed.

(** A refused attempt: counted and committed, or the commit failed. *)
Lemma wp_refuse {A} a msg w (Q : res A → World → Prop) :
  Q (Err (http_err 401 msg))
    (let d := DB.set_admins (alter (register_failure (clock (World.tick w))) (Admin.id a)
                               (DB.admins (World.sess w))) (World.sess w) in
     World.set_db d (next_tick (World.set_sess d (next_tick w)))) →
  (∀ w', World.db w' = World.db w → Q (Err ServiceError) w') →
  wp (refuse a msg) w Q.
Proof.
  intros H1 H2. unfold refuse. do 2 wp_step. unfold update_admin. do 3 wp_step.
  apply wp_commit; [by wp_step|by apply H2].
Qed.

Lemma wp_verify_totp s c w (Q : res bool → World → Prop) :
  (∀ t r, (r = Ok true → totp_verify s c t = Ok true) → ∀ w', agree [PTick] w w' → Q r w') →
  wp (verify_totp s c) w Q.
Proof.
  intros HQ. unfold verify_totp. case_match; [wp_step; by apply (HQ 0 (Ok false))|].
  do 3 wp_step. apply (HQ (clock (World.tick w))); [done|apply agree_tick; part_in].
Qed.

(** ** Success *)

(** The session [sid] of account [i] is in Redis. *)
Definition session_created (sid : pystr) (i : uuid) (w w' : World) : Prop :=
  ∃ at_ t, World.redis w' = SessionStore.create_pipe _SESSION_TTL sid i (SessionStore.payload i t t)
                              (World.redis w) at_.

Definition login_ok (p : LoginRequest.t) (w w' : World) (resp : Response) : Prop :=
  ∃ a secret s t t' sid,
    find_admin (LoginRequest.email p) (World.sess w) = Some a ∧ Admin.disabled a = false ∧
    is_locked (clock (World.tick w)) a = false ∧
    verify_password (LoginRequest.password p) (Admin.password_hash a) = true ∧
    Admin.totp_enrolled a = true ∧ Admin.totp_secret a = Some secret ∧
    (totp_secret_str secret w).1 = Ok s ∧ totp_verify s (LoginRequest.totp_code p) t = Ok true ∧
    DB.admins (World.db w') = alter (logged_in t') (Admin.id a) (DB.admins (World.sess w)) ∧
    session_created sid (Admin.id a) w w' ∧ rs_status resp = 200 ∧
    rs_headers resp = session_cookie sid.

Lemma totp_secret_str_tick secret w :
  (totp_secret_str secret (next_tick w)).1 = (totp_secret_str secret w).1.
Proof.
  unfold totp_secret_str. case_match; [|done].
  unfold State.get_master_key, State.get_previous_master_key, gets, mbind, M_bind.
  change (World.master_key (next_tick w)) with (World.master_key w).
  by destruct (World.master_key w).
Qed.

Lemma wp_login_ok p w :
  wp (login p) w (λ r w', match r with Ok resp => login_ok p w w' resp | Err _ => True end).
Proof.
  unfold login. do 2 wp_step. destruct (find_admin _ _) as [a|] eqn:Hf; [|by wp_step].
  destruct (Admin.disabled a) eqn:Hd; [by wp_step|]. do 2 wp_step.
  destruct (is_locked _ a) eqn:Hl; [by wp_step|].
  destruct (verify_password _ _) eqn:Hp; cbn [negb]; [|by apply wp_refuse].
  destruct (Admin.totp_enrolled a) eqn:He; cbn [negb]; [|by wp_step].
  destruct (Admin.totp_secret a) as [secret|] eqn:Hs; [|by wp_step].
  wp_step. apply wp_of. intros r w1 E1.
  pose proof (touches_agree [] _ _ _ _ (touches_totp_secret_str secret) E1) as Ha1.
  destruct r as [s|e]; [|done].
  assert (Es : (totp_secret_str secret w).1 = Ok s).
  { rewrite <- (totp_secret_str_tick secret w), E1. done. }
  wp_step. apply wp_verify_totp. intros t r Hr w2 Ha2. destruct r as [[]|e]; [|by apply wp_refuse|done].
  cbn [negb]. do 2 wp_step. unfold update_admin. do 3 wp_step. apply wp_commit; [|done].
  wp_step. unfold SessionStore.create. do 4 wp_step. wp_step. apply wp_redis; [done|]. cbv zeta.
  do 2 wp_step. unfold session_created.
  exists a, secret, s, t, (clock (World.tick w2)), (rand_token (S (S (World.tick w2)))).
  assert (Hadm : DB.admins (World.sess w2) = DB.admins (World.sess w)).
  { rewrite (Ha2 PAdmins ltac:(part_notin) : DB.admins _ = _).
    by rewrite (Ha1 PAdmins ltac:(part_notin) : DB.admins _ = _). }
  assert (Hred : World.redis w2 = World.redis w).
  { rewrite (Ha2 PRedis ltac:(part_notin) : World.redis _ = _).
    by rewrite (Ha1 PRedis ltac:(part_notin) : World.redis _ = _). }
  do 7 (split; [done|]). split; [by apply Hr|]. simpl. rewrite Hadm. split; [done|].
  split; [|done]. rewrite Hred. unfold session_created. eexists _, _. reflexivity.
Qed.

(** C26: login needs every factor.  It answers 200 only for an account that
    exists, is enabled and not locked, when the password verifies against the
    stored Argon2 hash, TOTP is enrolled and the code verifies against the
    decrypted secret; then the failure counter and the lock are cleared, the
    login time is set, and the cookie carries the id of a new Redis session of
    that account. *)
Theorem login_needs_every_factor p w resp w' :
  login p w = (Ok resp, w') → login_ok p w w' resp.
Proof. intros E. by_wp (wp_login_ok p w) E. Qed.

(** ** Lockout *)

Definition wrong_password (p : LoginRequest.t) (a : Admin.t) : Prop :=
  verify_password (LoginRequest.password p) (Admin.password_hash a) = false.

(** Attempts one after the other, each a request of its own. *)
Definition attempts (ps : list LoginRequest.t) (w : World) : World :=
  foldl (λ w p, (with_session (login p) w).2) w ps.

(** Nothing fails: neither Redis nor the commits. *)
Definition no_faults : Prop := ∀ i, fault i = false.

Lemma failed_login email p a w :
  no_faults → account email (World.db w) a → LoginRequest.email p = email →
  Admin.disabled a = false → is_locked (clock (World.tick w)) a = false → wrong_password p a →
  let t := clock (S (World.tick w)) in
  let w' := (with_session (login p) w).2 in
  World.db w' = DB.set_admins (alter (register_failure t) (Admin.id a) (DB.admins (World.db w)))
                  (World.db w) ∧
  World.tick w' = (3 + World.tick w)%nat.
Proof.
  intros Hf Ha <- Hd Hl Hw t w'. unfold w', with_session.
  assert (E : login p (World.set_sess (World.db w) w) = (Err (http_err 401 "invalid_credentials"),
    let d := DB.set_admins (alter (register_failure t) (Admin.id a) (DB.admins (World.db w))) (World.db w) in
    World.set_db d (next_tick (World.set_sess d (next_tick (next_tick (World.set_sess (World.db w) w))))))).
  { unfold login, query, gets, mbind, M_bind. cbn [World.sess World.set_sess].
    rewrite (account_found _ _ _ Ha), Hd. unfold now. cbn [World.tick World.set_sess].
    rewrite Hl. unfold wrong_password in Hw. rewrite Hw. cbn [negb].
    unfold refuse, now, update_admin, modify_db, modify, commit, call, raise, mbind, M_bind.
    cbn [World.tick World.set_sess next_tick World.set_tick World.sess]. by rewrite Hf. }
  by rewrite E.
Qed.

Lemma register_failure_n t a :
  Admin.failed_attempts (register_failure t a) = Admin.failed_attempts a + 1 ∧
  Admin.locked_until (register_failure t a)
    = (if Admin.failed_attempts a + 1 >=? 5 then Some (t + lockout_minutes * minute)
       else Admin.locked_until a).
Proof. unfold register_failure, max_failed_attempts. by case_match. Qed.

Lemma register_failure_same t a :
  Admin.id (register_failure t a) = Admin.id a ∧
  Admin.email (register_failure t a) = Admin.email a ∧
  Admin.disabled (register_failure t a) = Admin.disabled a ∧
  Admin.password_hash (register_failure t a) = Admin.password_hash a.
Proof. unfold register_failure. by case_match. Qed.

Lemma account_failure email d a t :
  account email d a →
  account email (DB.set_admins (alter (register_failure t) (Admin.id a) (DB.admins d)) d)
    (register_failure t a).
Proof. intros Ha. apply (account_update email d a); [apply register_failure_same..|done]. Qed.

(** The account after fewer than five failures in a row. *)
Lemma failures_counted email ps w a :
  no_faults → account email (World.db w) a → Admin.disabled a = false →
  Admin.locked_until a = None → Admin.failed_attempts a + zlen ps < 5 →
  Forall (λ p, LoginRequest.email p = email ∧ wrong_password p a) ps →
  ∃ a', account email (World.db (attempts ps w)) a' ∧
    Admin.disabled a' = false ∧ Admin.locked_until a' = None ∧
    Admin.password_hash a' = Admin.password_hash a ∧ Admin.id a' = Admin.id a ∧
    Admin.failed_attempts a' = Admin.failed_attempts a + zlen ps.
Proof.
  intros Hf. revert w a. induction ps as [|p ps IH]; intros w a Ha Hd Hl Hn Hps.
  { exists a. repeat split; try apply Ha; try done. unfold zlen; simpl; lia. }
  apply Forall_cons in Hps as [[He Hw] Hps]. rewrite zlen_cons in Hn. pose proof (zlen_nonneg ps).
  destruct (failed_login email p a w Hf Ha He Hd) as [Hdb _]; [by unfold is_locked; rewrite Hl|done|].
  simpl in Hdb. cbn [attempts foldl]. fold (attempts ps (with_session (login p) w).2).
  set (t := clock _) in Hdb. destruct (register_failure_n t a) as [Hcount Hlock].
  assert (Hacc : account email (World.db (with_session (login p) w).2) (register_failure t a)).
  { rewrite Hdb. by apply account_failure. }
  destruct (register_failure_same t a) as (Hid & _ & Hdis & Hpw).
  destruct (IH _ _ Hacc) as (a' & H1 & H2 & H3 & H4 & H5 & H6).
  - by rewrite Hdis.
  - rewrite Hlock. destruct (_ >=? 5) eqn:E; [|done]. apply Z.geb_le in E. lia.
  - lia.
  - eapply Forall_impl; [exact Hps|]. intros q [? Hq]. split; [done|]. unfold wrong_password in *. by rewrite Hpw.
  - exists a'. repeat split; try apply H1; try congruence. rewrite H6, Hcount, zlen_cons. lia.
Qed.

Lemma locked_login email p a w r w' :
  account email (World.db w) a → LoginRequest.email p = email → Admin.disabled a = false →
  is_locked (clock (World.tick w)) a = true → with_session (login p) w = (r, w') →
  r = Err (http_err 423 "locked") ∧ World.db w' = World.db w.
Proof.
  intros Ha <- Hd Hl. unfold with_session, login, query, gets, mbind, M_bind. cbn [World.sess World.set_sess].
  rewrite (account_found _ _ _ Ha), Hd. unfold now. cbn [World.tick World.set_sess].
  rewrite Hl. by intros [= <- <-].
Qed.

(** C27: lockout after five failures.  Five logins in a row with a wrong password
    on an enabled account that starts with no failures lock it: from then on,
    for fifteen minutes after the fifth, every login to that account is
    answered 423 and changes nothing, even with the right password and code. *)
Theorem five_failures_lock email a ps w p r w' :
  no_faults → account email (World.db w) a → Admin.disabled a = false →
  Admin.locked_until a = None → Admin.failed_attempts a = 0 → length ps = 5%nat →
  Forall (λ p, LoginRequest.email p = email ∧ wrong_password p a) ps →
  let w4 := attempts (take 4 ps) w in
  let w5 := attempts ps w in
  ∀ w6, World.db w6 = World.db w5 →
    clock (World.tick w6) < clock (S (World.tick w4)) + lockout_minutes * minute →
    LoginRequest.email p = email → with_session (login p) w6 = (r, w') →
    r = Err (http_err 423 "locked") ∧ World.db w' = World.db w6.
Proof.
  intros Hf Ha Hd Hl Hn Hlen Hps w4 w5 w6 H6 Ht He.
  rewrite <- (take_drop 4 ps) in Hps. apply Forall_app in Hps as [Hps4 Hps5].
  destruct (drop 4 ps) as [|p5 [|? ?]] eqn:Hd4;
    [apply (f_equal length) in Hd4; rewrite length_drop in Hd4; simpl in Hd4; lia| |
     apply (f_equal length) in Hd4; rewrite length_drop in Hd4; simpl in Hd4; lia].
  apply Forall_cons in Hps5 as [[He5 Hw5] _].
  destruct (failures_counted email (take 4 ps) w a Hf Ha Hd Hl) as (a4 & A1 & A2 & A3 & A4 & A5 & A6);
    [unfold zlen; rewrite length_take; lia|done|].
  fold w4 in A1. assert (Hw5' : w5 = (with_session (login p5) w4).2).
  { unfold w5, attempts. rewrite <- (take_drop 4 ps), Hd4, foldl_app. done. }
  destruct (failed_login email p5 a4 w4 Hf A1 He5 A2) as [Hdb _];
    [by unfold is_locked; rewrite A3|unfold wrong_password in *; by rewrite A4|].
  simpl in Hdb. rewrite <- Hw5', <- H6 in Hdb. set (t := clock (S _)) in *.
  destruct (register_failure_n t a4) as [_ Hlock].
  rewrite A6, Hn in Hlock. unfold zlen in Hlock. rewrite length_take, Hlen in Hlock.
  apply (locked_login email p (register_failure t a4)); [|done| |].
  - rewrite Hdb. by apply account_failure.
  - rewrite <- A2. apply register_failure_same.
  - unfold is_locked. rewrite Hlock. change (0 + Z.of_nat (min 4 5) + 1 >=? 5) with true.
    cbn iota. apply Z.gtb_lt. lia.
Qed.

End login_facts.

(** * Sessions *)

Section session_facts.
Context {X : Services} {XOk : ServicesOk}.
Context (ttl_seconds : Z) (ttl_pos : 0 < ttl_seconds).
Import SessionStore.

(** The two kinds of keys never meet. *)
Lemma session_index_ne sid i : _session_key sid ≠ _index_key i.
Proof. done. Qed.

Lemma session_key_inj sid sid' : _session_key sid = _session_key sid' → sid = sid'.
Proof. apply app_inv_head. Qed.

Definition fields (i : uuid) (t1 t2 : datetime) : SessionData := mkSessionData i t1 t2.

Lemma three_fields a b c :
  let j := JObj [(u "admin_id", a); (u "issued_at", b); (u "last_active", c)] in
  jget (u "admin_id") j = Some a ∧ jget (u "issued_at") j = Some b ∧ jget (u "last_active") j = Some c.
Proof. by repeat split. Qed.

Lemma payload_fields i t1 t2 :
  jget (u "admin_id") (payload i t1 t2) = Some (JStr (uuid_str i)) ∧
  jget (u "issued_at") (payload i t1 t2) = Some (JStr (isoformat t1)) ∧
  jget (u "last_active") (payload i t1 t2) = Some (JStr (isoformat t2)).
Proof. apply three_fields. Qed.

Lemma parse_ok data a i s1 s2 t1 t2 :
  jget (u "admin_id") data = Some (JStr a) → jget (u "issued_at") data = Some (JStr s1) →
  jget (u "last_active") data = Some (JStr s2) → uuid_parse a = Ok i →
  fromisoformat s1 = Some t1 → fromisoformat s2 = Some t2 → parse data = Ok (fields i t1 t2).
Proof.
  intros E1 E2 E3 Ha H1 H2. unfold parse, jtime. rewrite E1, E2, E3. simpl.
  by rewrite Ha; simpl; rewrite H1; simpl; rewrite H2.
Qed.

Lemma parse_payload i t1 t2 : uuid_ok i → parse (payload i t1 t2) = Ok (fields i t1 t2).
Proof.
  intros Hi. destruct (payload_fields i t1 t2) as (E1 & E2 & E3).
  exact (parse_ok _ _ i _ _ t1 t2 E1 E2 E3 (uuid_roundtrip i Hi) (iso_roundtrip t1) (iso_roundtrip t2)).
Qed.

(** The store after [create] at time [t]. *)
Lemma create_pipe_view sid i p s t m :
  set_of (r_view s t (_index_key i)) = Some m →
  let s' := create_pipe ttl_seconds sid i p s t in
  r_view s' t (_session_key sid) = Some (RStr p, Some (t + ttl_seconds * second)) ∧
  r_view s' t (_index_key i) = Some (RSet ({[sid]} ∪ m), Some (t + ttl_seconds * second)) ∧
  ∀ k, k ≠ _session_key sid → k ≠ _index_key i → r_view s' t k = r_view s t k.
Proof.
  intros Hm s'. unfold s', create_pipe. pose proof (session_index_ne sid i) as Hne.
  set (s1 := r_set _ _ _ _ _). set (s2 := r_sadd _ _ _ _).
  assert (H1 : ∀ k, r_view s1 t k = if decide (_session_key sid = k)
    then Some (RStr p, ttl_deadline t (Some ttl_seconds)) else r_view s t k)
    by (intros k; by apply r_set_view).
  assert (H2 : ∀ k, r_view s2 t k = if decide (_index_key i = k)
    then Some (RSet ({[sid]} ∪ m), deadline_of (r_view s1 t (_index_key i))) else r_view s1 t k).
  { intros k. apply r_sadd_view. by rewrite H1, decide_False. }
  assert (H3 : ∀ k, r_view (r_expire s2 t (_index_key i) ttl_seconds) t k = if decide (_index_key i = k)
    then (λ e, (e.1, ttl_deadline t (Some ttl_seconds))) <$> r_view s2 t (_index_key i)
    else r_view s2 t k) by (intros k; by apply r_expire_view).
  split; [|split].
  - by rewrite H3, decide_False, H2, decide_False, H1, decide_True by done.
  - by rewrite H3, decide_True, H2, decide_True by done.
  - intros k Hk Hk'. by rewrite H3, decide_False, H2, decide_False, H1, decide_False by done.
Qed.

Lemma create_run i w :
  no_faults → let n := World.tick w in
  create ttl_seconds i w =
    (Ok (rand_token n),
     World.set_redis (create_pipe ttl_seconds (rand_token n) i (payload i (clock (S n)) (clock (S n)))
                        (World.redis w) (clock (S (S (S n)))))
       (World.set_tick (S (S (S (S n)))) w)).
Proof.
  intros Hf n. unfold create, token_urlsafe, now, with_redis, call, now, mbind, M_bind.
  cbn [World.tick next_tick World.set_tick World.redis]. rewrite Hf. reflexivity.
Qed.

Lemma load_run sid w :
  no_faults →
  load sid w =
    (match r_view (World.redis w) (clock (S (World.tick w))) (_session_key sid) with
     | None => Ok None
     | Some (RStr v, _) => match parse v with Ok d => Ok (Some d) | Err e => Err e end
     | Some _ => Err ServiceError
     end,
     match r_view (World.redis w) (clock (S (World.tick w))) (_session_key sid) with
     | None | Some (RStr _, _) => World.set_redis (World.redis w) (next_tick (next_tick w))
     | Some _ => next_tick (next_tick w)
     end).
Proof.
  intros Hf. unfold load, redis_get, with_redis, call, now, lift, mbind, M_bind. rewrite Hf.
  cbn [World.tick next_tick World.set_tick World.redis].
  destruct (r_view _ _ _) as [[[v| |] d]|]; try done. by destruct (parse v).
Qed.

Lemma session_opens i w w1 sid m :
  no_faults → uuid_ok i → create ttl_seconds i w = (Ok sid, w1) →
  let t := clock (S (S (S (World.tick w)))) in
  set_of (r_view (World.redis w) t (_index_key i)) = Some m →
  ∀ w2, World.redis w2 = World.redis w1 → t ≤ clock (S (World.tick w2)) →
  (load sid w2).1 =
    if clock (S (World.tick w2)) <? t + ttl_seconds * second
    then Ok (Some (fields i (clock (S (World.tick w))) (clock (S (World.tick w))))) else Ok None.
Proof.
  intros Hf Hi Hc t Hm w2 Hr Ht. rewrite create_run in Hc by done. injection Hc as <- <-.
  rewrite load_run by done. cbn [fst]. rewrite Hr. cbn [World.redis World.set_redis].
  set (p := payload _ _ _). set (sid := rand_token _) in *. fold t.
  destruct (create_pipe_view sid i p (World.redis w) t m Hm) as (H1 & _ & _).
  pose proof (parse_payload i (clock (S (World.tick w))) (clock (S (World.tick w))) Hi) as Hp.
  fold p in Hp. rewrite (r_view_later _ t) by done. rewrite H1. unfold live.
  destruct (_ <? _); [by rewrite Hp|done].
Qed.

Lemma destroy_run i w sid p d m :
  no_faults → uuid_ok i →
  r_view (World.redis w) (clock (S (World.tick w))) (_session_key sid) = Some (RStr p, d) →
  parse p = Ok m → admin_id m = i → jstr (jget (u "admin_id") p) = Ok (uuid_str i) →
  destroy sid w = (Ok tt,
    World.set_redis (r_srem (r_del (World.redis w) (clock (S (S (S (World.tick w))))) [_session_key sid])
                       (clock (S (S (S (World.tick w))))) (_index_key i) sid)
      (World.set_tick (4 + World.tick w)%nat w)).
Proof.
  intros Hf Hi Hv Hp Hid Hj. unfold destroy, redis_get, with_redis, call, now, lift, mbind, M_bind.
  rewrite Hf. cbn [World.tick next_tick World.set_tick World.redis]. rewrite Hv. rewrite Hj.
  cbn [mbind res_bind]. rewrite uuid_roundtrip by done. cbn [World.tick World.set_redis World.set_tick].
  by rewrite Hf.
Qed.

Lemma destroyed_view s t sid i m k :
  set_of (r_view s t (_index_key i)) = Some m →
  let s' := r_srem (r_del s t [_session_key sid]) t (_index_key i) sid in
  r_view s' t (_session_key sid) = None ∧
  (k ≠ _session_key sid → k ≠ _index_key i → r_view s' t k = r_view s t k).
Proof.
  intros Hm s'. unfold s'. pose proof (session_index_ne sid i) as Hne.
  assert (H1 : ∀ k, r_view (r_del s t [_session_key sid]) t k =
    if decide (k ∈ [_session_key sid]) then None else r_view s t k) by (intros; by apply r_del_view).
  assert (H2 : ∀ k, k ≠ _index_key i →
    r_view (r_srem (r_del s t [_session_key sid]) t (_index_key i) sid) t k
    = r_view (r_del s t [_session_key sid]) t k).
  { intros k' Hk'. rewrite (r_srem_view _ t _ m); [by rewrite decide_False by done|].
    rewrite H1, decide_False; [done|]. rewrite list_elem_of_singleton. congruence. }
  split.
  - rewrite H2 by done. rewrite H1. by rewrite decide_True by (by apply list_elem_of_singleton).
  - intros Hk Hk'. rewrite H2, H1 by done. by rewrite decide_False by by rewrite list_elem_of_singleton.
Qed.

(** C28: the life of a session.  [create] returns an id which from then on loads
    as a session of that account, and stops loading when its time to live has
    passed; after [destroy] it no longer loads at any later time, and no other
    session is affected. *)
Theorem session_life i w w1 sid m :
  no_faults → uuid_ok i → create ttl_seconds i w = (Ok sid, w1) →
  let t := clock (S (S (S (World.tick w)))) in
  set_of (r_view (World.redis w) t (_index_key i)) = Some m →
  (∀ w2, World.redis w2 = World.redis w1 → t ≤ clock (S (World.tick w2)) →
     (load sid w2).1 =
       if clock (S (World.tick w2)) <? t + ttl_seconds * second
       then Ok (Some (fields i (clock (S (World.tick w))) (clock (S (World.tick w))))) else Ok None) ∧
  (clock (S (World.tick w1)) < t + ttl_seconds * second →
   clock (3 + World.tick w1)%nat < t + ttl_seconds * second →
   ∃ w3, destroy sid w1 = (Ok tt, w3) ∧
     ∀ w4, World.redis w4 = World.redis w3 → clock (3 + World.tick w1)%nat ≤ clock (S (World.tick w4)) →
       (load sid w4).1 = Ok None ∧
       ∀ sid', sid' ≠ sid → (load sid' w4).1 = (load sid' (World.set_redis (World.redis w1) w4)).1).
Proof.
  intros Hf Hi Hc t Hm. split; [by apply session_opens with m|]. intros Hlive Hlive2.
  rewrite create_run in Hc by done. injection Hc as <- <-.
  set (p := payload _ _ _). set (sid := rand_token _) in *.
  destruct (create_pipe_view sid i p (World.redis w) t m Hm) as (H1 & H2 & _).
  cbn [World.tick World.set_redis World.set_tick] in *.
  fold t. set (s := create_pipe ttl_seconds sid i p (World.redis w) t) in *.
  cbv zeta in H1, H2. fold s in H1, H2. set (n := World.tick w) in *.
  assert (Hle : ∀ j, (3 + n ≤ j)%nat → t ≤ clock j) by (intros j Hj; apply clock_mono; lia).
  eexists. split.
  { eapply (destroy_run i _ sid p); [done|done| |by apply parse_payload|done|done].
    cbn [World.redis World.set_redis World.tick World.set_tick].
    rewrite (r_view_later _ t) by (apply Hle; lia). rewrite H1. unfold live. by rewrite (proj2 (Z.ltb_lt _ _)). }
  cbn [World.redis World.set_redis World.tick World.set_tick].
  set (t3 := clock _).
  assert (Hidx : set_of (r_view s t3 (_index_key i)) = Some ({[sid]} ∪ m)).
  { rewrite (r_view_later _ t) by (apply Hle; lia). rewrite H2. unfold live.
    by rewrite (proj2 (Z.ltb_lt t3 _)). }
  intros w4 Hr4 Ht4. split.
  - rewrite load_run by done. cbn [fst]. rewrite Hr4, (r_view_later _ t3) by done.
    destruct (destroyed_view s t3 sid i _ (_session_key sid) Hidx) as [-> _]. done.
  - intros sid' Hne. rewrite !load_run by done. cbn [fst World.redis World.set_redis World.tick].
    rewrite Hr4, !(r_view_later _ t3 (clock (S (World.tick w4)))) by done.
    assert (Hk : _session_key sid' ≠ _session_key sid) by (intros E; by apply session_key_inj in E).
    by rewrite (proj2 (destroyed_view s t3 sid i _ (_session_key sid') Hidx) Hk (session_index_ne sid' i)).
Qed.

End session_facts.

Section login_witnesses.
Import AdminAuth.
#[local] Instance calm_services : Services := Sim.calm.
#[local] Instance calm_services_ok : ServicesOk := Sim.calm_ok.
#[local] Instance calm_config : Config := Demo.config.

Definition root_email : pystr := u "root@example.org".
Definition root_account : Admin.t := Demo.admin 2 root_email (u "admin").
Definition root_world : World := Demo.world (Demo.db_admins [root_account]).
Definition root_login (password : string) : LoginRequest.t :=
  LoginRequest.mk root_email (u password) (u "123456").

Lemma login_needs_every_factor_witness :
  ∃ resp w', login (root_login "correct horse") root_world = (Ok resp, w') ∧
    login_ok (root_login "correct horse") root_world w' resp.
Proof.
  destruct (login (root_login "correct horse") root_world) as [r w'] eqn:E.
  assert (H : is_ok (login (root_login "correct horse") root_world).1 = true) by (vm_compute; reflexivity).
  rewrite E in H. destruct r as [resp|e]; [|discriminate H].
  exists resp, w'. split; [reflexivity|exact (login_needs_every_factor _ _ _ _ E)].
Defined.

Lemma root_is_account : account root_email (World.db root_world) root_account.
Proof.
  split; [vm_compute; reflexivity|]. split; [vm_compute; reflexivity|].
  intros j b Hj _. assert (HA : DB.admins (World.db root_world) = {[2 := root_account]}) by reflexivity.
  rewrite HA in Hj. by apply lookup_singleton_Some in Hj as [<- _].
Qed.

(** Five wrong passwords, then the right one. *)
Lemma five_failures_lock_witness :
  let w5 := attempts (replicate 5 (root_login "guess")) root_world in
  (with_session (login (root_login "correct horse")) w5).1 = Err (http_err 423 "locked").
Proof.
  intros w5. destruct (with_session (login (root_login "correct horse")) w5) as [r w'] eqn:E.
  refine (proj1 (five_failures_lock root_email root_account (replicate 5 (root_login "guess")) root_world
    (root_login "correct horse") r w' _ root_is_account eq_refl eq_refl eq_refl eq_refl _ w5 eq_refl _
    eq_refl E)).
  - intros i. reflexivity.
  - apply Forall_replicate. split; reflexivity.
  - reflexivity.
Defined.

Lemma session_life_witness :
  let run := SessionStore.create 60 2 root_world in
  ∃ w3, SessionStore.destroy (rand_token 0) run.2 = (Ok tt, w3) ∧
    (SessionStore.load (rand_token 0) run.2).1 = Ok (Some (fields 2 Demo.now Demo.now)) ∧
    (SessionStore.load (rand_token 0) w3).1 = Ok None.
Proof.
  intros run.
  assert (Hf : no_faults) by (intros i; reflexivity).
  assert (E : SessionStore.create 60 2 root_world = (Ok (rand_token 0), run.2)).
  { unfold run. rewrite (create_run 60 2 root_world Hf). reflexivity. }
  assert (Hi : uuid_ok 2) by (unfold uuid_ok; lia).
  destruct (session_life 60 eq_refl 2 root_world run.2 (rand_token 0) ∅ Hf Hi E) as [H1 H2];
    [reflexivity|].
  destruct (H2 eq_refl eq_refl) as (w3 & Hd & Hn).
  exists w3. split; [exact Hd|]. split.
  - apply (H1 run.2 eq_refl). vm_compute. discriminate.
  - apply (Hn w3 eq_refl). vm_compute. discriminate.
Defined.

End login_witnesses.
