(* ===== verification/Race.v ===== *)
(** Two requests at once.  [System] runs one event after the other; the handlers
    of the code hold no lock on the rows they read, so another request may run
    between what a handler reads and what it writes.  This file splits the
    encryption job ([worker/tasks/encrypt.py]) and the update of an account
    ([routers/admin.py]) at that point and runs other requests in between. *)
From S2P Require Import Prelude Text Services Sim Model Scenario Effects Storage Support Gates RateLimit Http.
From S2P Require Import Envelope Session Auth Stream Tus Transfers Public Worker.
From S2P Require Import AdminAuth AdminApi AdminUsers Invariants Lifecycle System Delivery Access.
#[local] Open Scope Z_scope.

Module Race.
Section race.
Context {X : Services} {C : Config}.

(** A handler that reads in one statement and writes in a later one, with
    [between] run by others meanwhile.  Its writes meet the rows as they are
    committed by then, as PostgreSQL's READ COMMITTED has it; what [between]
    answers goes to its own client. *)
Definition interleave {S A} (read : M S) (between : M unit) (write : S → M A) : M A :=
  s ← with_session read;
  try_except between (λ _, mret tt);;
  with_session (write s).

(** ** The encryption job *)

(** The transfer and the file rows the job goes by. *)
Definition encrypt_read (transfer_id : uuid) : M (option (Transfer.t * list TransferFile.t)) :=
  transfer ← get_transfer transfer_id;
  match transfer with
  | None => mret None
  | Some transfer =>
      if negb (bool_decide (Transfer.status transfer = Uploading)) then mret None
      else
        files ← query (Tus.files_of transfer_id);
        mret (Some (transfer, files))
  end.

Definition encrypt_write (master_key : bytes) (transfer_id : uuid)
    (s : option (Transfer.t * list TransferFile.t)) : M unit :=
  match s with
  | None => mret tt
  | Some (transfer, files) =>
      try_finally
        (try_except (Encrypt.encrypt_all master_key transfer files) (Encrypt.encrypt_failed transfer_id))
        (Staging.secure_delete transfer_id)
  end.

(** The whole job: the lock comes with the reads and goes after the writes. *)
Definition job_read (transfer_id : uuid)
  : M (bool * option (Transfer.t * list TransferFile.t)) :=
  acquired ← redis_set_nx (Encrypt._encrypt_lock_key transfer_id) (JStr (u "1"))
               Encrypt._LOCK_TTL_SECONDS;
  if negb acquired then mret (false, None)
  else s ← encrypt_read transfer_id; mret (true, s).

Definition job_write (master_key : bytes) (transfer_id : uuid)
    (s : bool * option (Transfer.t * list TransferFile.t)) : M unit :=
  if negb s.1 then mret tt
  else try_finally (encrypt_write master_key transfer_id s.2)
                   (suppress (redis_delete [Encrypt._encrypt_lock_key transfer_id])).

(** ** The update of an account *)

(** The acting admin and the row as loaded, once the request is admitted. *)
Definition update_read (admin_id : uuid) (payload : AdminUsers.AdminUpdateRequest) (request : Request)
  : M (Admin.t * Admin.t) :=
  ctx ← AdminAuth.require_admin_role request;
  a ← get_admin admin_id;
  match a with
  | None => raise AdminTransfers.not_found
  | Some a =>
      count ← (if AdminUsers.would_reduce_active payload a && AdminUsers.is_active_admin a
               then query AdminUsers.active_admins else mret 2);
      if count <=? 1 then raise AdminUsers.min_admins else mret (ctx, a)
  end.

(** The statement the session flushes: only the attributes that differ from the
    loaded row. *)
Definition changed_columns (payload : AdminUsers.AdminUpdateRequest) (loaded cur : Admin.t) : Admin.t :=
  let cur := match AdminUsers.ur_role payload with
             | Some r => if decide (r = Admin.role loaded) then cur else Admin.set_role r cur
             | None => cur
             end in
  match AdminUsers.ur_disabled payload with
  | Some b => if Bool.eqb b (Admin.disabled loaded) then cur else Admin.set_disabled b cur
  | None => cur
  end.

Definition update_write (admin_id : uuid) (payload : AdminUsers.AdminUpdateRequest) (request : Request)
    (s : Admin.t * Admin.t) : M AdminUsers.AdminRow :=
  let '(ctx, a) := s in
  let changes := AdminUsers.update_changes payload a in
  update_admin admin_id (changed_columns payload a);;
  (if nonempty changes
   then AdminUsers.admin_action ctx request "update_admin" admin_id (Some (JObj changes))
   else mret tt);;
  commit;;
  mret (AdminUsers.admin_row (changed_columns payload a a)).

End race.
End Race.

(** * Nothing in between *)

Section serial.
Context {X : Services} {XOk : ServicesOk} {C : Config}.
Import Race.

Lemma set_sess_same (w : World) d : World.sess w = d → World.set_sess d w = w.
Proof. intros <-. by destruct w. Qed.

(** The parts a phase that only reads may change. *)
Definition readers : list part := [PTick; PRedis].

Lemma readers_sess w w' : agree readers w w' → World.sess w' = World.sess w ∧ World.db w' = World.db w.
Proof.
  intros Ha. split; [apply (agree_sess readers); [done|part_sub|part_notin]|].
  apply (Ha PDb). part_notin.
Qed.

(** With no one in between the two phases are one session. *)
Lemma interleave_nothing {S A} (read : M S) (write : S → M A) w :
  touches readers read → interleave read (mret tt) write w = with_session (read ≫= write) w.
Proof.
  intros Hr. unfold interleave. unfold mbind at 1, M_bind. unfold with_session at 1.
  pose proof (Hr (World.set_sess (World.db w) w)) as Ha. unfold with_session at 2, mbind, M_bind.
  destruct (read (World.set_sess (World.db w) w)) as [[s|e] w1] eqn:E; cbn [snd] in Ha.
  - apply readers_sess in Ha as [H1 H2]. simpl in H1, H2. cbn [try_except mret M_ret].
    rewrite set_sess_same by congruence. unfold with_session. by rewrite set_sess_same by congruence.
  - done.
Qed.

(** Running a composition. *)
Lemma bind_assoc_run {A B D} (m : M A) (f : A → M B) (g : B → M D) w :
  ((m ≫= f) ≫= g) w = (m ≫= λ a, f a ≫= g) w.
Proof. unfold mbind, M_bind. by destruct (m w) as [[a|e] w']. Qed.

Lemma bind_ext {A B} (m : M A) (f g : A → M B) w :
  (∀ a w', m w = (Ok a, w') → f a w' = g a w') → (m ≫= f) w = (m ≫= g) w.
Proof. intros H. unfold mbind, M_bind. destruct (m w) as [[a|e] w'] eqn:E; [by apply H|done]. Qed.

Lemma encrypt_read_run i w :
  encrypt_read i w = (Ok match DB.transfers (World.sess w) !! i with
    | Some t => if bool_decide (Transfer.status t = Uploading)
                then Some (t, Tus.files_of i (World.sess w)) else None
    | None => None
    end, w).
Proof.
  unfold encrypt_read, get_transfer, query, gets, mbind, M_bind.
  destruct (DB.transfers (World.sess w) !! i) as [t|]; [|done]. by destruct (bool_decide _).
Qed.

Lemma encrypt_split mk i w :
  Encrypt.encrypt_locked mk i w = (encrypt_read i ≫= encrypt_write mk i) w.
Proof.
  unfold mbind, M_bind. rewrite encrypt_read_run.
  unfold Encrypt.encrypt_locked, get_transfer, query, gets, mbind, M_bind.
  destruct (DB.transfers (World.sess w) !! i) as [t|]; [|done]. by destruct (bool_decide _).
Qed.

Lemma job_split mk i w :
  Encrypt.process_encrypt_job mk i w = (job_read i ≫= job_write mk i) w.
Proof.
  unfold Encrypt.process_encrypt_job, job_read. rewrite bind_assoc_run. apply bind_ext.
  intros [|] w1 _; [|done]. cbn [negb]. unfold mbind at 1 2, M_bind at 1 2. rewrite encrypt_read_run.
  unfold mret, M_ret, job_write. cbn [fst snd negb]. unfold try_finally. rewrite encrypt_split.
  unfold mbind, M_bind. by rewrite encrypt_read_run.
Qed.

Lemma changed_same p a : changed_columns p a a = AdminUsers.apply_update p a.
Proof.
  unfold changed_columns, AdminUsers.apply_update.
  destruct (AdminUsers.ur_role p) as [r|], (AdminUsers.ur_disabled p) as [b|]; simpl;
    repeat case_decide; try (destruct (Bool.eqb b (Admin.disabled a)) eqn:E;
      [apply Bool.eqb_prop in E|]); subst; by destruct a.
Qed.

Lemma update_split i p rq w :
  AdminUsers.admin_update_admin i p rq w = (update_read i p rq ≫= update_write i p rq) w.
Proof.
  unfold AdminUsers.admin_update_admin, update_read. rewrite bind_assoc_run.
  apply bind_ext. intros ctx w1 _. rewrite bind_assoc_run. apply bind_ext.
  intros o w2 [= <- <-]. destruct (DB.admins (World.sess w1) !! i) as [a|] eqn:Ha; [|done].
  rewrite bind_assoc_run. apply bind_ext. intros count w2 Hc.
  assert (w2 = w1) as -> by (by destruct (_ && _) in Hc; injection Hc as _ <-).
  destruct (count <=? 1); [done|]. change (mret (ctx, a) ≫= _) with (update_write i p rq (ctx, a)).
  unfold update_write. rewrite changed_same. unfold mbind at 1 3, M_bind.
  assert (Hu : update_admin i (AdminUsers.apply_update p) w1 = update_admin i (changed_columns p a) w1).
  { unfold update_admin, modify_db, modify. do 3 f_equal. apply alter_ext. intros b Hb.
    assert (b = a) as -> by congruence. by rewrite changed_same. }
  by rewrite Hu.
Qed.

Lemma touches_job_read i : touches readers (job_read i).
Proof. unfold job_read, encrypt_read, readers. foot. Qed.

Lemma touches_update_read i p rq : touches readers (update_read i p rq).
Proof. unfold update_read, readers. foot. Qed.

End serial.

(** * The encryption job against the rows of others *)

Section encryption.
Context {X : Services} {XOk : ServicesOk} {C : Config}.
Import Race.

(** What the job may do to its row, whatever the row has become. *)
Inductive row_write : (Transfer.t → Transfer.t) → Prop :=
  | leaves_row : row_write id
  | infects cur : row_write (Encrypt.mark_infected cur)
  | readies wk : zlen wk = 40 → row_write (Encrypt.mark_ready wk).

(** The [try] block: an error leaves the committed tables, success marks the row
    as it is now. *)
Lemma wp_encrypt_all_rows mk t files w :
  wp (Encrypt.encrypt_all mk t files) w (λ r w',
    match r with
    | Err _ => World.db w' = World.db w
    | Ok _ => ∃ wk, zlen wk = 40 ∧ DB.transfers (World.db w')
                = alter (Encrypt.mark_ready wk) (Transfer.id t) (DB.transfers (World.sess w))
    end).
Proof.
  unfold Encrypt.encrypt_all. do 3 wp_step.
  eapply wp_mono.
  { apply (touches_wp [PTick; PBucket; PFiles]), touches_for. intros. apply touches_encrypt_one. }
  intros [[]|e] w1 Ha; pose proof (Ha PDb ltac:(part_notin)) as E1; simpl in E1; [|done].
  pose proof (Ha PTransfers ltac:(part_notin)) as E2; simpl in E2.
  do 2 wp_step. destruct (Envelope.wrap_key mk _) as [wk|e] eqn:Hw; [|done].
  wp_step. unfold update_transfer. do 6 wp_step. apply wp_commit; [|done].
  unfold Encrypt._enqueue_transfer_emails. wp_step.
  match goal with |- wp ?m ?w2 _ => assert (Hm : touches [PTick; PRedis] m) by foot end.
  eapply wp_mono; [by apply touches_wp|]. intros r w3 H3.
  pose proof (H3 PDb ltac:(part_notin)) as F1. simpl in F1.
  exists wk. split; [by eapply wrapped_length|]. rewrite F1. simpl. by rewrite E2.
Qed.

Lemma wp_encrypt_write mk t files w :
  World.sess w = World.db w →
  wp (encrypt_write mk (Transfer.id t) (Some (t, files))) w (λ _ w',
    ∃ f, row_write f ∧
      DB.transfers (World.db w') = alter f (Transfer.id t) (DB.transfers (World.db w))).
Proof.
  intros Hs. unfold encrypt_write. apply wp_try_finally, wp_try_except.
  assert (Hend : ∀ w1 (Q : res unit → Prop),
    (∃ f, row_write f ∧ DB.transfers (World.db w1) = alter f (Transfer.id t) (DB.transfers (World.db w))) →
    wp (Staging.secure_delete (Transfer.id t)) w1 (λ _ w', ∃ f, row_write f ∧
      DB.transfers (World.db w') = alter f (Transfer.id t) (DB.transfers (World.db w)))).
  { intros w1 _ H. eapply wp_mono; [apply touches_wp, touches_secure_delete|]. intros r w2 Ha.
    by rewrite (Ha PDb ltac:(part_notin) : World.db _ = _). }
  eapply wp_mono; [apply wp_encrypt_all_rows|]. intros [[]|e] w1 H1.
  - destruct H1 as (wk & Hl & Hm). apply Hend; [exact (λ _, True)|].
    exists (Encrypt.mark_ready wk). split; [by constructor|]. by rewrite Hm, Hs.
  - apply wp_encrypt_failed.
    + intros r w2 E _. apply Hend; [exact (λ _, True)|]. exists id. split; [constructor|]. by rewrite E, H1, alter_id by done.
    + intros r w2 cur E _. apply Hend; [exact (λ _, True)|].
      exists (Encrypt.mark_infected cur). split; [constructor|]. by rewrite E, H1.
Qed.

Lemma wp_job_write mk i acquired t files w :
  World.sess w = World.db w → Transfer.id t = i →
  wp (job_write mk i (acquired, Some (t, files))) w (λ _ w',
    ∃ f, row_write f ∧ DB.transfers (World.db w') = alter f i (DB.transfers (World.db w))).
Proof.
  intros Hs <-. unfold job_write. destruct acquired; cbn [negb fst snd].
  - apply wp_try_finally. eapply wp_mono; [by apply wp_encrypt_write|]. intros r w1 H1.
    eapply wp_mono; [apply (touches_wp [PTick; PRedis]); foot|]. intros r2 w2 Ha.
    by rewrite (Ha PDb ltac:(part_notin) : World.db _ = _).
  - wp_step. exists id. split; [constructor|]. by rewrite alter_id by done.
Qed.

(** What the first phase leaves when it got the lock. *)
Lemma wp_job_read i w :
  wp (job_read i) w (λ r w1, ∀ s, r = Ok (true, s) →
    let t := clock (S (World.tick w)) in
    r_view (World.redis w1) t (Encrypt._encrypt_lock_key i)
      = Some (RStr (JStr (u "1")), Some (t + Encrypt._LOCK_TTL_SECONDS * second)) ∧
    World.tick w1 = S (S (World.tick w)) ∧
    Ok s = (encrypt_read i w).1).
Proof.
  unfold job_read. wp_step. unfold redis_set_nx. apply wp_redis; [done|]. cbv zeta.
  pose proof (r_set_nx_view (World.redis w) (clock (S (World.tick w))) (Encrypt._encrypt_lock_key i)
    (JStr (u "1")) Encrypt._LOCK_TTL_SECONDS (Encrypt._encrypt_lock_key i) eq_refl) as Hv.
  destruct (r_set_nx _ _ _ _ _) as [acquired s']. destruct Hv as [-> Hv].
  destruct (bool_decide (r_view _ _ _ = None)) eqn:E; cbn [negb].
  - apply bool_decide_eq_true_1 in E. rewrite decide_True in Hv by done.
    apply wp_bind, wp_of. intros r w2 Hr. rewrite encrypt_read_run in Hr. injection Hr as <- <-.
    apply wp_ret. intros s [= <-]. split; [exact Hv|]. split; [done|]. by rewrite encrypt_read_run.
  - by wp_step.
Qed.

(** A job that finds the lock taken. *)
Lemma wp_job_locked mk i w e :
  r_view (World.redis w) (clock (S (World.tick w))) (Encrypt._encrypt_lock_key i) = Some e →
  wp (Encrypt.process_encrypt_job mk i) w (λ _ w', agree readers w w').
Proof.
  intros He. unfold Encrypt.process_encrypt_job. wp_step. unfold redis_set_nx. apply wp_redis.
  { apply agree_tick. unfold readers. part_in. }
  cbv zeta.
  pose proof (r_set_nx_view (World.redis w) (clock (S (World.tick w))) (Encrypt._encrypt_lock_key i)
    (JStr (u "1")) Encrypt._LOCK_TTL_SECONDS (Encrypt._encrypt_lock_key i) eq_refl) as Hv.
  destruct (r_set_nx _ _ _ _ _) as [acquired s']. destruct Hv as [-> _].
  rewrite bool_decide_eq_false_2 by congruence. cbn [negb]. wp_step.
  intros q Hq. destruct q; try done; exfalso; apply Hq; unfold readers; part_in.
Qed.

(** C20: the encryption job against other events.  Let the job take its lock and
    read an uploading transfer, then let anybody else run, then let it write.
    With nobody in between it is the job the rest of this development is about.
    A second delivery of the same job within the lifetime of the lock changes
    nothing.  But no other event is kept out: whatever the row has become
    meanwhile, the job does to it what it does to an uploading one: nothing,
    infected, or ready with a fresh key; so a transfer its sender deleted or
    revoked can become ready and downloadable again. *)
Theorem encryption_race mk i w w1 t files between :
  with_session (job_read i) w = (Ok (true, Some (t, files)), w1) → Good (World.db w) →
  DB.transfers (World.db w) !! i = Some t ∧ Transfer.status t = Uploading ∧
  files = Tus.files_of i (World.db w) ∧
  interleave (job_read i) (mret tt) (job_write mk i) w
    = with_session (Encrypt.process_encrypt_job mk i) w ∧
  (∀ mk', clock (S (World.tick w1))
            < clock (S (World.tick w)) + Encrypt._LOCK_TTL_SECONDS * second →
     untouched w1 (with_session (Encrypt.process_encrypt_job mk' i) w1).2) ∧
  ∃ f, row_write f ∧
    DB.transfers (World.db (interleave (job_read i) between (job_write mk i) w).2)
      = alter f i (DB.transfers (World.db (between w1).2)).
Proof.
  intros Hr G. pose proof Hr as Hr0. unfold with_session in Hr0.
  destruct (job_read i (World.set_sess (World.db w) w)) as [r w0] eqn:E. injection Hr0 as -> <-.
  destruct (wp_run _ _ _ _ _ (wp_job_read i _) E _ eq_refl) as (Hlock & Htick & Hs).
  rewrite encrypt_read_run in Hs. cbn [fst World.sess World.set_sess] in Hs.
  destruct (DB.transfers (World.db w) !! i) as [t'|] eqn:Ht; [|done].
  destruct (bool_decide _) eqn:Hup in Hs; [|done]. apply bool_decide_eq_true_1 in Hup.
  injection Hs as -> ->. split; [done|]. split; [done|]. split; [done|]. split; [|split].
  - rewrite interleave_nothing by apply touches_job_read. unfold with_session. by rewrite job_split.
  - intros mk' Hc. apply (wp_with_session _ _ (λ _ w', untouched _ w')).
    eapply wp_mono; [eapply wp_job_locked|].
    + cbn [World.redis World.set_sess World.tick] in *.
      rewrite (r_view_later _ (clock (S (World.tick w)))), Hlock; [|apply clock_mono; lia].
      unfold live. by rewrite (proj2 (Z.ltb_lt _ _)).
    + intros r w2 Ha. destruct (agree_untouched _ _ _ Ha) as (E1 & E2 & E3); [part_notin..|].
      split; [by rewrite E1|]. by split.
  - assert (Hid : Transfer.id t' = i) by by destruct (good_transfers _ G i t' Ht) as [[??] _].
    unfold interleave. unfold mbind at 1, M_bind at 1. rewrite Hr. unfold mbind, M_bind.
    unfold try_except. destruct (between _) as [[[]|e] w2]; cbn [mret M_ret snd].
    all: apply (wp_with_session _ w2 (λ _ w', ∃ f, row_write f ∧ DB.transfers (World.db w') = _)).
    all: eapply wp_mono; [by apply wp_job_write|]; done.
Qed.

End encryption.

(** * The last administrator *)

Section demotion.
Context {X : Services} {XOk : ServicesOk} {C : Config}.
Import Race.

(** Two requests that demote each other's account: [r1] reads, [r2] runs, [r1]
    writes. *)
Definition demote (r : Request) (admin_id : uuid) (between : M unit) : M AdminUsers.AdminRow :=
  let p := AdminUsers.mkAdminUpdateRequest (Some AdminUsers.VIEWER) None in
  interleave (update_read admin_id p r) between (update_write admin_id p r).

End demotion.

Section race_witnesses.
Import Race.
#[local] Instance demo_services : Services := Sim.calm.
#[local] Instance demo_services_ok : ServicesOk := Sim.calm_ok.
#[local] Instance demo_config : Config := Demo.config.

(** The sender deletes the transfer after the job has read it. *)
Definition sender_deletes : M unit := System.handle (System.SenderDelete (u "manage") (mkRequest [] None [])).

Definition race_end : World :=
  (interleave (job_read 1) sender_deletes (job_write Demo.master 1) job_world).2.

(** The world the sender's request finds. *)
Definition race_start : World := (with_session (job_read 1) job_world).2.

Lemma race_read :
  with_session (job_read 1) job_world = (Ok (true, Some (job_transfer, [job_file])), race_start).
Proof.
  assert (H : (with_session (job_read 1) job_world).1 = Ok (true, Some (job_transfer, [job_file])))
    by (vm_compute; reflexivity).
  rewrite <- H. apply surjective_pairing.
Qed.

Lemma deleted_then_ready :
  Transfer.status <$> DB.transfers (World.db (sender_deletes race_start).2) !! 1 = Some Deleted ∧
  Transfer.status <$> DB.transfers (World.db race_end) !! 1 = Some Ready.
Proof. split; vm_compute; reflexivity. Qed.

Lemma encryption_race_witness :
  (∃ f, row_write f ∧
     DB.transfers (World.db race_end) = alter f 1 (DB.transfers (World.db (sender_deletes race_start).2))) ∧
  Transfer.status <$> DB.transfers (World.db (sender_deletes race_start).2) !! 1 = Some Deleted ∧
  Transfer.status <$> DB.transfers (World.db race_end) !! 1 = Some Ready.
Proof.
  split; [|exact deleted_then_ready].
  destruct (encryption_race Demo.master 1 job_world race_start job_transfer [job_file] sender_deletes
    race_read job_good) as (_ & _ & _ & _ & _ & H).
  exact H.
Defined.

(** Two administrators with their sessions. *)
Definition bootstrap (email : string) : System.event :=
  System.CreateAdminScript (MasterKey.File 256 Demo.master) (u email) (u "correct horse") (u "admin").
Definition sign_in (email : string) : System.event :=
  System.Login (LoginRequest.mk (u email) (u "correct horse") (u "123456")).

Definition two_admins : World :=
  foldl (λ w e, (System.handle e w).2) (Demo.world empty_db)
    [bootstrap "root@example.org"; bootstrap "eve@example.org";
     sign_in "root@example.org"; sign_in "eve@example.org"].

Definition as_root : Request := mkRequest [] None [(AdminAuth.SESSION_COOKIE, u "tok" ++ [14])].
Definition as_eve : Request := mkRequest [] None [(AdminAuth.SESSION_COOKIE, u "tok" ++ [22])].

Definition eve_demotes_root : System.event :=
  System.UpdateAdmin 2 (AdminUsers.mkAdminUpdateRequest (Some AdminUsers.VIEWER) None) as_eve.

Definition demotions : res AdminUsers.AdminRow * World :=
  demote as_root 7 (System.handle eve_demotes_root) two_admins.

Lemma run_steps es w : rtc System.step w (foldl (λ w e, (System.handle e w).2) w es).
Proof.
  revert w. induction es as [|e es IH]; intros w; simpl; [done|].
  eapply rtc_l; [by exists e|apply IH].
Qed.

Lemma two_admins_reachable : reachable two_admins.
Proof. exists (Demo.world empty_db). split; [done|apply run_steps]. Qed.

(** Two administrators can demote each other.  Alone, the two phases of
    [admin_update_admin] are the request of [AdminUsers]; but the count of active
    administrators is read without a lock, so in a state the system reaches two
    administrators who each demote the other, one between the read and the write
    of the other, are both answered with success and nobody is left to
    administer. *)
Theorem mutual_demotion :
  (∀ (Y : Services) (D : Config) i p rq (w : World.t (X := Y)),
     interleave (update_read i p rq) (mret tt) (update_write i p rq) w
       = with_session (AdminUsers.admin_update_admin i p rq) w) ∧
  reachable two_admins ∧
  AdminUsers.active_admins (World.db two_admins) = 2 ∧
  (∃ r, (with_session (AdminUsers.admin_update_admin 2
     (AdminUsers.mkAdminUpdateRequest (Some AdminUsers.VIEWER) None) as_eve) two_admins).1 = Ok r) ∧
  (∃ r, demotions.1 = Ok r) ∧
  AdminUsers.active_admins (World.db demotions.2) = 0.
Proof.
  split.
  { intros Y D i p rq w. rewrite interleave_nothing by apply touches_update_read.
    unfold with_session. by rewrite update_split. }
  split; [exact two_admins_reachable|].
  repeat split; try (eexists; vm_compute; reflexivity); vm_compute; reflexivity.
Qed.

End race_witnesses.
