(* ===== verification/Headers.v ===== *)
(** The HTTP edge: the CSRF gate, request ids and the headers built from names
    and cookies. *)
From S2P Require Import Prelude Text Services Sim Model Scenario Effects RateLimit Http Middleware.

(** * The CSRF gate *)

Section csrf_facts.
Context {X : Services} {C : Config}.
Import CsrfMiddleware.

Definition csrf_cookie (sc : Scope) : option pystr := assoc cookie_name (_parse_cookies sc).
Definition csrf_header (sc : Scope) : option pystr := get_header (sc_headers sc) (u "x-csrf-token").

(** A request the gate looks at. *)
Definition checked (sc : Scope) : Prop :=
  sc_http sc = true ∧ _is_protected (sc_path sc) = true ∧ _is_exempt (sc_path sc) = false ∧
  upper (sc_method sc) ∈ _MUTATING.

Lemma mismatch_spec c h :
  token_mismatch c h =
    match c, h with
    | Some c, Some h =>
        if decide (c = [] ∨ h = []) then Ok true
        else if isascii c && isascii h then Ok (negb (bool_decide (c = h))) else Err TypeError
    | _, _ => Ok true
    end.
Proof.
  destruct c as [[|x c]|], h as [[|y h]|]; try done; cbn [token_mismatch].
  rewrite decide_False by naive_solver. unfold compare_digest.
  by destruct (isascii (x :: c) && isascii (y :: h)).
Qed.

(** C32: the CSRF gate.  A mutating request under /api/admin, except the login,
    reaches the application only when its [csrf] cookie and its X-CSRF-Token
    header are the same non-empty ASCII text; then the application's answer is
    passed on untouched.  When either is missing or empty, or they differ, the
    answer is 403 and the application does not run, and no cookie is set with it,
    although the module promises one on any response; when both are there and
    one is not ASCII, the comparison itself raises. *)
Theorem csrf_gate app sc w :
  checked sc →
  CsrfMiddleware.call app sc w =
    match csrf_cookie sc, csrf_header sc with
    | Some c, Some h =>
        if decide (c = [] ∨ h = []) then (Ok refused, w)
        else if negb (isascii c && isascii h) then (Err TypeError, w)
        else if decide (c = h) then app sc w else (Ok refused, w)
    | _, _ => (Ok refused, w)
    end.
Proof.
  intros (H1 & H2 & H3 & H4). unfold CsrfMiddleware.call. rewrite H1, H2, H3. cbn [negb].
  rewrite (bool_decide_eq_true_2 _ H4). cbn [andb negb].
  fold (csrf_cookie sc) (csrf_header sc). rewrite mismatch_spec. unfold lift, mbind, M_bind.
  destruct (csrf_cookie sc) as [c|] eqn:Ec; [|done]. destruct (csrf_header sc) as [h|]; [|done].
  case_decide; [done|]. destruct (isascii c && isascii h); cbn [negb]; [|done].
  case_decide as Hd; [|by rewrite bool_decide_eq_false_2].
  rewrite bool_decide_eq_true_2 by done. cbn [negb]. unfold forward.
  fold (csrf_cookie sc). by rewrite Ec.
Qed.

End csrf_facts.

(** * Request ids *)

Section request_id_facts.
Context {X : Services} {XOk : ServicesOk}.
Import RequestIdMiddleware.

Definition incoming_id (sc : Scope) : option pystr := get_header (sc_headers sc) (u "x-request-id").

(** A value that cannot break a header or a log line. *)
Definition clean_id (rid : pystr) : Prop :=
  rid ≠ [] ∧ zlen rid ≤ 128 ∧ Forall (λ c, 32 ≤ c ∧ c ≠ 127) rid.

Lemma is_safe_id_spec raw : _is_safe_id raw = true → clean_id raw.
Proof.
  unfold _is_safe_id, _MAX_ID_LEN. destruct raw as [|c raw]; [done|]. cbn [nonempty negb orb].
  destruct (_ >? _) eqn:E; [done|]. rewrite Z.gtb_ltb in E. zbool. intros H.
  split; [done|]. split; [lia|]. rewrite Forall_forall. intros x Hx.
  rewrite forallb_forall in H. specialize (H x (proj1 (list_elem_of_In _ _) Hx)).
  unfold safe_id_char in H. apply negb_true_iff in H. zbool. lia.
Qed.

Lemma uuid_str_clean i : clean_id (uuid_str i).
Proof.
  pose proof (uuid_str_length i) as Hl. split; [by intros E; rewrite E in Hl|].
  split; [unfold zlen; lia|]. eapply Forall_impl; [apply uuid_str_chars|].
  unfold is_hex_char. intros. simpl in *. lia.
Qed.

(** The id a request is served under, and the state once it is drawn. *)
Definition served_id (o : option pystr) (w : World) : pystr * World :=
  match o with
  | Some raw => if _is_safe_id raw then (raw, w)
                else (uuid_str (rand_uuid (World.tick w)), next_tick w)
  | None => (uuid_str (rand_uuid (World.tick w)), next_tick w)
  end.

Lemma choose_id_spec o w : choose_id o w = (Ok (served_id o w).1, (served_id o w).2).
Proof. unfold choose_id, served_id. destruct o as [raw|]; [|done]. by destruct (_is_safe_id raw). Qed.

Lemma served_id_clean o w :
  clean_id (served_id o w).1 ∧ World.request_id (served_id o w).2 = World.request_id w.
Proof.
  unfold served_id. destruct o as [raw|]; [destruct (_is_safe_id raw) eqn:E|]; split; try done;
    try apply uuid_str_clean. by apply is_safe_id_spec.
Qed.

Definition request_id_headers (r : Response) : list (pystr * pystr) :=
  filter (λ kv, lower_ascii kv.1 = u "x-request-id") (rs_headers r).

Lemma set_header_once rid r : request_id_headers (set_header rid r) = [(u "X-Request-Id", rid)].
Proof.
  unfold request_id_headers, set_header. cbn [rs_headers].
  rewrite filter_app, filter_none; [by rewrite filter_cons_True|].
  apply Forall_forall. by intros kv [H _]%list_elem_of_filter.
Qed.

Lemma request_id_run app sc w :
  sc_http sc = true →
  RequestIdMiddleware.call app sc w =
    let '(rid, w0) := served_id (incoming_id sc) w in
    let '(r1, w1) := app sc (World.set_request_id (Some rid) w0) in
    (r ← r1; Ok (set_header rid r), World.set_request_id (World.request_id w) w1).
Proof.
  intros Hh. unfold RequestIdMiddleware.call. rewrite Hh. cbn [negb].
  fold (incoming_id sc). unfold mbind, M_bind at 1. rewrite choose_id_spec.
  destruct (served_id_clean (incoming_id sc) w) as [_ Hw].
  destruct (served_id (incoming_id sc) w) as [rid w0]. cbn in Hw.
  destruct (app sc (World.set_request_id (Some rid) w0)) as [r1 w1] eqn:E.
  unfold mbind, M_bind, gets, modify, try_finally. cbn [fst snd]. rewrite E, Hw. by destruct r1.
Qed.

(** The request id.  An HTTP request is served under a clean id of 1 to 128
    printable characters: the caller's own when it sends a clean one, a fresh
    UUID otherwise.  The application runs with that id bound, its answer leaves
    with exactly that one X-Request-Id header and is otherwise untouched, and
    whether it answers or raises the id bound before is bound again. *)
Theorem request_id_spec app sc w :
  sc_http sc = true →
  let '(rid, w0) := served_id (incoming_id sc) w in
  let '(r1, w1) := app sc (World.set_request_id (Some rid) w0) in
  clean_id rid ∧
  RequestIdMiddleware.call app sc w =
    (r ← r1; Ok (set_header rid r), World.set_request_id (World.request_id w) w1) ∧
  (∀ r, r1 = Ok r → request_id_headers (set_header rid r) = [(u "X-Request-Id", rid)] ∧
     rs_status (set_header rid r) = rs_status r ∧ rs_body (set_header rid r) = rs_body r).
Proof.
  intros Hh. rewrite request_id_run by done.
  destruct (served_id_clean (incoming_id sc) w) as [Hc _].
  destruct (served_id (incoming_id sc) w) as [rid w0].
  destruct (app sc (World.set_request_id (Some rid) w0)) as [r1 w1].
  split; [done|]. split; [done|]. intros r _. split; [apply set_header_once|done].
Qed.

End request_id_facts.

(** * Content-Disposition *)

Section disposition.
Import HttpUtils.

Definition unhex_up (c : Z) : option Z :=
  if (48 <=? c) && (c <=? 57) then Some (c - 48)
  else if (65 <=? c) && (c <=? 70) then Some (c - 55) else None.

(** What a client reads back from [filename*]: percent-decoding. *)
Fixpoint unquote (s : pystr) : option bytes :=
  match s with
  | [] => Some []
  | c :: s' =>
      if c =? 37 then
        match s' with
        | a :: b :: r => x ← unhex_up a; y ← unhex_up b; bs ← unquote r; Some (16 * x + y :: bs)
        | _ => None
        end
      else bs ← unquote s'; Some (c :: bs)
  end.

(** Characters of a percent-encoded value. *)
Definition token_char (c : Z) : Prop := is_unreserved c = true ∨ c = 37.

Lemma unhex_hex d : 0 ≤ d < 16 → unhex_up (hex_char_up d) = Some d.
Proof.
  intros H. unfold unhex_up, hex_char_up. destruct (d <? 10) eqn:E; zbool.
  - rewrite (proj2 (Z.leb_le _ _)), (proj2 (Z.leb_le _ _)) by lia. cbn. f_equal. lia.
  - destruct ((48 <=? 55 + d) && (55 + d <=? 57)) eqn:E1; zbool; [lia|].
    rewrite (proj2 (Z.leb_le _ _)), (proj2 (Z.leb_le _ _)) by lia. cbn. f_equal. lia.
Qed.

Lemma hex_char_up_unreserved d : 0 ≤ d < 16 → is_unreserved (hex_char_up d) = true.
Proof.
  intros H. unfold is_unreserved, is_alnum, is_digit, hex_char_up. destruct (d <? 10) eqn:E; zbool.
  - rewrite (proj2 (Z.leb_le 48 _)), (proj2 (Z.leb_le _ 57)) by lia. done.
  - rewrite (proj2 (Z.leb_le 65 _)), (proj2 (Z.leb_le _ 90)) by lia. by rewrite !orb_true_r.
Qed.

Lemma unreserved_not_percent c : is_unreserved c = true → (c =? 37) = false.
Proof. intros H. destruct (c =? 37) eqn:E; [|done]. zbool. by subst. Qed.

Lemma unquote_byte b s : 0 ≤ b < 256 →
  unquote (quote_byte [] b ++ s) = (bs ← unquote s; Some (b :: bs)).
Proof.
  intros H. unfold quote_byte. rewrite orb_false_r.
  destruct (is_unreserved b) eqn:E; cbn [app unquote].
  - by rewrite (unreserved_not_percent _ E).
  - change (37 =? 37) with true. cbn match. rewrite !unhex_hex by lia. cbn.
    destruct (unquote s); [|done]. cbn. do 2 f_equal. lia.
Qed.

Lemma unquote_quote bs : Forall (λ b, 0 ≤ b < 256) bs →
  unquote (concat (quote_byte [] <$> bs)) = Some bs.
Proof.
  induction 1 as [|b bs Hb _ IH]; [done|]. cbn [fmap list_fmap concat].
  rewrite unquote_byte by done. by rewrite IH.
Qed.

Lemma quote_token bs : Forall (λ b, 0 ≤ b < 256) bs →
  Forall token_char (concat (quote_byte [] <$> bs)).
Proof.
  induction 1 as [|b bs Hb _ IH]; [constructor|]. cbn [fmap list_fmap concat].
  apply Forall_app. split; [|done]. unfold quote_byte. rewrite orb_false_r.
  destruct (is_unreserved b) eqn:E; [apply Forall_singleton; by left|].
  constructor; [by right|]. constructor; [left; apply hex_char_up_unreserved; lia|].
  apply Forall_singleton. left. apply hex_char_up_unreserved. lia.
Qed.

Lemma utf8_encode_bytes s bs : wf_str s → utf8_encode s = Ok bs → Forall (λ b, 0 ≤ b < 256) bs.
Proof.
  intros H. revert bs. induction H as [|c s Hc _ IH]; intros bs; simpl; [by intros [= <-]|].
  destruct (utf8_char c) as [cb|] eqn:Ec; [|done]. destruct (utf8_encode s) as [b|]; [|done].
  intros [= <-]. apply Forall_app. split; [|by apply IH]. clear IH. unfold utf8_char in Ec.
  repeat (case_match; zbool); simplify_eq; repeat constructor; lia.
Qed.

(** A character that cannot end or break a quoted string. *)
Definition quotable (c : Z) : Prop := c ≠ 34 ∧ c ≠ 92 ∧ c ≠ 13 ∧ c ≠ 10.

Lemma or_file_quotable s : or_file (_strip_quoted_unsafe s) ≠ [] ∧
  Forall quotable (or_file (_strip_quoted_unsafe s)).
Proof.
  assert (Forall quotable (_strip_quoted_unsafe s)) as H.
  { apply Forall_forall. intros c [H _]%list_elem_of_filter. unfold quoted_ok in H.
    apply negb_true_iff in H. unfold quotable. zbool. lia. }
  destruct (_strip_quoted_unsafe s); cbn; split; try done.
  repeat constructor; by cbv.
Qed.

(** C34: Content-Disposition.  Whatever the file name and fallback, a header
    that is built is [attachment; filename="q"; filename*=UTF-8''e]: [q] is not
    empty and has no quote, backslash or line break, [e] is made of unreserved
    characters and percent escapes, and percent-decoding [e] and reading it as
    UTF-8 gives back exactly the file name.  No header is built exactly when
    the name has no UTF-8 encoding. *)
Theorem content_disposition_spec filename fallback :
  wf_str filename →
  match content_disposition_attachment filename fallback with
  | Ok h => ∃ q e b,
      h = u "attachment; filename=" ++ dquote ++ q ++ dquote ++ u "; filename*=UTF-8''" ++ e ∧
      q ≠ [] ∧ Forall quotable q ∧ Forall token_char e ∧
      unquote e = Some b ∧ utf8_decode b = Ok filename
  | Err _ => ∀ b, utf8_encode filename ≠ Ok b
  end.
Proof.
  intros Hf. unfold content_disposition_attachment, quote.
  destruct (utf8_encode filename) as [b|x] eqn:E; [|by intros b].
  pose proof (utf8_encode_bytes _ _ Hf E) as Hb. cbn -[dquote u _ascii_only].
  eexists _, _, b. split; [done|].
  destruct (or_file_quotable (match fallback with
    | Some a => a | None => or_file (_ascii_only filename) end)) as [H1 H2].
  repeat (split; [done|]). split; [by apply quote_token|].
  split; [by apply unquote_quote|]. by eapply utf8_roundtrip.
Qed.

End disposition.

Lemma content_disposition_spec_witness :
  match HttpUtils.content_disposition_attachment [1055; 34; 10; 46; 116] None with
  | Ok h => ∃ q e b,
      h = u "attachment; filename=" ++ HttpUtils.dquote ++ q ++ HttpUtils.dquote
          ++ u "; filename*=UTF-8''" ++ e ∧
      q ≠ [] ∧ Forall quotable q ∧ Forall token_char e ∧
      unquote e = Some b ∧ utf8_decode b = Ok [1055; 34; 10; 46; 116]
  | Err _ => ∀ b, utf8_encode [1055; 34; 10; 46; 116] ≠ Ok b
  end.
Proof.
  apply content_disposition_spec. apply (bool_decide_unpack _). vm_compute. exact I.
Defined.

(** * Cookies *)

Section cookies.
Import Cookies.

(** The arguments of one [set_cookie] call. *)
Record cookie := mkCookie {
  ck_name : pystr; ck_value : pystr; ck_max_age : option Z; ck_path : pystr;
  ck_domain : option pystr; ck_secure : bool; ck_httponly : bool; ck_samesite : option pystr
}.

Definition set_one (headers : list (pystr * pystr)) (c : cookie) : list (pystr * pystr) :=
  set_cookie headers (ck_name c) (ck_value c) (ck_max_age c) (ck_path c) (ck_domain c)
    (ck_secure c) (ck_httponly c) (ck_samesite c).

Definition cookie_text (c : cookie) : pystr :=
  cookie_str (ck_name c) (ck_value c) (ck_max_age c) (ck_path c) (ck_domain c)
    (ck_secure c) (ck_httponly c) (ck_samesite c).

Definition no_sentinel (headers : list (pystr * pystr)) : Prop :=
  Forall (λ kv, kv.1 ≠ _COOKIE_SENTINEL) headers.

Lemma join_nonempty sep p ps : p ≠ [] → join sep (p :: ps) ≠ [].
Proof. intros H. destruct ps; simpl; [done|]. by destruct p. Qed.

Lemma cookie_text_nonempty c : cookie_text c ≠ [].
Proof.
  unfold cookie_text, cookie_str. cbv zeta.
  assert (ck_name c ++ u "=" ++ ck_value c ≠ []) as H by (by destruct (ck_name c)).
  repeat case_match; cbn [app]; by apply join_nonempty.
Qed.

Lemma split_on_plain sep c : sep ∉ c → split_on sep c = [c].
Proof.
  induction c as [|x c IH]; [done|]. intros H. apply not_elem_of_cons in H as [H1 H2].
  simpl. rewrite IH by done. by rewrite (proj2 (Z.eqb_neq x sep)).
Qed.

Lemma split_on_nil sep s : split_on sep s ≠ [].
Proof. destruct s; simpl; [done|]. by repeat case_match. Qed.

Lemma split_on_snoc sep a c :
  sep ∉ c → split_on sep (a ++ [sep] ++ c) = split_on sep a ++ [c].
Proof.
  intros Hc. induction a as [|x a IH]; cbn [app split_on].
  - rewrite split_on_plain by done. by rewrite Z.eqb_refl.
  - cbn [app] in IH. rewrite IH. pose proof (split_on_nil sep a).
    destruct (split_on sep a) as [|y l]; [done|]. simpl. by case_match.
Qed.

Lemma assoc_app_none {A} (k : pystr) (l : list (pystr * A)) k' v :
  Forall (λ kv, kv.1 ≠ k) l → assoc k (l ++ [(k', v)]) = if decide (k = k') then Some v else None.
Proof.
  induction 1 as [|[a b] l Ha _ IH]; [done|]. cbn in *. by rewrite decide_False.
Qed.

Lemma assoc_absent {A} (k : pystr) (l : list (pystr * A)) :
  Forall (λ kv, kv.1 ≠ k) l → assoc k l = None.
Proof. induction 1 as [|[a b] l Ha _ IH]; [done|]. cbn in *. by rewrite decide_False. Qed.

Lemma dict_set_app {A} (k : pystr) (v : A) (l : list (pystr * A)) r :
  Forall (λ kv, kv.1 ≠ k) l → dict_set k v (l ++ r) = l ++ dict_set k v r.
Proof.
  induction 1 as [|[a b] l Ha _ IH]; [done|]. cbn in *. rewrite decide_False by done. by rewrite IH.
Qed.

(** The text stashed after the cookies [cs] were set. *)
Definition stash (cs : list cookie) : list (pystr * pystr) :=
  match cs with
  | [] => []
  | c :: cs => [(_COOKIE_SENTINEL, foldl (λ t c, t ++ [_COOKIE_SEP] ++ cookie_text c) (cookie_text c) cs)]
  end.

Lemma foldl_stash_nonempty t (cs : list cookie) :
  t ≠ [] → foldl (λ t c, t ++ [_COOKIE_SEP] ++ cookie_text c) t cs ≠ [].
Proof. revert t. induction cs as [|c cs IH]; intros t H; [done|]. apply IH. by destruct t. Qed.

Lemma set_cookies_stash headers cs :
  no_sentinel headers → foldl set_one headers cs = headers ++ stash cs.
Proof.
  intros Hh. induction cs as [|c cs IH] using rev_ind; [by rewrite app_nil_r|].
  rewrite foldl_app, IH. cbn [foldl]. unfold set_one at 1, set_cookie. cbv zeta.
  fold (cookie_text c). rewrite dict_set_app by done. f_equal. destruct cs as [|c0 cs].
  - cbn [stash app]. rewrite app_nil_r. cbn [dict_set foldl].
    by rewrite assoc_absent.
  - cbn [stash app]. rewrite assoc_app_none by done. cbn [dict_set].
    rewrite !decide_True by done. cbn [default]. rewrite foldl_app. cbn [foldl].
    pose proof (foldl_stash_nonempty (cookie_text c0) cs (cookie_text_nonempty c0)).
    by destruct (foldl _ _ cs).
Qed.

Lemma split_stash t (cs : list cookie) :
  Forall (λ c, _COOKIE_SEP ∉ cookie_text c) cs → 
  split_on _COOKIE_SEP (foldl (λ t c, t ++ [_COOKIE_SEP] ++ cookie_text c) t cs) =
    split_on _COOKIE_SEP t ++ (cookie_text <$> cs).
Proof.
  intros H. revert t. induction H as [|c cs Hc _ IH]; intros t; [by rewrite app_nil_r|].
  cbn [foldl]. rewrite IH, split_on_snoc by done. by rewrite <- app_assoc.
Qed.

(** Several cookies on one response.  After any number of [set_cookie]
    calls on a response whose headers had none, the raw headers are the
    response's own, in order, followed by one set-cookie header per call, in
    the order of the calls and each with its own text; the stash itself never
    leaves.  The cookies must not contain the unit separator. *)
Theorem cookies_kept headers cs :
  no_sentinel headers → Forall (λ c, _COOKIE_SEP ∉ cookie_text c) cs →
  build_raw_headers (foldl set_one headers cs) =
    headers ++ ((λ c, (u "set-cookie", cookie_text c)) <$> cs).
Proof.
  intros Hh Hc. rewrite set_cookies_stash by done. unfold build_raw_headers.
  assert (Hf : filter (λ kv : pystr * pystr, kv.1 ≠ _COOKIE_SENTINEL) headers = headers).
  { by apply filter_all. }
  destruct Hc as [|c cs Hc Hcs].
  - cbn [stash fmap list_fmap]. by rewrite !app_nil_r, assoc_absent.
  - cbn [stash]. rewrite assoc_app_none, decide_True by done. cbv zeta.
    rewrite filter_app, Hf. rewrite filter_cons_False by (intros H; by apply H).
    rewrite filter_nil, app_nil_r.
    pose proof (foldl_stash_nonempty (cookie_text c) cs (cookie_text_nonempty c)) as Hn.
    destruct (foldl _ _ cs) as [|x t] eqn:E; [done|]. rewrite <- E, split_stash by done.
    rewrite split_on_plain by done. cbn [app]. f_equal.
    rewrite (filter_all _ (cookie_text c :: _)); [by cbn; rewrite <- list_fmap_compose|].
    constructor; [apply cookie_text_nonempty|]. apply Forall_fmap, Forall_true.
    intros. apply cookie_text_nonempty.
Qed.

End cookies.

(** * Witnesses *)

Module HeadersDemo.
#[local] Instance demo_services : Services := Sim.calm.
#[local] Instance demo_config : Config := Demo.config.

Definition demo_scope (headers : list (pystr * pystr)) : Scope :=
  mkScope true (u "post") (u "/api/admin/me") headers None.

Definition app : Scope → M Response := λ _, mret (mkResponse 200 [] (JStr (u "done"))).

Definition good : Scope :=
  demo_scope [(u "Cookie", u "session=s; csrf = tok"); (u "X-CSRF-Token", u "tok")].
Definition forged : Scope :=
  demo_scope [(u "Cookie", u "session=s; csrf=tok"); (u "X-CSRF-Token", u "guess")].

Lemma csrf_gate_witness :
  CsrfMiddleware.call app good (Demo.world empty_db) = app good (Demo.world empty_db) ∧
  CsrfMiddleware.call app forged (Demo.world empty_db) =
    (Ok CsrfMiddleware.refused, Demo.world empty_db).
Proof.
  assert (Hc : ∀ l, checked (demo_scope l)).
  { intros l. repeat split; apply (bool_decide_unpack _); vm_compute; exact I. }
  split.
  - rewrite (csrf_gate app good _ (Hc _)).
    replace (csrf_cookie good) with (Some (u "tok")) by (vm_compute; reflexivity).
    replace (csrf_header good) with (Some (u "tok")) by (vm_compute; reflexivity).
    rewrite decide_False by (intros [H|H]; discriminate H). cbn [negb].
    by rewrite decide_True.
  - rewrite (csrf_gate app forged _ (Hc _)).
    replace (csrf_cookie forged) with (Some (u "tok")) by (vm_compute; reflexivity).
    replace (csrf_header forged) with (Some (u "guess")) by (vm_compute; reflexivity).
    rewrite decide_False by (intros [H|H]; discriminate H). cbn [negb].
    rewrite decide_False by (intros H; discriminate H). reflexivity.
Defined.

Definition traced : Scope := demo_scope [(u "X-Request-Id", u "edge-7")].

Lemma request_id_spec_witness :
  ∃ w1, RequestIdMiddleware.call app traced (Demo.world empty_db) =
    (Ok (RequestIdMiddleware.set_header (u "edge-7") (mkResponse 200 [] (JStr (u "done")))),
     World.set_request_id None w1).
Proof.
  pose proof (request_id_spec app traced (Demo.world empty_db) eq_refl) as H.
  assert (E : served_id (X := demo_services) (incoming_id traced) (Demo.world empty_db) =
              (u "edge-7", Demo.world empty_db)).
  { replace (incoming_id traced) with (Some (u "edge-7")) by (vm_compute; reflexivity).
    unfold served_id.
    replace (RequestIdMiddleware._is_safe_id (u "edge-7")) with true by (vm_compute; reflexivity).
    reflexivity. }
  rewrite E in H. destruct H as (_ & H & _). eexists. exact H.
Defined.

Definition login_cookies : list cookie :=
  [mkCookie (u "session") (u "abc") (Some 3600) (u "/") None true true (Some (u "lax"));
   mkCookie (u "csrf") (u "tok") None (u "/") None true false (Some (u "strict"))].

Lemma cookies_kept_witness :
  Cookies.build_raw_headers (foldl set_one [(u "content-type", u "text/html")] login_cookies) =
    [(u "content-type", u "text/html");
     (u "set-cookie", u "session=abc; Max-Age=3600; Path=/; Secure; HttpOnly; SameSite=Lax");
     (u "set-cookie", u "csrf=tok; Path=/; Secure; SameSite=Strict")].
Proof.
  rewrite (cookies_kept [(u "content-type", u "text/html")] login_cookies);
    [vm_compute; reflexivity|apply (bool_decide_unpack _); vm_compute; exact I..].
Defined.

End HeadersDemo.
