(* ===== verification/App.v ===== *)
(** The application ([main.py]): keys loaded at startup and dropped at shutdown,
    the health check, the error envelope of [app/http.py] and the stack of the
    three middlewares around the router, which is a parameter (the framework). *)
From S2P Require Import Prelude Text Services Sim Model Scenario Effects Support RateLimit.
From S2P Require Import Envelope Http Middleware Headers.

(** * app/http.py: the error envelope *)
Module ErrorEnvelope.

Definition _render_error_envelope (status_code : Z) (detail : json)
    (headers : option (list (pystr * pystr))) : Response :=
  mkResponse status_code (default [] headers) (JObj [(u "detail", detail)]).

(** [HTTPException.to_response] *)
Definition to_response (e : exn) : option Response :=
  match e with
  | HTTPException status_code detail => Some (_render_error_envelope status_code detail None)
  | _ => None
  end.

End ErrorEnvelope.

(** * main.py *)
Module App.
Section app.
Context {X : Services} {C : Config}.
Context (app_env app_name : pystr) (master_key_path : MasterKey.node)
  (master_key_previous_path : option MasterKey.node).

Definition enforce_perms : bool := negb (bool_decide (app_env = u "development")).

(** [lifespan] before its [yield]. *)
Definition startup : M unit :=
  key ← lift (MasterKey.load_master_key master_key_path enforce_perms);
  State.set_master_key key;;
  match master_key_previous_path with
  | Some path =>
      previous ← lift (MasterKey.load_master_key path enforce_perms);
      State.set_previous_master_key (Some previous)
  | None => mret tt
  end.

(** The process serves [body] between startup and shutdown. *)
Definition lifespan {A} (body : M A) : M A :=
  startup;; try_finally body State.clear_master_keys.

Definition healthz : M json :=
  State.get_master_key;;
  mret (JObj [(u "status", JStr (u "ok")); (u "app", JStr app_name)]).

(** The middleware added first is outermost. *)
Definition asgi (router : Scope → M Response) : Scope → M Response :=
  RequestIdMiddleware.call (CsrfMiddleware.call (RateLimitMiddleware.dispatch router)).

End app.
End App.

(** * The lifetime of the keys *)

Section lifespan_facts.
Context {X : Services} {C : Config}.
Import App.

(** What may open: a regular file of 32 bytes, closed to group and others. *)
Definition loadable (enforce : bool) (n : MasterKey.node) (k : bytes) : Prop :=
  ∃ mode, n = MasterKey.File mode k ∧ zlen k = 32 ∧
    (enforce = true → ∀ i, i ∈ [5; 4; 2; 1] → Z.testbit mode i = false).

Lemma load_loadable enforce n k :
  MasterKey.load_master_key n enforce = Ok k → loadable enforce n k.
Proof.
  unfold MasterKey.load_master_key, MasterKey._EXPECTED_LEN. destruct n as [| |mode data]; try done.
  destruct (enforce && _) eqn:E; [done|]. destruct (zlen data =? 32) eqn:El; [|done].
  cbn [negb]. intros [= ->]. exists mode. split; [done|]. zbool. split; [done|].
  intros -> i Hi. cbn [andb] in E. apply negb_false_iff in E. zbool.
  change (Z.lor (Z.lor (Z.lor MasterKey.S_IRGRP MasterKey.S_IROTH) MasterKey.S_IWGRP) MasterKey.S_IWOTH)
    with 54 in E.
  assert (Ht : Z.testbit (Z.land (Z.land mode MasterKey._ALLOWED_MODE_MASK) 54) i = false)
    by (rewrite E; apply Z.testbit_0_l).
  rewrite !Z.land_spec in Ht. unfold MasterKey._ALLOWED_MODE_MASK in Ht.
  rewrite !elem_of_cons in Hi. destruct Hi as [->|[->|[->|[->|Hi%not_elem_of_nil]]]]; [..|done];
    simpl in Ht; by rewrite ?andb_true_r in Ht.
Qed.

Definition no_keys (w : World) : Prop :=
  World.master_key w = None ∧ World.previous_master_key w = None.

(** The keys live exactly as long as the process serves.  The body runs only
    when every configured key file is a regular file of 32 bytes (closed to
    group and others outside development), with those bytes as the current and
    previous key; whatever it does and however it ends, no key is in memory
    afterwards, and its outcome is passed on; the health check answers while it
    runs.  When a file cannot be loaded the body does not run at all. *)
Theorem lifespan_spec {A} env name path prev (body : M A) w r w' :
  no_keys w → lifespan env path prev body w = (r, w') →
  (∃ k w1, loadable (enforce_perms env) path k ∧ World.master_key w1 = Some k ∧
     (match prev with
      | Some p => ∃ k', loadable (enforce_perms env) p k' ∧ World.previous_master_key w1 = Some k'
      | None => World.previous_master_key w1 = None
      end) ∧ agree [PKeys] w w1 ∧ is_ok (healthz name w1).1 = true ∧
     (body w1).1 = r ∧ w' = World.set_previous_master_key None
                              (World.set_master_key None (body w1).2)) ∨
  (r = Err MasterKeyError ∧ agree [PKeys] w w' ∧
     (MasterKey.load_master_key path (enforce_perms env) = Err MasterKeyError ∨
      ∃ p, prev = Some p ∧ MasterKey.load_master_key p (enforce_perms env) = Err MasterKeyError)).
Proof.
  intros [Hk Hp] E. revert r w' E. apply wp_of_run. unfold lifespan, startup.
  assert (Herr : ∀ n e, MasterKey.load_master_key n (enforce_perms env) = Err e → e = MasterKeyError).
  { intros n e. unfold MasterKey.load_master_key. repeat case_match; intros; by simplify_eq. }
  assert (Hag : ∀ k w0, agree [PKeys] w0 (World.set_master_key (Some k) w0)).
  { intros k w0 q Hq. destruct q; try done. exfalso. apply Hq. part_in. }
  do 3 wp_step. destruct (MasterKey.load_master_key path _) as [k|e] eqn:E1.
  2:{ right. pose proof (Herr _ _ E1) as ->. split; [done|]. split; [done|]. by left. }
  apply load_loadable in E1. wp_step. unfold State.set_master_key. wp_step.
  set (w1 := World.set_master_key (Some k) w).
  destruct prev as [p|].
  - wp_step. wp_step. destruct (MasterKey.load_master_key p _) as [k'|e] eqn:E2.
    2:{ right. pose proof (Herr _ _ E2) as ->. split; [done|]. split; [apply Hag|]. eauto. }
    apply load_loadable in E2. unfold State.set_previous_master_key. wp_step.
    set (w2 := World.set_previous_master_key (Some k') w1).
    wp_step. apply wp_of. intros r w3 E3. unfold State.clear_master_keys. wp_step. wp_step. wp_step.
    left. exists k, w2. split; [done|]. split; [done|]. split; [by exists k'|]. split.
    { intros q Hq. destruct q; try done. exfalso. apply Hq. part_in. }
    split; [done|]. by rewrite E3.
  - wp_step. wp_step. apply wp_of. intros r w3 E3. unfold State.clear_master_keys. wp_step. wp_step. wp_step.
    left. exists k, w1. split; [done|]. split; [done|]. split; [done|]. split; [apply Hag|].
    split; [done|]. by rewrite E3.
Qed.

End lifespan_facts.

(** * The middleware stack *)

Section stack_facts.
Context {X : Services} {XOk : ServicesOk} {C : Config}.
Import App.

(** The CSRF gate lets the request through. *)
Definition passes_csrf (sc : Scope) : Prop :=
  checked sc → ∃ c, csrf_cookie sc = Some c ∧ csrf_header sc = Some c ∧ c ≠ [] ∧ isascii c = true.

(** The stores and what has left the process are the same. *)
Definition same_store (w w' : World) : Prop :=
  World.db w' = World.db w ∧ World.bucket w' = World.bucket w ∧ World.fs w' = World.fs w ∧
  World.smtp w' = World.smtp w ∧ World.telegram w' = World.telegram w ∧
  World.request_id w' = World.request_id w.

#[global] Instance same_store_pre : PreOrder same_store.
Proof. split; [by intros w|]. unfold same_store. intros w1 w2 w3. intuition congruence. Qed.

Lemma agree_same_store l w w' :
  agree l w w' → l ⊆ [PTick; PRedis; PCache] → same_store w w'.
Proof.
  intros Ha Hs. assert (H : agree [PTick; PRedis; PCache] w w') by (intros p Hp; apply Ha; auto).
  unfold same_store. split_and!; [apply (H PDb)|apply (H PBucket)|apply (H PFs)|apply (H PSmtp)
    |apply (H PTelegram)|apply (H PRid)]; part_notin.
Qed.

Definition stores_only {A} (m : M A) : Prop := ∀ w, same_store w (m w).2.

Lemma stores_touch {A} l (m : M A) : touches l m → l ⊆ [PTick; PRedis; PCache] → stores_only m.
Proof. intros H Hs w. by apply (agree_same_store l). Qed.

Lemma stores_bind {A B} (m : M A) (f : A → M B) :
  stores_only m → (∀ a, stores_only (f a)) → stores_only (m ≫= f).
Proof.
  intros Hm Hf w. specialize (Hm w). unfold mbind, M_bind. destruct (m w) as [[a|e] w1]; simpl in *;
    [|done]. etrans; [exact Hm|]. apply Hf.
Qed.

Lemma stores_session {A} (m : M A) : stores_only m → stores_only (with_session m).
Proof.
  intros Hm w. specialize (Hm (World.set_sess (World.db w) w)). unfold with_session.
  by destruct (m _) as [r w1].
Qed.

Lemma stores_get_int_cached k d : stores_only (RateLimitMiddleware._get_int_cached k d).
Proof.
  unfold RateLimitMiddleware._get_int_cached.
  assert (Hread : ∀ t, stores_only (v ← with_session (Settings.get_int k d);
    modify (λ w, World.set_rl_cache (<[k := (v, t + rate_limit_cache_ttl * second)]> (World.rl_cache w)) w);;
    mret v)).
  { intros t. apply stores_bind; [apply stores_session, (stores_touch []); [foot|set_solver]|].
    intros v. apply stores_bind; [by intros w|]. by intros _ w. }
  apply stores_bind; [by intros w|]. intros t. apply stores_bind; [by intros w|].
  intros [[v e]|]; [|apply Hread]. case_match; [by intros w|apply Hread].
Qed.

Lemma stores_policy_for a ip : stores_only (RateLimitMiddleware.policy_for a ip).
Proof.
  destruct a; simpl; repeat (apply stores_bind; [apply stores_get_int_cached|intros ?]); by intros w.
Qed.

(** The rate limiter refuses, fails before the router, or serves. *)
Definition limited (out : res Response * World) (w : World) : Prop :=
  same_store w out.2 ∧
  ((∃ retry, out.1 = Ok (RateLimitMiddleware.too_many retry)) ∨ ∃ e, out.1 = Err e).

Definition limited_or_served (out : res Response * World) (router : Scope → M Response) (sc : Scope)
    (w : World) : Prop :=
  limited out w ∨ ∃ w1, same_store w w1 ∧ out = router sc w1.

Lemma dispatch_outcome router sc w :
  sc_http sc = true →
  limited_or_served (RateLimitMiddleware.dispatch router sc w) router sc w.
Proof.
  intros Hh. unfold RateLimitMiddleware.dispatch. rewrite Hh. cbn [negb].
  destruct (RateLimitMiddleware._classify _ _) as [a|]; [|by right; exists w].
  unfold mbind, M_bind.
  pose proof (stores_policy_for a (client_ip_from_scope sc) w) as H1.
  destruct (RateLimitMiddleware.policy_for _ _ w) as [[ps|e] w1]; simpl in H1.
  2:{ left. split; [done|]. right. by exists e. }
  pose proof (stores_touch _ _ (touches_consume_all ps) ltac:(set_solver) w1) as H2.
  destruct (RateLimitMiddleware.consume_all ps w1) as [[[retry|]|e] w2]; simpl in H2.
  - left. split; [by etrans|]. left. by exists retry.
  - right. exists w2. split; [by etrans|done].
  - left. split; [by etrans|]. right. by exists e.
Qed.

(** What the CSRF gate does to an answer it lets through. *)
Definition keeps_answer (f : Response → Response) : Prop :=
  ∀ r, rs_status (f r) = rs_status r ∧ rs_body (f r) = rs_body r.

Definition mapped (f : Response → Response) (out : res Response * World) : res Response * World :=
  (r ← out.1; Ok (f r), out.2).

Lemma mapped_id out : mapped (λ r, r) out = out.
Proof. by destruct out as [[r|e] w]. Qed.

Lemma forward_outcome app sc cookies w :
  ∃ f n, keeps_answer f ∧
    CsrfMiddleware.forward app sc cookies w = mapped f (app sc (Nat.iter n next_tick w)).
Proof.
  unfold CsrfMiddleware.forward. destruct (assoc _ cookies).
  - exists (λ r, r), 0%nat. split; [done|]. by rewrite mapped_id.
  - eexists (CsrfMiddleware.add_header (u "set-cookie") _), 1%nat. split; [done|].
    unfold mbind, M_bind, token_urlsafe, mapped. simpl. by destruct (app sc (next_tick w)) as [[r|e] w1].
Qed.

Definition csrf_refused (out : res Response * World) (w : World) : Prop :=
  out = (Ok CsrfMiddleware.refused, w) ∨ out = (Err TypeError, w).

Definition csrf_passed (out : res Response * World) (app : Scope → M Response) (sc : Scope)
    (w : World) : Prop :=
  ∃ f n, keeps_answer f ∧ out = mapped f (app sc (Nat.iter n next_tick w)).

Lemma csrf_outcome app sc w :
  sc_http sc = true →
  (¬ passes_csrf sc ∧ csrf_refused (CsrfMiddleware.call app sc w) w) ∨
  (passes_csrf sc ∧ csrf_passed (CsrfMiddleware.call app sc w) app sc w).
Proof.
  intros Hh. unfold CsrfMiddleware.call. rewrite Hh. cbn [negb].
  destruct (CsrfMiddleware._is_protected (sc_path sc)) eqn:Ep; cbn [negb].
  2:{ right. split; [intros (_ & H & _); congruence|]. exists (λ r, r), 0%nat.
      split; [done|]. by rewrite mapped_id. }
  destruct (_ && _) eqn:Em.
  2:{ right. split; [|apply forward_outcome]. intros (_ & _ & H3 & H4). rewrite H3 in Em.
      by rewrite bool_decide_eq_true_2 in Em. }
  apply andb_true_iff in Em as [Em Ee]. apply bool_decide_eq_true_1 in Em.
  apply negb_true_iff in Ee. assert (Hc : checked sc) by done.
  fold (csrf_cookie sc) (csrf_header sc). rewrite mismatch_spec. unfold passes_csrf, lift, mbind, M_bind.
  destruct (csrf_cookie sc) as [c|] eqn:E1.
  2:{ left. split; [|by left]. intros H. destruct (H Hc) as (c' & ? & _). done. }
  destruct (csrf_header sc) as [h|].
  2:{ left. split; [|by left]. intros H. destruct (H Hc) as (c' & _ & ? & _). done. }
  case_decide as Hd.
  { left. split; [|by left]. intros H. destruct (H Hc) as (c' & [= ->] & [= ->] & Hn & _). naive_solver. }
  destruct (isascii c && isascii h) eqn:Ea.
  2:{ left. split; [|by right]. intros H. destruct (H Hc) as (c' & [= ->] & [= ->] & _ & Ha).
      by rewrite Ha in Ea. }
  case_bool_decide as He; cbn [negb].
  - right. subst h. split; [|apply forward_outcome]. intros _. exists c.
    apply andb_true_iff in Ea. split_and!; try done; naive_solver.
  - left. split; [|by left]. intros H. destruct (H Hc) as (c' & [= ->] & [= ->] & _). done.
Qed.

Lemma same_store_ticks n w : same_store w (Nat.iter n next_tick w).
Proof. by induction n. Qed.

(** The request was served by the router, under the id [rid]; what left the
    stack is the router's answer with its headers completed. *)
Definition routed (router : Scope → M Response) (sc : Scope) (rid : pystr) (w : World)
    (r : res Response) (w' : World) : Prop :=
  ∃ w1, World.request_id w1 = Some rid ∧
    same_store w (World.set_request_id (World.request_id w) w1) ∧
    w' = World.set_request_id (World.request_id w) (router sc w1).2 ∧
    match (router sc w1).1, r with
    | Ok a, Ok b => rs_status b = rs_status a ∧ rs_body b = rs_body a
    | Err e, Err e' => e = e'
    | _, _ => False
    end.

(** C33: the middleware stack.  Every answer to an HTTP request leaves with
    exactly one X-Request-Id header, a clean id, and the id bound before is
    bound again.  The router runs only when the CSRF gate and the rate limiter
    let the request through; it then runs once, under that id, on the stores as
    they were, and its status and body are the answer's.  A request the gate
    refuses gets 403 (or raises TypeError) and does not even touch Redis, so it
    costs no quota; one the limiter refuses gets 429 and changes no store. *)
Theorem middleware_stack router sc w r w' :
  sc_http sc = true → asgi router sc w = (r, w') →
  let rid := (served_id (incoming_id sc) w).1 in
  clean_id rid ∧
  (∀ resp, r = Ok resp → request_id_headers resp = [(u "X-Request-Id", rid)]) ∧
  ((¬ passes_csrf sc ∧ same_store w w' ∧ World.redis w' = World.redis w ∧
      (r = Err TypeError ∨ ∃ resp, r = Ok resp ∧ rs_status resp = 403)) ∨
   (passes_csrf sc ∧ same_store w w' ∧
      ((∃ resp, r = Ok resp ∧ rs_status resp = 429) ∨ ∃ e, r = Err e)) ∨
   (passes_csrf sc ∧ routed router sc rid w r w')).
Proof.
  intros Hh E. unfold asgi in E. rewrite request_id_run in E by done.
  destruct (served_id_clean (incoming_id sc) w) as [Hc Hr].
  assert (Hs0 : same_store w (served_id (incoming_id sc) w).2 ∧
                World.redis (served_id (incoming_id sc) w).2 = World.redis w).
  { unfold served_id. repeat case_match; done. }
  destruct (served_id (incoming_id sc) w) as [rid w0]. cbn [fst snd] in *.
  destruct Hs0 as [Hs0 Hr0].
  set (w1 := World.set_request_id (Some rid) w0) in *.
  assert (Hb : ∀ wx, same_store w1 wx → same_store w (World.set_request_id (World.request_id w) wx)).
  { intros wx (?&?&?&?&?&?). unfold same_store in *. simpl in *. intuition congruence. }
  destruct (csrf_outcome (RateLimitMiddleware.dispatch router) sc w1 Hh) as [[Hn Ho]|[Hp Ho]];
    destruct (CsrfMiddleware.call _ sc w1) as [r1 w2].
  - injection E as <- <-. split; [done|]. destruct Ho as [[= -> ->]|[= -> ->]].
    + split; [intros resp [= <-]; apply set_header_once|]. left. split; [done|].
      split; [by apply Hb|]. split; [done|]. right. by eexists.
    + split; [done|]. left. split; [done|]. split; [by apply Hb|]. split; [done|by left].
  - injection E as <- <-. destruct Ho as (f & n & Hf & Ho). set (wn := Nat.iter n next_tick w1) in *.
    assert (Hwn : same_store w1 wn) by apply same_store_ticks.
    split; [done|]. unfold mapped in Ho. injection Ho as -> ->.
    split.
    { intros resp. destruct (RateLimitMiddleware.dispatch router sc wn).1; [|done].
      intros [= <-]. apply set_header_once. }
    right. destruct (dispatch_outcome router sc wn Hh) as [[Hs Hl]|(w3 & Hs & Ho)].
    + left. split; [done|]. split; [apply Hb; by etrans|].
      destruct Hl as [[retry ->]|[e ->]]; simpl; [left|right; by eexists].
      eexists. split; [done|]. by destruct (Hf (RateLimitMiddleware.too_many retry)).
    + right. split; [done|]. exists w3. rewrite Ho.
      assert (Hs3 : same_store w1 w3) by by etrans.
      split; [by destruct Hs3 as (_&_&_&_&_&->)|]. split; [by apply Hb|]. split; [done|].
      destruct (router sc w3).1 as [a|e]; simpl; [|done]. by destruct (Hf a).
Qed.

End stack_facts.

Section app_witnesses.
#[local] Instance demo_services : Services := Sim.calm.
#[local] Instance demo_services_ok : ServicesOk := Sim.calm_ok.
#[local] Instance demo_config : Config := Demo.config.

(** A router that answers everything, behind a forged admin request. *)
Definition demo_router : Scope → M Response := λ _, mret (mkResponse 200 [] (JStr (u "done"))).
Definition forged_request : Scope :=
  mkScope true (u "POST") (u "/api/admin/settings")
    [(u "Cookie", u "csrf=tok"); (u "X-CSRF-Token", u "guess"); (u "X-Request-Id", u "edge-7")] None.

Lemma middleware_stack_witness :
  ∃ r w', App.asgi demo_router forged_request (Demo.world empty_db) = (r, w') ∧
    World.redis w' = World.redis (Demo.world empty_db) ∧
    ∃ resp, r = Ok resp ∧ rs_status resp = 403 ∧
      request_id_headers resp = [(u "X-Request-Id", u "edge-7")].
Proof.
  destruct (App.asgi demo_router forged_request (Demo.world empty_db)) as [r w'] eqn:E.
  destruct (middleware_stack demo_router forged_request (Demo.world empty_db) r w' eq_refl E)
    as (_ & Hid & H).
  assert (Hrid : (served_id (X := demo_services) (incoming_id forged_request) (Demo.world empty_db)).1
                 = u "edge-7") by (vm_compute; reflexivity).
  rewrite Hrid in Hid.
  assert (Hs : rs_status <$> match (App.asgi demo_router forged_request (Demo.world empty_db)).1 with
                             | Ok a => Some a | Err _ => None end = Some 403)
    by (vm_compute; reflexivity).
  rewrite E in Hs. cbn [fst] in Hs.
  assert (Hc : checked forged_request).
  { repeat split; apply (bool_decide_unpack _); vm_compute; exact I. }
  assert (Hn : ¬ passes_csrf forged_request).
  { intros Hp. destruct (Hp Hc) as (c & H1 & H2 & _).
    assert (H3 : csrf_cookie forged_request = Some (u "tok")) by (vm_compute; reflexivity).
    assert (H4 : csrf_header forged_request = Some (u "guess")) by (vm_compute; reflexivity).
    rewrite H1 in H3. rewrite H2 in H4. rewrite H3 in H4. discriminate H4. }
  destruct H as [(_ & _ & Hr & _)|[[Hp _]|[Hp _]]]; [|by destruct (Hn Hp)..].
  exists r, w'. split; [reflexivity|]. split; [exact Hr|].
  destruct r as [resp|e]; [|discriminate Hs]. injection Hs as Hs. exists resp.
  split; [reflexivity|]. split; [exact Hs|]. exact (Hid resp eq_refl).
Defined.

Lemma lifespan_spec_witness :
  ∃ w', App.lifespan (u "production") (MasterKey.File 256 Demo.master) None
          State.get_master_key (World.set_master_key None (Demo.world empty_db)) = (Ok Demo.master, w') ∧
    World.master_key w' = None.
Proof.
  destruct (App.lifespan (u "production") (MasterKey.File 256 Demo.master) None
              State.get_master_key (World.set_master_key None (Demo.world empty_db))) as [r w'] eqn:E.
  assert (Hn : no_keys (World.set_master_key None (Demo.world empty_db))) by (split; reflexivity).
  destruct (lifespan_spec (u "production") (u "Fylix") _ _ _ _ _ _ Hn E)
    as [(k & w1 & (mode & Hf & _) & Hk & _ & _ & _ & Hr & ->)|(_ & _ & [H|(p & H & _)])].
  - injection Hf as <- <-. exists (World.set_previous_master_key None
      (World.set_master_key None (State.get_master_key w1).2)).
    split; [|reflexivity]. rewrite <- Hr. f_equal.
    unfold State.get_master_key, mbind, M_bind, gets. by rewrite Hk.
  - vm_compute in H. discriminate H.
  - discriminate H.
Defined.

End app_witnesses.
