(* ===== verification/Shims.v ===== *)
(** The patches [app/http.py] applies to the HTTP framework before the routers
    are built.  The framework's own functions are the fields of [framework];
    each [install_...] replaces some of them, guarded by the marker attribute
    the code sets. *)
From S2P Require Import Prelude Text Encoding Services Sim Model Effects Support RateLimit Http App.
#[local] Open Scope Z_scope.

Module Shims.

(** What handlers return, as far as the patches look at it: a pydantic model
    with its [model_dump(mode="json")], a [StreamingResponse], a list, or
    anything else. *)
Inductive obj :=
  | BaseModel (dump : json)
  | StreamingResponse (r : Response)
  | PyList (l : list obj)
  | Value (v : json).

(** The raw [hawkapi.HTTPException]. *)
Record base_exception := mkBaseException {
  status_code : Z; detail : pystr; headers : option (list (pystr * pystr))
}.

(** One entry of [pydantic.ValidationError.errors()]. *)
Inductive loc_item := Key (s : pystr) | Index (n : Z).
Record pydantic_error := mkPydanticError { loc : list loc_item; msg : pystr; input : json }.

(** [ValidationErrorDetail] *)
Record error_detail := mkErrorDetail { field : pystr; message : pystr; value : json }.

(** How decoding a body ends. *)
Inductive decoded :=
  | Decoded (model : json)
  | PydanticValidationError (errors : list pydantic_error)
  | RequestValidationError (errors : list error_detail) (status : Z)
  | Raised (e : exn).

Inductive response_class := ResponseClass | JSONResponseClass | StreamingResponseClass.
#[export] Instance response_class_eq_dec : EqDecision response_class.
Proof. solve_decision. Defined.

Section shims.

(** Handlers, routers, keyword arguments of a route, response models and model
    classes are the framework's. *)
Context {fn router kwargs model : Type}.

Record framework := mkFramework {
  to_response : base_exception → Response;
  exception_patched : bool;
  build_raw_headers : response_class → list (pystr * pystr) → list (pystr * pystr);
  cookie_patched : response_class → bool;
  add_route : router → pystr → fn → pystr → kwargs → router;
  head_ : option (router → pystr → kwargs → fn → router);
  options_ : option (router → pystr → kwargs → fn → router);
  post : router → pystr → option Z → kwargs → fn → router;
  post_patched : bool;
  enc_hook : obj → res json;
  json_encoder_hook : obj → res json;
  msgpack_encoder_hook : obj → res json;
  pydantic_patched : bool;
  decode_pydantic : model → bytes → decoded;
  resolver_decode : option (model → bytes → decoded);
  validation_patched : bool;
  build_validation_error_response : Z → list error_detail → Response;
  renderer_patched : bool;
  build_response : obj → Z → res obj;
  streaming_patched : bool;
  apply_response_model : obj → model → res obj;
  response_model_patched : bool
}.

Definition set_exceptions (f : base_exception → Response) (w : framework) : framework :=
  mkFramework f true (build_raw_headers w) (cookie_patched w) (add_route w) (head_ w) (options_ w)
    (post w) (post_patched w) (enc_hook w) (json_encoder_hook w) (msgpack_encoder_hook w)
    (pydantic_patched w) (decode_pydantic w) (resolver_decode w) (validation_patched w)
    (build_validation_error_response w) (renderer_patched w) (build_response w)
    (streaming_patched w) (apply_response_model w) (response_model_patched w).

Definition set_raw_headers (f : response_class → list (pystr * pystr) → list (pystr * pystr))
    (p : response_class → bool) (w : framework) : framework :=
  mkFramework (to_response w) (exception_patched w) f p (add_route w) (head_ w) (options_ w)
    (post w) (post_patched w) (enc_hook w) (json_encoder_hook w) (msgpack_encoder_hook w)
    (pydantic_patched w) (decode_pydantic w) (resolver_decode w) (validation_patched w)
    (build_validation_error_response w) (renderer_patched w) (build_response w)
    (streaming_patched w) (apply_response_model w) (response_model_patched w).

Definition set_methods (h o : option (router → pystr → kwargs → fn → router)) (w : framework)
  : framework :=
  mkFramework (to_response w) (exception_patched w) (build_raw_headers w) (cookie_patched w)
    (add_route w) h o
    (post w) (post_patched w) (enc_hook w) (json_encoder_hook w) (msgpack_encoder_hook w)
    (pydantic_patched w) (decode_pydantic w) (resolver_decode w) (validation_patched w)
    (build_validation_error_response w) (renderer_patched w) (build_response w)
    (streaming_patched w) (apply_response_model w) (response_model_patched w).

Definition set_post (f : router → pystr → option Z → kwargs → fn → router) (w : framework)
  : framework :=
  mkFramework (to_response w) (exception_patched w) (build_raw_headers w) (cookie_patched w)
    (add_route w) (head_ w) (options_ w) f true (enc_hook w) (json_encoder_hook w)
    (msgpack_encoder_hook w)
    (pydantic_patched w) (decode_pydantic w) (resolver_decode w) (validation_patched w)
    (build_validation_error_response w) (renderer_patched w) (build_response w)
    (streaming_patched w) (apply_response_model w) (response_model_patched w).

Definition set_enc_hook (f : obj → res json) (w : framework) : framework :=
  mkFramework (to_response w) (exception_patched w) (build_raw_headers w) (cookie_patched w)
    (add_route w) (head_ w) (options_ w) (post w) (post_patched w) f f f true
    (decode_pydantic w) (resolver_decode w) (validation_patched w)
    (build_validation_error_response w) (renderer_patched w) (build_response w)
    (streaming_patched w) (apply_response_model w) (response_model_patched w).

Definition set_decode (f : model → bytes → decoded) (w : framework) : framework :=
  mkFramework (to_response w) (exception_patched w) (build_raw_headers w) (cookie_patched w)
    (add_route w) (head_ w) (options_ w) (post w) (post_patched w) (enc_hook w)
    (json_encoder_hook w) (msgpack_encoder_hook w) (pydantic_patched w)
    f ((λ _, f) <$> resolver_decode w) true
    (build_validation_error_response w) (renderer_patched w) (build_response w)
    (streaming_patched w) (apply_response_model w) (response_model_patched w).

Definition set_renderer (f : Z → list error_detail → Response) (w : framework) : framework :=
  mkFramework (to_response w) (exception_patched w) (build_raw_headers w) (cookie_patched w)
    (add_route w) (head_ w) (options_ w) (post w) (post_patched w) (enc_hook w)
    (json_encoder_hook w) (msgpack_encoder_hook w) (pydantic_patched w)
    (decode_pydantic w) (resolver_decode w) (validation_patched w) f true (build_response w)
    (streaming_patched w) (apply_response_model w) (response_model_patched w).

Definition set_build_response (f : obj → Z → res obj) (w : framework) : framework :=
  mkFramework (to_response w) (exception_patched w) (build_raw_headers w) (cookie_patched w)
    (add_route w) (head_ w) (options_ w) (post w) (post_patched w) (enc_hook w)
    (json_encoder_hook w) (msgpack_encoder_hook w) (pydantic_patched w)
    (decode_pydantic w) (resolver_decode w) (validation_patched w)
    (build_validation_error_response w) (renderer_patched w) f true
    (apply_response_model w) (response_model_patched w).

Definition set_response_model (f : obj → model → res obj) (w : framework) : framework :=
  mkFramework (to_response w) (exception_patched w) (build_raw_headers w) (cookie_patched w)
    (add_route w) (head_ w) (options_ w) (post w) (post_patched w) (enc_hook w)
    (json_encoder_hook w) (msgpack_encoder_hook w) (pydantic_patched w)
    (decode_pydantic w) (resolver_decode w) (validation_patched w)
    (build_validation_error_response w) (renderer_patched w) (build_response w)
    (streaming_patched w) f true.

(** ** Error envelope *)

Definition _patched_base_to_response (e : base_exception) : Response :=
  ErrorEnvelope._render_error_envelope (status_code e) (JStr (detail e)) (headers e).

Definition install_error_handlers (w : framework) : framework :=
  if exception_patched w then w else set_exceptions _patched_base_to_response w.

(** ** Cookies *)

(** The patched builder around the [original] one: the stashed cookies leave the
    headers first. *)
Definition patched_raw_headers (original : list (pystr * pystr) → list (pystr * pystr))
    (hs : list (pystr * pystr)) : list (pystr * pystr) :=
  let extras := assoc Cookies._COOKIE_SENTINEL hs in
  let raw := original (filter (λ kv, kv.1 ≠ Cookies._COOKIE_SENTINEL) hs) in
  match extras with
  | Some ((_ :: _) as e) =>
      raw ++ ((λ c, (u "set-cookie", c)) <$> filter (λ c, c ≠ []) (split_on Cookies._COOKIE_SEP e))
  | _ => raw
  end.

Definition _patch_build_raw_headers (w : framework) (c : response_class) : framework :=
  if cookie_patched w c then w
  else set_raw_headers
         (λ c', if decide (c' = c) then patched_raw_headers (build_raw_headers w c)
                else build_raw_headers w c')
         (λ c', if decide (c' = c) then true else cookie_patched w c') w.

Definition install_cookie_support (w : framework) : framework :=
  foldl _patch_build_raw_headers w [ResponseClass; JSONResponseClass; StreamingResponseClass].

(** ** Routes *)

Definition _make_method_decorator (method_name : pystr) (w : framework)
    (self : router) (path : pystr) (kw : kwargs) (f : fn) : router :=
  add_route w self path f method_name kw.

Definition install_router_method_aliases (w : framework) : framework :=
  set_methods
    (match head_ w with Some h => Some h | None => Some (_make_method_decorator (u "HEAD") w) end)
    (match options_ w with
     | Some o => Some o | None => Some (_make_method_decorator (u "OPTIONS") w) end) w.

Definition install_post_default_status (w : framework) : framework :=
  if post_patched w then w
  else set_post (λ self path status_code kw f, post w self path (Some (default 200 status_code)) kw f) w.

(** ** Serialisation *)

Definition install_pydantic_encoder_hook (w : framework) : framework :=
  if pydantic_patched w then w
  else set_enc_hook (λ o, match o with BaseModel dump => Ok dump | _ => enc_hook w o end) w.

Definition model_dump (o : obj) : res obj :=
  match o with BaseModel dump => Ok (Value dump) | _ => Err AttributeError end.

Definition install_response_model_hook (w : framework) : framework :=
  if response_model_patched w then w
  else set_response_model (λ result response_model,
    match result with
    | BaseModel dump => Ok (Value dump)
    | PyList ((BaseModel _ :: _) as items) => l ← mapM model_dump items; Ok (PyList l)
    | _ => apply_response_model w result response_model
    end) w.

Definition install_streaming_response_passthrough (w : framework) : framework :=
  if streaming_patched w then w
  else set_build_response (λ result status_code,
    match result with
    | StreamingResponse _ => Ok result
    | _ => build_response w result status_code
    end) w.

(** ** Validation errors *)

(** [str(p)] of a location item. *)
Definition loc_str (p : loc_item) : pystr := match p with Key s => s | Index n => str_int n end.

Definition translate (e : pydantic_error) : error_detail :=
  mkErrorDetail (join (u ".") (loc_str <$> loc e)) (msg e) (input e).

Definition install_pydantic_validation_hook (w : framework) : framework :=
  if validation_patched w then w
  else set_decode (λ model_class data,
    match decode_pydantic w model_class data with
    | PydanticValidationError errors => RequestValidationError (translate <$> errors) 422
    | r => r
    end) w.

Definition error_json (e : error_detail) : json :=
  JObj [(u "loc", JArr (JStr <$> (if nonempty (field e) then split_on 46 (field e) else [])));
        (u "msg", JStr (message e)); (u "type", JStr (u "value_error"))].

Definition install_validation_error_renderer (w : framework) : framework :=
  if renderer_patched w then w
  else set_renderer (λ validation_error_status errors,
    mkResponse validation_error_status [] (JObj [(u "detail", JArr (error_json <$> errors))])) w.

Definition install_hawkapi_shims (w : framework) : framework :=
  let w := install_cookie_support w in
  let w := install_router_method_aliases w in
  let w := install_post_default_status w in
  let w := install_pydantic_encoder_hook w in
  let w := install_pydantic_validation_hook w in
  let w := install_validation_error_renderer w in
  let w := install_streaming_response_passthrough w in
  install_response_model_hook w.

End shims.
#[global] Arguments framework : clear implicits.
End Shims.

(** * Properties *)

(** [".".join] is inverted by [split(".")] on components without a dot. *)
Lemma split_on_app sep a s :
  sep ∉ a → split_on sep (a ++ sep :: s) = a :: split_on sep s.
Proof.
  induction a as [|c a IH]; intros Ha.
  - simpl. destruct (split_on sep s) eqn:E; [destruct s; simpl in E; repeat case_match; done|].
    by rewrite Z.eqb_refl.
  - apply not_elem_of_cons in Ha as [Hc Ha]. simpl. rewrite (IH Ha).
    by rewrite (proj2 (Z.eqb_neq c sep)).
Qed.

Lemma split_on_none sep a : sep ∉ a → split_on sep a = [a].
Proof.
  induction a as [|c a IH]; [done|]. intros [Hc Ha]%not_elem_of_cons. simpl. rewrite (IH Ha).
  by rewrite (proj2 (Z.eqb_neq c sep)).
Qed.

Lemma split_join sep parts :
  parts ≠ [] → Forall (λ p, sep ∉ p) parts → split_on sep (join [sep] parts) = parts.
Proof.
  intros Hne HF. induction HF as [|p ps Hp HF IH]; [done|]. destruct ps as [|q ps].
  - by apply split_on_none.
  - change (split_on sep (p ++ sep :: join [sep] (q :: ps)) = p :: q :: ps).
    rewrite split_on_app by done. by rewrite IH.
Qed.

Section shims_theorems.
Context {fn router kwargs model : Type}.
Abbreviation fw := (Shims.framework fn router kwargs model).
Import Shims.

(** As imported: nothing patched, no HEAD or OPTIONS decorator. *)
Definition fresh (w : fw) : Prop :=
  exception_patched w = false ∧ (∀ c, cookie_patched w c = false) ∧ head_ w = None ∧
  options_ w = None ∧ post_patched w = false ∧ pydantic_patched w = false ∧
  validation_patched w = false ∧ renderer_patched w = false ∧ streaming_patched w = false ∧
  response_model_patched w = false.

Definition installed (w : fw) : Prop :=
  (∀ c, cookie_patched w c = true) ∧ is_Some (head_ w) ∧ is_Some (options_ w) ∧
  post_patched w = true ∧ pydantic_patched w = true ∧ validation_patched w = true ∧
  renderer_patched w = true ∧ streaming_patched w = true ∧ response_model_patched w = true.

Lemma cookies_installed (w : fw) c : cookie_patched (install_cookie_support w) c = true.
Proof.
  unfold install_cookie_support. cbn [foldl]. unfold _patch_build_raw_headers.
  destruct w as [? ? ? p ? ? ? ? ? ? ? ? ? ? ? ? ? ? ? ? ? ?]; cbn [cookie_patched].
  destruct (p ResponseClass) eqn:E1; simpl;
  destruct (p JSONResponseClass) eqn:E2; simpl;
  destruct (p StreamingResponseClass) eqn:E3; simpl; rewrite ?E1, ?E2, ?E3;
    destruct c; simpl; rewrite ?E1, ?E2, ?E3; done.
Qed.

Lemma flags_kept (w : fw) :
  let w' := install_cookie_support w in
  post_patched w' = post_patched w ∧ pydantic_patched w' = pydantic_patched w ∧
  validation_patched w' = validation_patched w ∧ renderer_patched w' = renderer_patched w ∧
  streaming_patched w' = streaming_patched w ∧ response_model_patched w' = response_model_patched w.
Proof.
  unfold install_cookie_support. cbn [foldl]. unfold _patch_build_raw_headers.
  repeat case_match; done.
Qed.

Lemma install_installed (w : fw) : installed (install_hawkapi_shims w).
Proof.
  unfold install_hawkapi_shims. pose proof (cookies_installed w) as Hc.
  destruct (install_cookie_support w) as [? ? ? ? ? h o ? p1 ? ? ? p2 ? ? p3 ? p4 ? p5 ? p6].
  cbn [cookie_patched] in Hc. unfold installed.
  destruct h, o, p1, p2, p3, p4, p5, p6; simpl; repeat split; eauto.
Qed.

Lemma installed_fixed (w : fw) : installed w → install_hawkapi_shims w = w.
Proof.
  intros (Hc & [h Hh] & [o Ho] & H1 & H2 & H3 & H4 & H5 & H6).
  assert (Hw : install_cookie_support w = w).
  { unfold install_cookie_support. cbn [foldl]. unfold _patch_build_raw_headers. by rewrite !Hc. }
  unfold install_hawkapi_shims. rewrite Hw.
  assert (Hm : install_router_method_aliases w = w).
  { unfold install_router_method_aliases. rewrite Hh, Ho. destruct w. simpl in *. by subst. }
  rewrite Hm. unfold install_post_default_status. rewrite H1.
  unfold install_pydantic_encoder_hook. rewrite H2. unfold install_pydantic_validation_hook. rewrite H3.
  unfold install_validation_error_renderer. rewrite H4.
  unfold install_streaming_response_passthrough. rewrite H5.
  unfold install_response_model_hook. by rewrite H6.
Qed.

Lemma cookies_fresh (w : fw) :
  (∀ c, cookie_patched w c = false) →
  ∃ f p, install_cookie_support w = set_raw_headers f p w ∧
    ∀ c hs, f c hs = patched_raw_headers (build_raw_headers w c) hs.
Proof.
  intros Hc. unfold install_cookie_support. cbn [foldl].
  assert (Hp : ∀ (v : fw) c, cookie_patched v c = false → _patch_build_raw_headers v c =
    set_raw_headers
      (λ c', if decide (c' = c) then patched_raw_headers (build_raw_headers v c)
             else build_raw_headers v c')
      (λ c', if decide (c' = c) then true else cookie_patched v c') v).
  { intros v c Hv. unfold _patch_build_raw_headers. by rewrite Hv. }
  rewrite (Hp w) by done. rewrite (Hp (set_raw_headers _ _ w)) by (simpl; apply Hc).
  rewrite (Hp _ StreamingResponseClass) by (simpl; apply Hc).
  do 2 eexists. split; [reflexivity|]. intros c hs. by destruct c.
Qed.

Lemma dump_models ds : mapM model_dump (BaseModel <$> ds) = Ok (Value <$> ds).
Proof.
  induction ds as [|x ds IH]; [done|]. rewrite !fmap_cons.
  change (mapM model_dump (BaseModel x :: (BaseModel <$> ds))) with
    (l ← mapM model_dump (BaseModel <$> ds); Ok (Value x :: l)).
  by rewrite IH.
Qed.

(** Where a validation error was found survives the way to the client. *)
Lemma location_kept es :
  Forall (λ e, Forall (λ p, 46 ∉ loc_str p ∧ loc_str p ≠ []) (loc e)) es →
  error_json <$> (translate <$> es) =
  (λ e, JObj [(u "loc", JArr ((λ p, JStr (loc_str p)) <$> loc e)); (u "msg", JStr (msg e));
              (u "type", JStr (u "value_error"))]) <$> es.
Proof.
  intros HF. rewrite <- list_fmap_compose. apply list_fmap_ext. intros i e Hi.
  apply (Forall_lookup_1 _ _ _ _ HF) in Hi. unfold compose, error_json, translate.
  cbn [field message]. do 4 f_equal. rewrite (list_fmap_compose loc_str JStr). f_equal.
  destruct (loc e) as [|p ps]; [done|].
  assert (Hne : nonempty (join (u ".") (loc_str <$> p :: ps)) = true).
  { apply Forall_cons in Hi as [[_ Hp] _]. rewrite fmap_cons. destruct (loc_str p); [done|].
    by destruct (loc_str <$> ps). }
  rewrite Hne. apply split_join; [done|]. apply Forall_fmap. eapply Forall_impl; [exact Hi|].
  by intros x [].
Qed.

(** C40: the patched framework.  Installing the patches once more changes
    nothing, on any framework.  On a framework as imported they give exactly
    this behaviour: plain exceptions are rendered in the envelope of the
    application; stashed cookies leave the headers of all three response
    classes and nothing else changes there; HEAD and OPTIONS register a route
    for their method; POST answers 200 unless the route says otherwise;
    pydantic models are encoded as their dump, alone or in a list, streaming
    responses pass through, and everything else goes where it went before; a
    body that pydantic refuses is a 422 whose entries name the place of the
    error, with its components as they were, as long as they have no dot. *)
Theorem shims_spec (w : fw) :
  install_hawkapi_shims (install_hawkapi_shims w) = install_hawkapi_shims w ∧
  install_error_handlers (install_error_handlers w) = install_error_handlers w ∧
  (fresh w →
   let s := install_error_handlers (install_hawkapi_shims w) in
   (∀ e, to_response s e = mkResponse (status_code e) (default [] (headers e))
                             (JObj [(u "detail", JStr (detail e))])) ∧
   (∀ c hs, build_raw_headers s c hs = patched_raw_headers (build_raw_headers w c) hs) ∧
   (∃ h o, head_ s = Some h ∧ options_ s = Some o ∧
      (∀ r p k f, h r p k f = add_route w r p f (u "HEAD") k) ∧
      (∀ r p k f, o r p k f = add_route w r p f (u "OPTIONS") k)) ∧
   (∀ r p k f, post s r p None k f = post w r p (Some 200) k f) ∧
   (∀ r p c k f, post s r p (Some c) k f = post w r p (Some c) k f) ∧
   (∀ hook, hook ∈ [enc_hook s; json_encoder_hook s; msgpack_encoder_hook s] →
      (∀ d, hook (BaseModel d) = Ok d) ∧
      ∀ o, (∀ d, o ≠ BaseModel d) → hook o = enc_hook w o) ∧
   (∀ r m, apply_response_model s (BaseModel r) m = Ok (Value r)) ∧
   (∀ d ds m, apply_response_model s (PyList (BaseModel <$> d :: ds)) m = Ok (PyList (Value <$> d :: ds))) ∧
   (∀ v m, apply_response_model s (Value v) m = apply_response_model w (Value v) m) ∧
   (∀ r c, build_response s (StreamingResponse r) c = Ok (StreamingResponse r)) ∧
   (∀ o c, (∀ r, o ≠ StreamingResponse r) → build_response s o c = build_response w o c) ∧
   (∀ m data, decode_pydantic s m data =
      match decode_pydantic w m data with
      | PydanticValidationError es => RequestValidationError (translate <$> es) 422
      | r => r
      end) ∧
   (∀ f, resolver_decode s = Some f → f = decode_pydantic s) ∧
   ∀ code es, Forall (λ e, Forall (λ p, 46 ∉ loc_str p ∧ loc_str p ≠ []) (loc e)) es →
     build_validation_error_response s code (translate <$> es) =
     mkResponse code [] (JObj [(u "detail", JArr ((λ e, JObj
       [(u "loc", JArr ((λ p, JStr (loc_str p)) <$> loc e)); (u "msg", JStr (msg e));
        (u "type", JStr (u "value_error"))]) <$> es))])).
Proof.
  split; [apply installed_fixed, install_installed|]. split.
  { unfold install_error_handlers at 2 3. destruct (exception_patched w) eqn:E; [|done].
    unfold install_error_handlers. by rewrite E. }
  intros (E0 & Ec & Eh & Eo & E1 & E2 & E3 & E4 & E5 & E6).
  destruct (cookies_fresh w Ec) as (fc & pc & Hcookie & Hfc).
  cbv zeta. unfold install_hawkapi_shims. rewrite Hcookie. clear Hcookie Ec.
  destruct w as [f0 p0 f1 p7 ar h o f2 p1 f3 f4 f5 p2 f6 f7 p3 f8 p4 f9 p5 f10 p6].
  cbn [exception_patched cookie_patched head_ options_ post_patched pydantic_patched
       validation_patched renderer_patched streaming_patched response_model_patched] in *.
  subst. simpl. repeat match goal with |- _ ∧ _ => split end; try done.
  - do 2 eexists. do 2 (split; [done|]). done.
  - intros hook Hh. rewrite !elem_of_cons, elem_of_nil in Hh.
    assert (hook = λ o, match o with BaseModel dump => Ok dump | _ => f3 o end) as -> by naive_solver.
    split; [done|]. intros o Ho. destruct o; try done. by destruct (Ho dump).
  - intros d ds m. exact (f_equal (λ r, r ≫= λ l, Ok (PyList l)) (dump_models (d :: ds))).
  - intros o c Ho. destruct o; try done. by destruct (Ho r).
  - intros f. destruct f7; [|done]. by intros [= <-].
  - intros code es HF. by rewrite <- location_kept.
Qed.
End shims_theorems.

(** ** Witness *)

Section shims_witnesses.
Import Shims.

(** A framework that registers routes in a list and encodes nothing itself. *)
Definition demo_framework : framework nat (list (pystr * nat * pystr)) unit unit :=
  mkFramework (λ e, mkResponse (status_code e) [] JNull) false (λ _ hs, hs) (λ _, false)
    (λ r p f m _, (p, f, m) :: r) None None (λ r p _ _ f, (p, f, u "POST") :: r) false
    (λ _, Err TypeError) (λ _, Err TypeError) (λ _, Err TypeError) false
    (λ _ _, PydanticValidationError [mkPydanticError [Key (u "files"); Index 0; Key (u "size")]
              (u "Input should be greater than 0") (JInt 0)]) None false
    (λ c _, mkResponse c [] JNull) false (λ o _, Ok o) false (λ o _, Ok o) false.

Lemma demo_fresh : fresh demo_framework.
Proof. repeat split. Qed.

(** A refused body, as the client sees it. *)
Lemma demo_rejection :
  let s := install_error_handlers (install_hawkapi_shims demo_framework) in
  match decode_pydantic s tt [] with
  | RequestValidationError es code => rs_body (build_validation_error_response s code es)
  | _ => JNull
  end = JObj [(u "detail", JArr [JObj
    [(u "loc", JArr [JStr (u "files"); JStr (u "0"); JStr (u "size")]);
     (u "msg", JStr (u "Input should be greater than 0")); (u "type", JStr (u "value_error"))]])].
Proof. vm_compute. reflexivity. Qed.

Lemma shims_spec_witness :
  let s := install_error_handlers (install_hawkapi_shims demo_framework) in
  decode_pydantic s tt [] =
    match decode_pydantic demo_framework tt [] with
    | PydanticValidationError es => RequestValidationError (translate <$> es) 422
    | r => r
    end.
Proof.
  destruct (shims_spec demo_framework) as (_ & _ & H).
  apply (H demo_fresh).
Defined.
End shims_witnesses.
