(* ===== verification/Admission.v ===== *)
(** Admission: what a transfer must satisfy to be created ([create_transfer]
    behind the captcha, blocklist, GeoIP and policy gates), and the rows a
    successful request leaves. *)
From S2P Require Import Prelude Text Services Sim Model Scenario Effects Storage Support Gates.
From S2P Require Import RateLimit Http Tus Transfers Public.

(** * Settings as the code reads them *)

Section settings_read.
Context {X : Services}.
Import Settings.

Definition json_setting (d : DB.t) (key : pystr) (dflt : json) : json :=
  match DB.settings d !! key with
  | Some r => match Setting.value r with JNull => dflt | v => v end
  | None => dflt
  end.

Definition int_setting (d : DB.t) (key : pystr) (dflt : Z) : Z :=
  default dflt (int_of (json_setting d key (JInt dflt))).

Definition bool_setting (d : DB.t) (key : pystr) (dflt : bool) : bool :=
  match json_setting d key (JBool dflt) with
  | JBool b => b
  | JStr s => bool_decide (lower s ∈ truth_words)
  | _ => dflt
  end.

Definition list_setting (d : DB.t) (key : pystr) (dflt : list json) : list json :=
  match json_setting d key (JArr dflt) with JArr l => l | _ => dflt end.

Lemma wp_setting key dflt w (Q : res json → World → Prop) :
  Q (Ok (json_setting (World.sess w) key dflt)) w → wp (Settings.get key dflt) w Q.
Proof.
  unfold Settings.get, json_setting. intros H. do 2 wp_step.
  destruct (DB.settings _ !! key) as [r|]; [|by wp_step]. by destruct (Setting.value r); wp_step.
Qed.

Lemma wp_get_int key dflt w (Q : res Z → World → Prop) :
  Q (Ok (int_setting (World.sess w) key dflt)) w → wp (get_int key dflt) w Q.
Proof. intros H. unfold get_int. wp_step. apply wp_setting. by wp_step. Qed.

Lemma wp_get_bool key dflt w (Q : res bool → World → Prop) :
  Q (Ok (bool_setting (World.sess w) key dflt)) w → wp (get_bool key dflt) w Q.
Proof.
  intros H. unfold get_bool. wp_step. apply wp_setting. unfold bool_setting in H.
  by destruct (json_setting _ _ _); wp_step.
Qed.

Lemma wp_get_list key dflt w (Q : res (list json) → World → Prop) :
  Q (Ok (list_setting (World.sess w) key dflt)) w → wp (get_list key dflt) w Q.
Proof.
  intros H. unfold get_list. wp_step. apply wp_setting. unfold list_setting in H.
  by destruct (json_setting _ _ _); wp_step.
Qed.

End settings_read.

(** * The gates *)

Section gates.
Context {X : Services} {XOk : ServicesOk} {C : Config}.
Import Public.

(** Only the clock and the entropy source have been read. *)
Definition later (w w' : World) : Prop := ∃ n, w' = Nat.iter n next_tick w.

Lemma later_refl w : later w w.
Proof. by exists 0%nat. Qed.

Lemma later_trans w1 w2 w3 : later w1 w2 → later w2 w3 → later w1 w3.
Proof. intros [n ->] [m ->]. exists (m + n)%nat. by rewrite Nat.iter_add. Qed.

Lemma later_tick w : later w (next_tick w).
Proof. by exists 1%nat. Qed.

Lemma later_spec w w' : later w w' → (World.tick w ≤ World.tick w')%nat ∧ agree [PTick] w w'.
Proof.
  intros [n ->]. induction n as [|n [IH1 IH2]]; [done|]. split; [simpl; lia|].
  etrans; [exact IH2|]. intros q Hq. destruct q; try done. exfalso. apply Hq. part_in.
Qed.

Lemma later_sess w w' : later w w' → World.sess w' = World.sess w.
Proof. intros [n ->]. by induction n. Qed.

Lemma later_clock w w' : later w w' → clock (World.tick w) ≤ clock (World.tick w').
Proof. intros [H _]%later_spec. by apply clock_mono. Qed.

(** The database, committed and in the session, is [d]. *)
Definition quiet (d : DB.t) (w : World) : Prop := World.db w = d ∧ World.sess w = d.

Lemma quiet_later d w w' : later w w' → quiet d w → quiet d w'.
Proof.
  intros Hl [H1 H2]. split; [|by rewrite (later_sess _ _ Hl)].
  apply later_spec in Hl as [_ Ha]. by rewrite (Ha PDb ltac:(part_notin) : World.db _ = _).
Qed.

(** What a refused request may leave in the database: nothing, or the one audit
    row of the gate that refused it, which names the event and the address. *)
Definition gate_events : list pystr :=
  [u "captcha_failed"; u "blocklist_hit"; u "geo_blocked"; u "policy_reject"].

Definition refused (ip : pystr) (d d' : DB.t) : Prop :=
  d' = d ∨ ∃ row, AuditLog.event_type row ∈ gate_events ∧ AuditLog.ip row = Some ip ∧
    AuditLog.admin_id row = None ∧ AuditLog.transfer_id row = None ∧
    d' = DB.set_audit_log (DB.audit_log d ++ [row]) d.

Lemma wp_alert_refused d ev sev msg ip details w :
  quiet d w → ev ∈ gate_events →
  wp (Alerts.alert ev sev msg (Some ip) None details) w (λ _ w', refused ip d (World.db w')).
Proof.
  intros [H1 H2] He. unfold Alerts.alert, Audit.write_event. wp_step.
  case_bool_decide; [|wp_step; by left]. do 4 wp_step. apply wp_commit; [|by left].
  assert (Hr : ∀ row, AuditLog.event_type row = ev → AuditLog.ip row = Some ip →
    AuditLog.admin_id row = None → AuditLog.transfer_id row = None →
    refused ip d (DB.set_audit_log (DB.audit_log d ++ [row]) d)).
  { intros row <- ? ? ?. right. by exists row. }
  case_match; [|wp_step; simpl; rewrite H2; by apply Hr].
  eapply wp_mono; [apply (touches_wp [PTick; PTelegram]); foot|].
  intros r w' Ha. rewrite (Ha PDb ltac:(part_notin) : World.db _ = _). simpl. rewrite H2. by apply Hr.
Qed.

(** What a gate promises: it refuses leaving at most its audit row, or lets
    through having only read the clock, and then [P] holds. *)
Definition guards {A} (ip : pystr) (m : M A) (P : World → A → World → Prop) : Prop :=
  ∀ d w, quiet d w → wp m w (λ r w',
    match r with Ok a => later w w' ∧ P w a w' | Err _ => refused ip d (World.db w') end).

Lemma refuse_alert {A} d ev sev msg ip details e w (Q : res A → World → Prop) :
  quiet d w → ev ∈ gate_events → (∀ e w', refused ip d (World.db w') → Q (Err e) w') →
  wp (Alerts.alert ev sev msg (Some ip) None details;; raise e) w Q.
Proof.
  intros Hq He HQ. wp_step. eapply wp_mono; [by apply (wp_alert_refused d)|].
  intros [[]|x] w' H; [wp_step|]; by apply HQ.
Qed.

(** ** The captcha *)

Definition captcha_passed (p : CreateTransferRequest.t) (ip : pystr) : Prop :=
  Captcha.required = true →
  let token := default [] (CreateTransferRequest.captcha_token p) in
  token ≠ [] ∧ ∃ status fields v,
    hcaptcha_post hcaptcha_secret token ip = Ok (status, JObj fields) ∧ status < 400 ∧
    assoc (u "success") fields = Some v ∧ jtruthy v = true.

Lemma wp_verify token ip w :
  wp (Captcha.verify token ip) w (λ r w', later w w' ∧ ∃ b, r = Ok b ∧
    (b = true → Captcha.required = true → token ≠ [] ∧ ∃ status fields v,
       hcaptcha_post hcaptcha_secret token ip = Ok (status, JObj fields) ∧ status < 400 ∧
       assoc (u "success") fields = Some v ∧ jtruthy v = true)).
Proof.
  unfold Captcha.verify. destruct Captcha.required; cbn [negb].
  2:{ wp_step. split; [apply later_refl|]. by exists true. }
  destruct token as [|c token]; cbn [nonempty negb].
  { wp_step. split; [apply later_refl|]. by exists false. }
  do 2 wp_step.
  assert (Hno : ∀ P : Prop, later w (next_tick w) ∧ ∃ b : bool, Ok false = Ok b ∧ (b = true → P)).
  { intros P. split; [apply later_tick|]. by exists false. }
  apply wp_call; [|wp_step; apply Hno]. do 2 wp_step.
  destruct (hcaptcha_post _ _ _) as [[status body]|e] eqn:E; [|wp_step; apply Hno].
  destruct (status >=? 400) eqn:Es; [wp_step; apply Hno|]. rewrite Z.geb_leb in Es. zbool.
  destruct body as [| | | | | |fields]; try (wp_step; wp_step; apply Hno).
  wp_step. destruct (assoc (u "success") fields) as [v|] eqn:Ev; [|apply Hno].
  split; [apply later_tick|]. exists (jtruthy v). split; [done|]. intros Hv _. split; [done|].
  by exists status, fields, v.
Qed.

Lemma captcha_gate_guards p ip :
  guards ip (captcha_gate p ip) (λ _ _ _, captcha_passed p ip).
Proof.
  intros d w Hq. unfold captcha_gate, captcha_passed.
  destruct Captcha.required eqn:Er; [|wp_step; split; [apply later_refl|done]].
  wp_step. eapply wp_mono; [apply wp_verify|]. intros r w1 (Hl & b & -> & Hb).
  destruct b.
  - wp_step. split; [done|]. intros _. by apply Hb.
  - apply (refuse_alert d); [by apply (quiet_later d w)|set_solver|done].
Qed.

(** ** The blocklists *)

Definition ip_hit (ip : pystr) (r : Blocklist.t) : bool := inet_contained ip (Blocklist.value r).
Definition email_hit (email : pystr) (r : Blocklist.t) : bool :=
  BlocklistChecker.citext_eqb (Blocklist.value r) email.
Definition domain_hit (email : pystr) (r : Blocklist.t) : bool :=
  has_char 64 email && nonempty (after_last 64 email) &&
  BlocklistChecker.citext_eqb (Blocklist.value r) (after_last 64 email).

(** No row of the table that matches is in force at [t]. *)
Definition free (hit : Blocklist.t → bool) (t : datetime) (m : gmap pystr Blocklist.t) : Prop :=
  ∀ k r, m !! k = Some r → hit r = true → BlocklistChecker._not_expired t r = false.

Lemma free_later hit t t' m : t ≤ t' → free hit t m → free hit t' m.
Proof.
  intros Ht H k r Hk Hr. specialize (H k r Hk Hr). unfold BlocklistChecker._not_expired in *.
  destruct (Blocklist.expires_at r) as [e|]; [|done]. rewrite Z.gtb_ltb in *. zbool. lia.
Qed.

Lemma some_row_false (p : Blocklist.t → bool) (m : gmap pystr Blocklist.t) :
  BlocklistChecker.some_row p m = false ↔ ∀ k r, m !! k = Some r → p r = false.
Proof.
  unfold BlocklistChecker.some_row. rewrite <- not_true_iff_false, existsb_exists. split.
  - intros H k r Hk. apply not_true_iff_false. intros Hp. apply H. exists r. split; [|done].
    apply list_elem_of_In, list_elem_of_fmap. exists (k, r). by rewrite elem_of_map_to_list.
  - intros H (r & Hr & Hp). apply list_elem_of_In, list_elem_of_fmap in Hr as ([k r'] & -> & Hk).
    apply elem_of_map_to_list in Hk. specialize (H _ _ Hk). simpl in Hp. congruence.
Qed.

Lemma free_spec hit t m :
  BlocklistChecker.some_row (λ r, hit r && BlocklistChecker._not_expired t r) m = false ↔
  free hit t m.
Proof.
  rewrite some_row_false. unfold free. split; intros H k r Hk.
  - intros Hr. specialize (H k r Hk). by rewrite Hr in H.
  - specialize (H k r Hk). destruct (hit r); [by apply H|done].
Qed.

Definition unblocked (d : DB.t) (sender ip : pystr) (t : datetime) : Prop :=
  inet_valid ip = true ∧ free (ip_hit ip) t (DB.blocklist_ips d) ∧
  free (email_hit sender) t (DB.blocklist_emails d) ∧
  free (domain_hit sender) t (DB.blocklist_domains d).

Lemma wp_check_ip ip w (Q : res bool → World → Prop) :
  (∀ e, Q (Err e) (next_tick w)) →
  (∀ b, (b = false → inet_valid ip = true ∧
          free (ip_hit ip) (clock (World.tick w)) (DB.blocklist_ips (World.sess w))) →
        Q (Ok b) (next_tick w)) →
  wp (BlocklistChecker.check_ip ip) w Q.
Proof.
  intros HE HQ. unfold BlocklistChecker.check_ip. do 2 wp_step.
  destruct (inet_valid ip) eqn:E; cbn [negb]; [|by wp_step]. wp_step. apply HQ.
  intros H. split; [done|]. by apply free_spec in H.
Qed.

Lemma wp_check_email email w (Q : res bool → World → Prop) :
  (∀ b, (b = false →
          free (email_hit email) (clock (World.tick w)) (DB.blocklist_emails (World.sess w))) →
        Q (Ok b) (next_tick w)) →
  wp (BlocklistChecker.check_email email) w Q.
Proof.
  intros HQ. unfold BlocklistChecker.check_email. do 2 wp_step. wp_step. apply HQ.
  intros H. by apply free_spec in H.
Qed.

Lemma wp_check_domain email w (Q : res bool → World → Prop) :
  (∀ b w', later w w' →
     (b = false →
        free (domain_hit email) (clock (World.tick w)) (DB.blocklist_domains (World.sess w))) →
     Q (Ok b) w') →
  wp (BlocklistChecker.check_email_domain email) w Q.
Proof.
  intros HQ. unfold BlocklistChecker.check_email_domain, domain_hit in *.
  destruct (has_char 64 email) eqn:E1; cbn [negb andb] in *.
  2:{ wp_step. apply HQ; [apply later_refl|]. by intros _ k r _. }
  destruct (nonempty (after_last 64 email)) eqn:E2; cbn [negb andb] in *.
  2:{ wp_step. apply HQ; [apply later_refl|]. by intros _ k r _. }
  do 2 wp_step. wp_step. apply HQ; [apply later_tick|]. intros H. by apply free_spec in H.
Qed.

Lemma blocklist_gate_guards sender ip :
  guards ip (blocklist_gate sender ip)
    (λ w _ w', unblocked (World.sess w) sender ip (clock (World.tick w'))).
Proof.
  intros d w Hq. unfold blocklist_gate.
  assert (Hb : ∀ m k e (Q : res unit → World → Prop) w1, later w w1 →
    (∀ e w', refused ip d (World.db w') → Q (Err e) w') → wp (block_alert m ip k e) w1 Q).
  { intros m k e Q w1 Hl HQ. apply (refuse_alert d); [by apply (quiet_later d w)|set_solver|done]. }
  wp_step. apply wp_check_ip; [intros e; left; apply Hq|]. intros [] H1.
  { apply Hb; [apply later_tick|done]. }
  specialize (H1 eq_refl) as [Hv H1]. wp_step. apply wp_check_email. intros [] H2.
  { apply Hb; [by exists 2%nat|done]. }
  specialize (H2 eq_refl). wp_step. apply wp_check_domain. intros [] w3 Hl H3.
  { apply Hb; [|done]. eapply later_trans, Hl. by exists 2%nat. }
  specialize (H3 eq_refl). assert (Hw : later w w3) by (eapply later_trans, Hl; by exists 2%nat).
  wp_step. split; [done|].
  pose proof (later_clock _ _ Hw). pose proof (later_clock _ _ Hl) as H4. simpl in H4.
  assert (H5 : clock (World.tick w) ≤ clock (S (World.tick w))) by (apply clock_mono; lia).
  assert (H6 : clock (S (World.tick w)) ≤ clock (S (S (World.tick w)))) by (apply clock_mono; lia).
  split; [done|]. simpl in *.
  split_and!; (eapply free_later; [|eassumption]); lia.
Qed.

(** ** The country *)

Definition country_ok (d : DB.t) (ip : pystr) : Prop :=
  geoip_enabled = true → bool_setting d (u "geoip_enabled") false = true →
  ∀ c, GeoIP.country ip = Some c → ∃ codes,
    GeoIP.upper_set (list_setting d (u "geoip_countries") [JStr (u "KZ"); JStr (u "UZ"); JStr (u "KG")])
      = Ok codes ∧ upper c ∈ codes.

Lemma geoip_gate_guards ip :
  guards ip (geoip_gate ip) (λ w c _, country_ok (World.sess w) ip ∧ c = GeoIP.country ip).
Proof.
  intros d w Hq. unfold geoip_gate, country_ok. wp_step. apply wp_get_bool. wp_step.
  apply wp_get_list. set (allowed := list_setting _ _ _).
  assert (Hc : geoip_enabled = false → GeoIP.country ip = None).
  { intros H. unfold GeoIP.country. by rewrite H. }
  destruct geoip_enabled eqn:Eg.
  2:{ wp_step. rewrite (Hc eq_refl). split; [apply later_refl|done]. }
  assert (Hpass : ∀ P : Prop, P → later w w ∧ P ∧ GeoIP.country ip = GeoIP.country ip).
  { intros P HP. split; [apply later_refl|done]. }
  wp_step. destruct (bool_setting _ _ _).
  2:{ wp_step. wp_step. apply Hpass. done. }
  wp_step. unfold GeoIP.is_country_allowed. rewrite Eg. cbn [negb].
  destruct (GeoIP.country ip) as [c|].
  2:{ wp_step. apply Hpass. done. }
  destruct (GeoIP.upper_set allowed) as [codes|e]; cbn; [|left; apply Hq].
  case_bool_decide as Hin.
  - wp_step. apply Hpass. intros _ _ c' [= <-]. eauto.
  - apply (refuse_alert d); [done|set_solver|done].
Qed.

(** ** The policy *)

Definition total_of (files : list FileDescriptor.t) : Z :=
  foldr Z.add 0 (FileDescriptor.size <$> files).

(** The limits of the settings, and no forbidden extension in any file name. *)
Definition within_policy (d : DB.t) (files : list FileDescriptor.t) (recipients : Z) : Prop :=
  recipients ≤ int_setting d (u "max_recipients") 20 ∧
  total_of files ≤ int_setting d (u "max_transfer_size_gb") 2 * Policy.GB ∧
  ∃ blacklist, Policy.lower_set (list_setting d (u "extension_blacklist") []) = Ok blacklist ∧
    ∀ f ext, f ∈ files → ext ∈ Policy._extensions_of (FileDescriptor.filename f) → ext ∉ blacklist.

(** An extension of one of the files that is on the list. *)
Definition forbidden (blacklist : list pystr) (files : list FileDescriptor.t) (ext : pystr) : Prop :=
  ext ∈ blacklist ∧ ∃ f, f ∈ files ∧ ext ∈ Policy._extensions_of (FileDescriptor.filename f).

Lemma first_forbidden_none l files :
  Policy.first_forbidden l files = None →
  ∀ f ext, f ∈ files → ext ∈ Policy._extensions_of (FileDescriptor.filename f) → ext ∉ l.
Proof.
  unfold Policy.first_forbidden. intros H f ext Hf He Hl.
  assert (Hin : ext ∈ filter (λ e, e ∈ l)
    (concat ((λ f, Policy._extensions_of (FileDescriptor.filename f)) <$> files))).
  { apply list_elem_of_filter. split; [done|]. apply list_elem_of_In, in_concat.
    exists (Policy._extensions_of (FileDescriptor.filename f)).
    rewrite <- !list_elem_of_In. split; [|done]. apply list_elem_of_fmap. eauto. }
  destruct (filter _ _); [|done]. by apply not_elem_of_nil in Hin.
Qed.

Lemma first_forbidden_some l files ext :
  Policy.first_forbidden l files = Some ext → forbidden l files ext.
Proof.
  unfold Policy.first_forbidden. intros H. destruct (filter _ _) as [|e es] eqn:E; [done|].
  injection H as ->. assert (Hin : ext ∈ ext :: es) by by left. rewrite <- E in Hin.
  apply list_elem_of_filter in Hin as [Hl Hin]. split; [done|].
  apply list_elem_of_In, in_concat in Hin as (x & Hx & He). rewrite <- !list_elem_of_In in *.
  apply list_elem_of_fmap in Hx as (f & -> & Hf). eauto.
Qed.

(** [Policy.check] on every branch. *)
Definition policy_outcome (d : DB.t) (files : list FileDescriptor.t) (recipients : Z) (r : res unit)
  : Prop :=
  let max_recipients := int_setting d (u "max_recipients") 20 in
  let max_gb := int_setting d (u "max_transfer_size_gb") 2 in
  match r with
  | Ok _ => within_policy d files recipients
  | Err e =>
      (recipients > max_recipients ∧
         e = PolicyViolation (u "too many recipients (max " ++ str_int max_recipients ++ u ")") 422) ∨
      (recipients ≤ max_recipients ∧ total_of files > max_gb * Policy.GB ∧
         e = PolicyViolation (u "total size exceeds " ++ str_int max_gb ++ u " GB") 413) ∨
      (recipients ≤ max_recipients ∧ total_of files ≤ max_gb * Policy.GB ∧
         ((Policy.lower_set (list_setting d (u "extension_blacklist") []) = Err e ∧ e = AttributeError) ∨
          ∃ blacklist ext, Policy.lower_set (list_setting d (u "extension_blacklist") []) = Ok blacklist ∧
            forbidden blacklist files ext ∧
            e = PolicyViolation (u "file extension " ++ ext ++ u " is not allowed") 422))
  end.

Lemma lower_set_err l e : Policy.lower_set l = Err e → e = AttributeError.
Proof.
  induction l as [|[] l IH]; simpl; try (by intros; simplify_eq).
  destruct (Policy.lower_set l); [done|]. intros; simplify_eq/=. by apply IH.
Qed.

Lemma wp_policy files n w :
  wp (Policy.check files n) w (λ r w', w' = w ∧ policy_outcome (World.sess w) files n r).
Proof.
  unfold Policy.check, policy_outcome, within_policy. wp_step. apply wp_get_int. wp_step.
  apply wp_get_int. wp_step. apply wp_get_list. fold (total_of files). rewrite !Z.gtb_ltb.
  destruct (_ <? _) eqn:E1; zbool; [wp_step; split; [done|]; left; split; [lia|done]|].
  destruct (_ <? total_of files) eqn:E2; zbool.
  { wp_step. split; [done|]. right; left. split_and!; [lia|lia|done]. }
  wp_step. wp_step. destruct (Policy.lower_set _) as [bl|e] eqn:El.
  - destruct (Policy.first_forbidden bl files) as [ext|] eqn:Ef; wp_step; split; try done.
    + right; right. split_and!; [lia|lia|]. right. exists bl, ext.
      split_and!; [done|by apply first_forbidden_some|done].
    + split_and!; [lia|lia|]. exists bl. split; [done|]. by apply first_forbidden_none.
  - split; [done|]. right; right. split_and!; [lia|lia|]. left. split; [done|]. by eapply lower_set_err.
Qed.

Lemma policy_gate_guards p ip :
  guards ip (policy_gate p ip) (λ w _ _, within_policy (World.sess w) (CreateTransferRequest.files p)
                                         (zlen (CreateTransferRequest.recipient_emails p))).
Proof.
  intros d w Hq. unfold policy_gate. wp_step. eapply wp_mono; [apply wp_policy|].
  intros [[]|e] w1 [-> H].
  - split; [apply later_refl|exact H].
  - destruct e; try (wp_step; left; apply Hq). apply (refuse_alert d); [done|set_solver|done].
Qed.

End gates.

(** * The rows of a new transfer *)

Section dicts.
Context {A : Type}.

Lemma dict_set_keys (k : pystr) (v : A) l :
  (dict_set k v l).*1 = if decide (k ∈ l.*1) then l.*1 else l.*1 ++ [k].
Proof.
  induction l as [|[a b] l IH]; [done|]. cbn [dict_set]. rewrite fmap_cons. cbn [fst].
  destruct (decide (k = a)) as [->|Hn]; rewrite fmap_cons; cbn [fst].
  - rewrite decide_True; [done|by left].
  - rewrite IH. destruct (decide (k ∈ l.*1)) as [Hk|Hk].
    + rewrite decide_True; [done|by right].
    + rewrite decide_False; [done|]. by rewrite elem_of_cons; intros [?|?].
Qed.

Lemma elem_of_dict_set (k : pystr) (v : A) l x :
  x ∈ dict_set k v l → x = (k, v) ∨ x ∈ l.
Proof.
  induction l as [|[a b] l IH]; simpl; [rewrite list_elem_of_singleton; auto|].
  case_decide; rewrite !elem_of_cons; subst; naive_solver.
Qed.

Lemma dict_set_NoDup (k : pystr) (v : A) l : NoDup l.*1 → NoDup (dict_set k v l).*1.
Proof.
  rewrite dict_set_keys. intros H. case_decide; [done|]. apply NoDup_app. split; [done|].
  split; [|apply NoDup_singleton]. intros x Hx ->%list_elem_of_singleton. done.
Qed.

End dicts.

(** The rows [rs], new to the table [m] and each under its own key, were added. *)
Definition add_all {V} (k : V → Z) (rs : list V) (m : gmap Z V) : gmap Z V :=
  foldl (λ m r, <[k r := r]> m) m rs.

Definition added {V} (k : V → Z) (rs : list V) (m m' : gmap Z V) : Prop :=
  m' = add_all k rs m ∧ NoDup (k <$> rs) ∧ Forall (λ r, m !! k r = None) rs.

Lemma lookup_add_all {V} (k : V → Z) rs (m : gmap Z V) i :
  add_all k rs m !! i = None ↔ i ∉ k <$> rs ∧ m !! i = None.
Proof.
  unfold add_all. revert m. induction rs as [|r rs IH]; intros m; simpl.
  - split; [intros H; split; [apply not_elem_of_nil|done]|by intros [_ H]].
  - rewrite IH, lookup_insert_None, not_elem_of_cons. naive_solver.
Qed.

Lemma added_snoc {V} (k : V → Z) rs r (m m' : gmap Z V) :
  added k rs m m' → m' !! k r = None → added k (rs ++ [r]) m (<[k r := r]> m').
Proof.
  intros (-> & Hn & Hf) [Hk Hm]%lookup_add_all. unfold added, add_all.
  rewrite foldl_app, fmap_app. split; [done|]. split.
  - apply NoDup_app. split; [done|]. split; [|apply NoDup_singleton].
    intros x Hx ->%list_elem_of_singleton. done.
  - apply Forall_app. by split; [|constructor].
Qed.

Section create.
Context {X : Services} {XOk : ServicesOk} {C : Config}.
Import TransferService.

(** The row of a file as it is created, before any upload. *)
Definition file_row (tid : uuid) (f : FileDescriptor.t) (r : TransferFile.t) : Prop :=
  let safe := Staging.safe_filename (FileDescriptor.filename f) in
  r = TransferFile.mk (TransferFile.id r) tid (FileDescriptor.filename f) safe
        (u "application/octet-stream") (last_suffix safe) (FileDescriptor.size f)
        (Storage.object_key tid (TransferFile.id r)) (replicate 12 0) (replicate 32 0).

Definition recipient_row (tid : uuid) (email : pystr) (r : TransferRecipient.t) : Prop :=
  r = TransferRecipient.mk (TransferRecipient.id r) tid email None (Some (u "queued")) None.

Definition upload_url (base : pystr) (tid fid : uuid) : pystr :=
  base ++ u "/api/transfers/" ++ uuid_str tid ++ u "/files/" ++ uuid_str fid.

(** One URL per distinct name, each that of a file of that name. *)
Definition urls_for (base : pystr) (tid : uuid) (fs : list TransferFile.t)
    (urls : list (pystr * pystr)) : Prop :=
  NoDup urls.*1 ∧ (∀ f, f ∈ fs → TransferFile.filename f ∈ urls.*1) ∧
  (∀ name url, (name, url) ∈ urls → ∃ f, f ∈ fs ∧ TransferFile.filename f = name ∧
     url = upload_url base tid (TransferFile.id f)).

Lemma wp_add_recipients tid emails w (Q : res unit → World → Prop) :
  (∀ e w', agree [PTick; PRecipients] w w' → Q (Err e) w') →
  (∀ rs w', agree [PTick; PRecipients] w w' → (World.tick w ≤ World.tick w')%nat →
     added TransferRecipient.id rs (DB.recipients (World.sess w)) (DB.recipients (World.sess w')) →
     Forall2 (recipient_row tid) emails rs → Q (Ok tt) w') →
  wp (for_ emails (add_one_recipient tid)) w Q.
Proof.
  intros HE HQ.
  apply (wp_for _ _ _ (λ pre w', agree [PTick; PRecipients] w w' ∧ (World.tick w ≤ World.tick w')%nat ∧ ∃ rs,
    added TransferRecipient.id rs (DB.recipients (World.sess w)) (DB.recipients (World.sess w')) ∧
    Forall2 (recipient_row tid) pre rs)).
  - split; [done|]. split; [done|]. exists []. split; [|constructor]. split; [done|]. split; constructor.
  - intros pre e post w1 _ [Ha [Hk (rs & Hrs & Hf)]]. unfold add_one_recipient, add_recipient.
    wp_step. wp_step. wp_step. wp_step. case_bool_decide as Hc.
    + wp_step. apply HE. etrans; [exact Ha|]. intros q Hq. destruct q; try done. exfalso. apply Hq. part_in.
    + wp_step. apply eq_None_not_Some in Hc. split.
      * etrans; [exact Ha|]. intros q Hq. destruct q; try done; exfalso; apply Hq; part_in.
      * split; [simpl; lia|]. eexists. split; [by apply added_snoc|]. apply Forall2_app; [done|]. by constructor.
  - intros w1 [Ha [Hk (rs & Hrs & Hf)]]. by apply (HQ rs).
Qed.

Lemma wp_add_files tid base fs w (Q : res (list (pystr * pystr)) → World → Prop) :
  (∀ e w', agree [PTick; PFiles] w w' → Q (Err e) w') →
  (∀ rs urls w', agree [PTick; PFiles] w w' → (World.tick w ≤ World.tick w')%nat →
     added TransferFile.id rs (DB.files (World.sess w)) (DB.files (World.sess w')) →
     Forall2 (file_row tid) fs rs → urls_for base tid rs urls → Q (Ok urls) w') →
  wp (fold_m (add_one_file tid base) [] fs) w Q.
Proof.
  intros HE HQ.
  apply (wp_fold _ _ _ _ (λ pre urls w', agree [PTick; PFiles] w w' ∧ (World.tick w ≤ World.tick w')%nat ∧ ∃ rs,
    added TransferFile.id rs (DB.files (World.sess w)) (DB.files (World.sess w')) ∧
    Forall2 (file_row tid) pre rs ∧ urls_for base tid rs urls)).
  - split; [done|]. split; [done|]. exists []. split; [split; [done|]; split; constructor|]. split; [constructor|].
    split; [constructor|]. split; [by intros f H%not_elem_of_nil|by intros n x H%not_elem_of_nil].
  - intros pre f post urls w1 _ [Ha [Hk (rs & Hrs & Hf & Hn & Hu & Hv)]]. unfold add_one_file, add_file.
    do 4 wp_step. wp_step. case_bool_decide as Hc.
    + wp_step. apply HE. etrans; [exact Ha|]. intros q Hq. destruct q; try done. exfalso. apply Hq. part_in.
    + wp_step. wp_step. apply eq_None_not_Some in Hc. split.
      * etrans; [exact Ha|]. intros q Hq. destruct q; try done; exfalso; apply Hq; part_in.
      * split; [simpl; lia|]. eexists. split; [by apply added_snoc|]. split; [apply Forall2_app; [done|by constructor]|].
        split; [by apply dict_set_NoDup|]. split.
        -- intros g. rewrite elem_of_app, list_elem_of_singleton, dict_set_keys.
           intros [Hg| ->]; case_decide; rewrite ?elem_of_app; auto.
           right. by left.
        -- intros name url [[= -> ->]|H]%elem_of_dict_set.
           ++ eexists. split; [apply elem_of_app; right; by left|]. done.
           ++ apply Hv in H as (g & Hg & H). exists g. split; [|done]. apply elem_of_app. by left.
  - intros urls w1 [Ha [Hk (rs & Hrs & Hf & H)]]. by apply (HQ rs).
Qed.

(** A transfer that was admitted at the time of its row, its rows, and what the
    database holds besides; [before] and [after] count the observations of the
    outside world made when the request began and when it ended. *)
Record created (p : CreateTransferRequest.t) (ip : pystr) (ua : option pystr) (d d' : DB.t)
    (before after : nat) (resp : CreateTransferResponse) (t : Transfer.t) (fs : list TransferFile.t)
    (rs : list TransferRecipient.t) : Prop := mkCreated {
  cr_captcha : captcha_passed p ip;
  cr_unblocked : unblocked d (CreateTransferRequest.sender_email p) ip (Transfer.created_at t);
  cr_country : country_ok d ip;
  cr_policy : within_policy d (CreateTransferRequest.files p)
                (zlen (CreateTransferRequest.recipient_emails p));
  cr_transfer : t = Transfer.mk (r_transfer_id resp) (r_download_token resp) (r_manage_token resp)
    (CreateTransferRequest.sender_email p) ip (GeoIP.country ip) None ua
    (CreateTransferRequest.message p) Uploading None (CreateTransferRequest.total_size p)
    (CreateTransferRequest.file_count p) (Transfer.created_at t) (r_expires_at resp) None None None;
  cr_times : ∃ n m, (before ≤ n ≤ m)%nat ∧ (m < after)%nat ∧
    r_expires_at resp = clock n + CreateTransferRequest.ttl_days p * day ∧
    Transfer.created_at t = clock m;
  cr_rest : d' = DB.set_recipients (DB.recipients d')
                   (DB.set_files (DB.files d') (DB.set_transfers (DB.transfers d') d));
  cr_transfers : DB.transfers d' = <[Transfer.id t := t]> (DB.transfers d);
  cr_fresh : DB.transfers d !! Transfer.id t = None ∧
    ∀ i t', DB.transfers d !! i = Some t' →
      Transfer.token t' ≠ Transfer.token t ∧ Transfer.manage_token t' ≠ Transfer.manage_token t;
  cr_files : added TransferFile.id fs (DB.files d) (DB.files d') ∧
    Forall2 (file_row (Transfer.id t)) (CreateTransferRequest.files p) fs;
  cr_recipients : added TransferRecipient.id rs (DB.recipients d) (DB.recipients d') ∧
    Forall2 (recipient_row (Transfer.id t)) (CreateTransferRequest.recipient_emails p) rs;
  cr_urls : urls_for [] (Transfer.id t) fs (r_upload_urls resp)
}.

Lemma agree_sess_rows w w' :
  agree [PTick; PTransfers; PFiles; PRecipients] w w' →
  World.sess w' = DB.set_recipients (DB.recipients (World.sess w'))
    (DB.set_files (DB.files (World.sess w'))
       (DB.set_transfers (DB.transfers (World.sess w')) (World.sess w))).
Proof.
  intros Ha.
  pose proof (Ha PDownloads ltac:(part_notin)) as H3. pose proof (Ha PAudit ltac:(part_notin)) as H4.
  pose proof (Ha PActions ltac:(part_notin)) as H5. pose proof (Ha PAdmins ltac:(part_notin)) as H6.
  pose proof (Ha PBlock ltac:(part_notin)) as [H7 [H8 H9]].
  pose proof (Ha PSettings ltac:(part_notin)) as H10. simpl in *.
  destruct (World.sess w'), (World.sess w). simpl in *.
  unfold DB.set_transfers, DB.set_files, DB.set_recipients. simpl. congruence.
Qed.

(** The rows [create] adds to the session. *)
Lemma wp_service_create p ip ua country w (Q : res CreateTransferResponse → World → Prop) :
  (∀ e w', World.db w' = World.db w → Q (Err e) w') →
  (∀ resp t fs rs w', World.db w' = World.db w →
     t = Transfer.mk (r_transfer_id resp) (r_download_token resp) (r_manage_token resp)
       (CreateTransferRequest.sender_email p) ip country None ua
       (CreateTransferRequest.message p) Uploading None (CreateTransferRequest.total_size p)
       (CreateTransferRequest.file_count p) (Transfer.created_at t) (r_expires_at resp) None None None →
     (∃ n m, (World.tick w ≤ n ≤ m)%nat ∧ (m < World.tick w')%nat ∧
        r_expires_at resp = clock n + CreateTransferRequest.ttl_days p * day ∧
        Transfer.created_at t = clock m) →
     agree [PTick; PTransfers; PFiles; PRecipients] w w' →
     DB.transfers (World.sess w') = <[Transfer.id t := t]> (DB.transfers (World.sess w)) →
     DB.transfers (World.sess w) !! Transfer.id t = None →
     (∀ i t', DB.transfers (World.sess w) !! i = Some t' →
        Transfer.token t' ≠ Transfer.token t ∧ Transfer.manage_token t' ≠ Transfer.manage_token t) →
     added TransferFile.id fs (DB.files (World.sess w)) (DB.files (World.sess w')) →
     Forall2 (file_row (Transfer.id t)) (CreateTransferRequest.files p) fs →
     added TransferRecipient.id rs (DB.recipients (World.sess w)) (DB.recipients (World.sess w')) →
     Forall2 (recipient_row (Transfer.id t)) (CreateTransferRequest.recipient_emails p) rs →
     urls_for [] (Transfer.id t) fs (r_upload_urls resp) → Q (Ok resp) w') →
  wp (create p ip ua country None []) w Q.
Proof.
  intros HE HQ. unfold create, add_transfer. do 10 wp_step. wp_step. wp_step. wp_step.
  destruct (_ || _) eqn:Ec; [wp_step; by apply HE|]. wp_step. wp_step.
  apply orb_false_iff in Ec as [Hid Htok]. apply bool_decide_eq_false_1, eq_None_not_Some in Hid.
  match type of Hid with _ !! Transfer.id ?t0 = _ => set (t := t0) in * end.
  apply wp_add_recipients; [intros e w1 Ha; apply HE; exact (Ha PDb ltac:(part_notin))|].
  intros rs w1 Ha1 Hk1 Hr Hr2. wp_step.
  pose proof (Ha1 PDb ltac:(part_notin)) as Hd1. simpl in Hd1.
  pose proof (Ha1 PFiles ltac:(part_notin)) as Hf1. simpl in Hf1.
  pose proof (Ha1 PTransfers ltac:(part_notin)) as Ht1. simpl in Ht1.
  apply wp_add_files.
  { intros e w2 Ha. apply HE. pose proof (Ha PDb ltac:(part_notin)) as Hd. simpl in Hd. congruence. }
  intros fs urls w2 Ha2 Hk2 Hf Hf2 Hu. wp_step.
  pose proof (Ha2 PDb ltac:(part_notin)) as Hd2. pose proof (Ha2 PRecipients ltac:(part_notin)) as Hr3.
  pose proof (Ha2 PTransfers ltac:(part_notin)) as Ht2. simpl in Hd2, Hr3, Ht2.
  apply (HQ _ t fs rs).
  - congruence.
  - reflexivity.
  - eexists _, _. split; [|split; [|split; reflexivity]].
    + simpl. lia.
    + simpl in Hk1 |- *. lia.
  - intros q Hq. assert (Hq' : q ∉ [PTick; PRecipients] ∧ q ∉ [PTick; PFiles]) by (split; set_solver).
    pose proof (Ha1 q (proj1 Hq')) as A1. pose proof (Ha2 q (proj2 Hq')) as A2.
    destruct q; simpl in A1, A2 |- *; try congruence; try (exfalso; apply Hq; part_in);
      destruct_and!; split_and!; congruence.
  - exact (eq_trans Ht2 Ht1).
  - exact Hid.
  - intros i t' Hi. simpl in Htok. rewrite <- not_true_iff_false, existsb_exists in Htok.
    split; intros He; apply Htok; exists t'; (split;
      [apply list_elem_of_In, list_elem_of_fmap; exists (i, t'); by rewrite elem_of_map_to_list|]);
      apply orb_true_iff; [left|right]; by apply bool_decide_eq_true_2.
  - by rewrite <- Hf1.
  - done.
  - by rewrite Hr3.
  - done.
  - done.
Qed.


End create.

(** * Witnesses *)

Section admission_witnesses.
#[local] Instance demo_services : Services := Sim.calm.
#[local] Instance demo_services_ok : ServicesOk := Sim.calm_ok.
#[local] Instance demo_config : Config := Demo.config.

Definition demo_payload : CreateTransferRequest.t :=
  CreateTransferRequest.mk (u "bob@example.org") [u "ann@example.org"] None 3
    [FileDescriptor.mk (u "a.txt") 3; FileDescriptor.mk (u "b.pdf") 4] None.
Definition demo_rq : Request := mkRequest [] (Some (u "192.0.2.1")) [].
Definition demo_world : World := Demo.world empty_db.


End admission_witnesses.
