(* ===== verification/Typed.v ===== *)
(** The settings table stays well typed: the migrations fill it with values of
    the types the code reads, every request that writes a setting writes one of
    its type, and nothing ever removes one. *)
From S2P Require Import Prelude Text Services Sim Model Scenario Effects Storage Support Gates RateLimit Http.
From S2P Require Import Envelope Session Auth Tus Transfers Public Page Worker.
From S2P Require Import AdminAuth AdminApi AdminUsers Telegram Rotation Lifecycle System Admission Seeds.
#[local] Open Scope Z_scope.

(** * Types of settings *)

Section types.
Context {X : Services} {C : Config}.
Import AdminSettings AdminTelegram.

Definition toggles : list pystr := [ON_INFECTED; ON_RATE_LIMIT; ON_LOGIN_FAIL; ON_STORAGE; ON_DEFENDER].

(** What a bot token is stored as: nothing, or a wrapped blob. *)
Definition token_value (v : json) : bool :=
  match v with
  | JStr [] => true
  | JObj [(k, JStr _)] => bool_decide (k = u "wrapped")
  | _ => false
  end.

Definition in_range (ge : Z) (le : option Z) (n : Z) : Prop :=
  ge ≤ n ∧ match le with Some m => n ≤ m | None => True end.

#[local] Instance in_range_dec ge le n : Decision (in_range ge le n).
Proof. unfold in_range. destruct le; apply _. Defined.

(** The values of a field: null, or a value of its type within its bounds. *)
Definition field_ok (f : Field) (v : json) : bool :=
  match f, v with
  | _, JNull => true
  | IntField ge le, JInt n => bool_decide (in_range ge le n)
  | BoolField, JBool _ => true
  | StrListField, JArr l => forallb is_jstr l
  | _, _ => false
  end.

Lemma within_spec ge le n : within ge le n = true → in_range ge le n.
Proof. unfold within, in_range. destruct le; intros; zbool; split; try done; lia. Qed.

Lemma coerce_ok f v v' : coerce f v = Some v' → field_ok f v' = true.
Proof.
  assert (Hnull : ∀ f', Some JNull = Some v' → field_ok f' v' = true)
    by (intros [] [= <-]; done).
  destruct f as [ge le| |].
  - assert (Hint : ∀ o, (n ← o; if within ge le n then Some (JInt n) else None) = Some v' →
      field_ok (IntField ge le) v' = true).
    { intros [n|]; [|done]. simpl. destruct (within ge le n) eqn:E; [|done]. intros [= <-].
      by apply bool_decide_eq_true_2, within_spec. }
    destruct v; [apply Hnull|apply Hint..].
  - assert (Hbool : ∀ o, JBool <$> o = Some v' → field_ok BoolField v' = true)
      by (intros [b|]; [by intros [= <-]|done]).
    destruct v; [apply Hnull|apply Hbool..].
  - destruct v as [| | | | |l|]; try done; [apply Hnull|]. simpl.
    destruct (forallb is_jstr l) eqn:E; [|done]. by intros [= <-].
Qed.

Definition type_ok (key : pystr) (v : json) : bool :=
  match assoc key fields with
  | Some f => field_ok f v
  | None =>
      if decide (key = BOT_TOKEN) then token_value v
      else if decide (key = CHAT_ID) then is_jstr v
      else if decide (key = THRESHOLD) then match v with JInt n => threshold_ok n | _ => false end
      else if decide (key ∈ toggles) then match v with JBool _ => true | _ => false end
      else true
  end.

Definition well_typed (m : gmap pystr Setting.t) : Prop :=
  ∀ k r, m !! k = Some r → Setting.key r = k ∧ type_ok k (Setting.value r) = true.

(** Well typed, and with at least the keys of [m0]. *)
Definition sound (m0 m : gmap pystr Setting.t) : Prop :=
  well_typed m ∧ ∀ k, is_Some (m0 !! k) → is_Some (m !! k).

Definition settled (m0 : gmap pystr Setting.t) (w : World) : Prop :=
  sound m0 (DB.settings (World.db w)) ∧ sound m0 (DB.settings (World.sess w)).

Lemma sound_insert m0 m k v t b :
  sound m0 m → type_ok k v = true → sound m0 (<[k := Setting.mk k v t b]> m).
Proof.
  intros [Hm Hk] Hv. split.
  - intros k' r. rewrite lookup_insert. case_decide; [subst; by intros [= <-]|apply Hm].
  - intros k' [r Hr]%Hk. rewrite lookup_insert. case_decide; eauto.
Qed.

Context (m0 : gmap pystr Setting.t).

Definition all_but_settings : list part :=
  [PTransfers; PFiles; PRecipients; PDownloads; PAudit; PActions; PAdmins; PBlock; PRedis; PBucket;
   PFs; PTick; PSmtp; PTelegram; PRid; PCache; PKeys].

Lemma stays_foot {A} (m : M A) : touches all_but_settings m → preserves (settled m0) m.
Proof.
  apply preserves_foot. intros w w' Ha [H1 H2]. unfold settled.
  rewrite (Ha PDb ltac:(part_notin) : World.db _ = _).
  by rewrite (Ha PSettings ltac:(part_notin) : DB.settings _ = _).
Qed.

Lemma stays_commit : preserves (settled m0) commit.
Proof. intros w [H1 H2]. by apply wp_commit. Qed.

Lemma stays_rollback : preserves (settled m0) rollback.
Proof. intros w [H1 H2]. by apply wp_rollback. Qed.

Lemma stays_with_session {A} (m : M A) :
  preserves (settled m0) m → preserves (settled m0) (with_session m).
Proof.
  intros Hm w [H1 H2]. apply wp_with_session. eapply wp_mono; [by apply Hm|].
  by intros r w' [H3 H4].
Qed.

Lemma stays_put_setting k v t b :
  type_ok k v = true → preserves (settled m0) (put_setting k v t b).
Proof. intros Hv w [H1 H2]. apply wp_modify_db. split; [done|]. by apply sound_insert. Qed.

End types.

(** The settings survive an operation that does not write them, by its
    structure; definitions are opened on the way. *)
Ltac head_of m := lazymatch m with ?f _ => head_of f | _ => m end.
Ltac stay_leaf := solve [apply stays_foot; unfold all_but_settings; foot].
Ltac stay_step :=
  lazymatch goal with
  | |- preserves _ (mbind _ _) => apply preserves_bind; [|intros ?]
  | |- preserves _ (mret _) => apply preserves_ret
  | |- preserves _ (raise _) => apply preserves_raise
  | |- preserves _ (try_except _ _) => apply preserves_try_except; [|intros ?]
  | |- preserves _ (try_finally _ _) => apply preserves_try_finally
  | |- preserves _ (suppress _) => apply preserves_suppress
  | |- preserves _ (for_ _ _) => apply preserves_for; intros ? ?
  | |- preserves _ (fold_m _ _ _) => apply preserves_fold; intros ? ? ?
  | |- preserves _ commit => apply stays_commit
  | |- preserves _ rollback => apply stays_rollback
  | |- preserves _ (with_session _) => apply stays_with_session
  | |- preserves _ (match ?x with _ => _ end) => destruct x
  | |- preserves _ (let '_ := ?x in _) => destruct x
  | |- preserves _ (modify_db _) => stay_leaf
  | |- preserves _ (modify _) => stay_leaf
  | |- preserves _ ?m =>
      first [assumption | stay_leaf | let h := head_of m in unfold h]
  end.
Ltac stay := intros; repeat stay_step.

Section stays.
Context {X : Services} {C : Config} (m0 : gmap pystr Setting.t).


(** The four requests that write settings. *)
Definition writes_settings (e : System.event) : bool :=
  match e with
  | System.PatchSettings _ _ | System.AddExtension _ _ | System.RemoveExtension _ _
  | System.UpdateTelegram _ _ => true
  | _ => false
  end.

Lemma stays_rewrap_transfers n c p acc :
  preserves (settled m0) (Rotation.rewrap_transfers n c p acc).
Proof.
  revert acc. induction n as [|n IH]; intros acc; simpl; [apply preserves_raise|].
  repeat first [apply IH | stay_step].
Qed.

Lemma stays_table k f :
  preserves (settled m0) (modify_db (λ d, AdminBlocklist.set_table k (f d) d)).
Proof. apply stays_foot, touches_table. unfold all_but_settings. part_in. Qed.

Lemma stays_missing_files i fs : preserves (settled m0) (Defender.missing_files i fs).
Proof. induction fs as [|f fs IH]; simpl; repeat first [exact IH | stay_step]. Qed.

Lemma stays_handle e : writes_settings e = false → preserves (settled m0) (System.handle e).
Proof.
  destruct e; intros Hw; try discriminate Hw; cbn [System.handle].
  all: repeat first [apply stays_rewrap_transfers | apply stays_missing_files
                    | apply stays_table | stay_step].
Qed.

(** ** The requests that write settings *)

Import AdminSettings AdminTelegram.

Lemma validated body changes k v :
  validate body = Ok changes → (k, v) ∈ changes → type_ok k v = true.
Proof.
  unfold validate. destruct (mapM field_value body) as [values|] eqn:E; [|done]. intros H Hin.
  assert (changes = omap (λ kf, (λ v, (kf.1, v)) <$> assoc kf.1 values) fields) as -> by congruence.
  clear H. apply list_elem_of_omap in Hin as ([k' f] & Hf & Hv). simpl in Hv.
  destruct (assoc k' values) as [v'|] eqn:Ha; [|done]. injection Hv as -> ->.
  apply assoc_some_elem in Ha. apply mapM_Some in E.
  apply list_elem_of_lookup in Ha as [i Hi]. destruct (Forall2_lookup_r _ _ _ _ _ E Hi) as ([k0 v0] & _ & Hkv).
  unfold field_value in Hkv. cbn [fst snd] in Hkv. unfold type_ok.
  destruct (assoc k0 fields) as [f0|] eqn:Hk; [|done]. simpl in Hkv.
  destruct (coerce f0 v0) as [v1|] eqn:Hc; [|done]. injection Hkv as -> ->. rewrite Hk.
  by eapply coerce_ok.
Qed.

Lemma stays_patch_one ctx rq t change :
  type_ok change.1 change.2 = true → preserves (settled m0) (patch_one ctx rq t change).
Proof.
  destruct change as [k v]. intros Hv. unfold patch_one.
  repeat first [by apply stays_put_setting | stay_step].
Qed.

Lemma stays_patch_settings body rq : preserves (settled m0) (admin_patch_settings body rq).
Proof.
  unfold admin_patch_settings. apply preserves_bind; [stay|]. intros ctx w Hw.
  do 2 wp_step. destruct (validate body) as [changes|e] eqn:E; [|done].
  revert w Hw. apply preserves_bind; [stay|]. intros t. apply preserves_bind; [|stay].
  apply preserves_for. intros [k v] Hin. apply stays_patch_one. by eapply validated.
Qed.

(** The stored blacklist is a list of strings; adding or removing one keeps it so. *)
Definition stored_list (w : World) : list json :=
  match DB.settings (World.sess w) !! EXTENSION_BLACKLIST with
  | Some r => as_list (Setting.value r)
  | None => []
  end.

Lemma stored_list_typed w : settled m0 w → forallb is_jstr (stored_list w) = true.
Proof.
  intros [_ [Hm _]]. unfold stored_list. destruct (_ !! _) as [r|] eqn:E; [|done].
  destruct (Hm _ _ E) as [_ H]. unfold type_ok in H. simpl in H. unfold as_list.
  by destruct (Setting.value r).
Qed.

Lemma strings_app l s : forallb is_jstr l = true → forallb is_jstr (l ++ [JStr s]) = true.
Proof. intros H. by rewrite forallb_app, H. Qed.

Lemma strings_filter (P : json → Prop) `{∀ x, Decision (P x)} l :
  forallb is_jstr l = true → forallb is_jstr (filter P l) = true.
Proof.
  rewrite !forallb_forall. intros Hl x Hx%list_elem_of_In. apply Hl, list_elem_of_In.
  by apply list_elem_of_filter in Hx as [_ ?].
Qed.

Lemma stays_put_list l t b :
  forallb is_jstr l = true → preserves (settled m0) (put_setting EXTENSION_BLACKLIST (JArr l) t b).
Proof. intros H. by apply stays_put_setting. Qed.

Lemma stays_add_extension p rq : preserves (settled m0) (admin_add_extension p rq).
Proof.
  unfold admin_add_extension. apply preserves_bind; [stay|]. intros ctx.
  destruct p as [[]|]; try apply preserves_raise. case_match; [apply preserves_raise|].
  case_match; [apply preserves_raise|]. intros w Hw. do 2 wp_step.
  pose proof (stored_list_typed w Hw) as Hl. fold (stored_list w).
  revert Hl. generalize (stored_list w). intros current Hl. revert w Hw.
  apply preserves_bind; [stay|]. intros t. apply preserves_bind; [|stay].
  case_match; [apply preserves_ret|]. by apply stays_put_list, strings_app.
Qed.

Lemma stays_remove_extension ext rq : preserves (settled m0) (admin_remove_extension ext rq).
Proof.
  unfold admin_remove_extension. apply preserves_bind; [stay|]. intros ctx w Hw. do 2 wp_step.
  pose proof (stored_list_typed w Hw) as Hl. unfold stored_list in Hl.
  destruct (_ !! _) as [r|]; [|by wp_step]. revert Hl. generalize (as_list (Setting.value r)).
  intros current Hl. revert w Hw. case_match; [apply preserves_raise|].
  apply preserves_bind; [stay|]. intros t. apply preserves_bind; [|stay].
  by apply stays_put_list, strings_filter.
Qed.

(** ** Telegram *)

Lemma wrapped_value token w :
  settled m0 w → wp (_wrap_for_storage token) w (λ r w', settled m0 w' ∧
    match r with Ok v => token_value v = true | Err _ => True end).
Proof.
  intros Hw. unfold _wrap_for_storage. destruct token as [|c token]; simpl; [by wp_step|].
  wp_step. unfold State.get_master_key. do 2 wp_step. case_match; [|by wp_step]. wp_step.
  do 2 wp_step. destruct (Secrets.wrap_telegram_token _ _); [by wp_step|done].
Qed.

Lemma fields_typed p token k v :
  validate_update p = Ok p → (∀ t, token = Some t → token_value t = true) →
  (k, Some v) ∈ fields_of p token → type_ok k v = true.
Proof.
  unfold validate_update. intros Hp Ht. destruct (_ && _ && _) eqn:E; [|done]. clear Hp.
  apply andb_true_iff in E as [_ E]. unfold fields_of. rewrite !elem_of_cons, elem_of_nil.
  intros H. repeat destruct H as [H|H]; try done; injection H as -> H.
  - by apply Ht.
  - symmetry in H. apply fmap_Some in H as (x & _ & ->). done.
  - symmetry in H. apply fmap_Some in H as (x & _ & ->). done.
  - symmetry in H. apply fmap_Some in H as (x & _ & ->). done.
  - symmetry in H. apply fmap_Some in H as (x & _ & ->). done.
  - symmetry in H. apply fmap_Some in H as (x & _ & ->). done.
  - symmetry in H. apply fmap_Some in H as (x & _ & ->). done.
  - symmetry in H. apply fmap_Some in H as (x & Hx & ->). rewrite Hx in E. exact E.
Qed.

Lemma stays_update_telegram p rq :
  validate_update p = Ok p → preserves (settled m0) (admin_update_telegram p rq).
Proof.
  intros Hp. unfold admin_update_telegram. apply preserves_bind; [stay|]. intros ctx w Hw.
  wp_step. apply (wp_mono _ _ (λ r w', settled m0 w' ∧
    match r with Ok o => ∀ t, o = Some t → token_value t = true | Err _ => True end)).
  { destruct (tu_bot_token p) as [token|]; [|by wp_step]. wp_step.
    eapply wp_mono; [by apply wrapped_value|]. intros [v|e] w1 [H1 H2]; [|done]. wp_step.
    split; [done|]. by intros t [= <-]. }
  intros [token|e] w1 [H1 Ht]; [|done]. revert w1 H1.
  apply preserves_bind; [|stay]. apply preserves_fold. intros changes [k o] Hin.
  unfold update_one. destruct o as [v|]; [|apply preserves_ret].
  repeat first [apply stays_put_setting; by eapply fields_typed | stay_step].
Qed.

Lemma stays_event e : preserves (settled m0) (System.handle e).
Proof.
  destruct (writes_settings e) eqn:Hw; [|by apply stays_handle].
  destruct e; try discriminate Hw; cbn [System.handle]; unfold System.request, System.ignore;
    (apply preserves_bind; [apply stays_with_session|intros; apply preserves_ret]).
  - apply stays_patch_settings.
  - apply stays_add_extension.
  - apply stays_remove_extension.
  - intros w H. do 2 wp_step. destruct (validate_update payload) as [p|e] eqn:E; [|done].
    apply stays_update_telegram; [|done]. revert E. unfold validate_update.
    destruct (_ && _ && _) eqn:E; [|done]. intros [= <-]. by rewrite E.
Qed.

End stays.

(** * A deployment's settings *)

Section settings_theorems.
Context {X : Services} {C : Config}.
Import AdminSettings.

Lemma settled_reachable m0 w0 w : settled m0 w0 → rtc System.step w0 w → settled m0 w.
Proof.
  intros H0 Hr. induction Hr as [|w w1 w2 [e ->] Hr IH]; [done|]. apply IH.
  by apply (stays_event m0 e).
Qed.

(** What the migrations put into an empty table. *)
Definition seeds : list (pystr * json) := Seeds.SEED ++ Seeds.ADMIN_SETTINGS ++ Seeds.TELEGRAM_SEED.

Definition seeded (t : datetime) : gmap pystr Setting.t :=
  list_to_map ((λ kv, (kv.1, Setting.mk kv.1 kv.2 t None)) <$> seeds).

(** The two runs, computed on a table with the other tables as variables. *)
Lemma upgrade_run t a b c e f g h i j k :
  Seeds.upgrade t (DB.mk a b c e f g h i j k ∅) = Ok (DB.mk a b c e f g h i j k (seeded t)).
Proof. vm_cast_no_check (eq_refl (Seeds.upgrade t (DB.mk a b c e f g h i j k ∅))). Qed.

Lemma downgrade_run t a b c e f g h i j k :
  Seeds.downgrade (DB.mk a b c e f g h i j k (seeded t)) = DB.mk a b c e f g h i j k ∅.
Proof. vm_cast_no_check (eq_refl (DB.mk a b c e f g h i j k (∅ : gmap pystr Setting.t))). Qed.

Lemma upgrade_seeded t d d1 :
  DB.settings d = ∅ → Seeds.upgrade t d = Ok d1 →
  DB.settings d1 = seeded t ∧ Seeds.downgrade d1 = d.
Proof.
  destruct d as [a b c e f g h i j k s]. cbn [DB.settings]. intros ->. rewrite upgrade_run.
  generalize (downgrade_run t a b c e f g h i j k). generalize (seeded t). intros m Hm [= <-]. done.
Qed.

Lemma seeded_typed t : well_typed (seeded t).
Proof.
  intros k r Hk. apply elem_of_list_to_map_2 in Hk. unfold seeded in Hk.
  apply list_elem_of_fmap in Hk as ([k' v] & [= -> ->] & Hin). split; [done|]. cbn [Setting.value fst snd].
  assert (H : forallb (λ kv, type_ok kv.1 kv.2) seeds = true) by (vm_compute; reflexivity).
  rewrite forallb_forall in H. apply list_elem_of_In in Hin. exact (H _ Hin).
Qed.

Lemma seeded_keys t kv : kv ∈ seeds → is_Some (seeded t !! kv.1).
Proof.
  intros Hin. apply elem_of_dom. unfold seeded. rewrite dom_list_to_map, <- list_fmap_compose.
  apply elem_of_list_to_set, list_elem_of_fmap. by exists kv.
Qed.

Lemma in_range_ok ge le n : field_ok (IntField ge le) (JInt n) = true → in_range ge le n.
Proof. apply bool_decide_eq_true_1. Qed.

Lemma int_setting_typed d k ge le dflt :
  well_typed (DB.settings d) → assoc k fields = Some (IntField ge le) → in_range ge le dflt →
  in_range ge le (int_setting d k dflt) ∧
  ∀ r, DB.settings d !! k = Some r →
    Setting.value r = JInt (int_setting d k dflt) ∨
    (Setting.value r = JNull ∧ int_setting d k dflt = dflt).
Proof.
  intros Hm Hf Hd. unfold int_setting, json_setting.
  destruct (DB.settings d !! k) as [r|] eqn:E; [|split; [done|congruence]].
  destruct (Hm k r E) as [_ Ht]. unfold type_ok in Ht. rewrite Hf in Ht.
  destruct (Setting.value r) eqn:Ev; try discriminate Ht; simpl;
    (split; [first [exact Hd | by apply in_range_ok]|]; intros r' [= <-]); auto.
Qed.

Lemma blacklist_readable d :
  well_typed (DB.settings d) →
  ∃ l, Policy.lower_set (list_setting d (u "extension_blacklist") []) = Ok l.
Proof.
  intros Hm.
  assert (H : forallb is_jstr (list_setting d (u "extension_blacklist") []) = true).
  { unfold list_setting, json_setting.
    destruct (DB.settings d !! u "extension_blacklist") as [r|] eqn:E; [|done].
    destruct (Hm _ r E) as [_ Ht]. unfold type_ok in Ht. simpl in Ht. by destruct (Setting.value r). }
  revert H. generalize (list_setting d (u "extension_blacklist") []). intros l.
  induction l as [|v l IH]; [by eexists|]. intros [Hv Hl]%andb_true_iff.
  destruct (IH Hl) as [l' Hl']. destruct v; try discriminate Hv. simpl. rewrite Hl'. by eexists.
Qed.

(** C22: the settings stay well typed.  Take a deployment whose settings table
    was filled by the migrations.  After any sequence of requests, jobs and
    scripts, and whichever services fail, every row of a known key still holds
    a value of its type and within its bounds, every seeded key still has its
    row, and so the readers never meet a value they would have to replace: a
    bounded integer setting reads as the number stored (or as the default, when
    the row holds null), always within its bounds, and the extension blacklist
    is always a list of strings, so that the upload policy cannot fail on it.
    Taking the migrations back restores the table. *)
Theorem settings_stay_typed t d d1 w0 w :
  DB.settings d = ∅ → Seeds.upgrade t d = Ok d1 →
  World.db w0 = d1 → World.sess w0 = d1 → rtc System.step w0 w →
  well_typed (DB.settings (World.db w)) ∧
  (∀ kv, kv ∈ seeds → is_Some (DB.settings (World.db w) !! kv.1)) ∧
  (∀ k ge le dflt, assoc k fields = Some (IntField ge le) → in_range ge le dflt →
     in_range ge le (int_setting (World.db w) k dflt) ∧
     ∀ r, DB.settings (World.db w) !! k = Some r →
       Setting.value r = JInt (int_setting (World.db w) k dflt) ∨
       (Setting.value r = JNull ∧ int_setting (World.db w) k dflt = dflt)) ∧
  (∃ l, Policy.lower_set (list_setting (World.db w) (u "extension_blacklist") []) = Ok l) ∧
  Seeds.downgrade d1 = d.
Proof.
  intros Hd Hu Hdb Hs Hr. destruct (upgrade_seeded t d d1 Hd Hu) as [Hm Hdown].
  destruct (settled_reachable (seeded t) w0 w) as [[Ht Hk] _]; [|done|].
  { unfold settled, sound. rewrite Hdb, Hs, Hm. pose proof (seeded_typed t). done. }
  split; [done|]. split; [intros kv Hkv; by apply Hk, seeded_keys|].
  split; [intros; by apply int_setting_typed|]. split; [by apply blacklist_readable|done].
Qed.

End settings_theorems.

(** ** Witness *)

Section typed_witness.
#[local] Instance demo_services : Services := Sim.calm.
#[local] Instance demo_config : Config := Demo.config.

Definition seeded_db : DB.t := DB.set_settings (seeded 0) empty_db.
Definition seeded_world : World := Demo.world seeded_db.

(** An anonymous PATCH is refused; the limits are the seeded ones. *)
Definition typed_event : System.event :=
  System.PatchSettings [(u "max_recipients", JInt 50)] (mkRequest [] None []).

Lemma settings_stay_typed_witness :
  let w := (System.handle typed_event seeded_world).2 in
  in_range 1 (Some 100) (int_setting (World.db w) (u "max_recipients") 20) ∧
  int_setting (World.db w) (u "max_recipients") 7 = 20.
Proof.
  intros w. split; [|vm_compute; reflexivity].
  assert (Hr : rtc System.step seeded_world w) by (apply rtc_once; by exists typed_event).
  pose proof (upgrade_run 0 ∅ ∅ ∅ [] [] [] ∅ ∅ ∅ ∅) as Hu.
  destruct (settings_stay_typed 0 empty_db seeded_db seeded_world w eq_refl Hu eq_refl eq_refl Hr)
    as (_ & _ & H & _).
  refine (proj1 (H (u "max_recipients") 1 (Some 100) 20 eq_refl _)). by split.
Defined.

End typed_witness.
