(* ===== verification/Integrity.v ===== *)
(** The constraints of the database: the foreign keys, checks and unique columns
    of the migrated schema hold of the rows the code writes, in every state the
    system reaches. *)
From S2P Require Import Prelude Text Services Sim Model Seeds Scenario Effects Storage Support Gates.
From S2P Require Import RateLimit Http Envelope Session Auth Tus Transfers Public Page Worker.
From S2P Require Import AdminAuth AdminApi AdminUsers Schema Analytics Telegram Rotation.
From S2P Require Import Invariants Lifecycle System Access Typed.
#[local] Open Scope Z_scope.

(** * The constraints as properties of the rows *)

Module Constraints.
Import Schema Rows Metadata.

(** The CHECK and UNIQUE constraints of a schema, with their tables. *)
Definition of_schema {A} (f : constraint → option A) (s : schema) : list (string * A) :=
  List.concat ((λ nt : string * table,
    omap (λ nc : string * constraint, (λ a, (nt.1, a)) <$> f nc.2)
      (map_to_list (t_constraints nt.2))) <$> map_to_list (tables s)).

Definition checks : schema → list (string * string) :=
  of_schema (λ c, match c with Check_ sql => Some sql | _ => None end).

Definition uniques : schema → list (string * list string) :=
  of_schema (λ c, match c with Unique cols => Some cols | _ => None end).

(** [column IN (...)] and [char_length(column) <= n] on the rows of a table. *)
Definition one_of (values : list string) (l : list pystr) : Prop := Forall (λ s, s ∈ u <$> values) l.

Definition transfer_rows (d : DB.t) : list Transfer.t := (map_to_list (DB.transfers d)).*2.
Definition admin_rows (d : DB.t) : list Admin.t := (map_to_list (DB.admins d)).*2.

Definition at_most (n : Z) (l : list pystr) : Prop := Forall (λ s, zlen s ≤ n) l.

Definition check_meanings : list (string * string * (DB.t → Prop)) :=
  [("transfers", "status IN " ++ TRANSFER_STATUSES_SQL_IN,
      λ d, one_of TRANSFER_STATUSES (status_str ∘ Transfer.status <$> transfer_rows d));
   ("transfers", "char_length(message) <= 2000",
      λ d, at_most 2000 (omap Transfer.message (transfer_rows d)));
   ("admins", "role IN ('admin','viewer')",
      λ d, one_of ["admin"; "viewer"] (Admin.role <$> admin_rows d));
   ("audit_log", "severity IN ('info','warn','error','critical')",
      λ d, one_of ["info"; "warn"; "error"; "critical"] (AuditLog.severity <$> DB.audit_log d))]%string.

(** A column of type [citext] is unique without case. *)
Definition unique_meanings {X : Services} : list (string * list string * (DB.t → Prop)) :=
  [("transfers", ["token"], λ d, NoDup (Transfer.token <$> transfer_rows d));
   ("transfers", ["manage_token"], λ d, NoDup (Transfer.manage_token <$> transfer_rows d));
   ("admins", ["email"], λ d, NoDup (lower ∘ Admin.email <$> admin_rows d))]%string.

(** What a constraint says; a constraint the tables above do not list is never
    satisfied. *)
Definition meaning {K} `{EqDecision K} (l : list (K * (DB.t → Prop))) (c : K) (d : DB.t) : Prop :=
  match find (λ kp, bool_decide (kp.1 = c)) l with
  | Some kp => kp.2 d
  | None => False
  end.

Definition check_holds : string * string → DB.t → Prop := meaning check_meanings.
Definition unique_holds {X : Services} : string * list string → DB.t → Prop := meaning unique_meanings.

End Constraints.

(** * The invariant *)

Create HintDb legal discriminated.

Module Legal.
Import AdminBlocklist.

(** The types of event the code records. *)
Definition events : list pystr :=
  [u "captcha_failed"; u "blocklist_hit"; u "geo_blocked"; u "policy_reject"; u "sender_delete";
   u "sender_revoke"; u "upload_complete"; u "upload_failed"; u "expired"; u "defender_quarantine";
   u "defender_quarantine_alert"].

Definition transfer_in (d : DB.t) (i : uuid) : Prop := is_Some (DB.transfers d !! i).
Definition file_in (d : DB.t) (i : uuid) : Prop := is_Some (DB.files d !! i).
Definition admin_in (d : DB.t) (i : uuid) : Prop := is_Some (DB.admins d !! i).

Section legal.
Context {X : Services}.

Section rows.
Context (T F A : uuid → Prop).

(** An id a nullable column holds. *)
Definition ref_ok (P : uuid → Prop) (o : option uuid) : Prop := ∀ i, o = Some i → P i.

Definition message_ok (t : Transfer.t) : Prop := ∀ m, Transfer.message t = Some m → zlen m ≤ 2000.

Definition transfers_ok (m : gmap uuid Transfer.t) : Prop :=
  (∀ i t, m !! i = Some t → Transfer.id t = i ∧ message_ok t) ∧
  (∀ i j t t', m !! i = Some t → m !! j = Some t' →
     Transfer.token t = Transfer.token t' ∨ Transfer.manage_token t = Transfer.manage_token t' → i = j).

Definition files_ok (m : gmap uuid TransferFile.t) : Prop :=
  ∀ i f, m !! i = Some f → TransferFile.id f = i ∧ T (TransferFile.transfer_id f).

Definition recipients_ok (m : gmap uuid TransferRecipient.t) : Prop :=
  ∀ i r, m !! i = Some r → T (TransferRecipient.transfer_id r).

Definition download_ok (x : Download.t) : Prop :=
  T (Download.transfer_id x) ∧ ref_ok F (Download.file_id x).

Definition audit_ok (r : AuditLog.t) : Prop :=
  ref_ok T (AuditLog.transfer_id r) ∧ ref_ok A (AuditLog.admin_id r) ∧
  AuditLog.severity r ∈ Audit.severities ∧ AuditLog.event_type r ∈ events.

Definition action_ok (r : AdminAction.t) : Prop := ref_ok A (AdminAction.admin_id r).

Definition admins_ok (m : gmap uuid Admin.t) : Prop :=
  (∀ i a, m !! i = Some a → Admin.id a = i ∧ AdminUsers.is_role (Admin.role a) = true) ∧
  (∀ i j a b, m !! i = Some a → m !! j = Some b →
     lower (Admin.email a) = lower (Admin.email b) → i = j).

Definition blocks_ok (m : gmap pystr Blocklist.t) : Prop :=
  ∀ k r, m !! k = Some r → ref_ok A (Blocklist.added_by r).

Definition settings_ok (m : gmap pystr Setting.t) : Prop :=
  ∀ k r, m !! k = Some r → ref_ok A (Setting.updated_by r).

End rows.

Record Legal (d : DB.t) : Prop := mkLegal {
  legal_transfers : transfers_ok (DB.transfers d);
  legal_files : files_ok (transfer_in d) (DB.files d);
  legal_recipients : recipients_ok (transfer_in d) (DB.recipients d);
  legal_downloads : Forall (download_ok (transfer_in d) (file_in d)) (DB.downloads d);
  legal_audit : Forall (audit_ok (transfer_in d) (admin_in d)) (DB.audit_log d);
  legal_actions : Forall (action_ok (admin_in d)) (DB.admin_actions d);
  legal_admins : admins_ok (DB.admins d);
  legal_blocks k : blocks_ok (admin_in d) (table k d);
  legal_settings : settings_ok (admin_in d) (DB.settings d)
}.

(** The rows of [d] that others refer to are still there in [d']. *)
Record below (d d' : DB.t) : Prop := mkBelow {
  below_transfer i : transfer_in d i → transfer_in d' i;
  below_file i : file_in d i → file_in d' i;
  below_admin i : admin_in d i → admin_in d' i
}.

#[export] Instance below_pre : PreOrder below.
Proof. split; [by split|]. intros d d1 d2 [T1 F1 A1] [T2 F2 A2]. split; auto. Qed.

#[local] Hint Resolve below_transfer below_file below_admin : legal.

(** ** More rows exist: the references still hold *)

Lemma ref_ok_mono (P Q : uuid → Prop) o : (∀ i, P i → Q i) → ref_ok P o → ref_ok Q o.
Proof. unfold ref_ok. eauto. Qed.

Lemma audit_ok_mono (T T' A A' : uuid → Prop) r :
  (∀ i, T i → T' i) → (∀ i, A i → A' i) → audit_ok T A r → audit_ok T' A' r.
Proof. intros HT HA (H1 & H2 & H3). split; [|split; [|done]]; by eapply ref_ok_mono. Qed.

(** A change that keeps every referenced row leaves the other tables legal. *)
Lemma legal_change d d' :
  Legal d → below d d' →
  DB.recipients d' = DB.recipients d → DB.downloads d' = DB.downloads d →
  DB.audit_log d' = DB.audit_log d → DB.admin_actions d' = DB.admin_actions d →
  (∀ k, table k d' = table k d) → DB.settings d' = DB.settings d →
  transfers_ok (DB.transfers d') → files_ok (transfer_in d') (DB.files d') →
  admins_ok (DB.admins d') → Legal d'.
Proof.
  intros [L1 L2 L3 L4 L5 L6 L7 L8 L9] [B1 B2 B3] E1 E2 E3 E4 E5 E6 HT HF HA. split; try done.
  - rewrite E1. intros i r Hr. eauto.
  - rewrite E2. eapply Forall_impl; [exact L4|]. intros x [H1 H2]. split; [auto|by eapply ref_ok_mono].
  - rewrite E3. eapply Forall_impl; [exact L5|]. intros x. by apply audit_ok_mono.
  - rewrite E4. eapply Forall_impl; [exact L6|]. intros x. by apply ref_ok_mono.
  - intros k i r. rewrite E5. intros Hr. eapply ref_ok_mono, L8; eauto.
  - rewrite E6. intros k r Hr. eapply ref_ok_mono, L9; eauto.
Qed.

(** ** One lemma per statement *)

Definition grows (d d' : DB.t) : Prop := Legal d → Legal d' ∧ below d d'.

(** The columns of the constraints on [transfers]. *)
Definition key_columns (t : Transfer.t) :=
  (Transfer.id t, Transfer.token t, Transfer.manage_token t, Transfer.message t).

Lemma alter_is_Some {V} (f : V → V) i j (m : gmap Z V) : is_Some (m !! j) → is_Some (alter f i m !! j).
Proof. rewrite lookup_alter. case_decide; [|done]. subst. by rewrite fmap_is_Some. Qed.

Lemma insert_is_Some {V} (v : V) i j (m : gmap Z V) : is_Some (m !! j) → is_Some (<[i := v]> m !! j).
Proof. rewrite lookup_insert. case_decide; eauto. Qed.

Lemma lookup_alter_inv {V} (f : V → V) i j (m : gmap Z V) v :
  alter f i m !! j = Some v → ∃ v0, m !! j = Some v0 ∧ (v = v0 ∨ v = f v0).
Proof.
  rewrite lookup_alter. case_decide; [subst|eauto]. intros (v0 & -> & ->)%fmap_Some. eauto.
Qed.

Lemma grow_transfer d i f :
  (∀ t, key_columns (f t) = key_columns t) → grows d (DB.set_transfers (alter f i (DB.transfers d)) d).
Proof.
  intros Hf L. assert (B : below d (DB.set_transfers (alter f i (DB.transfers d)) d)).
  { split; try done. intros j. apply alter_is_Some. }
  split; [|done]. apply (legal_change d); try done; [| |apply L].
  - destruct (legal_transfers _ L) as [H1 H2]. unfold key_columns in Hf. split.
    + intros j t (t0 & H0 & Ht)%lookup_alter_inv. destruct (H1 j t0 H0) as [Hi Hm].
      specialize (Hf t0). destruct Ht as [->| ->]; [done|]. unfold message_ok.
      injection Hf as -> _ _ ->. done.
    + intros j k t t' (t0 & H0 & Ht)%lookup_alter_inv (t1 & H3 & Ht')%lookup_alter_inv He.
      apply (H2 j k t0 t1); [done|done|]. pose proof (Hf t0) as E0. pose proof (Hf t1) as E1.
      destruct Ht as [->| ->], Ht' as [->| ->]; naive_solver congruence.
  - intros j g Hg. destruct (legal_files _ L j g Hg). eauto with legal.
Qed.

Lemma grow_add_transfer d t :
  DB.transfers d !! Transfer.id t = None → message_ok t →
  (∀ i t', DB.transfers d !! i = Some t' →
     Transfer.token t' ≠ Transfer.token t ∧ Transfer.manage_token t' ≠ Transfer.manage_token t) →
  grows d (DB.set_transfers (<[Transfer.id t := t]> (DB.transfers d)) d).
Proof.
  intros Hn Hm Hu L. assert (B : below d (DB.set_transfers (<[Transfer.id t := t]> (DB.transfers d)) d)).
  { split; try done. intros j. apply insert_is_Some. }
  split; [|done]. apply (legal_change d); try done; [| |apply L].
  - destruct (legal_transfers _ L) as [H1 H2]. split.
    + intros j t'. simpl. rewrite lookup_insert. case_decide; [intros [= <-]; by subst|apply H1].
    + intros j k t1 t2. simpl. rewrite !lookup_insert. repeat case_decide; try (subst; congruence).
      * intros [= <-] H3 He. destruct (Hu k t2 H3) as [N1 N2]. naive_solver congruence.
      * intros H3 [= <-] He. destruct (Hu j t1 H3) as [N1 N2]. naive_solver congruence.
      * apply H2.
  - intros j g Hg. destruct (legal_files _ L j g Hg). eauto with legal.
Qed.

Lemma grow_file d i f :
  (∀ x, (TransferFile.id (f x), TransferFile.transfer_id (f x))
        = (TransferFile.id x, TransferFile.transfer_id x)) →
  grows d (DB.set_files (alter f i (DB.files d)) d).
Proof.
  intros Hf L. split; [|split; try done; intros j; apply alter_is_Some].
  apply (legal_change d); try done; [|apply L| |apply L].
  - split; try done. intros j. apply alter_is_Some.
  - intros j g (g0 & H0 & Hg)%lookup_alter_inv. specialize (Hf g0).
    destruct (legal_files _ L j g0 H0) as [H1 H2]. destruct Hg as [->| ->]; [done|].
    injection Hf as -> ->. done.
Qed.

Lemma grow_add_file d f :
  transfer_in d (TransferFile.transfer_id f) →
  grows d (DB.set_files (<[TransferFile.id f := f]> (DB.files d)) d).
Proof.
  intros Ht L. split; [|split; try done; intros j; apply insert_is_Some].
  apply (legal_change d); try done; [|apply L| |apply L].
  - split; try done. intros j. apply insert_is_Some.
  - intros j g. simpl. rewrite lookup_insert. case_decide; [intros [= <-]; by subst|apply L].
Qed.

Lemma grow_admin d i f :
  (∀ a, Admin.id (f a) = Admin.id a ∧ Admin.email (f a) = Admin.email a ∧
        (AdminUsers.is_role (Admin.role a) = true → AdminUsers.is_role (Admin.role (f a)) = true)) →
  grows d (DB.set_admins (alter f i (DB.admins d)) d).
Proof.
  intros Hf L. split; [|split; try done; intros j; apply alter_is_Some].
  apply (legal_change d); try done; [|apply L|apply L|].
  - split; try done. intros j. apply alter_is_Some.
  - destruct (legal_admins _ L) as [H1 H2]. split.
    + intros j a (a0 & H0 & Ha)%lookup_alter_inv. destruct (H1 j a0 H0) as [Hi Hr].
      destruct (Hf a0) as (E1 & _ & E2). destruct Ha as [->| ->]; [done|]. split; [congruence|auto].
    + intros j k a b (a0 & H0 & Ha)%lookup_alter_inv (b0 & H3 & Hb)%lookup_alter_inv He.
      apply (H2 j k a0 b0); [done|done|]. destruct (Hf a0) as (_ & E1 & _), (Hf b0) as (_ & E2 & _).
      destruct Ha as [->| ->], Hb as [->| ->]; congruence.
Qed.

Lemma grow_add_admin d a :
  DB.admins d !! Admin.id a = None → AdminUsers.is_role (Admin.role a) = true →
  (∀ i b, DB.admins d !! i = Some b → lower (Admin.email b) ≠ lower (Admin.email a)) →
  grows d (DB.set_admins (<[Admin.id a := a]> (DB.admins d)) d).
Proof.
  intros Hn Hr Hu L. split; [|split; try done; intros j; apply insert_is_Some].
  apply (legal_change d); try done; [|apply L|apply L|].
  - split; try done. intros j. apply insert_is_Some.
  - destruct (legal_admins _ L) as [H1 H2]. split.
    + intros j b. simpl. rewrite lookup_insert. case_decide; [intros [= <-]; by subst|apply H1].
    + intros j k b c. simpl. rewrite !lookup_insert. repeat case_decide; try (subst; congruence).
      * intros [= <-] H3 He. destruct (Hu k c H3). congruence.
      * intros H3 [= <-] He. by destruct (Hu j b H3).
      * apply H2.
Qed.

(** The tables nothing refers to. *)
Lemma grow_recipients d m :
  recipients_ok (transfer_in d) m → grows d (DB.set_recipients m d).
Proof. intros Hm []. split; by split. Qed.

Lemma grow_recipient d i f :
  (∀ r, TransferRecipient.transfer_id (f r) = TransferRecipient.transfer_id r) →
  grows d (DB.set_recipients (alter f i (DB.recipients d)) d).
Proof.
  intros Hf L. apply grow_recipients; [|done]. intros j r (r0 & H0 & Hr)%lookup_alter_inv.
  pose proof (legal_recipients _ L j r0 H0). destruct Hr as [->| ->]; [done|]. by rewrite Hf.
Qed.

Lemma grow_add_recipient d r :
  transfer_in d (TransferRecipient.transfer_id r) →
  grows d (DB.set_recipients (<[TransferRecipient.id r := r]> (DB.recipients d)) d).
Proof.
  intros Ht L. apply grow_recipients; [|done]. intros j r'. rewrite lookup_insert.
  case_decide; [by intros [= <-]|apply L].
Qed.

Lemma grow_add_download d x :
  download_ok (transfer_in d) (file_in d) x →
  grows d (DB.set_downloads (DB.downloads d ++ [x]) d).
Proof.
  intros Hx []. split; split; try done. simpl. apply Forall_app. by rewrite Forall_singleton.
Qed.

Lemma grow_add_audit d r :
  audit_ok (transfer_in d) (admin_in d) r →
  grows d (DB.set_audit_log (DB.audit_log d ++ [r]) d).
Proof.
  intros Hx []. split; split; try done. simpl. apply Forall_app. by rewrite Forall_singleton.
Qed.

Lemma grow_add_action d r :
  action_ok (admin_in d) r → grows d (DB.set_admin_actions (DB.admin_actions d ++ [r]) d).
Proof.
  intros Hx []. split; split; try done. simpl. apply Forall_app. by rewrite Forall_singleton.
Qed.

Lemma grow_table d k m : blocks_ok (admin_in d) m → grows d (set_table k m d).
Proof.
  intros Hm [L1 L2 L3 L4 L5 L6 L7 L8 L9].
  split; [|by destruct k]. destruct k; split; try done; intros [].
  all: first [exact Hm | exact (L8 Ips) | exact (L8 Domains) | exact (L8 Emails)].
Qed.

Lemma grow_put_setting d k s :
  ref_ok (admin_in d) (Setting.updated_by s) →
  grows d (DB.set_settings (<[k := s]> (DB.settings d)) d).
Proof.
  intros Hs L. destruct (id L). split; split; try done. intros j s'. simpl.
  rewrite lookup_insert. case_decide; [by intros [= <-]|apply L].
Qed.

(** ** Deleting an account

    Its id leaves the columns that refer to it with the row; a setting that
    names it refuses the deletion. *)

Lemma forgotten (P : uuid → Prop) i o :
  ref_ok P o → ref_ok (λ j, P j ∧ j ≠ i) (AdminUsers.forget i o).
Proof. unfold AdminUsers.forget. intros H j. case_decide; naive_solver. Qed.

Lemma admin_left d i j : admin_in d j ∧ j ≠ i → is_Some (delete i (DB.admins d) !! j).
Proof. intros [H Hn]. by rewrite lookup_delete_ne. Qed.

Lemma forget_blocks_ok d i m :
  blocks_ok (admin_in d) m →
  blocks_ok (λ j, is_Some (delete i (DB.admins d) !! j)) (AdminUsers.forget_in i m).
Proof.
  intros H k r. unfold AdminUsers.forget_in. rewrite lookup_fmap. intros (r0 & H0 & ->)%fmap_Some.
  eapply ref_ok_mono, (forgotten _ i), (H k r0 H0). apply admin_left.
Qed.

Lemma legal_delete_admin d i :
  Legal d → existsb (λ r, bool_decide (Setting.updated_by r = Some i)) (map_to_list (DB.settings d)).*2 = false →
  Legal (DB.mk (DB.transfers d) (DB.files d) (DB.recipients d) (DB.downloads d)
    ((λ r, AuditLog.set_admin_id (AdminUsers.forget i (AuditLog.admin_id r)) r) <$> DB.audit_log d)
    ((λ r, AdminAction.set_admin_id (AdminUsers.forget i (AdminAction.admin_id r)) r)
      <$> DB.admin_actions d)
    (delete i (DB.admins d))
    (AdminUsers.forget_in i (DB.blocklist_ips d)) (AdminUsers.forget_in i (DB.blocklist_domains d))
    (AdminUsers.forget_in i (DB.blocklist_emails d)) (DB.settings d)).
Proof.
  intros [L1 L2 L3 L4 L5 L6 [H1 H2] L8 L9] Hs. split; try done; simpl.
  - apply Forall_fmap. eapply Forall_impl; [exact L5|]. intros r (T1 & A1 & R). split; [done|].
    split; [|done]. eapply ref_ok_mono, (forgotten _ i), A1. apply admin_left.
  - apply Forall_fmap. eapply Forall_impl; [exact L6|]. intros r A1.
    eapply ref_ok_mono, (forgotten _ i), A1. apply admin_left.
  - split; [intros j a [_ Ha]%lookup_delete_Some; by apply H1|].
    intros j k a b [_ Ha]%lookup_delete_Some [_ Hb]%lookup_delete_Some. by apply H2.
  - intros []; apply forget_blocks_ok; [exact (L8 Ips)|exact (L8 Domains)|exact (L8 Emails)].
  - intros k r Hr j Hj. apply admin_left. split; [by apply (L9 k r)|]. intros ->.
    apply not_true_iff_false in Hs. apply Hs, existsb_exists. exists r.
    split; [|by apply bool_decide_eq_true]. apply list_elem_of_In, list_elem_of_fmap.
    exists (k, r). by rewrite elem_of_map_to_list.
Qed.

End legal.
End Legal.

(** * Operations that keep the constraints *)

Section held.
Context {X : Services}.
Import Legal.

(** Committed and pending tables are legal, and the rows of [d0] are still
    pending: what a handler has read it may refer to. *)
Record held (d0 : DB.t) (w : World) : Prop := mkHeld {
  held_db : Legal (World.db w);
  held_sess : Legal (World.sess w);
  held_below : below d0 (World.sess w)
}.

Lemma held_same d0 w w' :
  World.db w' = World.db w → World.sess w' = World.sess w → held d0 w → held d0 w'.
Proof. intros Hd Hs [H1 H2 H3]. by split; rewrite ?Hd, ?Hs. Qed.

Lemma held_weaken d0 d1 w : below d0 d1 → held d1 w → held d0 w.
Proof. intros Hb [H1 H2 H3]. split; [done|done|by etrans]. Qed.

Lemma held_nothing d0 w : held d0 w → held empty_db w.
Proof. intros [H1 H2 _]. split; [done|done|]. split; intros i [x Hx]; simpl in Hx; by rewrite lookup_empty in Hx. Qed.

(** The parts without tables. *)
Definition outside : list part :=
  [PTick; PRedis; PBucket; PFs; PSmtp; PTelegram; PRid; PCache; PKeys].

Lemma held_outside d0 {A} (m : M A) : touches outside m → preserves (held d0) m.
Proof.
  apply preserves_foot. intros w w' Ha. apply held_same.
  - apply (Ha PDb). part_notin.
  - apply (agree_sess outside); [done|part_sub|part_notin].
Qed.

(** Reading the tables: what follows may rely on what was read. *)
Lemma held_query {A B} d0 (f : DB.t → A) (g : A → M B) :
  (∀ d, Legal d → below d0 d → preserves (held d) (g (f d))) → preserves (held d0) (query f ≫= g).
Proof.
  intros Hg w [H1 H2 H3]. do 2 wp_step. eapply wp_mono; [apply (Hg _ H2 H3); by split|].
  intros r w'. by apply held_weaken.
Qed.

Lemma held_assoc {A B C} I (m : M A) (f : A → M B) (g : B → M C) :
  preserves I (m ≫= λ a, f a ≫= g) → preserves I ((m ≫= f) ≫= g).
Proof.
  intros H w Hw. specialize (H w Hw). revert H. unfold wp, mbind, M_bind. by destruct (m w) as [[a|e] w'].
Qed.

Lemma held_ret_bind {A B} I (a : A) (g : A → M B) : preserves I (g a) → preserves I (mret a ≫= g).
Proof. done. Qed.

Lemma held_raise_bind {A B} I e (g : A → M B) : preserves I (raise e ≫= g).
Proof. by intros w Hw. Qed.

Lemma held_lift_bind {A B} I (r : res A) (g : A → M B) :
  (∀ a, r = Ok a → preserves I (g a)) → preserves I (lift r ≫= g).
Proof. intros Hg w Hw. do 2 wp_step. destruct r as [a|e]; [by apply Hg|done]. Qed.

Lemma held_commit d0 : preserves (held d0) commit.
Proof. intros w [H1 H2 H3]. by apply wp_commit. Qed.

Lemma held_modify d0 f :
  (∀ d, below d0 d → grows d (f d)) → preserves (held d0) (modify_db f).
Proof.
  intros Hf w [H1 H2 H3]. apply wp_modify_db. destruct (Hf _ H3 H2) as [H4 H5].
  split; [done|done|]. simpl. by etrans.
Qed.

Lemma held_update_transfer d0 i f :
  (∀ t, key_columns (f t) = key_columns t) → preserves (held d0) (update_transfer i f).
Proof. intros Hf. apply held_modify. intros. by apply grow_transfer. Qed.

Lemma held_update_file d0 i f :
  (∀ x, (TransferFile.id (f x), TransferFile.transfer_id (f x))
        = (TransferFile.id x, TransferFile.transfer_id x)) →
  preserves (held d0) (update_file i f).
Proof. intros Hf. apply held_modify. intros. by apply grow_file. Qed.

Lemma held_update_recipient d0 i f :
  (∀ r, TransferRecipient.transfer_id (f r) = TransferRecipient.transfer_id r) →
  preserves (held d0) (update_recipient i f).
Proof. intros Hf. apply held_modify. intros. by apply grow_recipient. Qed.

Lemma held_update_admin d0 i f :
  (∀ a, Admin.id (f a) = Admin.id a ∧ Admin.email (f a) = Admin.email a ∧
        (AdminUsers.is_role (Admin.role a) = true → AdminUsers.is_role (Admin.role (f a)) = true)) →
  preserves (held d0) (update_admin i f).
Proof. intros Hf. apply held_modify. intros. by apply grow_admin. Qed.

Lemma held_add_download d0 x :
  transfer_in d0 (Download.transfer_id x) → ref_ok (file_in d0) (Download.file_id x) →
  preserves (held d0) (add_download x).
Proof.
  intros H1 H2. apply held_modify. intros d Hb. apply grow_add_download.
  split; [by eapply below_transfer|]. eapply ref_ok_mono, H2. by apply below_file.
Qed.

Lemma held_add_audit d0 f :
  (∀ i, audit_ok (transfer_in d0) (admin_in d0) (f i)) → preserves (held d0) (add_audit f).
Proof.
  intros Hf. apply held_modify. intros d Hb. apply grow_add_audit.
  eapply audit_ok_mono, Hf; by apply Hb.
Qed.

Lemma held_record d0 a b c e f g :
  admin_in d0 a → preserves (held d0) (AdminActions.record a b c e f g).
Proof.
  intros Ha. unfold AdminActions.record. apply preserves_bind; [apply held_outside; unfold outside; foot|].
  intros ts. apply held_modify. intros d Hb. apply grow_add_action. intros j [= <-]. by eapply below_admin.
Qed.

Lemma held_put_setting d0 k v t a :
  admin_in d0 a → preserves (held d0) (AdminSettings.put_setting k v t a).
Proof.
  intros Ha. apply held_modify. intros d Hb. apply grow_put_setting. intros j [= <-]. by eapply below_admin.
Qed.

Lemma held_set_table d0 k f :
  (∀ d, below d0 d → blocks_ok (admin_in d) (AdminBlocklist.table k d) → blocks_ok (admin_in d) (f d)) →
  preserves (held d0) (modify_db (λ d, AdminBlocklist.set_table k (f d) d)).
Proof. intros Hf. apply held_modify. intros d Hb L. apply grow_table; [|done]. apply Hf, L. done. Qed.

(** ** Insertions *)

Lemma existsb_none {V} (p : V → bool) (m : gmap Z V) i v :
  existsb p (map_to_list m).*2 = false → m !! i = Some v → p v = false.
Proof.
  intros Hp Hi. apply not_true_iff_false. intros Hv. apply not_true_iff_false in Hp. apply Hp.
  apply existsb_exists. exists v. split; [|done]. apply list_elem_of_In, list_elem_of_fmap.
  exists (i, v). by rewrite elem_of_map_to_list.
Qed.

Lemma held_add_transfer {B} d0 t (g : unit → M B) :
  message_ok t → (∀ d, below d0 d → transfer_in d (Transfer.id t) → preserves (held d) (g tt)) →
  preserves (held d0) (add_transfer t ≫= g).
Proof.
  intros Hm Hg w [H1 H2 H3]. unfold add_transfer. do 3 wp_step.
  destruct (_ || _) eqn:E; wp_step; [done|]. apply orb_false_iff in E as [E1 E2].
  apply bool_decide_eq_false_1, eq_None_not_Some in E1.
  edestruct (grow_add_transfer _ t E1 Hm) as [H4 H5]; [|exact H2|].
  { intros i t' Ht'. pose proof (existsb_none _ _ _ _ E2 Ht') as Hc. simpl in Hc.
    apply orb_false_iff in Hc as [N1%bool_decide_eq_false_1 N2%bool_decide_eq_false_1]. done. }
  eapply wp_mono.
  - apply Hg; [exact (transitivity H3 H5)| |split; [exact H1|exact H4|reflexivity]].
    unfold transfer_in. simpl. by rewrite lookup_insert_eq.
  - intros r w'. apply held_weaken. by etrans.
Qed.

Lemma held_add_file d0 f :
  transfer_in d0 (TransferFile.transfer_id f) → preserves (held d0) (add_file f).
Proof.
  intros Ht. unfold add_file. apply held_query. intros d L Hb. case_bool_decide; [apply preserves_raise|].
  apply held_modify. intros d1 Hb1. apply grow_add_file. by eapply below_transfer, below_transfer.
Qed.

Lemma held_add_recipient d0 r :
  transfer_in d0 (TransferRecipient.transfer_id r) → preserves (held d0) (add_recipient r).
Proof.
  intros Ht. unfold add_recipient. apply held_query. intros d L Hb.
  case_bool_decide; [apply preserves_raise|].
  apply held_modify. intros d1 Hb1. apply grow_add_recipient. by eapply below_transfer, below_transfer.
Qed.

Lemma held_add_admin {B} d0 a (g : unit → M B) :
  AdminUsers.is_role (Admin.role a) = true →
  (∀ d, below d0 d → admin_in d (Admin.id a) → preserves (held d) (g tt)) →
  preserves (held d0) (AdminUsers.add_admin a ≫= g).
Proof.
  intros Hr Hg w [H1 H2 H3]. unfold AdminUsers.add_admin. do 3 wp_step.
  destruct (_ || _) eqn:E; wp_step; [done|]. apply orb_false_iff in E as [E1 E2].
  apply bool_decide_eq_false_1, eq_None_not_Some in E1.
  edestruct (grow_add_admin _ a E1 Hr) as [H4 H5]; [|exact H2|].
  { intros i b Hb. pose proof (existsb_none _ _ _ _ E2 Hb) as Hc. by apply bool_decide_eq_false_1 in Hc. }
  eapply wp_mono.
  - apply Hg; [exact (transitivity H3 H5)| |split; [exact H1|exact H4|reflexivity]].
    unfold admin_in. simpl. by rewrite lookup_insert_eq.
  - intros r w'. apply held_weaken. by etrans.
Qed.

End held.

(** ** What a row that was read refers to *)

Section read.
Context {X : Services}.
Import Legal.

Lemma admin_read d i a : Legal d → DB.admins d !! i = Some a → admin_in d (Admin.id a).
Proof. intros L Ha. destruct (legal_admins _ L) as [H _]. destruct (H i a Ha) as [-> _]. by exists a. Qed.

Lemma transfer_key d i t : Legal d → DB.transfers d !! i = Some t → transfer_in d (Transfer.id t).
Proof. intros L Ht. destruct (legal_transfers _ L) as [H _]. destruct (H i t Ht) as [-> _]. by exists t. Qed.

Lemma transfer_read d i t : DB.transfers d !! i = Some t → transfer_in d i.
Proof. by exists t. Qed.

Lemma transfer_found d p t : Legal d → TransferService.find_transfer p d = Some t → transfer_in d (Transfer.id t).
Proof. intros L [_ [i Hi]]%head_rows. by eapply transfer_key. Qed.

Lemma transfer_listed d p t : Legal d → t ∈ rows p (DB.transfers d) → transfer_in d (Transfer.id t).
Proof. intros L [_ [i Hi]]%elem_of_rows. by eapply transfer_key. Qed.

Lemma file_listed d p f : Legal d → f ∈ rows p (DB.files d) → file_in d (TransferFile.id f).
Proof.
  intros L [_ [i Hi]]%elem_of_rows. destruct (legal_files _ L i f Hi) as [-> _]. by exists f.
Qed.

Lemma known_event e : bool_decide (e ∈ events) = true → e ∈ events.
Proof. apply bool_decide_eq_true_1. Qed.

Lemma file_found d p i f : Legal d → find p (Tus.files_of i d) = Some f → file_in d (TransferFile.id f).
Proof. intros L [Hf _]%find_some. eapply file_listed; [done|by apply list_elem_of_In]. Qed.

Lemma blocks_insert (A : uuid → Prop) k r m :
  ref_ok A (Blocklist.added_by r) → blocks_ok A m → blocks_ok A (<[k := r]> m).
Proof. intros Hr Hm j s. rewrite lookup_insert. case_decide; [by intros [= <-]|apply Hm]. Qed.

Lemma blocks_delete (A : uuid → Prop) k m : blocks_ok A m → blocks_ok A (delete k m).
Proof. intros Hm j s [_ Hs]%lookup_delete_Some. by eapply Hm. Qed.

Lemma no_ref (P : uuid → Prop) : ref_ok P None.
Proof. done. Qed.

Lemma a_ref (P : uuid → Prop) i : P i → ref_ok P (Some i).
Proof. by intros H j [= <-]. Qed.

End read.

#[export] Hint Resolve Legal.below_transfer Legal.below_file Legal.below_admin admin_read transfer_key
  transfer_read transfer_found transfer_listed file_listed
  file_found blocks_insert blocks_delete no_ref a_ref : legal.

Ltac known := solve [eauto 8 with legal].

(** An audit row of a fixed type and severity. *)
Ltac audit_row :=
  split; [known|split; [known|split; apply (bool_decide_unpack _); vm_compute; exact I]].

Create HintDb held discriminated.

(** [preserves (held _)] of an operation, by its structure; reading a table
    records what it found. *)
Ltac held_leaf := solve [apply held_outside; unfold outside; foot].
Ltac held_step :=
  lazymatch goal with
  | |- preserves _ (mbind _ (mbind _ _)) => apply held_assoc
  | |- preserves _ (mbind _ (mret _)) => apply held_ret_bind
  | |- preserves _ (mbind _ (raise _)) => apply held_raise_bind
  | |- preserves _ (mbind _ (lift _)) => apply held_lift_bind; intros ? ?
  | |- preserves _ (mbind _ (query _)) => apply held_query; intros ? ? ?
  | |- preserves _ (mbind _ (get_transfer _)) => apply held_query; intros ? ? ?
  | |- preserves _ (mbind _ (get_admin _)) => apply held_query; intros ? ? ?
  | |- preserves _ (mbind _ (add_transfer _)) => apply held_add_transfer; [|intros ? ? ?]
  | |- preserves _ (mbind _ (AdminUsers.add_admin _)) => apply held_add_admin; [|intros ? ? ?]
  | |- preserves _ (mbind _ (AdminAuth.require_session _)) => unfold AdminAuth.require_session at 1
  | |- preserves _ (mbind _ (AdminAuth.require_admin_role _)) => unfold AdminAuth.require_admin_role at 1
  | |- preserves _ (mbind _ (Public._load_by_manage_token _)) =>
      unfold Public._load_by_manage_token, TransferService.get_by_manage_token at 1
  | |- preserves _ (mbind _ (Public._load_ready_transfer _)) =>
      unfold Public._load_ready_transfer, TransferService.get_by_download_token at 1
  | |- preserves _ (mbind _ (match ?x with _ => _ end)) => destruct x eqn:?
  | |- preserves _ (mbind _ _) => apply preserves_bind; [|intros ?]
  | |- preserves _ (mret _) => apply preserves_ret
  | |- preserves _ (raise _) => apply preserves_raise
  | |- preserves _ (try_except _ _) => apply preserves_try_except; [|intros ?]
  | |- preserves _ (try_finally _ _) => apply preserves_try_finally
  | |- preserves _ (suppress _) => apply preserves_suppress
  | |- preserves _ (for_ _ _) => apply preserves_for; intros ? ?
  | |- preserves _ (fold_m _ _ _) => apply preserves_fold; intros ? ? ?
  | |- preserves _ commit => apply held_commit
  | |- preserves _ (update_transfer _ _) => apply held_update_transfer; done
  | |- preserves _ (update_file _ _) => apply held_update_file; done
  | |- preserves _ (update_recipient _ _) => apply held_update_recipient; done
  | |- preserves _ (update_admin _ _) => apply held_update_admin; done
  | |- preserves _ (add_audit _) => apply held_add_audit; intros ?; audit_row
  | |- preserves _ (add_download _) => apply held_add_download; known
  | |- preserves _ (add_file _) => apply held_add_file; known
  | |- preserves _ (add_recipient _) => apply held_add_recipient; known
  | |- preserves _ (modify_db (λ d, AdminBlocklist.set_table _ _ d)) =>
      apply held_set_table; intros; simpl; known
  | |- preserves _ (AdminActions.record _ _ _ _ _ _) => apply held_record; known
  | |- preserves _ (AdminSettings.put_setting _ _ _ _) => apply held_put_setting; known
  | |- preserves _ (match ?x with _ => _ end) => destruct x eqn:?
  | |- preserves _ ?m => first [held_leaf | solve [auto with held] | let h := head_of m in unfold h]
  end; cbv beta.
Ltac hold := intros; repeat held_step.

Section public_held.
Context {X : Services} {C : Config}.
Import Legal.

Lemma held_alert d0 a b c e f g :
  bool_decide (a ∈ events) = true → ref_ok (transfer_in d0) f →
  preserves (held d0) (Alerts.alert a b c e f g).
Proof.
  intros Ha Hf. unfold Alerts.alert, Audit.write_event. apply preserves_bind; [|hold].
  destruct (bool_decide (b ∈ _)) eqn:Hb; [|hold]. apply bool_decide_eq_true_1 in Hb. apply preserves_bind; [hold|]. intros ts.
  apply held_add_audit. intros i. split; [done|]. split; [known|]. split; [done|by apply known_event].
Qed.

#[local] Hint Extern 1 (preserves _ (Alerts.alert _ _ _ _ _ _)) =>
  apply held_alert; [reflexivity|known] : held.

Lemma held_captcha_gate d0 a b : preserves (held d0) (Public.captcha_gate a b).
Proof. unfold Public.captcha_gate. hold. Qed.

Lemma held_block_alert d0 a b c e : preserves (held d0) (Public.block_alert a b c e).
Proof. unfold Public.block_alert. hold. Qed.
#[local] Hint Resolve held_block_alert : held.

Lemma held_blocklist_gate d0 a b : preserves (held d0) (Public.blocklist_gate a b).
Proof. unfold Public.blocklist_gate. hold. Qed.

Lemma held_geoip_gate d0 a : preserves (held d0) (Public.geoip_gate a).
Proof. unfold Public.geoip_gate. hold. Qed.

Lemma held_policy_gate d0 a b : preserves (held d0) (Public.policy_gate a b).
Proof. unfold Public.policy_gate. hold. Qed.
#[local] Hint Resolve held_captcha_gate held_blocklist_gate held_geoip_gate held_policy_gate : held.

Lemma held_create_transfer d0 p rq :
  preserves (held d0) (p ← lift (CreateTransferRequest.validate p); Public.create_transfer p rq).
Proof.
  apply held_lift_bind. intros p' Hp. unfold Public.create_transfer. hold.
  revert Hp. unfold CreateTransferRequest.validate.
  destruct (_ && _) eqn:E; [|done]. intros [= <-] m Hm. simpl in Hm.
  rewrite !andb_true_iff in E. destruct E as [[[[[_ E] _] _] _] _]. rewrite Hm in E. simpl in E. lia.
Qed.

Lemma held_download_file d0 a b c : preserves (held d0) (Public.download_file a b c).
Proof. hold. Qed.

Lemma held_download_zip d0 a b : preserves (held d0) (Public.download_zip a b).
Proof. hold. Qed.

Lemma held_tus_patch d0 i j rq b : preserves (held d0) (Public.tus_patch i j rq b).
Proof. hold. Qed.

Lemma held_sender_delete d0 t rq : preserves (held d0) (Public.sender_delete t rq).
Proof. hold. Qed.

Lemma held_sender_revoke d0 t rq : preserves (held d0) (Public.sender_revoke t rq).
Proof. hold. Qed.

End public_held.

(** ** The worker *)

Section worker_held.
Context {X : Services} {C : Config}.
Import Legal.

Lemma held_email_job d0 job : preserves (held d0) (Email.process_email_job job).
Proof. hold. Qed.

Lemma held_cleanup d0 : preserves (held d0) Cleanup.run_cleanup_once.
Proof. hold. Qed.

Lemma held_missing_files d0 i fs : preserves (held d0) (Defender.missing_files i fs).
Proof. induction fs as [|f fs IH]; simpl; repeat first [exact IH | held_step]. Qed.
#[local] Hint Resolve held_missing_files : held.

Lemma held_defender d0 : preserves (held d0) Defender.run_defender_poll_once.
Proof. hold. Qed.

(** The [try] block knows the transfer; the [except] block reads it again after
    its rollback. *)
Lemma held_encrypt_all d0 mk t files :
  transfer_in d0 (Transfer.id t) → preserves (held d0) (Encrypt.encrypt_all mk t files).
Proof. hold. Qed.

Lemma held_rollback : preserves (held empty_db) rollback.
Proof. intros w [H1 H2 H3]. apply wp_rollback. apply (held_nothing (World.db w)). by split. Qed.
#[local] Hint Resolve held_rollback : held.

Lemma held_encrypt_failed i e : preserves (held empty_db) (Encrypt.encrypt_failed i e).
Proof. hold. Qed.

Lemma held_encrypt_locked mk i : preserves (held empty_db) (Encrypt.encrypt_locked mk i).
Proof.
  intros w Hw. unfold Encrypt.encrypt_locked. do 2 wp_step.
  destruct (DB.transfers (World.sess w) !! i) as [t|] eqn:Ht; [|by wp_step].
  destruct (negb _); [by wp_step|]. do 2 wp_step. revert Hw.
  generalize (Tus.files_of i (World.sess w)). intros files Hw.
  assert (H1 : held (World.sess w) w) by (split; [apply Hw..|done]).
  apply wp_try_finally, wp_try_except. eapply wp_mono.
  { apply (held_encrypt_all (World.sess w)); [|exact H1].
    eapply transfer_key; [apply Hw|done]. }
  intros [[]|e] w1 Hw1.
  - eapply wp_mono; [apply (held_outside empty_db); [unfold outside; foot|by eapply held_nothing]|]. done.
  - eapply wp_mono; [by apply held_encrypt_failed, (held_nothing _ _ Hw1)|]. intros r w2 Hw2.
    eapply wp_mono; [apply (held_outside empty_db); [unfold outside; foot|exact Hw2]|]. done.
Qed.
#[local] Hint Resolve held_encrypt_locked : held.

Lemma held_encrypt_job mk i : preserves (held empty_db) (Encrypt.process_encrypt_job mk i).
Proof. hold. Qed.

End worker_held.

(** ** The administrators *)

Section admin_held.
Context {X : Services} {C : Config}.
Import Legal.

Lemma held_login d0 p : preserves (held d0) (p ← lift (LoginRequest.validate p); AdminAuth.login p).
Proof. hold. all: apply held_update_admin; intros ?;
  unfold AuthService.register_failure; by repeat case_match. Qed.

Lemma held_admin_delete_transfer d0 i rq : preserves (held d0) (AdminTransfers.admin_delete_transfer i rq).
Proof. hold. Qed.

Lemma held_admin_revoke_transfer d0 i rq : preserves (held d0) (AdminTransfers.admin_revoke_transfer i rq).
Proof. hold. Qed.

Lemma held_blocklist_add d0 k p rq : preserves (held d0) (AdminBlocklist.admin_blocklist_add k p rq).
Proof. hold. Qed.

Lemma held_blocklist_delete d0 k v rq : preserves (held d0) (AdminBlocklist.admin_blocklist_delete k v rq).
Proof. hold. Qed.

Lemma held_patch_settings d0 b rq : preserves (held d0) (AdminSettings.admin_patch_settings b rq).
Proof. hold. Qed.

Lemma held_add_extension d0 p rq : preserves (held d0) (AdminSettings.admin_add_extension p rq).
Proof. hold. Qed.

Lemma held_remove_extension d0 e rq : preserves (held d0) (AdminSettings.admin_remove_extension e rq).
Proof. hold. Qed.

Lemma held_audit_csv d0 rq e s a b : preserves (held d0) (AdminLogs.admin_audit_csv rq e s a b).
Proof. hold. Qed.

Lemma held_create_admin d0 p rq :
  preserves (held d0) (p ← lift (AdminUsers.validate_create p); AdminUsers.admin_create_admin p rq).
Proof.
  apply held_lift_bind. intros p' Hp. hold. revert Hp. unfold AdminUsers.validate_create.
  destruct (_ && _) eqn:E; [|done]. intros [= <-]. by apply andb_true_iff in E as [_ E].
Qed.

Lemma held_update_users d0 i p rq :
  preserves (held d0) (p ← lift (AdminUsers.validate_update p); AdminUsers.admin_update_admin i p rq).
Proof.
  apply held_lift_bind. intros p' Hp. hold. all: apply held_update_admin; intros b; split; [done|]; split; [done|].
  all: revert Hp; unfold AdminUsers.validate_update, Paging.when; simpl.
  all: destruct (AdminUsers.ur_role p) as [r|] eqn:E; [destruct (AdminUsers.is_role r) eqn:Er; [|done]|].
  all: intros [= <-]; rewrite E; simpl; auto.
Qed.

Lemma held_reset_totp d0 i rq : preserves (held d0) (AdminUsers.admin_reset_totp i rq).
Proof. hold. Qed.

Lemma held_update_telegram d0 p rq :
  preserves (held d0) (p ← lift (AdminTelegram.validate_update p); AdminTelegram.admin_update_telegram p rq).
Proof. hold. Qed.

(** The rows that name the account lose it together with the row. *)
Lemma held_delete_row i : preserves (held empty_db) (AdminUsers.delete_admin_row i).
Proof.
  intros w [H1 H2 H3]. unfold AdminUsers.delete_admin_row. do 2 wp_step.
  destruct (existsb _ _) eqn:E; wp_step; [done|]. split; [done|by apply legal_delete_admin|].
  split; intros j [x Hx]; simpl in Hx; by rewrite lookup_empty in Hx.
Qed.

Lemma held_delete_admin i rq : preserves (held empty_db) (AdminUsers.admin_delete_admin i rq).
Proof.
  intros w Hw. unfold AdminUsers.admin_delete_admin. wp_step.
  eapply wp_mono; [apply wp_and; [apply wp_require_admin_role|apply (held_outside empty_db)]|].
  { unfold outside. foot. }
  { exact Hw. }
  intros [ctx|e] w1 [(Ha & Hs & _) H1]; [|done]. do 2 wp_step.
  destruct (DB.admins (World.sess w1) !! i) as [a|]; [|by wp_step]. do 2 wp_step.
  destruct (_ && _); [by wp_step|].
  assert (Hc : admin_in (World.sess w1) (Admin.id ctx)).
  { destruct Hs as [(_ & ? & ? & ? & _ & _ & Hs & _) _]. eapply admin_read; [apply H1|].
    rewrite (Ha PAdmins ltac:(part_notin) : DB.admins _ = _). exact Hs. }
  unfold AdminUsers.admin_action. wp_step.
  eapply wp_mono; [apply (held_record (World.sess w1)); [exact Hc|split; [apply H1..|done]]|].
  intros [[]|e] w2 H2; [|by eapply held_nothing]. apply held_nothing in H2. revert w2 H2.
  apply preserves_bind; [apply held_delete_row|]. hold.
Qed.

Lemma held_rewrap_transfers d0 n c p acc : preserves (held d0) (Rotation.rewrap_transfers n c p acc).
Proof.
  revert d0 acc. induction n as [|n IH]; intros d0 acc; simpl; [hold|].
  repeat first [apply IH | held_step].
Qed.
#[local] Hint Resolve held_rewrap_transfers : held.

Lemma held_crypto_rewrap d0 rq : preserves (held d0) (Rotation.admin_crypto_rewrap rq).
Proof. hold. Qed.

End admin_held.

(** * Every state of the system *)

Section integrity.
Context {X : Services} {C : Config}.
Import Schema Migrations Metadata Rows Constraints Legal.

Definition lawful {A} (m : M A) : Prop := preserves (committed Legal) m.

Lemma lawful_session {A} (m : M A) : preserves (held empty_db) m → lawful (with_session m).
Proof.
  intros Hm. apply committed_session. intros w HL Hs. eapply wp_mono; [apply Hm|].
  - apply (held_nothing (World.sess w)). split; [done|by rewrite Hs|done].
  - intros r w'. apply held_db.
Qed.

Lemma lawful_foot {A} (m : M A) : touches outside m → lawful m.
Proof. intros. apply (committed_foot _ outside); [done|part_notin]. Qed.

Lemma lawful_then {A B} (m : M A) (k : M B) : lawful m → lawful k → lawful (m;; k).
Proof. intros. by apply preserves_bind. Qed.

Lemma lawful_upload_job k job : lawful (WorkerMain._handle_upload k job).
Proof.
  unfold WorkerMain._handle_upload. repeat case_match; try apply preserves_raise.
  apply lawful_session, held_encrypt_job.
Qed.

Lemma held_admin_get q rq : preserves (held empty_db) (System.admin_get q rq).
Proof. apply held_outside. eapply touches_weaken; [apply touches_admin_get|]. part_sub. Qed.

Lemma lawful_rotate old_file new_file : lawful (Rotation.rotate_main old_file new_file).
Proof.
  unfold Rotation.rotate_main. apply held_lift_bind. intros o _. apply held_lift_bind. intros n _.
  case_decide; [apply preserves_ret|].
  apply lawful_then; [apply lawful_session; unfold Rotation.rewrap_all|].
  { hold. apply held_rewrap_transfers. }
  apply lawful_then; [apply lawful_session; hold|apply preserves_ret].
Qed.

Lemma lawful_create_admin k e p r : lawful (AdminUsers.create_admin_cli k e p r).
Proof.
  unfold AdminUsers.create_admin_cli. destruct (AdminUsers.is_role r) eqn:E; [|apply preserves_ret].
  apply lawful_session. hold. exact E.
Qed.

#[local] Hint Resolve held_create_transfer held_login held_tus_patch held_download_file
  held_download_zip held_sender_delete held_sender_revoke held_admin_delete_transfer
  held_admin_revoke_transfer held_blocklist_add held_blocklist_delete held_patch_settings
  held_add_extension held_remove_extension held_audit_csv held_create_admin held_update_users
  held_reset_totp held_delete_admin held_update_telegram held_crypto_rewrap held_email_job held_cleanup
  held_defender held_admin_get : held.

Lemma lawful_handle e : lawful (System.handle e).
Proof.
  destruct e; cbn [System.handle]; unfold System.request, System.ignore.
  all: try (apply lawful_then; [|apply preserves_ret]); try apply lawful_session.
  all: try solve [auto 2 with held].
  all: try solve [hold].
  - apply lawful_foot. unfold outside. foot.
  - apply preserves_bind; [apply lawful_foot; unfold outside; foot|]. intros k.
    apply committed_consumer_turn. intros job. apply lawful_upload_job.
  - apply committed_consumer_turn. intros job. apply lawful_session, held_email_job.
  - unfold WorkerMain._cleanup_tick. apply preserves_bind.
    + apply preserves_try_except; [|intros; apply preserves_ret].
      apply lawful_then; [apply lawful_session, held_cleanup|apply preserves_ret].
    + intros [|]; [|apply preserves_ret]. apply lawful_foot. unfold outside. foot.
  - apply preserves_suppress, lawful_then; [apply lawful_session, held_defender|apply preserves_ret].
  - apply lawful_rotate.
  - unfold Rotation.wrap_totp_main. apply held_lift_bind. intros k _. apply lawful_session. hold.
  - apply lawful_create_admin.
Qed.

Lemma legal_reachable w0 w : Legal (World.db w0) → rtc System.step w0 w → Legal (World.db w).
Proof.
  intros H0 Hr. induction Hr as [|w w1 w2 [e ->] Hr IH]; [done|]. by apply IH, lawful_handle.
Qed.

(** ** From the rows to the constraints of the schema *)

Lemma in_rows {K V} `{Countable K} (m : gmap K V) v : v ∈ (map_to_list m).*2 ↔ ∃ k, m !! k = Some v.
Proof.
  rewrite list_elem_of_fmap. split.
  - intros ([k v'] & -> & Hk). apply elem_of_map_to_list in Hk. eauto.
  - intros [k Hk]. exists (k, v). by rewrite elem_of_map_to_list.
Qed.

Lemma row_column {K V B} `{Countable K} (f : V → B) (m : gmap K V) x :
  x ∈ f <$> (map_to_list m).*2 → ∃ k v, m !! k = Some v ∧ x = f v.
Proof. intros (v & -> & [k Hk]%in_rows)%list_elem_of_fmap. eauto. Qed.

Lemma nullable {A} (f : A → option uuid) (P : uuid → Prop) l i :
  (∀ x, x ∈ l → ref_ok P (f x)) → i ∈ present (f <$> l) → P i.
Proof. intros Hl (x & Hx & Hin)%elem_of_present%list_elem_of_fmap. by eapply Hl. Qed.

Lemma nullable_rows {K V} `{Countable K} (f : V → option uuid) (P : uuid → Prop) (m : gmap K V) i :
  (∀ k v, m !! k = Some v → ref_ok P (f v)) → i ∈ present (f <$> (map_to_list m).*2) → P i.
Proof. intros Hm. apply nullable. intros v [k Hk]%in_rows. by eapply Hm. Qed.

Lemma references_hold d r i :
  Legal d → r ∈ foreign_keys migrated → i ∈ refs r d → has_row (fk_target r) i d.
Proof.
  intros [L1 L2 L3 L4 L5 L6 L7 L8 L9]. rewrite foreign_keys_migrated. 
  rewrite Forall_forall in L4. rewrite Forall_forall in L5. rewrite Forall_forall in L6.
  unfold admin_references, other_references. rewrite !elem_of_app, !elem_of_cons, !elem_of_nil.
  intros [[->|[->|[->|[->|[->|[->|[]]]]]]]|[->|[->|[->|[->|[->|[]]]]]]].
  - exact (nullable_rows Setting.updated_by (admin_in d) _ i L9).
  - refine (nullable AuditLog.admin_id (admin_in d) _ i _). intros x Hx. apply (L5 x Hx).
  - refine (nullable AdminAction.admin_id (admin_in d) _ i _). intros x Hx. apply (L6 x Hx).
  - exact (nullable_rows Blocklist.added_by (admin_in d) _ i (L8 AdminBlocklist.Domains)).
  - exact (nullable_rows Blocklist.added_by (admin_in d) _ i (L8 AdminBlocklist.Emails)).
  - exact (nullable_rows Blocklist.added_by (admin_in d) _ i (L8 AdminBlocklist.Ips)).
  - refine (nullable AuditLog.transfer_id (transfer_in d) _ i _). intros x Hx. apply (L5 x Hx).
  - intros Hi. destruct (row_column TransferFile.transfer_id (DB.files d) i Hi) as (j & f & Hf & ->).
    apply (L2 j f Hf).
  - intros Hi. destruct (row_column TransferRecipient.transfer_id (DB.recipients d) i Hi)
      as (j & x & Hx & ->). apply (L3 j x Hx).
  - refine (nullable Download.file_id (file_in d) _ i _). intros x Hx. apply (L4 x Hx).
  - intros (x & -> & Hx)%(list_elem_of_fmap Download.transfer_id). apply (L4 x Hx).
Qed.

(** Distinct rows have distinct values in a column. *)
Lemma column_NoDup {V B} (f : V → B) (m : gmap uuid V) :
  (∀ i j v v', m !! i = Some v → m !! j = Some v' → f v = f v' → i = j) →
  NoDup (f <$> (map_to_list m).*2).
Proof.
  intros Hf. rewrite <- list_fmap_compose. apply NoDup_fmap_2_strong; [|apply NoDup_map_to_list].
  intros [i v] [j v'] Hi%elem_of_map_to_list Hj%elem_of_map_to_list He. simpl in He.
  assert (i = j) as -> by eauto. congruence.
Qed.

Lemma checks_migrated : checks migrated ≡ₚ check_meanings.*1.
Proof. apply (bool_decide_unpack _). vm_compute. exact I. Qed.

Lemma uniques_migrated : uniques migrated ≡ₚ unique_meanings.*1.
Proof. apply (bool_decide_unpack _). vm_compute. exact I. Qed.

Lemma status_listed s : status_str s ∈ u <$> TRANSFER_STATUSES.
Proof. destruct s; apply (bool_decide_unpack _); vm_compute; exact I. Qed.

Lemma role_listed r : AdminUsers.is_role r = true → r ∈ u <$> ["admin"; "viewer"]%string.
Proof. intros [->%bool_decide_eq_true_1| ->%bool_decide_eq_true_1]%orb_true_iff; [left|right; left]. Qed.

Lemma checks_hold d c : Legal d → c ∈ checks migrated → check_holds c d.
Proof.
  intros [[L1 _] L2 L3 L4 L5 L6 [L7 _] L8 L9]. rewrite checks_migrated.
  unfold check_meanings. cbn [fmap list_fmap fst]. rewrite !elem_of_cons, elem_of_nil.
  intros [->|[->|[->|[->|[]]]]].
  - apply Forall_forall. intros s (t & -> & _)%list_elem_of_fmap.
    apply status_listed.
  - apply Forall_forall. intros m (t & [k Hk]%in_rows & Ht)%list_elem_of_omap.
    destruct (L1 k t Hk) as [_ H]. by apply H.
  - apply Forall_forall. intros s (k & a & Hk & ->)%row_column. destruct (L7 k a Hk) as [_ H].
    by apply role_listed.
  - apply Forall_forall. intros s (x & -> & Hx)%list_elem_of_fmap. rewrite Forall_forall in L5.
    by destruct (L5 x Hx) as (_ & _ & H & _).
Qed.

Lemma uniques_hold d c : Legal d → c ∈ uniques migrated → unique_holds c d.
Proof.
  intros [[_ L1] L2 L3 L4 L5 L6 [_ L7] L8 L9]. rewrite uniques_migrated.
  unfold unique_meanings. cbn [fmap list_fmap fst]. rewrite !elem_of_cons, elem_of_nil.
  intros [->|[->|[->|[]]]].
  - apply (column_NoDup Transfer.token). intros i j t t' Hi Hj He. apply (L1 i j t t'); auto.
  - apply (column_NoDup Transfer.manage_token). intros i j t t' Hi Hj He. apply (L1 i j t t'); auto.
  - apply (column_NoDup (lower ∘ Admin.email)). intros i j a b. apply L7.
Qed.

(** The tables as the migrations leave them. *)
Lemma legal_installed t d : Seeds.upgrade t empty_db = Ok d → Legal d.
Proof.
  unfold empty_db. rewrite upgrade_run. intros [= <-].
  assert (Hs : ∀ k r, seeded t !! k = Some r → Setting.updated_by r = None).
  { intros k r Hk%elem_of_list_to_map_2. by apply list_elem_of_fmap in Hk as (? & [= _ ->] & _). }
  revert Hs. generalize (seeded t). intros m Hm. split; try done.
  - by intros [].
  - intros k r Hr i. simpl in Hr. by rewrite (Hm k r Hr).
Qed.

(** C4: the constraints of the database hold.  Start from the tables the
    migrations create and run any requests, jobs, ticks and scripts, whichever
    services fail.  Then every foreign key of the migrated schema is satisfied:
    an id in a column that refers to a table is the id of one of its rows; every
    CHECK of the schema holds of the rows: statuses, roles, severities and the
    length of messages; and the columns declared UNIQUE hold no value twice, the
    e-mails of accounts without regard to case.  So no statement of the code
    relies on PostgreSQL to refuse a row.  The audit log holds only the types of
    event listed in [events]: the counters of the admin report for blocked rate
    limits and its timeline of infections, which look for two other types, stay
    empty. *)
Theorem constraints_hold t w0 w :
  Seeds.upgrade t empty_db = Ok (World.db w0) → rtc System.step w0 w →
  (∀ r i, r ∈ foreign_keys migrated → i ∈ refs r (World.db w) → has_row (fk_target r) i (World.db w)) ∧
  (∀ c, c ∈ checks migrated → check_holds c (World.db w)) ∧
  (∀ c, c ∈ uniques migrated → unique_holds c (World.db w)) ∧
  (∀ r, r ∈ DB.audit_log (World.db w) → AuditLog.event_type r ∈ events) ∧
  ∀ since, Analytics.audit_of (u "rate_limit_blocked") since (World.db w) = [] ∧
           Analytics.audit_of (u "infected") since (World.db w) = [].
Proof.
  intros H0 Hr. pose proof (legal_reachable w0 w (legal_installed t _ H0) Hr) as L.
  pose proof (legal_audit _ L) as Ha. rewrite Forall_forall in Ha.
  split; [intros; by apply references_hold|]. split; [intros; by apply checks_hold|].
  split; [intros; by apply uniques_hold|]. split; [intros r Hr'; by apply (Ha r Hr')|].
  assert (Hno : ∀ e since, bool_decide (e ∈ events) = false → Analytics.audit_of e since (World.db w) = []).
  { intros e since He%bool_decide_eq_false_1. unfold Analytics.audit_of.
    destruct (filter _ _) as [|r l] eqn:E; [done|]. destruct He.
    assert (Hin : r ∈ filter (λ r, AuditLog.event_type r = e ∧ since ≤ AuditLog.ts r)
      (DB.audit_log (World.db w))) by (rewrite E; left).
    apply list_elem_of_filter in Hin as [[<- _] Hin]. by apply (Ha r Hin). }
  intros since. split; by apply Hno.
Qed.

End integrity.

(** ** Witness *)

Section integrity_witness.
Import Rows SystemDemo.
#[local] Instance demo_services : Services := Sim.calm.
#[local] Instance demo_config : Config := Demo.config.

Definition demo_reference : reference := mkReference "transfer_files" "transfer_id" "transfers" Schema.CASCADE.

Definition demo_end : World := after e3 (after e2 (after e1 seeded_world)).

Lemma demo_reference_declared : demo_reference ∈ foreign_keys Migrations.migrated.
Proof. rewrite foreign_keys_migrated. apply (bool_decide_unpack _). vm_compute. exact I. Qed.

Lemma demo_reference_used : refs demo_reference (World.db demo_end) = [9].
Proof. vm_compute. reflexivity. Qed.

Lemma constraints_hold_witness :
  refs demo_reference (World.db demo_end) = [9] ∧ has_row "transfers" 9 (World.db demo_end).
Proof.
  split; [exact demo_reference_used|].
  assert (Hr : rtc System.step seeded_world demo_end).
  { eapply rtc_l; [apply (after_step e1)|]. eapply rtc_l; [apply (after_step e2)|].
    apply rtc_once, (after_step e3). }
  pose proof (upgrade_run 0 ∅ ∅ ∅ [] [] [] ∅ ∅ ∅ ∅) as Hu.
  destruct (constraints_hold 0 seeded_world demo_end Hu Hr) as (H & _).
  assert (Hin : 9 ∈ refs demo_reference (World.db demo_end)) by (rewrite demo_reference_used; left).
  exact (H demo_reference 9 demo_reference_declared Hin).
Defined.

End integrity_witness.
